(** * canvassync.py: the local reconciliation engine, embedded in Rocq

    The development follows [canvassync.py]: string helpers, the parts of
    [os.path], [os], [shutil], [filecmp] and [tempfile] the script calls
    (over an explicit file-system state), the HTTP session as a function from
    URLs to responses, and then the script's own functions with the [Course]
    object's fields threaded as a state record. *)

From Stdlib Require Import ZArith List Bool Ascii String Lia.
From stdpp Require Import base option list strings pretty gmap.

Set Default Proof Using "Type".

(** ** Strings *)

Module Str.

(** [str.lower()]. Python lowers a string by the case tables of Unicode.
    The script needs it as a function from names to names, and what is
    proved about the script holds whichever function it is, so it is a
    parameter of the development. *)
Class Lowering : Type := lower : string -> string.

(** [str.lower()] on text of the ASCII range, where it turns ['A'] to
    ['Z'] into ['a'] to ['z'] and leaves every other character. *)
Definition lower_ascii (c : ascii) : ascii :=
  let n := nat_of_ascii c in
  if (65 <=? n)%nat && (n <=? 90)%nat then ascii_of_nat (n + 32) else c.

Fixpoint ascii_lower (s : string) : string :=
  match s with
  | EmptyString => EmptyString
  | String c r => String (lower_ascii c) (ascii_lower r)
  end.

(** [s.rfind(c)] for a one-character needle: the last index, or -1. *)
Fixpoint rfind_nat (c : ascii) (s : string) : option nat :=
  match s with
  | EmptyString => None
  | String a r =>
      match rfind_nat c r with
      | Some i => Some (S i)
      | None => if Ascii.eqb a c then Some O else None
      end
  end.

Definition rfind (c : ascii) (s : string) : Z :=
  match rfind_nat c s with
  | Some i => Z.of_nat i
  | None => (-1)%Z
  end.

Fixpoint take (n : nat) (s : string) : string :=
  match n, s with
  | S k, String a r => String a (take k r)
  | _, _ => EmptyString
  end.

Fixpoint drop (n : nat) (s : string) : string :=
  match n, s with
  | S k, String _ r => drop k r
  | _, _ => s
  end.

(** [s[:pos]] and [s[pos:]] for a position that is not negative. *)
Definition slice_to (pos : Z) (s : string) : string := take (Z.to_nat pos) s.
Definition slice_from (pos : Z) (s : string) : string := drop (Z.to_nat pos) s.

Fixpoint startswith (p s : string) : bool :=
  match p, s with
  | EmptyString, _ => true
  | String a p', String b s' => Ascii.eqb a b && startswith p' s'
  | String _ _, EmptyString => false
  end.

(** [s.endswith(c)] for a one-character suffix. *)
Fixpoint endswith_char (c : ascii) (s : string) : bool :=
  match s with
  | EmptyString => false
  | String a EmptyString => Ascii.eqb a c
  | String _ r => endswith_char c r
  end.

(** [s.replace(a, b)] for one-character [a] and [b]. *)
Fixpoint replace_char (a b : ascii) (s : string) : string :=
  match s with
  | EmptyString => EmptyString
  | String c r => String (if Ascii.eqb c a then b else c) (replace_char a b r)
  end.

Fixpoint contains_char (c : ascii) (s : string) : bool :=
  match s with
  | EmptyString => false
  | String a r => Ascii.eqb a c || contains_char c r
  end.

(** [s.split(c)]: the fields between the occurrences of [c]. *)
Fixpoint split_char (c : ascii) (s : string) : list string :=
  match s with
  | EmptyString => [EmptyString]
  | String a r =>
      if Ascii.eqb a c then EmptyString :: split_char c r
      else match split_char c r with
           | f :: fs => String a f :: fs
           | [] => [String a EmptyString]
           end
  end.

(** [s.rstrip(c)]. *)
Fixpoint rstrip_char (c : ascii) (s : string) : string :=
  match s with
  | EmptyString => EmptyString
  | String a r =>
      match rstrip_char c r with
      | EmptyString => if Ascii.eqb a c then EmptyString else String a EmptyString
      | r' => String a r'
      end
  end.

(** [c * n]. *)
Fixpoint repeat_char (c : ascii) (n : nat) : string :=
  match n with
  | O => EmptyString
  | S k => String c (repeat_char c k)
  end.

End Str.

(** ** [os.path] (the POSIX flavour) *)

Module OsPath.

Definition sep : ascii := "/"%char.

(** [os.path.join(a, b)]. *)
Definition join (a b : string) : string :=
  if Str.startswith "/" b then b
  else if String.eqb a "" || Str.endswith_char sep a then a +:+ b
  else a +:+ "/" +:+ b.

(** [head != sep * len(head)]: some character of [head] is not a separator. *)
Fixpoint all_sep (s : string) : bool :=
  match s with
  | EmptyString => true
  | String a r => Ascii.eqb a sep && all_sep r
  end.

(** [os.path.split(p)]. *)
Definition split (p : string) : string * string :=
  let i := (Str.rfind sep p + 1)%Z in
  let head := Str.slice_to i p in
  let tail := Str.slice_from i p in
  let head := if negb (String.eqb head "") && negb (all_sep head)
              then Str.rstrip_char sep head else head in
  (head, tail).

(** The loop of [os.path.normpath] over the fields of the path; [acc] is
    [new_comps], last component first. *)
Fixpoint norm_loop (initial_slashes : bool) (comps acc : list string) : list string :=
  match comps with
  | [] => rev acc
  | comp :: rest =>
      if String.eqb comp "" || String.eqb comp "." then norm_loop initial_slashes rest acc
      else if negb (String.eqb comp "..")
              || (negb initial_slashes && match acc with [] => true | _ => false end)
              || match acc with last :: _ => String.eqb last ".." | [] => false end
      then norm_loop initial_slashes rest (comp :: acc)
      else norm_loop initial_slashes rest (tl acc)
  end.

Definition norm_comps (path : string) : list string :=
  norm_loop (Str.startswith "/" path) (Str.split_char sep path) [].

Fixpoint join_comps (comps : list string) : string :=
  match comps with
  | [] => ""
  | [c] => c
  | c :: rest => c +:+ "/" +:+ join_comps rest
  end.

(** POSIX keeps exactly two leading slashes and folds one or three and more
    into one. *)
Definition initial_slashes (path : string) : string :=
  if Str.startswith "/" path then
    if Str.startswith "//" path && negb (Str.startswith "///" path) then "//" else "/"
  else "".

(** [os.path.normpath(path)]. *)
Definition normpath (path : string) : string :=
  let p := initial_slashes path +:+ join_comps (norm_comps path) in
  if String.eqb p "" then "." else p.

End OsPath.

(** ** Exceptions and results *)

Inductive exn : Type :=
| KeyError
| FileNotFoundError
| FileExistsError
| IsADirectoryError
| NotADirectoryError
| HTTPError (status : Z)
| ConnectionError (msg name : string).

(** A call on the file system either returns a value or raises, and leaves
    the tree as it was when it raises. *)
Inductive result (A : Type) : Type :=
| Ok (a : A)
| Raise (e : exn).
Arguments Ok {A} a.
Arguments Raise {A} e.

(** ** The file system

    A tree of directories and regular files, kept as the list of its
    entries, each under the list of names that leads to it from the root;
    the order of the list is the order in which a directory lists its
    entries. Times are in microseconds since the epoch. There are no links,
    and the working directory is the root. *)

Module Os.

Inductive node : Type :=
| File (data : string) (mtime : Z)
| Dir.

Abbreviation key := (list string).
Abbreviation tree := (list (list string * node)).

(** A path names the entry its normalised components lead to. *)
Definition resolve (path : string) : key := OsPath.norm_comps path.

Definition key_eqb (a b : key) : bool := bool_decide (a = b).

Fixpoint lookup_key (k : key) (t : tree) : option node :=
  match t with
  | [] => None
  | (k', n) :: rest => if key_eqb k' k then Some n else lookup_key k rest
  end.

(** The root is a directory that is always there. *)
Definition stat (k : key) (t : tree) : option node :=
  match k with
  | [] => Some Dir
  | _ => lookup_key k t
  end.

Definition isfile (path : string) (t : tree) : bool :=
  match stat (resolve path) t with Some (File _ _) => true | _ => false end.

Definition isdir (path : string) (t : tree) : bool :=
  match stat (resolve path) t with Some Dir => true | _ => false end.

Definition exists_ (path : string) (t : tree) : bool :=
  match stat (resolve path) t with Some _ => true | None => false end.

(** [os.path.getmtime], which the script calls on regular files only. *)
Definition getmtime (path : string) (t : tree) : result Z :=
  match stat (resolve path) t with
  | Some (File _ m) => Ok m
  | _ => Raise FileNotFoundError
  end.

Fixpoint strip_prefix (p k : key) : option key :=
  match p, k with
  | [], _ => Some k
  | a :: p', b :: k' => if String.eqb a b then strip_prefix p' k' else None
  | _ :: _, [] => None
  end.

(** The name of [k] inside the directory [d], when [k] is an entry of it. *)
Definition child_name (d k : key) : option string :=
  match strip_prefix d k with
  | Some [name] => Some name
  | _ => None
  end.

Definition children (d : key) (t : tree) : list (string * node) :=
  omap (fun e : key * node => (fun name => (name, e.2)) <$> child_name d e.1) t.

Definition listdir (path : string) (t : tree) : result (list string) :=
  match stat (resolve path) t with
  | Some Dir => Ok (fst <$> children (resolve path) t)
  | Some (File _ _) => Raise NotADirectoryError
  | None => Raise FileNotFoundError
  end.

(** [os.scandir(path)]: the entries with what they are. *)
Definition scandir (path : string) (t : tree) : result (list (string * node)) :=
  match stat (resolve path) t with
  | Some Dir => Ok (children (resolve path) t)
  | Some (File _ _) => Raise NotADirectoryError
  | None => Raise FileNotFoundError
  end.

Definition is_dir_entry (e : string * node) : bool :=
  match e.2 with Dir => true | File _ _ => false end.

(** Replaces the entry under [k], or appends a new one. *)
Fixpoint put (k : key) (n : node) (t : tree) : tree :=
  match t with
  | [] => [(k, n)]
  | (k', n') :: rest => if key_eqb k' k then (k, n) :: rest else (k', n') :: put k n rest
  end.

Definition delete_key (k : key) (t : tree) : tree :=
  filter (fun e : key * node => e.1 <> k) t.

Definition under (d k : key) : bool :=
  match strip_prefix d k with Some _ => true | None => false end.

Definition delete_tree (d : key) (t : tree) : tree :=
  filter (fun e : key * node => under d e.1 = false) t.

Definition parent (k : key) : key := removelast k.

(** Every entry lies in a directory of the tree. *)
Definition wf (t : tree) : Prop :=
  forall k n, lookup_key k t = Some n -> stat (parent k) t = Some Dir.

(** [open(path, 'w')], the write of [data] and the close, at time [now]. *)
Definition write (path data : string) (now : Z) (t : tree) : result tree :=
  let k := resolve path in
  match stat k t with
  | Some Dir => Raise IsADirectoryError
  | _ =>
      match stat (parent k) t with
      | Some Dir => Ok (put k (File data now) t)
      | Some (File _ _) => Raise NotADirectoryError
      | None => Raise FileNotFoundError
      end
  end.

(** [Path(path).touch()]. *)
Definition touch (path : string) (now : Z) (t : tree) : result tree :=
  let k := resolve path in
  match stat k t with
  | Some (File d _) => Ok (put k (File d now) t)
  | Some Dir => Ok t
  | None =>
      match stat (parent k) t with
      | Some Dir => Ok (put k (File "" now) t)
      | Some (File _ _) => Raise NotADirectoryError
      | None => Raise FileNotFoundError
      end
  end.

(** [os.utime(path, (m, m))]. *)
Definition utime (path : string) (m : Z) (t : tree) : result tree :=
  let k := resolve path in
  match stat k t with
  | Some (File d _) => Ok (put k (File d m) t)
  | Some Dir => Ok t
  | None => Raise FileNotFoundError
  end.

(** [os.remove(path)]. *)
Definition remove (path : string) (t : tree) : result tree :=
  let k := resolve path in
  match stat k t with
  | Some (File _ _) => Ok (delete_key k t)
  | Some Dir => Raise IsADirectoryError
  | None => Raise FileNotFoundError
  end.

(** [shutil.rmtree(path)]. *)
Definition rmtree (path : string) (t : tree) : result tree :=
  let k := resolve path in
  match stat k t with
  | Some Dir => Ok (delete_tree k t)
  | Some (File _ _) => Raise NotADirectoryError
  | None => Raise FileNotFoundError
  end.

(** The directories [os.makedirs] goes through: every prefix of the key. *)
Fixpoint prefixes (k : key) : list key :=
  match k with
  | [] => []
  | a :: k' => [a] :: map (cons a) (prefixes k')
  end.

Fixpoint mkdirs (ks : list key) (t : tree) : result tree :=
  match ks with
  | [] => Ok t
  | k :: rest =>
      match stat k t with
      | Some Dir => mkdirs rest t
      | Some (File _ _) => Raise NotADirectoryError
      | None => mkdirs rest (put k Dir t)
      end
  end.

(** [os.makedirs(path)], which raises when the directory is there. *)
Definition makedirs (path : string) (t : tree) : result tree :=
  match stat (resolve path) t with
  | Some _ => Raise FileExistsError
  | None => mkdirs (prefixes (resolve path)) t
  end.

End Os.

(** ** The remote side and the state of a run *)

(** A file record of the Canvas API ([file['url']], ...). [modified_at] is
    kept as the instant it denotes, in seconds since the epoch; [_time] is
    the key [_parse_file] adds to the record. *)
Record file : Type := {
  url : string;
  display_name : string;
  folder_id : Z;
  modified_at : Z;
  updated_at : string;
  _time : option Z
}.

Definition set_time (f : file) (t : Z) : file :=
  {| url := url f; display_name := display_name f; folder_id := folder_id f;
     modified_at := modified_at f; updated_at := updated_at f; _time := Some t |}.

(** The answer to [s.get(url, stream=True)] for a file's content. *)
Record response : Type := {
  status_code : Z;
  content : string
}.

(** One page of a listing: [response.json()] and [response.links]. *)
Record page (A : Type) : Type := {
  page_status : Z;
  page_next : option string;
  page_items : list A
}.
Arguments page_status {A} p.
Arguments page_next {A} p.
Arguments page_items {A} p.

(** What the script prints. *)
Inductive msg : Type :=
| Warning_ignored (name : string)
| Err_args (text name : string)
| Downloading_new_case (file_name : string)
| Found_newer (name updated : string)
| Downloading_new (file_name : string)
| Skipped_latest (file_name : string)
| Course_name (name : string)
| Creating_course (dir : string)
| Syncing
| Creating (dir : string)
| File_deleting (filename : string)
| Folder_deleting (dirname : string).

(** Where [download] writes: a path of the tree, or the file that
    [tempfile.NamedTemporaryFile] made. Temporary files get names of their
    own, so they are kept in a store of their own. *)
Inductive loc : Type :=
| Path (p : string)
| Tmp (id : nat).

(** The fields of a [Course] object together with the world it acts on. *)
Record state : Type := {
  tree : Os.tree;
  temps : gmap nat (string * Z);
  next_tmp : nat;
  clock : Z;
  out : list msg;
  folder_dict : gmap Z string;
  file_set : gset string;
  skipped : Z;
  updated : Z;
  downloaded : Z;
  errors : Z
}.

Definition set_tree (t : Os.tree) (st : state) : state :=
  {| tree := t; temps := temps st; next_tmp := next_tmp st; clock := clock st;
     out := out st; folder_dict := folder_dict st; file_set := file_set st;
     skipped := skipped st; updated := updated st; downloaded := downloaded st;
     errors := errors st |}.

Definition set_temps (m : gmap nat (string * Z)) (n : nat) (st : state) : state :=
  {| tree := tree st; temps := m; next_tmp := n; clock := clock st;
     out := out st; folder_dict := folder_dict st; file_set := file_set st;
     skipped := skipped st; updated := updated st; downloaded := downloaded st;
     errors := errors st |}.

Definition print (m : msg) (st : state) : state :=
  {| tree := tree st; temps := temps st; next_tmp := next_tmp st; clock := clock st;
     out := out st ++ [m]; folder_dict := folder_dict st; file_set := file_set st;
     skipped := skipped st; updated := updated st; downloaded := downloaded st;
     errors := errors st |}.

Definition set_folder (id : Z) (dir : string) (st : state) : state :=
  {| tree := tree st; temps := temps st; next_tmp := next_tmp st; clock := clock st;
     out := out st; folder_dict := <[id := dir]> (folder_dict st);
     file_set := file_set st;
     skipped := skipped st; updated := updated st; downloaded := downloaded st;
     errors := errors st |}.

Definition file_set_add (p : string) (st : state) : state :=
  {| tree := tree st; temps := temps st; next_tmp := next_tmp st; clock := clock st;
     out := out st; folder_dict := folder_dict st; file_set := {[p]} ∪ file_set st;
     skipped := skipped st; updated := updated st; downloaded := downloaded st;
     errors := errors st |}.

Definition incr_skipped (st : state) : state :=
  {| tree := tree st; temps := temps st; next_tmp := next_tmp st; clock := clock st;
     out := out st; folder_dict := folder_dict st; file_set := file_set st;
     skipped := (skipped st + 1)%Z; updated := updated st;
     downloaded := downloaded st; errors := errors st |}.

Definition incr_updated (st : state) : state :=
  {| tree := tree st; temps := temps st; next_tmp := next_tmp st; clock := clock st;
     out := out st; folder_dict := folder_dict st; file_set := file_set st;
     skipped := skipped st; updated := (updated st + 1)%Z;
     downloaded := downloaded st; errors := errors st |}.

Definition incr_downloaded (st : state) : state :=
  {| tree := tree st; temps := temps st; next_tmp := next_tmp st; clock := clock st;
     out := out st; folder_dict := folder_dict st; file_set := file_set st;
     skipped := skipped st; updated := updated st;
     downloaded := (downloaded st + 1)%Z; errors := errors st |}.

Definition incr_errors (st : state) : state :=
  {| tree := tree st; temps := temps st; next_tmp := next_tmp st; clock := clock st;
     out := out st; folder_dict := folder_dict st; file_set := file_set st;
     skipped := skipped st; updated := updated st; downloaded := downloaded st;
     errors := (errors st + 1)%Z |}.

(** The fields [Course.__init__] sets: empty records and counters at 0, on
    the same disk. *)
Definition new_course (st : state) : state :=
  {| tree := tree st; temps := temps st; next_tmp := next_tmp st; clock := clock st;
     out := out st; folder_dict := ∅; file_set := ∅;
     skipped := 0; updated := 0; downloaded := 0; errors := 0 |}.

(** Microseconds in the [seconds] that [datetime.timestamp()] returns. *)
Definition timestamp (seconds : Z) : Z := (seconds * 1000000)%Z.

(** ** Statements of the script

    A statement runs from a state and finishes with a value, or raises with
    the state reached so far, so that an [except] clause goes on from there.
    [OutOfFuel] belongs to the model only: the bound given to a loop of the
    script was too small. *)

Inductive outcome (A : Type) : Type :=
| Done (a : A) (st : state)
| Raised (e : exn) (st : state)
| OutOfFuel.
Arguments Done {A} a st.
Arguments Raised {A} e st.
Arguments OutOfFuel {A}.

Definition M (A : Type) : Type := state -> outcome A.

#[global] Instance M_ret : MRet M := fun A a st => Done a st.
#[global] Instance M_bind : MBind M := fun A B k m st =>
  match m st with
  | Done a st' => k a st'
  | Raised e st' => Raised e st'
  | OutOfFuel => OutOfFuel
  end.

Definition raise {A} (e : exn) : M A := fun st => Raised e st.

Definition modify (f : state -> state) : M unit := fun st => Done tt (f st).

Definition gets {A} (f : state -> A) : M A := fun st => Done (f st) st.

(** A call on the tree that returns a value. *)
Definition os_get {A} (f : Os.tree -> result A) : M A := fun st =>
  match f (tree st) with
  | Ok a => Done a st
  | Raise e => Raised e st
  end.

(** A call on the tree that changes it. *)
Definition os_do (f : Os.tree -> result Os.tree) : M unit := fun st =>
  match f (tree st) with
  | Ok t => Done tt (set_tree t st)
  | Raise e => Raised e st
  end.

(** [try: body except ConnectionError as err: handler(err)]. *)
Definition try_except_ConnectionError {A} (body : M A) (handler : string -> string -> M A)
  : M A := fun st =>
  match body st with
  | Raised (ConnectionError text name) st' => handler text name st'
  | o => o
  end.

(** [for x in xs: body(x)]. *)
Fixpoint for_each {A} (xs : list A) (body : A -> M unit) : M unit :=
  match xs with
  | [] => mret tt
  | x :: rest => body x ≫= fun _ => for_each rest body
  end.

(** *** Files by location *)

Definition stat_loc (l : loc) : M Os.node := fun st =>
  match l with
  | Path p =>
      match Os.stat (Os.resolve p) (tree st) with
      | Some n => Done n st
      | None => Raised FileNotFoundError st
      end
  | Tmp id =>
      match temps st !! id with
      | Some (d, m) => Done (Os.File d m) st
      | None => Raised FileNotFoundError st
      end
  end.

(** [with open(dest, 'w') as fd: fd.write(data)]. *)
Definition open_write (dest : loc) (data : string) : M unit := fun st =>
  match dest with
  | Path p => os_do (Os.write p data (clock st)) st
  | Tmp id => Done tt (set_temps (<[id := (data, clock st)]> (temps st)) (next_tmp st) st)
  end.

(** [Path(dest).touch()]. *)
Definition touch (dest : loc) : M unit := fun st =>
  match dest with
  | Path p => os_do (Os.touch p (clock st)) st
  | Tmp id =>
      let d := match temps st !! id with Some (d, _) => d | None => "" end in
      Done tt (set_temps (<[id := (d, clock st)]> (temps st)) (next_tmp st) st)
  end.

(** [os.utime(dest, (m, m))]. *)
Definition utime (dest : loc) (m : Z) : M unit := fun st =>
  match dest with
  | Path p => os_do (Os.utime p m) st
  | Tmp id =>
      match temps st !! id with
      | Some (d, _) => Done tt (set_temps (<[id := (d, m)]> (temps st)) (next_tmp st) st)
      | None => Raised FileNotFoundError st
      end
  end.

(** [tempfile.NamedTemporaryFile(delete=False)]: a new, empty file. *)
Definition NamedTemporaryFile : M nat := fun st =>
  let id := next_tmp st in
  Done id (set_temps (<[id := ("", clock st)]> (temps st)) (S id) st).

(** [os.remove] of a temporary file. *)
Definition remove_tmp (id : nat) : M unit := fun st =>
  match temps st !! id with
  | Some _ => Done tt (set_temps (delete id (temps st)) (next_tmp st) st)
  | None => Raised FileNotFoundError st
  end.

(** [filecmp.cmp(f1, f2)], with its default [shallow=True]: equal
    signatures (type, size, modification time) are taken for equal files,
    and the bytes are read only when the signatures differ. *)
Definition filecmp_cmp (f1 f2 : loc) : M bool :=
  n1 ← stat_loc f1;
  n2 ← stat_loc f2;
  match n1, n2 with
  | Os.File d1 m1, Os.File d2 m2 =>
      if (String.length d1 =? String.length d2)%nat && (m1 =? m2)%Z then mret true
      else if negb (String.length d1 =? String.length d2)%nat then mret false
      else mret (String.eqb d1 d2)
  | _, _ => mret false
  end.

(** [shutil.copy2(src, dst)] from a temporary file to a path that is not a
    directory: the bytes and the modification time. *)
Definition copy2 (src : nat) (dst : string) : M unit :=
  n ← stat_loc (Tmp src);
  match n with
  | Os.File d m => os_do (Os.write dst d m)
  | Os.Dir => raise IsADirectoryError
  end.

(** ** The script *)

Definition newline : string := String (ascii_of_nat 10) EmptyString.

(** [add_before_ext(file_name, end)]. *)
Definition add_before_ext (file_name end_ : string) : string :=
  let temp_name := file_name in
  let pos := Str.rfind "."%char temp_name in
  if (pos =? -1)%Z then temp_name +:+ end_
  else Str.slice_to pos temp_name +:+ end_ +:+ Str.slice_from pos temp_name.

Section Insensitive.
Context {L : Str.Lowering}.

(** The [for] loop of [getfile_insensitive] over [os.listdir(directory)]. *)
Fixpoint first_insensitive (directory filename : string) (names : list string)
  : option string :=
  match names with
  | [] => None
  | f :: rest =>
      let newpath := OsPath.join directory f in
      if String.eqb (Str.lower f) filename then Some newpath
      else first_insensitive directory filename rest
  end.

(** [getfile_insensitive(path)]; [None] is Python's [None]. *)
Definition getfile_insensitive (path : string) : M (option string) :=
  let '(directory, filename) := OsPath.split path in
  let directory := if String.eqb directory "" then "."%string else directory in
  let filename := Str.lower filename in
  names ← os_get (Os.listdir directory);
  mret (first_insensitive directory filename names).

(** [isfile_insensitive(path)]. *)
Definition isfile_insensitive (path : string) : M bool :=
  r ← getfile_insensitive path;
  mret (match r with Some _ => true | None => false end).

End Insensitive.

(** [response.raise_for_status()]: the client and server error codes raise. *)
Definition raise_for_status (status : Z) : M unit :=
  if (400 <=? status)%Z && (status <? 600)%Z then raise (HTTPError status) else mret tt.

Section Script.
Context {L : Str.Lowering}.

(** The session [s]: the content behind a download URL. *)
Variable session : string -> response.
(** [args.verbosity]. *)
Variable verbosity : Z.
(** [t.astimezone(local_timezone).strftime(time_fmt)], of an instant in seconds. *)
Variable strftime_local : Z -> string.
(** [self.course_dir]. *)
Variable course_dir : string.

(** [if args.verbosity >= level: print(m)]. *)
Definition say (level : Z) (m : msg) : M unit :=
  if (level <=? verbosity)%Z then modify (print m) else mret tt.

(** [download(file, dest, request_headers)]. *)
Definition download (file : file) (dest : loc) : M unit :=
  if String.eqb (url file) "" then
    modify (print (Warning_ignored (display_name file)))
  else if Str.startswith "URL:" (url file) then
    open_write dest ("[InternetShortcut]" +:+ newline +:+ "URL="
                     +:+ Str.slice_from 4 (url file) +:+ newline)
  else if Str.startswith "SubHeader:" (url file) then
    touch dest
  else
    let r := session (url file) in
    if (status_code r =? 200)%Z then
      open_write dest (content r);;
      match _time file with
      | Some t => utime dest (timestamp t)
      | None => raise KeyError
      end
    else raise (ConnectionError "Non-200 status code" (display_name file)).

(** [do_all_pages(req_url, headers, method_to_run, *const_args)]; [get]
    answers [s.get(req_url)], and [fuel] bounds the pages followed. *)
Fixpoint do_all_pages {A} (fuel : nat) (get : string -> page A) (req_url : string)
  (method_to_run : A -> M unit) : M unit :=
  if String.eqb req_url "" then mret tt
  else
    match fuel with
    | O => fun _ => OutOfFuel
    | S fuel' =>
        let response := get req_url in
        raise_for_status (page_status response);;
        let req_url := match page_next response with
                       | Some u => u
                       | None => ""%string
                       end in
        for_each (page_items response) method_to_run;;
        do_all_pages fuel' get req_url method_to_run
    end.

(** [Course._parse_file(self, file)]. *)
Definition _parse_file (file : file) : M unit :=
  fd ← gets folder_dict;
  file_location ← match fd !! folder_id file with
                   | Some d => mret d
                   | None => raise KeyError
                   end;
  let file_url := url file in
  let file_name := Str.replace_char "/" "-" (display_name file) in
  let file_path := OsPath.join file_location file_name in
  let file_utc := modified_at file in
  let file := set_time file file_utc in
  exact ← gets (fun st => Os.isfile file_path (tree st));
  collides ← (if exact : bool then mret false else isfile_insensitive file_path);
  if collides : bool then
    let file_name := add_before_ext file_name (" c" +:+ strftime_local file_utc) in
    let file_path := OsPath.join file_location file_name in
    say 1 (Downloading_new_case file_name);;
    ok ← try_except_ConnectionError
           (download file (Path file_path);; modify incr_downloaded;; mret true)
           (fun text name =>
              modify (print (Err_args text name));; modify incr_errors;; mret false);
    if ok : bool then modify (file_set_add file_path) else mret tt
  else
    stale ← (if exact then
                mtime ← os_get (Os.getmtime file_path);
                mret (mtime <? timestamp file_utc)%Z
              else mret false);
    if stale : bool then
      tf ← NamedTemporaryFile;
      ok ← try_except_ConnectionError
             (download file (Tmp tf);; mret true)
             (fun text name =>
                modify (print (Err_args text name));; modify incr_errors;; mret false);
      if ok : bool then
        same ← filecmp_cmp (Path file_path) (Tmp tf);
        (if same : bool then modify incr_skipped
         else
           say 1 (Found_newer (display_name file) (updated_at file));;
           modify incr_updated;;
           os_do (Os.remove file_path);;
           copy2 tf file_path);;
        remove_tmp tf;;
        modify (file_set_add file_path)
      else mret tt
    else if negb exact && negb (String.eqb file_url "") then
      say 1 (Downloading_new file_name);;
      ok ← try_except_ConnectionError
             (download file (Path file_path);; modify incr_downloaded;; mret true)
             (fun text name =>
                modify (print (Err_args text name));; modify incr_errors;; mret false);
      if ok : bool then modify (file_set_add file_path) else mret tt
    else
      say 2 (Skipped_latest file_name);;
      modify incr_skipped;;
      modify (file_set_add file_path).

(** *** Folders, modules and module items *)

Record folder : Type := { folder_ident : Z; full_name : string }.
Record module : Type := { module_ident : Z; module_name : string }.
Record moduleitem : Type := {
  item_type : string;
  item_url : string;
  item_title : string;
  item_html_url : string;
  item_position : Z;
  item_indent : Z
}.

Variable base_url : string.
Variable course_id : string.
(** The listings behind [s.get] in [do_all_pages]. *)
Variable get_folders : string -> page folder.
Variable get_files : string -> page file.
Variable get_modules : string -> page module.
Variable get_items : string -> page moduleitem.
(** [s.get(moduleitem['url'])]: the status and [r.json()]. *)
Variable get_file : string -> Z * file.
(** [t.strftime("%Y-%m-%dT%H:%M:%SZ")], of an instant in seconds. *)
Variable strftime_utc : Z -> string.

(** [Course._parse_folder(self, folder)]. *)
Definition _parse_folder (folder : folder) : M unit :=
  let folder_name := Str.slice_from 13 (full_name folder) in
  let folder_dir := OsPath.join course_dir folder_name in
  modify (set_folder (folder_ident folder) folder_dir);;
  isdir ← gets (fun st => Os.isdir folder_dir (tree st));
  if isdir : bool then mret tt
  else say 1 (Creating folder_dir);; os_do (Os.makedirs folder_dir).

(** [datetime.datetime.now(tz=utc).strftime(...)], read back by
    [_parse_file]: the clock, cut to the second. *)
Definition now_seconds : M Z := gets (fun st => (clock st / 1000000)%Z).

(** [Course._parse_moduleitem(self, moduleitem, moduleid)]. *)
Definition _parse_moduleitem (moduleid : Z) (moduleitem : moduleitem) : M unit :=
  file ← (if String.eqb (item_type moduleitem) "File" then
             let r := get_file (item_url moduleitem) in
             raise_for_status r.1;;
             mret r.2
           else if String.eqb (item_type moduleitem) "SubHeader" then
             now ← now_seconds;
             mret {| url := "SubHeader:" +:+ item_title moduleitem;
                     display_name := item_title moduleitem;
                     folder_id := 0;
                     modified_at := now;
                     updated_at := strftime_utc now;
                     _time := None |}
           else
             now ← now_seconds;
             mret {| url := "URL:" +:+ item_html_url moduleitem;
                     display_name := item_title moduleitem +:+ ".url";
                     folder_id := 0;
                     modified_at := now;
                     updated_at := strftime_utc now;
                     _time := None |});
  let file :=
    {| url := url file;
       display_name := pretty (item_position moduleitem)
                       +:+ Str.repeat_char "~" (Z.to_nat (item_indent moduleitem))
                       +:+ " " +:+ display_name file;
       folder_id := moduleid;
       modified_at := modified_at file;
       updated_at := updated_at file;
       _time := _time file |} in
  _parse_file file.

(** [Course._parse_module(self, module)]. *)
Definition _parse_module (fuel : nat) (module : module) : M unit :=
  let folder_name := module_name module in
  let folder_dir := OsPath.join course_dir folder_name in
  modify (set_folder (module_ident module) folder_dir);;
  isdir ← gets (fun st => Os.isdir folder_dir (tree st));
  (if isdir : bool then mret tt
   else say 1 (Creating folder_dir);; os_do (Os.makedirs folder_dir));;
  let items_request_url :=
    base_url +:+ "courses/" +:+ course_id +:+ "/modules/"
    +:+ pretty (module_ident module) +:+ "/items" in
  do_all_pages fuel get_items items_request_url (_parse_moduleitem (module_ident module)).

Inductive Type_ : Type := FILES | MODULES.

(** [Course.sync_local(self)]. *)
Definition sync_local (type : Type_) (fuel : nat) : M unit :=
  say 1 Syncing;;
  match type with
  | MODULES =>
      let modules_request_url := base_url +:+ "courses/" +:+ course_id +:+ "/modules" in
      do_all_pages fuel get_modules modules_request_url (_parse_module fuel)
  | FILES =>
      let folders_request_url :=
        base_url +:+ "courses/" +:+ course_id +:+ "/folders?per_page=999999" in
      do_all_pages fuel get_folders folders_request_url _parse_folder;;
      let files_request_url :=
        base_url +:+ "courses/" +:+ course_id +:+ "/files?per_page=999999" in
      do_all_pages fuel get_files files_request_url _parse_file
  end.

(** *** The pruning pass *)

(** [os.walk(top)], top down, with the body of the [for] loop run at each
    [yield]. A directory that cannot be listed yields nothing ([onerror]
    is [None]); [fuel] bounds the depth. *)
Fixpoint walk (fuel : nat) (top : string)
  (body : string -> list string -> list string -> M unit) : M unit :=
  match fuel with
  | O => fun _ => OutOfFuel
  | S fuel' => fun st =>
      match Os.scandir top (tree st) with
      | Raise _ => Done tt st
      | Ok entries =>
          let dirs := fst <$> filter (fun e => Os.is_dir_entry e = true) entries in
          let nondirs := fst <$> filter (fun e => Os.is_dir_entry e = false) entries in
          (body top dirs nondirs;;
           for_each dirs (fun dirname => walk fuel' (OsPath.join top dirname) body)) st
      end
  end.

(** [".old" in os.path.normpath(root).split(os.path.sep)]. *)
Definition in_old (root : string) : bool :=
  bool_decide (".old"%string ∈ Str.split_char OsPath.sep (OsPath.normpath root)).

(** The body of the inner loop over [filenames]. *)
Definition prune_file (root filename : string) : M unit :=
  fs ← gets file_set;
  if bool_decide (OsPath.join root filename ∈ fs) then mret tt
  else
    say 1 (File_deleting filename);;
    os_do (Os.remove (OsPath.join root filename)).

(** The body of the inner loop over [dirnames]. *)
Definition prune_dir (root dirname : string) : M unit :=
  if String.eqb dirname ".old" then mret tt
  else
    fd ← gets folder_dict;
    if bool_decide (OsPath.join root dirname ∈ (map_img fd : gset string)) then mret tt
    else
      say 1 (Folder_deleting dirname);;
      os_do (Os.rmtree (OsPath.join root dirname)).

(** The body of the loop of [Course.onto_local] for one [(root, dirnames,
    filenames)]. *)
Definition onto_local_body (root : string) (dirnames filenames : list string) : M unit :=
  there ← gets (fun st => Os.exists_ root (tree st));
  if in_old root || negb there then mret tt
  else
    for_each filenames (prune_file root);;
    for_each dirnames (prune_dir root).

(** [Course.onto_local(self)]. *)
Definition onto_local (fuel : nat) : M unit := walk fuel course_dir onto_local_body.

(** *** One course of the main block *)

(** [Course.__init__(self, cconfig)]: the request for the course record,
    answered with the status [course_status] and the name [course_name],
    the empty records, the counters at 0, and the course directory.
    [course_dir] is [os.path.join(base_dir, cconfig["name"])], whether the
    name was in the configuration or is taken from the course record, and
    [type] below is [self.type]. *)
Definition __init__ (course_status : Z) (course_name : string) : M unit :=
  raise_for_status course_status;;
  modify new_course;;
  say 1 (Course_name course_name);;
  isdir ← gets (fun st => Os.isdir course_dir (tree st));
  if isdir : bool then mret tt
  else say 1 (Creating_course course_dir);; os_do (Os.makedirs course_dir).

(** The body of the loop over [config["courses"]]:
    [course = Course(c); course.sync_local(); course.onto_local()]. *)
Definition main_course (type : Type_) (course_status : Z) (course_name : string)
  (pages_fuel fuel : nat) : M unit :=
  __init__ course_status course_name;;
  sync_local type pages_fuel;;
  onto_local fuel.

End Script.

(** ** Vocabulary of the statements *)

Section Vocabulary.
Context {L : Str.Lowering}.

(** A download URL that is fetched over the network: not empty, and neither
    of the two local encodings. *)
Definition network_url (u : string) : bool :=
  negb (String.eqb u "") && negb (Str.startswith "URL:" u)
  && negb (Str.startswith "SubHeader:" u).

(** [path] can be opened for writing: its directory is there and it is not a
    directory itself. *)
Definition writable (path : string) (t : Os.tree) : Prop :=
  Os.stat (Os.resolve path) t <> Some Os.Dir
  /\ Os.stat (Os.parent (Os.resolve path)) t = Some Os.Dir.

(** What [_parse_file] names the entry: the path before any renaming. *)
Definition file_name_of (f : file) : string :=
  Str.replace_char "/" "-" (display_name f).

Definition file_path_of (location : string) (f : file) : string :=
  OsPath.join location (file_name_of f).

(** The four counters together. *)
Definition counters (st : state) : Z * Z * Z * Z :=
  (skipped st, updated st, downloaded st, errors st).

(** The state after [if args.verbosity >= level: print(m)]. *)
Definition said (verbosity level : Z) (m : msg) (st : state) : state :=
  if (level <=? verbosity)%Z then print m st else st.

(** The name and the path of the case-collision branch. *)
Definition collision_name (strftime_local : Z -> string) (f : file) : string :=
  add_before_ext (file_name_of f) (" c" +:+ strftime_local (modified_at f)).

Definition collision_path (strftime_local : Z -> string) (location : string) (f : file)
  : string :=
  OsPath.join location (collision_name strftime_local f).

(** The record as [download] sees it, with [_time] filled in. *)
Definition timed (f : file) : file := set_time f (modified_at f).

(** The [except ConnectionError as err] clause of [_parse_file], up to its
    [return]. *)
Definition on_error : string -> string -> M bool := fun text name =>
  modify (print (Err_args text name));; modify incr_errors;; mret false.

(** The state once [tempfile.NamedTemporaryFile] has made its file. *)
Definition with_scratch (st : state) : state :=
  set_temps (<[next_tmp st := (""%string, clock st)]> (temps st)) (S (next_tmp st)) st.

(** A statement that leaves the fields of the [Course] object alone. *)
Definition same_course (st st' : state) : Prop :=
  counters st' = counters st
  /\ file_set st' = file_set st
  /\ folder_dict st' = folder_dict st.

Definition keeps_course {A} (m : M A) : Prop :=
  forall st,
    match m st with
    | Done _ st' | Raised _ st' => same_course st st'
    | OutOfFuel => True
    end.

(** Exactly one of the four counters went up, by one. *)
Definition one_more (st st' : state) : Prop :=
  counters st' = ((skipped st + 1)%Z, updated st, downloaded st, errors st)
  \/ counters st' = (skipped st, (updated st + 1)%Z, downloaded st, errors st)
  \/ counters st' = (skipped st, updated st, (downloaded st + 1)%Z, errors st)
  \/ counters st' = (skipped st, updated st, downloaded st, (errors st + 1)%Z).

Definition total (st : state) : Z :=
  (skipped st + updated st + downloaded st + errors st)%Z.

(** The directory [getfile_insensitive(path)] lists. *)
Definition listed_dir (path : string) : string :=
  if String.eqb (OsPath.split path).1 "" then "."%string else (OsPath.split path).1.

(** The entry is one [_parse_file] calls [download] for when its URL is not
    empty: the local file is older than the remote one, or there is no local
    file (and its directory can be listed). *)
Definition wants_download (location : string) (f : file) (t : Os.tree) : Prop :=
  (exists d m, Os.stat (Os.resolve (file_path_of location f)) t = Some (Os.File d m)
               /\ (m < timestamp (modified_at f))%Z)
  \/ (Os.isfile (file_path_of location f) t = false
      /\ Os.isdir (listed_dir (file_path_of location f)) t = true).

(** The URL the loop of [do_all_pages] goes on with after a page. *)
Definition next_url {A} (p : page A) : string :=
  match page_next p with Some u => u | None => ""%string end.

Definition is_error_status (status : Z) : bool := (400 <=? status)%Z && (status <? 600)%Z.

(** [pages] are the answers met when the listing is followed from [url], each
    without an error status, and [last] is where the last of them points. *)
Fixpoint chain {A} (get : string -> page A) (url : string) (pages : list (page A))
  (last : string) : Prop :=
  match pages with
  | [] => url = last
  | p :: rest =>
      url <> ""%string /\ get url = p /\ is_error_status (page_status p) = false
      /\ chain get (next_url p) rest last
  end.

Definition all_items {A} (pages : list (page A)) : list A :=
  concat (page_items <$> pages).

(** [handed h xs st o]: the handler [h] is called on the items of [xs] one
    after the other, in the order of the list and each item once, every call
    from the state the call before it left; [o] is the return of the last
    call, or the first outcome that is not a return, after which no further
    item is handed over. *)
Inductive handed {A} (h : A -> M unit) : list A -> state -> outcome unit -> Prop :=
| handed_none st : handed h [] st (Done tt st)
| handed_next x xs st st1 o :
    h x st = Done tt st1 -> handed h xs st1 o -> handed h (x :: xs) st o
| handed_raised x xs st e st1 :
    h x st = Raised e st1 -> handed h (x :: xs) st (Raised e st1)
| handed_out_of_fuel x xs st :
    h x st = OutOfFuel -> handed h (x :: xs) st OutOfFuel.

(** A statement that leaves the tree and the temporary files alone. *)
Definition same_files (st st' : state) : Prop :=
  tree st' = tree st /\ temps st' = temps st.

Definition keeps_files {A} (m : M A) : Prop :=
  forall st,
    match m st with
    | Done _ st' | Raised _ st' => same_files st st'
    | OutOfFuel => True
    end.

(** The check behind [Os.wf], for a tree given in full. *)
Definition wf_check (t : Os.tree) : bool :=
  forallb (fun e : Os.key * Os.node =>
             match Os.stat (Os.parent e.1) t with
             | Some Os.Dir => true
             | _ => false
             end) t.

(** A name a directory can list: not empty, without a separator, and neither
    of the two special names. *)
Definition proper_name (x : string) : bool :=
  negb (String.eqb x "") && negb (Str.contains_char OsPath.sep x)
  && negb (String.eqb x ".") && negb (String.eqb x "..").

(** *** What the pruning pass leaves *)

(** The tests of the two inner loops of the pruning pass. *)
Definition file_stays (fs : gset string) (s x : string) : bool :=
  bool_decide (OsPath.join s x ∈ fs).

Definition dir_stays (fd : gmap Z string) (s x : string) : bool :=
  String.eqb x ".old" || bool_decide (OsPath.join s x ∈ (map_img fd : gset string)).

(** Read along the names [rest] that lead from the directory of path [s] to
    an entry (a directory when [is_dir]): at a directory whose path has the
    reserved name nothing is deleted; elsewhere a directory on the way stays
    when it is the reserved one or a value of [folder_dict], and a file
    stays when its path is in [file_set]. *)
Fixpoint kept (fs : gset string) (fd : gmap Z string) (s : string) (rest : list string)
  (is_dir : bool) : bool :=
  match rest with
  | [] => true
  | x :: rest' =>
      match rest' with
      | [] =>
          in_old s || (if is_dir then dir_stays fd s x else file_stays fs s x)
      | _ :: _ =>
          (in_old s || dir_stays fd s x) && kept fs fd (OsPath.join s x) rest' is_dir
      end
  end.

Definition node_is_dir (n : Os.node) : bool :=
  match n with Os.Dir => true | Os.File _ _ => false end.

(** Whether the walk from the directory of path [s] leaves the entry [e]. *)
Definition keep_at (fs : gset string) (fd : gmap Z string) (s : string)
  (e : Os.key * Os.node) : bool :=
  match Os.strip_prefix (Os.resolve s) e.1 with
  | Some rest => kept fs fd s rest (node_is_dir e.2)
  | None => true
  end.

(** A tree as a file system holds it: no entry twice, every entry in a
    directory of the tree, and every name one that a directory can list. *)
Definition sane (t : Os.tree) : Prop :=
  NoDup (fst <$> t)
  /\ Os.wf t
  /\ forall k n, (k, n) ∈ t -> k <> [] /\ Forall (fun x => proper_name x = true) k.

(** What one run of the body of the loop of [onto_local] at the directory of
    path [s] leaves. *)
Definition level_keep (fs : gset string) (fd : gmap Z string) (s : string)
  (e : Os.key * Os.node) : bool :=
  match Os.strip_prefix (Os.resolve s) e.1 with
  | Some (x :: rest') =>
      in_old s
      || match rest' with
         | [] => if node_is_dir e.2 then dir_stays fd s x else file_stays fs s x
         | _ :: _ => dir_stays fd s x
         end
  | _ => true
  end.

(** The two lists [os.walk] makes of a directory. *)
Definition dirs_of (s : string) (t : Os.tree) : list string :=
  fst <$> filter (fun e => Os.is_dir_entry e = true) (Os.children (Os.resolve s) t).

Definition nondirs_of (s : string) (t : Os.tree) : list string :=
  fst <$> filter (fun e => Os.is_dir_entry e = false) (Os.children (Os.resolve s) t).

(** The path [os.walk] builds for the directory reached from that of path
    [s] through the names [ds]. *)
Definition path_of (s : string) (ds : list string) : string :=
  fold_left OsPath.join ds s.

(** The check behind [sane], for a tree given in full. *)
Definition sane_check (t : Os.tree) : bool :=
  bool_decide (NoDup (fst <$> t))
  && wf_check t
  && forallb (fun e : Os.key * Os.node =>
                negb (Os.key_eqb e.1 []) && forallb proper_name e.1) t.

(** *** A second run *)

(** The local file of the entry is at least as new as the remote one, or
    holds its bytes: [_parse_file] has nothing to do for it. *)
Definition settled (session : string -> response) (location : string) (f : file)
  (t : Os.tree) : Prop :=
  exists d m,
    Os.stat (Os.resolve (file_path_of location f)) t = Some (Os.File d m)
    /\ ((timestamp (modified_at f) <= m)%Z \/ d = content (session (url f))).

(** The test of the first branch of [_parse_file] fails: the path is a file,
    or its directory lists no name equal to the entry's up to case. *)
Definition no_collision (location : string) (f : file) (st : state) : Prop :=
  Os.isfile (file_path_of location f) (tree st) = true
  \/ isfile_insensitive (file_path_of location f) st = Done false st.

(** The key of the local file of an entry, with [folder_dict] as it is. *)
Definition local_key (fd : gmap Z string) (f : file) : Os.key :=
  match fd !! folder_id f with
  | Some location => Os.resolve (file_path_of location f)
  | None => []
  end.

(** The loop over [files] meets no case collision from [st] on. *)
Fixpoint clean_run (session : string -> response) (verbosity : Z)
  (strftime_local : Z -> string) (files : list file) (st : state) : Prop :=
  match files with
  | [] => True
  | f :: rest =>
      (forall location, folder_dict st !! folder_id f = Some location ->
                        no_collision location f st)
      /\ forall st', _parse_file session verbosity strftime_local f st = Done tt st' ->
                     clean_run session verbosity strftime_local rest st'
  end.

(** A run of [sync_local] for a course of the files kind whose listings hold
    [folders] and [files]. *)
Definition sync_files (session : string -> response) (verbosity : Z)
  (strftime_local : Z -> string) (course_dir : string)
  (folders : list folder) (files : list file) : M unit :=
  modify new_course;;
  for_each folders (_parse_folder verbosity course_dir);;
  for_each files (_parse_file session verbosity strftime_local).

(** A download URL that stands for a file made locally: an internet shortcut
    or the placeholder of a sub-header. *)
Definition stub_url (u : string) : bool :=
  Str.startswith "URL:" u || Str.startswith "SubHeader:" u.

End Vocabulary.

(** ** Concrete states and entries, for the examples *)

(** The names of the examples are in the ASCII range, where [str.lower()]
    is [Str.ascii_lower]. *)
Definition ascii_names : Str.Lowering := Str.ascii_lower.

Section Inputs.
#[local] Existing Instance ascii_names.

Definition c10_state : state :=
  {| tree := [(["d"], Os.Dir); (["d"; "NOTES.pdf"], Os.Dir);
              (["d"; "Notes.pdf"], Os.File "x" 0)]%string;
     temps := ∅; next_tmp := 0; clock := 0; out := []; folder_dict := ∅;
     file_set := ∅; skipped := 0; updated := 0; downloaded := 0; errors := 0 |}.

(** A course directory with one folder, and nothing else on disk. *)
Definition course_state : state :=
  {| tree := [(["course"], Os.Dir)]%string;
     temps := ∅; next_tmp := 0; clock := 1500000; out := [];
     folder_dict := {[ 1%Z := "course"%string ]};
     file_set := ∅; skipped := 0; updated := 0; downloaded := 0; errors := 0 |}.

(** A server that knows one document. *)
Definition one_doc_session (u : string) : response :=
  if String.eqb u "https://canvas/files/1" then {| status_code := 200; content := "new bytes" |}
  else {| status_code := 404; content := "" |}.

Definition plain_strftime (t : Z) : string := pretty t.

(** An entry without a download URL. *)
Definition unavailable_file : file :=
  {| url := ""; display_name := "a.txt"; folder_id := 1; modified_at := 10;
     updated_at := "1970-01-01T00:00:10Z"; _time := None |}.

(** A module directory, at half past the first second of the epoch. *)
Definition module_state : state :=
  {| tree := [(["course"], Os.Dir); (["course"; "Week 1"], Os.Dir)]%string;
     temps := ∅; next_tmp := 0; clock := 1500000; out := [];
     folder_dict := {[ 7%Z := "course/Week 1"%string ]};
     file_set := ∅; skipped := 0; updated := 0; downloaded := 0; errors := 0 |}.

Definition subheader_item : moduleitem :=
  {| item_type := "SubHeader"; item_url := ""; item_title := "Intro";
     item_html_url := ""; item_position := 2; item_indent := 1 |}.

(** The record [_parse_moduleitem] makes of it at that time. *)
Definition subheader_entry : file :=
  {| url := "SubHeader:Intro"; display_name := "2~ Intro"; folder_id := 7;
     modified_at := 1; updated_at := "1"; _time := None |}.

Definition no_file_api (u : string) : Z * file := (404%Z, unavailable_file).

(** The document of [one_doc_session], last changed at second 10. *)
Definition doc_file : file :=
  {| url := "https://canvas/files/1"; display_name := "a.txt"; folder_id := 1;
     modified_at := 10; updated_at := "1970-01-01T00:00:10Z"; _time := None |}.

(** A document the server does not have. *)
Definition missing_file : file :=
  {| url := "https://canvas/files/2"; display_name := "b.txt"; folder_id := 1;
     modified_at := 10; updated_at := "1970-01-01T00:00:10Z"; _time := None |}.

(** The course directory with an older copy of the document. *)
Definition stale_state : state :=
  {| tree := [(["course"], Os.Dir); (["course"; "a.txt"], Os.File "old bytes" 5)]%string;
     temps := ∅; next_tmp := 0; clock := 1500000; out := [];
     folder_dict := {[ 1%Z := "course"%string ]};
     file_set := ∅; skipped := 0; updated := 0; downloaded := 0; errors := 0 |}.

(** The course directory with the document under another case. *)
Definition collision_state : state :=
  {| tree := [(["course"], Os.Dir); (["course"; "A.TXT"], Os.File "other" 5)]%string;
     temps := ∅; next_tmp := 0; clock := 1500000; out := [];
     folder_dict := {[ 1%Z := "course"%string ]};
     file_set := ∅; skipped := 0; updated := 0; downloaded := 0; errors := 0 |}.

(** The state after [_parse_file] has fetched the document into the empty
    course directory. *)
Definition doc_result : state :=
  match _parse_file one_doc_session 1 plain_strftime doc_file course_state with
  | Done _ st => st
  | _ => course_state
  end.

(** A listing of three names on two pages. *)
Definition two_pages (u : string) : page string :=
  if String.eqb u "p1" then
    {| page_status := 200; page_next := Some "p2"%string; page_items := ["a"; "b"]%string |}
  else if String.eqb u "p2" then
    {| page_status := 200; page_next := None; page_items := ["c"]%string |}
  else {| page_status := 404; page_next := None; page_items := [] |}.

Definition note (name : string) : M unit := modify (print (Creating name)).

(** A course directory after a run: one file and one folder that the catalog
    still has, one file and one folder that it has no more, and a reserved
    directory. *)
Definition prune_state : state :=
  {| tree := [(["course"], Os.Dir);
              (["course"; "keep.txt"], Os.File "k" 5);
              (["course"; "stale.txt"], Os.File "s" 5);
              (["course"; "Sub"], Os.Dir);
              (["course"; "Sub"; "x.txt"], Os.File "x" 5);
              (["course"; "Gone"], Os.Dir);
              (["course"; "Gone"; "y.txt"], Os.File "y" 5);
              (["course"; ".old"], Os.Dir);
              (["course"; ".old"; "z.txt"], Os.File "z" 5)]%string;
     temps := ∅; next_tmp := 0; clock := 1500000; out := [];
     folder_dict := {[ 1%Z := "course/"%string; 2%Z := "course/Sub"%string ]};
     file_set := {[ "course/keep.txt"%string ]};
     skipped := 1; updated := 0; downloaded := 0; errors := 0 |}.

(** Two documents whose names differ by case only, in the root folder. *)
Definition notes_session (u : string) : response :=
  if String.eqb u "https://canvas/files/1" then {| status_code := 200; content := "upper" |}
  else if String.eqb u "https://canvas/files/2" then
    {| status_code := 200; content := "lower" |}
  else {| status_code := 404; content := "" |}.

Definition upper_notes : file :=
  {| url := "https://canvas/files/1"; display_name := "Notes.pdf"; folder_id := 1;
     modified_at := 10; updated_at := "1970-01-01T00:00:10Z"; _time := None |}.

Definition lower_notes : file :=
  {| url := "https://canvas/files/2"; display_name := "notes.pdf"; folder_id := 1;
     modified_at := 10; updated_at := "1970-01-01T00:00:10Z"; _time := None |}.

Definition root_folder : folder := {| folder_ident := 1; full_name := "course files" |}.

End Inputs.

(** ** More inputs, for the statements on the rest of the script *)

(** A listing whose only page names itself as the next one. *)
Definition self_loop (u : string) : page string :=
  {| page_status := 200; page_next := Some u; page_items := ["a"]%string |}.

(** A handler that refuses one name. *)
Definition picky_note (name : string) : M unit :=
  if String.eqb name "b" then raise KeyError else note name.

(** What [_parse_module] does for a module whose listing of items is known:
    the directory first, then the items in a plain loop. *)
Definition module_pass (verbosity : Z) (course_dir : string)
  (handler : Z -> moduleitem -> M unit) (m : module) (items : list moduleitem) : M unit :=
  let folder_dir := OsPath.join course_dir (module_name m) in
  modify (set_folder (module_ident m) folder_dir);;
  isdir ← gets (fun st => Os.isdir folder_dir (tree st));
  (if isdir : bool then mret tt
   else say verbosity 1 (Creating folder_dir);; os_do (Os.makedirs folder_dir));;
  for_each items (handler (module_ident m)).

(** The URLs [sync_local] and [_parse_module] start their listings from. *)
Definition folders_url (base_url course_id : string) : string :=
  base_url +:+ "courses/" +:+ course_id +:+ "/folders?per_page=999999".

Definition files_url (base_url course_id : string) : string :=
  base_url +:+ "courses/" +:+ course_id +:+ "/files?per_page=999999".

Definition modules_url (base_url course_id : string) : string :=
  base_url +:+ "courses/" +:+ course_id +:+ "/modules".

Definition items_url (base_url course_id : string) (m : module) : string :=
  base_url +:+ "courses/" +:+ course_id +:+ "/modules/"
  +:+ pretty (module_ident m) +:+ "/items".

(** A server with one folder, one file, one module and one item in it. *)
Definition folder_listing (u : string) : page folder :=
  if String.eqb u "https://canvas/api/courses/42/folders?per_page=999999" then
    {| page_status := 200; page_next := None; page_items := [root_folder] |}
  else {| page_status := 404; page_next := None; page_items := [] |}.

Definition file_listing (u : string) : page file :=
  if String.eqb u "https://canvas/api/courses/42/files?per_page=999999" then
    {| page_status := 200; page_next := None; page_items := [doc_file] |}
  else {| page_status := 404; page_next := None; page_items := [] |}.

Definition week1 : module := {| module_ident := 7; module_name := "Week 1" |}.

Definition module_listing (u : string) : page module :=
  if String.eqb u "https://canvas/api/courses/42/modules" then
    {| page_status := 200; page_next := None; page_items := [week1] |}
  else {| page_status := 404; page_next := None; page_items := [] |}.

Definition item_listing (u : string) : page moduleitem :=
  if String.eqb u "https://canvas/api/courses/42/modules/7/items" then
    {| page_status := 200; page_next := None; page_items := [subheader_item] |}
  else {| page_status := 404; page_next := None; page_items := [] |}.

(** A newer version of [a.txt] that the server does not hand out. *)
Definition gone_doc : file :=
  {| url := "https://canvas/files/2"; display_name := "a.txt"; folder_id := 1;
     modified_at := 10; updated_at := "1970-01-01T00:00:10Z"; _time := None |}.

(** An entry of a folder that no listing has named. *)
Definition orphan_file : file :=
  {| url := "https://canvas/files/1"; display_name := "c.txt"; folder_id := 9;
     modified_at := 10; updated_at := "1970-01-01T00:00:10Z"; _time := None |}.

(** A course whose recorded folder has no directory. *)
Definition lost_dir_state : state :=
  {| tree := [(["course"], Os.Dir)]%string;
     temps := ∅; next_tmp := 0; clock := 1500000; out := [];
     folder_dict := {[ 1%Z := "course/Gone"%string ]};
     file_set := ∅; skipped := 0; updated := 0; downloaded := 0; errors := 0 |}.

(** A folder two levels below the root folder of the course. *)
Definition deep_folder : folder := {| folder_ident := 2; full_name := "course files/Sub/Deep" |}.

(** A second listing entry with the id of [deep_folder] and another name. *)
Definition moved_folder : folder := {| folder_ident := 2; full_name := "course files/Moved" |}.

(** *** Module items that are not files *)

(** The record [_parse_moduleitem] hands to [_parse_file] for an item that
    is not of type ['File'], made at second [now]. *)
Definition stub_entry (strftime_utc : Z -> string) (moduleid : Z) (item : moduleitem)
  (now : Z) : file :=
  {| url := if String.eqb (item_type item) "SubHeader"
            then "SubHeader:" +:+ item_title item
            else "URL:" +:+ item_html_url item;
     display_name := pretty (item_position item)
                     +:+ Str.repeat_char "~" (Z.to_nat (item_indent item))
                     +:+ " "
                     +:+ (if String.eqb (item_type item) "SubHeader"
                          then item_title item
                          else item_title item +:+ ".url");
     folder_id := moduleid;
     modified_at := now;
     updated_at := strftime_utc now;
     _time := None |}.

(** What [download] writes into a new file for such a record: nothing for
    a sub-header, the shortcut for a link. *)
Definition stub_content (item : moduleitem) : string :=
  if String.eqb (item_type item) "SubHeader" then ""%string
  else "[InternetShortcut]" +:+ newline +:+ "URL=" +:+ item_html_url item +:+ newline.

(** A link to a page outside Canvas. *)
Definition link_item : moduleitem :=
  {| item_type := "ExternalUrl"; item_url := ""; item_title := "Slides";
     item_html_url := "https://example.org/s"; item_position := 3; item_indent := 0 |}.

(** The module directory with the placeholder of [subheader_item] in it,
    an hour after it was made. *)
Definition placeholder_state : state :=
  {| tree := [(["course"], Os.Dir); (["course"; "Week 1"], Os.Dir);
              (["course"; "Week 1"; "2~ Intro"], Os.File "" 1500000)]%string;
     temps := ∅; next_tmp := 0; clock := 3601500000; out := [];
     folder_dict := {[ 7%Z := "course/Week 1"%string ]};
     file_set := ∅; skipped := 0; updated := 0; downloaded := 0; errors := 0 |}.

(** A module whose name holds a separator: its directory lies two levels
    below the course directory, and only the lower level is recorded. *)
Definition slash_module_state : state :=
  {| tree := [(["course"], Os.Dir);
              (["course"; "Unit 1"], Os.Dir);
              (["course"; "Unit 1"; "Week 2"], Os.Dir);
              (["course"; "Unit 1"; "Week 2"; "1 a.txt"], Os.File "a" 5)]%string;
     temps := ∅; next_tmp := 0; clock := 1500000; out := [];
     folder_dict := {[ 7%Z := "course/Unit 1/Week 2"%string ]};
     file_set := {[ "course/Unit 1/Week 2/1 a.txt"%string ]};
     skipped := 0; updated := 0; downloaded := 1; errors := 0 |}.

(** A course of the files kind after its run: the root folder and a nested
    one, with a file in each. *)
Definition synced_state : state :=
  {| tree := [(["course"], Os.Dir);
              (["course"; "a.txt"], Os.File "a" 5);
              (["course"; "Sub"], Os.Dir);
              (["course"; "Sub"; "Deep"], Os.Dir);
              (["course"; "Sub"; "Deep"; "b.txt"], Os.File "b" 5)]%string;
     temps := ∅; next_tmp := 0; clock := 1500000; out := [];
     folder_dict := {[ 1%Z := "course/"%string; 2%Z := "course/Sub"%string;
                       3%Z := "course/Sub/Deep"%string ]};
     file_set := {[ "course/a.txt"%string; "course/Sub/Deep/b.txt"%string ]};
     skipped := 0; updated := 0; downloaded := 2; errors := 0 |}.

(** *** The part of the tree a statement may change *)

(** Outside the keys [ks] the tree of [st'] answers as that of [st]. *)
Definition apart (ks : list Os.key) (st st' : state) : Prop :=
  forall k, k ∉ ks -> Os.stat k (tree st') = Os.stat k (tree st).

(** A statement that changes the tree at the keys [ks] at most, whether it
    returns or raises. *)
Definition touches {A} (ks : list Os.key) (m : M A) : Prop :=
  forall st,
    match m st with
    | Done _ st' | Raised _ st' => apart ks st st'
    | OutOfFuel => True
    end.

Definition loc_in (ks : list Os.key) (dest : loc) : Prop :=
  match dest with
  | Path p => Os.resolve p ∈ ks
  | Tmp _ => True
  end.

(** The keys [_parse_file] may write for an entry, with [folder_dict] as it
    is: that of its path and that of its renamed path. *)
Definition own_keys (strftime_local : Z -> string) (fd : gmap Z string) (f : file)
  : list Os.key :=
  match fd !! folder_id f with
  | Some location =>
      [Os.resolve (file_path_of location f);
       Os.resolve (collision_path strftime_local location f)]
  | None => []
  end.

(** *** Directories *)

(** The two trees have the same directories. *)
Definition same_dirs (st st' : state) : Prop :=
  forall k, Os.stat k (tree st') = Some Os.Dir <-> Os.stat k (tree st) = Some Os.Dir.

(** A statement that neither makes nor removes a directory, whether it
    returns or raises. *)
Definition keeps_dirs {A} (m : M A) : Prop :=
  forall st,
    match m st with
    | Done _ st' | Raised _ st' => same_dirs st st'
    | OutOfFuel => True
    end.

(** The entry can be handled in [st]: its folder is recorded, the directory
    of the folder is there, its name and its renamed name are names a
    directory can hold, and the renamed path is not a directory. *)
Definition ready (strftime_local : Z -> string) (st : state) (f : file) : Prop :=
  exists location,
    folder_dict st !! folder_id f = Some location
    /\ Os.isdir location (tree st) = true
    /\ proper_name (file_name_of f) = true
    /\ proper_name (collision_name strftime_local f) = true
    /\ Os.isdir (collision_path strftime_local location f) (tree st) = false.

(** An entry named as a path that climbs out of its folder. *)
Definition climbing_file : file :=
  {| url := "https://canvas/files/1"; display_name := "../up/a.txt"; folder_id := 1;
     modified_at := 10; updated_at := "1970-01-01T00:00:10Z"; _time := None |}.

(** *** Trees reached by writing and removing regular files *)

(** [t'] is reached from [t] by writing regular files (into a directory that
    is there, or over a regular file) and removing regular files, at keys of
    [ks] only. *)
Inductive steps (ks : list Os.key) : Os.tree -> Os.tree -> Prop :=
| steps_refl t : steps ks t t
| steps_put t t' k d m :
    steps ks t t' -> k ∈ ks ->
    Os.stat k t' <> Some Os.Dir ->
    (Os.stat (Os.parent k) t' = Some Os.Dir
     \/ exists d0 m0, Os.stat k t' = Some (Os.File d0 m0)) ->
    steps ks t (Os.put k (Os.File d m) t')
| steps_del t t' k d m :
    steps ks t t' -> k ∈ ks ->
    Os.stat k t' = Some (Os.File d m) ->
    steps ks t (Os.delete_key k t').

(** A statement whose effect on the tree is of that kind, whether it returns
    or raises. *)
Definition walks {A} (ks : list Os.key) (m : M A) : Prop :=
  forall st,
    match m st with
    | Done _ st' | Raised _ st' => steps ks (tree st) (tree st')
    | OutOfFuel => True
    end.

(** The keys the loop over [files] may write. *)
Definition all_own_keys (strftime_local : Z -> string) (fd : gmap Z string)
  (files : list file) : list Os.key :=
  concat (own_keys strftime_local fd <$> files).

(** *** Module items that are files *)

(** The record [_parse_moduleitem] hands to [_parse_file] for an item of
    type ['File'] whose request answered with the record [f]. *)
Definition item_entry (moduleid : Z) (item : moduleitem) (f : file) : file :=
  {| url := url f;
     display_name := pretty (item_position item)
                     +:+ Str.repeat_char "~" (Z.to_nat (item_indent item))
                     +:+ " " +:+ display_name f;
     folder_id := moduleid;
     modified_at := modified_at f;
     updated_at := updated_at f;
     _time := _time f |}.

Definition file_item : moduleitem :=
  {| item_type := "File"; item_url := "https://canvas/api/files/1"; item_title := "a.txt";
     item_html_url := ""; item_position := 1; item_indent := 0 |}.

(** A file API that knows the document of [one_doc_session]. *)
Definition doc_api (u : string) : Z * file :=
  if String.eqb u "https://canvas/api/files/1" then (200%Z, doc_file)
  else (404%Z, unavailable_file).

(** *** Runs that differ in what they print only *)

(** The two states agree on everything but what has been printed. *)
Definition alike (st st' : state) : Prop :=
  tree st = tree st' /\ temps st = temps st' /\ next_tmp st = next_tmp st'
  /\ clock st = clock st' /\ folder_dict st = folder_dict st'
  /\ file_set st = file_set st' /\ skipped st = skipped st'
  /\ updated st = updated st' /\ downloaded st = downloaded st'
  /\ errors st = errors st'.

Definition alike_outcome {A} (o o' : outcome A) : Prop :=
  match o, o' with
  | Done a st, Done a' st' => a = a' /\ alike st st'
  | Raised e st, Raised e' st' => e = e' /\ alike st st'
  | OutOfFuel, OutOfFuel => True
  | _, _ => False
  end.

(** From states that are alike the two statements end alike. *)
Definition sim {A} (m m' : M A) : Prop :=
  forall st st', alike st st' -> alike_outcome (m st) (m' st').

(** ** Two runs of one course *)

(** The directory [_parse_folder] records for a folder. *)
Definition folder_dir (course_dir : string) (fo : folder) : string :=
  OsPath.join course_dir (Str.slice_from 13 (full_name fo)).

(** [folder_dict] once the loop over [folders] has run from [fd]: of two
    folders with one id the later one stays. *)
Definition recorded_from (course_dir : string) (fd : gmap Z string) (folders : list folder)
  : gmap Z string :=
  fold_left (fun fd fo => <[folder_ident fo := folder_dir course_dir fo]> fd) folders fd.

Definition recorded (course_dir : string) (folders : list folder) : gmap Z string :=
  recorded_from course_dir ∅ folders.

(** [location] is the course directory followed by the names [ds], and it
    and every directory between the course directory and it are values of
    [fd], each written the way [os.walk] joins the names. *)
Definition on_recorded_way (course_dir : string) (fd : gmap Z string)
  (location : string) (ds : list string) : Prop :=
  Forall (fun x => proper_name x = true) ds
  /\ location = OsPath.join course_dir (OsPath.join_comps ds)
  /\ forall ds1 y ds2,
      ds = ds1 ++ y :: ds2 ->
      OsPath.join course_dir (OsPath.join_comps (ds1 ++ [y])) ∈ (map_img fd : gset string).

Section TwoRuns.
Context {L : Str.Lowering}.

(** No entry of [files] meets a case collision in the run of the course
    from [st0]: the loop over the files starts where [Course.__init__] and
    the loop over [folders] end. *)
Definition no_case_collision (session : string -> response) (verbosity : Z)
  (strftime_local : Z -> string) (course_dir : string)
  (course_status : Z) (course_name : string)
  (folders : list folder) (files : list file) (st0 : state) : Prop :=
  forall st,
    (__init__ verbosity course_dir course_status course_name;;
     say verbosity 1 Syncing;;
     for_each folders (_parse_folder verbosity course_dir)) st0 = Done tt st ->
    clean_run session verbosity strftime_local files st.

End TwoRuns.

(** *** Courses to run twice *)

(** A listing of one page at [address]. *)
Definition one_page {A} (address : string) (items : list A) (u : string) : page A :=
  if String.eqb u address then
    {| page_status := 200; page_next := None; page_items := items |}
  else {| page_status := 404; page_next := None; page_items := [] |}.

Definition folders_at (folders : list folder) : string -> page folder :=
  one_page "https://canvas/api/courses/42/folders?per_page=999999" folders.

Definition files_at (files : list file) : string -> page file :=
  one_page "https://canvas/api/courses/42/files?per_page=999999" files.

(** The same disk and records an hour later. *)
Definition an_hour_later (st : state) : state :=
  {| tree := tree st; temps := temps st; next_tmp := next_tmp st;
     clock := (clock st + 3600000000)%Z;
     out := out st; folder_dict := folder_dict st; file_set := file_set st;
     skipped := skipped st; updated := updated st; downloaded := downloaded st;
     errors := errors st |}.

Definition sub_folder : folder := {| folder_ident := 2; full_name := "course files/Sub" |}.

(** A document of the folder [Sub]. *)
Definition sub_doc : file :=
  {| url := "https://canvas/files/1"; display_name := "b.txt"; folder_id := 2;
     modified_at := 10; updated_at := "1970-01-01T00:00:10Z"; _time := None |}.

(** An entry without a download URL, listed before an entry whose name
    differs from its name by case only. *)
Definition unavailable_twin : file :=
  {| url := ""; display_name := "NOTES.pdf"; folder_id := 1; modified_at := 10;
     updated_at := "1970-01-01T00:00:10Z"; _time := None |}.

(** An entry of the file listing whose URL is that of an internet
    shortcut, and a local file of the size of the shortcut, with other
    bytes, written at the time of the run. *)
Definition shortcut_file : file :=
  {| url := "URL:https://example.org/s"; display_name := "s.url"; folder_id := 1;
     modified_at := 10; updated_at := "1970-01-01T00:00:10Z"; _time := None |}.

Definition shortcut_state : state :=
  {| tree := [(["course"], Os.Dir);
              (["course"; "s.url"],
               Os.File ("[InternetShortcut]" +:+ newline +:+ "URL=https://example.org/t"
                        +:+ newline) 1500000)]%string;
     temps := ∅; next_tmp := 0; clock := 1500000; out := [];
     folder_dict := ∅; file_set := ∅;
     skipped := 0; updated := 0; downloaded := 0; errors := 0 |}.

(** The state of [shortcut_state] with the root folder recorded. *)
Definition shortcut_recorded : state := set_folder 1 "course" shortcut_state.

(** An entry named as [A.TXT] of [collision_state] up to case, whose URL
    is that of the placeholder of a sub-header. *)
Definition placeholder_twin : file :=
  {| url := "SubHeader:a"; display_name := "a.txt"; folder_id := 1; modified_at := 10;
     updated_at := "1970-01-01T00:00:10Z"; _time := None |}.

(** The course directory with the document under another case, and a
    directory under the name a renamed copy would get. *)
Definition blocked_collision_state : state :=
  {| tree := [(["course"], Os.Dir); (["course"; "A.TXT"], Os.File "other" 5);
              (["course"; "a c10.txt"], Os.Dir)]%string;
     temps := ∅; next_tmp := 0; clock := 1500000; out := [];
     folder_dict := {[ 1%Z := "course"%string ]};
     file_set := ∅; skipped := 0; updated := 0; downloaded := 0; errors := 0 |}.

(** Two entries of one name in one folder: the first with the bytes of the
    local copy and the later time. *)
Definition two_versions_session (u : string) : response :=
  if String.eqb u "https://canvas/files/1" then
    {| status_code := 200; content := "old bytes" |}
  else if String.eqb u "https://canvas/files/2" then
    {| status_code := 200; content := "new bytes" |}
  else {| status_code := 404; content := "" |}.

Definition first_version : file :=
  {| url := "https://canvas/files/1"; display_name := "a.txt"; folder_id := 1;
     modified_at := 30; updated_at := "1970-01-01T00:00:30Z"; _time := None |}.

Definition second_version : file :=
  {| url := "https://canvas/files/2"; display_name := "a.txt"; folder_id := 1;
     modified_at := 20; updated_at := "1970-01-01T00:00:20Z"; _time := None |}.

(** A document of the folder [Sub/Deep], whose listing lacks [Sub]. *)
Definition deep_doc : file :=
  {| url := "https://canvas/files/1"; display_name := "c.txt"; folder_id := 2;
     modified_at := 10; updated_at := "1970-01-01T00:00:10Z"; _time := None |}.

(** The folder [Sub] listed with a separator at the end of its name. *)
Definition slash_folder : folder := {| folder_ident := 2; full_name := "course files/Sub/" |}.

(** The module directory with a file of the user under the name of the
    placeholder of [subheader_item], written in the second of the run. *)
Definition own_placeholder_state : state :=
  {| tree := [(["course"], Os.Dir); (["course"; "Week 1"], Os.Dir);
              (["course"; "Week 1"; "2~ Intro"], Os.File "mine" 1200000)]%string;
     temps := ∅; next_tmp := 0; clock := 1500000; out := [];
     folder_dict := ∅; file_set := ∅;
     skipped := 0; updated := 0; downloaded := 0; errors := 0 |}.

(** Two runs in a row: [run] returns from [st] with the counters [c1], and
    then from what it left, as [later] finds it, with the counters [c2]. *)
Definition runs_twice (run : M unit) (later : state -> state) (st : state)
  (c1 c2 : Z * Z * Z * Z) : Prop :=
  exists st1 st2,
    run st = Done tt st1
    /\ run (later st1) = Done tt st2
    /\ counters st1 = c1
    /\ counters st2 = c2.

Section RunInputs.
#[local] Existing Instance ascii_names.

(** One course of the main block, of the files kind, with its two
    listings on one page each. *)
Definition files_course (session : string -> response) (folders : list folder)
  (files : list file) : M unit :=
  main_course session 1 plain_strftime "course" "https://canvas/api/" "42"
    (folders_at folders) (files_at files) module_listing item_listing no_file_api
    plain_strftime FILES 200 "Logic" 1 4.

(** The course of [module_listing] and [item_listing], of the modules
    kind. *)
Definition modules_course : M unit :=
  main_course one_doc_session 1 plain_strftime "course" "https://canvas/api/" "42"
    (folders_at []) (files_at []) module_listing item_listing no_file_api
    plain_strftime MODULES 200 "Logic" 1 4.

(** The state a run leaves, when it returns. *)
Definition after (run : M unit) (st : state) : state :=
  match run st with
  | Done _ st' => st'
  | _ => st
  end.

End RunInputs.
(** ** Examples: the string and path helpers on concrete inputs *)

Example lower_ex : Str.ascii_lower "Notes.PDF" = "notes.pdf"%string.
Proof. reflexivity. Qed.

Example rfind_ex : Str.rfind "."%char "a.tar.gz" = 5%Z /\ Str.rfind "."%char "README" = (-1)%Z.
Proof. split; reflexivity. Qed.

Example split_ex : Str.split_char "/"%char "/a//b/" = [""; "a"; ""; "b"; ""]%string.
Proof. reflexivity. Qed.

Example rstrip_ex : Str.rstrip_char "/"%char "a/b//" = "a/b"%string
                    /\ Str.rstrip_char "/"%char "//" = ""%string.
Proof. split; reflexivity. Qed.

Example join_ex :
  OsPath.join "course" "a.txt" = "course/a.txt"%string
  /\ OsPath.join "course/" "a.txt" = "course/a.txt"%string
  /\ OsPath.join "course" "" = "course/"%string.
Proof. repeat split; reflexivity. Qed.

Example split_ex2 :
  OsPath.split "course/sub/a.txt" = ("course/sub", "a.txt")%string
  /\ OsPath.split "a.txt" = ("", "a.txt")%string
  /\ OsPath.split "/a.txt" = ("/", "a.txt")%string.
Proof. repeat split; reflexivity. Qed.

Example normpath_ex :
  OsPath.normpath "a//b/./c/../d" = "a/b/d"%string
  /\ OsPath.normpath "" = "."%string
  /\ OsPath.normpath "/x/.old/" = "/x/.old"%string.
Proof. repeat split; reflexivity. Qed.

(** ** Running statements *)

Lemma bind_Done {A B} (m : M A) (k : A -> M B) st a st' :
  m st = Done a st' -> (m ≫= k) st = k a st'.
Proof. intros H. unfold mbind, M_bind. now rewrite H. Qed.

Lemma bind_Raised {A B} (m : M A) (k : A -> M B) st e st' :
  m st = Raised e st' -> (m ≫= k) st = Raised e st'.
Proof. intros H. unfold mbind, M_bind. now rewrite H. Qed.

Lemma for_each_app {A} (xs ys : list A) (body : A -> M unit) st :
  for_each (xs ++ ys) body st = (for_each xs body ≫= fun _ => for_each ys body) st.
Proof.
  revert st. induction xs as [|x xs IH]; intros st; simpl.
  - reflexivity.
  - unfold mbind, M_bind. destruct (body x st) as [[] st1|e st1|]; try reflexivity.
    apply IH.
Qed.

(** ** The case-insensitive lookup *)

Lemma first_insensitive_skip {L : Str.Lowering} directory filename pre rest :
  (forall g, g ∈ pre -> Str.lower g <> filename) ->
  first_insensitive directory filename (pre ++ rest)
  = first_insensitive directory filename rest.
Proof.
  induction pre as [|g pre IH]; intros Hpre; simpl.
  - reflexivity.
  - destruct (String.eqb_spec (Str.lower g) filename) as [Heq|_].
    + exfalso. apply (Hpre g); [left | exact Heq].
    + apply IH. intros h Hh. apply Hpre. now right.
Qed.

Lemma first_insensitive_hit {L : Str.Lowering} directory filename f rest :
  Str.lower f = filename ->
  first_insensitive directory filename (f :: rest) = Some (OsPath.join directory f).
Proof. intros H. simpl. now rewrite (proj2 (String.eqb_eq _ _) H). Qed.

Lemma first_insensitive_none {L : Str.Lowering} directory filename names :
  (forall g, g ∈ names -> Str.lower g <> filename) ->
  first_insensitive directory filename names = None.
Proof.
  intros H. rewrite <- (app_nil_r names). now rewrite first_insensitive_skip.
Qed.

Lemma first_insensitive_some {L : Str.Lowering} directory filename names f :
  f ∈ names -> Str.lower f = filename ->
  exists p, first_insensitive directory filename names = Some p.
Proof.
  induction names as [|g names IH]; intros Hin Hf.
  - inversion Hin.
  - simpl. destruct (String.eqb (Str.lower g) filename) eqn:E; [eauto|].
    apply IH; [|exact Hf]. inversion Hin; subst; [|assumption].
    apply String.eqb_neq in E. contradiction.
Qed.

Lemma listdir_isdir d t :
  Os.isdir d t = true -> Os.listdir d t = Ok (fst <$> Os.children (Os.resolve d) t).
Proof.
  unfold Os.isdir, Os.listdir. destruct (Os.stat (Os.resolve d) t) as [[]|]; easy.
Qed.

Lemma getfile_insensitive_run {L : Str.Lowering} path st :
  Os.isdir (if String.eqb (OsPath.split path).1 "" then "." else (OsPath.split path).1)
           (tree st) = true ->
  getfile_insensitive path st
  = Done (first_insensitive
            (if String.eqb (OsPath.split path).1 "" then "." else (OsPath.split path).1)
            (Str.lower (OsPath.split path).2)
            (fst <$> Os.children
               (Os.resolve (if String.eqb (OsPath.split path).1 "" then "."
                            else (OsPath.split path).1)) (tree st))) st.
Proof.
  intros Hd. unfold getfile_insensitive.
  destruct (OsPath.split path) as [directory filename]. simpl in *.
  unfold mbind, M_bind, os_get. now rewrite (listdir_isdir _ _ Hd).
Qed.

(** C10. The case-insensitive check lists the whole parent directory: an
    entry of either kind (a subdirectory as well as a regular file) whose
    name has the same [str.lower()] as the target name makes
    [isfile_insensitive] answer true, the path returned by
    [getfile_insensitive] is that of the first such entry in listing order,
    and there is no answer when no entry matches. This holds whatever
    function [str.lower()] is. *)
Theorem getfile_insensitive_scans_all_entries {L : Str.Lowering} path st directory filename :
  OsPath.split path = (directory, filename) ->
  let d := if String.eqb directory "" then "."%string else directory in
  Os.isdir d (tree st) = true ->
  (forall name node,
      (name, node) ∈ Os.children (Os.resolve d) (tree st) ->
      Str.lower name = Str.lower filename ->
      isfile_insensitive path st = Done true st)
  /\ (forall pre f post,
         fst <$> Os.children (Os.resolve d) (tree st) = pre ++ f :: post ->
         Str.lower f = Str.lower filename ->
         (forall g, g ∈ pre -> Str.lower g <> Str.lower filename) ->
         getfile_insensitive path st = Done (Some (OsPath.join d f)) st)
  /\ ((forall g, g ∈ fst <$> Os.children (Os.resolve d) (tree st) ->
                 Str.lower g <> Str.lower filename) ->
      getfile_insensitive path st = Done None st
      /\ isfile_insensitive path st = Done false st).
Proof.
  intros Hsplit d Hd.
  assert (Hrun := getfile_insensitive_run path st).
  rewrite Hsplit in Hrun. simpl in Hrun. specialize (Hrun Hd). fold d in Hrun.
  split; [|split].
  - intros name node Hin Hlow.
    assert (Hname : name ∈ fst <$> Os.children (Os.resolve d) (tree st)).
    { apply list_elem_of_fmap. exists (name, node). split; [reflexivity | exact Hin]. }
    destruct (first_insensitive_some d (Str.lower filename) _ name Hname Hlow) as [p Hp].
    unfold isfile_insensitive. rewrite (bind_Done _ _ _ _ _ Hrun). now rewrite Hp.
  - intros pre f post Hnames Hlow Hpre.
    rewrite Hrun, Hnames, first_insensitive_skip by exact Hpre.
    now rewrite first_insensitive_hit.
  - intros Hnone. rewrite (first_insensitive_none _ _ _ Hnone) in Hrun.
    split; [exact Hrun|].
    unfold isfile_insensitive. now rewrite (bind_Done _ _ _ _ _ Hrun).
Qed.

Section MonadOnAscii.
#[local] Existing Instance ascii_names.

Lemma getfile_insensitive_scans_all_entries_witness :
  OsPath.split "d/notes.pdf" = ("d", "notes.pdf")%string
  /\ Os.isdir "d" (tree c10_state) = true
  /\ isfile_insensitive "d/notes.pdf" c10_state = Done true c10_state
  /\ getfile_insensitive "d/notes.pdf" c10_state = Done (Some "d/NOTES.pdf"%string) c10_state.
Proof.
  destruct (getfile_insensitive_scans_all_entries "d/notes.pdf" c10_state "d" "notes.pdf"
              eq_refl eq_refl) as (Hany & Hfirst & _).
  split; [reflexivity|]. split; [reflexivity|]. split.
  - apply (Hany "NOTES.pdf"%string Os.Dir); [|reflexivity].
    vm_compute. apply list_elem_of_here.
  - apply (Hfirst [] "NOTES.pdf"%string ["Notes.pdf"%string]); [reflexivity..|].
    intros g Hg. inversion Hg.
Defined.
End MonadOnAscii.

(** ** [add_before_ext] *)

Lemma take_app_length a s : Str.take (String.length a) (a +:+ s) = a.
Proof. induction a as [|c a IH]; simpl; [now destruct s | now rewrite IH]. Qed.

Lemma drop_app_length a s : Str.drop (String.length a) (a +:+ s) = s.
Proof. induction a as [|c a IH]; simpl; [now destruct s | exact IH]. Qed.

Lemma rfind_nat_none c s : Str.contains_char c s = false <-> Str.rfind_nat c s = None.
Proof.
  induction s as [|a s IH]; simpl; [easy|].
  destruct (Ascii.eqb a c); simpl.
  - split; [easy|]. now destruct (Str.rfind_nat c s).
  - rewrite IH. now destruct (Str.rfind_nat c s).
Qed.

Lemma rfind_nat_last c a b :
  Str.contains_char c b = false ->
  Str.rfind_nat c (a +:+ String c b) = Some (String.length a).
Proof.
  intros Hb. apply rfind_nat_none in Hb.
  induction a as [|x a IH]; simpl.
  - rewrite Hb. now rewrite Ascii.eqb_refl.
  - now rewrite IH.
Qed.

Lemma add_before_ext_dot a b end_ :
  Str.contains_char "." b = false ->
  add_before_ext (a +:+ String "." b) end_ = a +:+ end_ +:+ String "." b.
Proof.
  intros Hb. unfold add_before_ext, Str.rfind.
  rewrite (rfind_nat_last _ a b Hb).
  destruct (Z.eqb_spec (Z.of_nat (String.length a)) (-1)) as [E|_]; [lia|].
  unfold Str.slice_to, Str.slice_from. rewrite Nat2Z.id.
  now rewrite take_app_length, drop_app_length.
Qed.

Lemma add_before_ext_nodot name end_ :
  Str.contains_char "." name = false ->
  add_before_ext name end_ = name +:+ end_.
Proof.
  intros Hn. unfold add_before_ext, Str.rfind.
  now rewrite (proj1 (rfind_nat_none _ _) Hn).
Qed.

(** ** The tree *)

Lemma key_eqb_refl k : Os.key_eqb k k = true.
Proof. unfold Os.key_eqb. now apply bool_decide_eq_true. Qed.

Lemma key_eqb_neq k k' : k <> k' -> Os.key_eqb k k' = false.
Proof. intros H. unfold Os.key_eqb. now apply bool_decide_eq_false. Qed.

Lemma lookup_put_eq k n t : Os.lookup_key k (Os.put k n t) = Some n.
Proof.
  induction t as [|[k' n'] t IH]; simpl.
  - now rewrite key_eqb_refl.
  - destruct (Os.key_eqb k' k) eqn:E; simpl.
    + now rewrite key_eqb_refl.
    + now rewrite E.
Qed.

Lemma lookup_put_ne k k' n t : k <> k' -> Os.lookup_key k' (Os.put k n t) = Os.lookup_key k' t.
Proof.
  intros Hne. induction t as [|[k0 n0] t IH]; simpl.
  - now rewrite key_eqb_neq.
  - destruct (Os.key_eqb k0 k) eqn:E; simpl.
    + apply bool_decide_eq_true in E. subst k0. now rewrite !key_eqb_neq.
    + now rewrite IH.
Qed.

Lemma stat_put_eq k n t : k <> [] -> Os.stat k (Os.put k n t) = Some n.
Proof. destruct k; [easy|]. intros _. apply lookup_put_eq. Qed.

Lemma stat_put_ne k k' n t : k <> k' -> Os.stat k' (Os.put k n t) = Os.stat k' t.
Proof. intros H. destruct k'; [easy|]. now apply lookup_put_ne. Qed.

Lemma put_put k n1 n2 t : Os.put k n2 (Os.put k n1 t) = Os.put k n2 t.
Proof.
  induction t as [|[k' n'] t IH]; simpl.
  - now rewrite key_eqb_refl.
  - destruct (Os.key_eqb k' k) eqn:E; simpl.
    + now rewrite key_eqb_refl.
    + now rewrite E, IH.
Qed.

Lemma lookup_delete_key_eq k t : Os.lookup_key k (Os.delete_key k t) = None.
Proof.
  induction t as [|[k' n'] t IH]; simpl; [reflexivity|].
  unfold Os.delete_key in *. rewrite filter_cons. simpl.
  destruct (decide (k' <> k)) as [Hne|Heq]; simpl.
  - now rewrite key_eqb_neq.
  - exact IH.
Qed.

Lemma lookup_delete_key_ne k k' t :
  k <> k' -> Os.lookup_key k' (Os.delete_key k t) = Os.lookup_key k' t.
Proof.
  intros Hne. induction t as [|[k0 n0] t IH]; simpl; [reflexivity|].
  unfold Os.delete_key in *. rewrite filter_cons. simpl.
  destruct (decide (k0 <> k)) as [H0|H0]; simpl.
  - now rewrite IH.
  - apply dec_stable in H0. subst k0. now rewrite key_eqb_neq.
Qed.

Lemma stat_delete_key_ne k k' t :
  k <> k' -> Os.stat k' (Os.delete_key k t) = Os.stat k' t.
Proof. intros H. destruct k'; [easy|]. now apply lookup_delete_key_ne. Qed.

Lemma parent_neq (k : Os.key) : k <> [] -> Os.parent k <> k.
Proof.
  intros Hk E. assert (H : length (Os.parent k) = length k) by now rewrite E.
  unfold Os.parent in H. rewrite removelast_firstn_len, length_take in H.
  destruct k; [easy|]. simpl in H. lia.
Qed.

Lemma wf_parent t k n :
  Os.wf t -> Os.stat k t = Some n -> k <> [] -> Os.stat (Os.parent k) t = Some Os.Dir.
Proof. intros Hwf Hs Hk. destruct k; [easy|]. now apply (Hwf _ n). Qed.

Lemma isfile_stat p t :
  Os.isfile p t = true -> exists d m, Os.stat (Os.resolve p) t = Some (Os.File d m).
Proof.
  unfold Os.isfile. destruct (Os.stat (Os.resolve p) t) as [[d m|]|]; try easy. eauto.
Qed.

Lemma stat_file_nonroot k t d m : Os.stat k t = Some (Os.File d m) -> k <> [].
Proof. now destruct k. Qed.

Lemma string_eqb_length a b :
  String.length a <> String.length b -> String.eqb a b = false.
Proof. intros H. apply String.eqb_neq. intros ->. now apply H. Qed.

(** ** [download] *)

Lemma write_ok path data now t :
  writable path t ->
  Os.write path data now t = Ok (Os.put (Os.resolve path) (Os.File data now) t).
Proof.
  intros [Hnd Hp]. unfold Os.write. rewrite Hp.
  destruct (Os.stat (Os.resolve path) t) as [[]|]; easy.
Qed.

Lemma writable_nonroot path t : writable path t -> Os.resolve path <> [].
Proof. intros [Hnd _] E. rewrite E in Hnd. now apply Hnd. Qed.

Section Download.
Context {L : Str.Lowering}.
Variable session : string -> response.

Lemma download_network_path file p st t :
  network_url (url file) = true ->
  status_code (session (url file)) = 200%Z ->
  _time file = Some t ->
  writable p (tree st) ->
  download session file (Path p) st
  = Done tt (set_tree (Os.put (Os.resolve p)
                         (Os.File (content (session (url file))) (timestamp t))
                         (tree st)) st).
Proof.
  intros Hu Hs Ht Hw. unfold network_url in Hu.
  apply andb_prop in Hu as [Hu H3]. apply andb_prop in Hu as [H1 H2].
  apply negb_true_iff in H1, H2, H3.
  unfold download. rewrite H1, H2, H3, Hs, Ht. simpl.
  unfold mbind, M_bind, open_write, os_do.
  rewrite (write_ok _ _ _ _ Hw). simpl.
  unfold utime, os_do, Os.utime. simpl.
  rewrite stat_put_eq by (now apply (writable_nonroot _ _ Hw)).
  now rewrite put_put.
Qed.

Lemma download_network_fail file dest st :
  network_url (url file) = true ->
  status_code (session (url file)) <> 200%Z ->
  download session file dest st
  = Raised (ConnectionError "Non-200 status code" (display_name file)) st.
Proof.
  intros Hu Hs. unfold network_url in Hu.
  apply andb_prop in Hu as [Hu H3]. apply andb_prop in Hu as [H1 H2].
  apply negb_true_iff in H1, H2, H3.
  unfold download. rewrite H1, H2, H3.
  now destruct (Z.eqb_spec (status_code (session (url file))) 200).
Qed.

Lemma download_empty file dest st :
  url file = ""%string ->
  download session file dest st = Done tt (print (Warning_ignored (display_name file)) st).
Proof. intros Hu. unfold download. now rewrite Hu. Qed.

End Download.

(** ** The branches of [_parse_file] *)

Ltac mstep := unfold mbind at 1; unfold M_bind at 1.

Section Branches.
Context {L : Str.Lowering}.
Variable session : string -> response.
Variable verbosity : Z.
Variable strftime_local : Z -> string.

Lemma say_run level m st : say verbosity level m st = Done tt (said verbosity level m st).
Proof. unfold say, said. now destruct (level <=? verbosity)%Z. Qed.

Lemma try_done (body : M unit) (after : M unit) st st1 st2 :
  body st = Done tt st1 -> after st1 = Done tt st2 ->
  try_except_ConnectionError (body;; after;; mret true) on_error st = Done true st2.
Proof.
  intros Hb Ha. unfold try_except_ConnectionError.
  mstep. rewrite Hb. mstep. now rewrite Ha.
Qed.

Lemma try_conn (body : M unit) (after : M bool) st st1 text name :
  body st = Raised (ConnectionError text name) st1 ->
  try_except_ConnectionError (body;; after) on_error st
  = Done false (incr_errors (print (Err_args text name) st1)).
Proof.
  intros Hb. unfold try_except_ConnectionError. mstep. now rewrite Hb.
Qed.

Lemma try_other (body : M unit) (after : M bool) st st1 e :
  body st = Raised e st1 ->
  (forall text name, e <> ConnectionError text name) ->
  try_except_ConnectionError (body;; after) on_error st = Raised e st1.
Proof.
  intros Hb He. unfold try_except_ConnectionError. mstep. rewrite Hb.
  destruct e; try reflexivity. now destruct (He msg0 name).
Qed.

Lemma parse_file_collision file st loc :
  folder_dict st !! folder_id file = Some loc ->
  Os.isfile (file_path_of loc file) (tree st) = false ->
  isfile_insensitive (file_path_of loc file) st = Done true st ->
  _parse_file session verbosity strftime_local file st
  = (ok ← try_except_ConnectionError
            (download session (timed file) (Path (collision_path strftime_local loc file));;
             modify incr_downloaded;; mret true) on_error;
     if ok : bool then modify (file_set_add (collision_path strftime_local loc file))
     else mret tt)
      (said verbosity 1 (Downloading_new_case (collision_name strftime_local file)) st).
Proof.
  intros Hl He Hi. unfold _parse_file.
  mstep. unfold gets at 1. rewrite Hl.
  mstep. unfold mret at 1, M_ret at 1.
  fold (file_name_of file). fold (file_path_of loc file).
  mstep. unfold gets at 1. rewrite He.
  mstep. rewrite Hi.
  mstep. rewrite say_run. reflexivity.
Qed.

Lemma parse_file_new file st loc :
  folder_dict st !! folder_id file = Some loc ->
  Os.isfile (file_path_of loc file) (tree st) = false ->
  isfile_insensitive (file_path_of loc file) st = Done false st ->
  url file <> ""%string ->
  _parse_file session verbosity strftime_local file st
  = (ok ← try_except_ConnectionError
            (download session (timed file) (Path (file_path_of loc file));;
             modify incr_downloaded;; mret true) on_error;
     if ok : bool then modify (file_set_add (file_path_of loc file)) else mret tt)
      (said verbosity 1 (Downloading_new (file_name_of file)) st).
Proof.
  intros Hl He Hi Hu. unfold _parse_file.
  mstep. unfold gets at 1. rewrite Hl.
  mstep. unfold mret at 1, M_ret at 1.
  fold (file_name_of file). fold (file_path_of loc file).
  mstep. unfold gets at 1. rewrite He.
  mstep. rewrite Hi.
  mstep. unfold mret at 1, M_ret at 1.
  apply String.eqb_neq in Hu. rewrite Hu. cbn [negb andb].
  mstep. rewrite say_run. reflexivity.
Qed.

Lemma parse_file_unavailable file st loc :
  folder_dict st !! folder_id file = Some loc ->
  Os.isfile (file_path_of loc file) (tree st) = false ->
  isfile_insensitive (file_path_of loc file) st = Done false st ->
  url file = ""%string ->
  _parse_file session verbosity strftime_local file st
  = Done tt (file_set_add (file_path_of loc file)
               (incr_skipped (said verbosity 2 (Skipped_latest (file_name_of file)) st))).
Proof.
  intros Hl He Hi Hu. unfold _parse_file.
  mstep. unfold gets at 1. rewrite Hl.
  mstep. unfold mret at 1, M_ret at 1.
  fold (file_name_of file). fold (file_path_of loc file).
  mstep. unfold gets at 1. rewrite He.
  mstep. rewrite Hi.
  mstep. unfold mret at 1, M_ret at 1.
  rewrite Hu. cbn [negb andb String.eqb].
  mstep. rewrite say_run. reflexivity.
Qed.

Lemma parse_file_fresh file st loc m :
  folder_dict st !! folder_id file = Some loc ->
  Os.isfile (file_path_of loc file) (tree st) = true ->
  Os.getmtime (file_path_of loc file) (tree st) = Ok m ->
  (timestamp (modified_at file) <= m)%Z ->
  _parse_file session verbosity strftime_local file st
  = Done tt (file_set_add (file_path_of loc file)
               (incr_skipped (said verbosity 2 (Skipped_latest (file_name_of file)) st))).
Proof.
  intros Hl He Hm Hle. unfold _parse_file.
  mstep. unfold gets at 1. rewrite Hl.
  mstep. unfold mret at 1, M_ret at 1.
  fold (file_name_of file). fold (file_path_of loc file).
  mstep. unfold gets at 1. rewrite He.
  mstep. unfold mret at 1, M_ret at 1.
  mstep. mstep. unfold os_get at 1. rewrite Hm.
  unfold mret at 1, M_ret at 1.
  destruct (Z.ltb_spec m (timestamp (modified_at file))) as [Hlt|_]; [lia|].
  simpl. mstep. rewrite say_run. reflexivity.
Qed.

End Branches.

(** ** The update branch *)

Section Stale.
Context {L : Str.Lowering}.
Variable session : string -> response.
Variable verbosity : Z.
Variable strftime_local : Z -> string.

Lemma parse_file_stale file st loc m :
  folder_dict st !! folder_id file = Some loc ->
  Os.isfile (file_path_of loc file) (tree st) = true ->
  Os.getmtime (file_path_of loc file) (tree st) = Ok m ->
  (m < timestamp (modified_at file))%Z ->
  _parse_file session verbosity strftime_local file st
  = (ok ← try_except_ConnectionError
            (download session (timed file) (Tmp (next_tmp st));; mret true) on_error;
     if ok : bool then
       same ← filecmp_cmp (Path (file_path_of loc file)) (Tmp (next_tmp st));
       (if same : bool then modify incr_skipped
        else
          say verbosity 1 (Found_newer (display_name file) (updated_at file));;
          modify incr_updated;;
          os_do (Os.remove (file_path_of loc file));;
          copy2 (next_tmp st) (file_path_of loc file));;
       remove_tmp (next_tmp st);;
       modify (file_set_add (file_path_of loc file))
     else mret tt) (with_scratch st).
Proof.
  intros Hl He Hm Hlt. unfold _parse_file.
  mstep. unfold gets at 1. rewrite Hl.
  mstep. unfold mret at 1, M_ret at 1.
  fold (file_name_of file). fold (file_path_of loc file).
  mstep. unfold gets at 1. rewrite He.
  mstep. unfold mret at 1, M_ret at 1.
  mstep. mstep. unfold os_get at 1. rewrite Hm.
  unfold mret at 1, M_ret at 1.
  destruct (Z.ltb_spec m (timestamp (modified_at file))) as [_|Hge]; [|lia].
  mstep. unfold NamedTemporaryFile at 1. reflexivity.
Qed.

Lemma try_done0 (body : M unit) st st1 :
  body st = Done tt st1 ->
  try_except_ConnectionError (body;; mret true) on_error st = Done true st1.
Proof. intros Hb. unfold try_except_ConnectionError. mstep. now rewrite Hb. Qed.

Lemma download_network_tmp file id st t :
  network_url (url file) = true ->
  status_code (session (url file)) = 200%Z ->
  _time file = Some t ->
  download session file (Tmp id) st
  = Done tt (set_temps (<[id := (content (session (url file)), timestamp t)]> (temps st))
               (next_tmp st) st).
Proof.
  intros Hu Hs Ht. unfold network_url in Hu.
  apply andb_prop in Hu as [Hu H3]. apply andb_prop in Hu as [H1 H2].
  apply negb_true_iff in H1, H2, H3.
  unfold download. rewrite H1, H2, H3, Hs, Ht. simpl.
  mstep. unfold open_write, utime. simpl.
  rewrite lookup_insert_eq. now rewrite insert_insert_eq.
Qed.

Lemma getmtime_stat p t d m :
  Os.stat (Os.resolve p) t = Some (Os.File d m) ->
  Os.isfile p t = true /\ Os.getmtime p t = Ok m.
Proof. intros H. unfold Os.isfile, Os.getmtime. now rewrite H. Qed.

(** The comparison of the local file with the scratch copy reads the bytes
    whenever the two modification times differ. *)
Lemma filecmp_cmp_bytes p id st d m c ts :
  Os.stat (Os.resolve p) (tree st) = Some (Os.File d m) ->
  temps st !! id = Some (c, ts) ->
  m <> ts ->
  filecmp_cmp (Path p) (Tmp id) st = Done (String.eqb d c) st.
Proof.
  intros Hp Ht Hne. unfold filecmp_cmp.
  mstep. unfold stat_loc at 1. rewrite Hp.
  mstep. unfold stat_loc at 1. rewrite Ht.
  destruct (Z.eqb_spec m ts) as [E|_]; [contradiction|].
  rewrite andb_false_r.
  destruct (Nat.eqb_spec (String.length d) (String.length c)) as [E|E]; simpl.
  - reflexivity.
  - now rewrite string_eqb_length.
Qed.

End Stale.

Section ContentExact.
Context {L : Str.Lowering}.
Variable session : string -> response.
Variable verbosity : Z.
Variable strftime_local : Z -> string.


End ContentExact.

(** ** What does not touch the counters and the two records *)

Lemma same_course_refl st : same_course st st.
Proof. now repeat split. Qed.

Lemma same_course_trans a b c : same_course a b -> same_course b c -> same_course a c.
Proof.
  intros (H1 & H2 & H3) (K1 & K2 & K3). repeat split; congruence.
Qed.

Create HintDb course discriminated.
#[local] Hint Resolve same_course_refl : course.

Lemma keeps_bind {A B} (m : M A) (k : A -> M B) :
  keeps_course m -> (forall a, keeps_course (k a)) -> keeps_course (m ≫= k).
Proof.
  intros Hm Hk st. unfold mbind, M_bind. specialize (Hm st).
  destruct (m st) as [a st1|e st1|]; auto.
  specialize (Hk a st1). destruct (k a st1); eauto using same_course_trans.
Qed.

Lemma keeps_ret {A} (a : A) : keeps_course (mret a : M A).
Proof. intros st. apply same_course_refl. Qed.

Lemma keeps_raise {A} e : keeps_course (raise e : M A).
Proof. intros st. apply same_course_refl. Qed.

Lemma keeps_gets {A} (f : state -> A) : keeps_course (gets f).
Proof. intros st. apply same_course_refl. Qed.

Lemma keeps_print m : keeps_course (modify (print m)).
Proof. intros st. now repeat split. Qed.

Lemma keeps_os_get {A} (f : Os.tree -> result A) : keeps_course (os_get f).
Proof. intros st. unfold os_get. destruct (f (tree st)); apply same_course_refl. Qed.

Lemma keeps_os_do f : keeps_course (os_do f).
Proof. intros st. unfold os_do. destruct (f (tree st)); now repeat split. Qed.

Lemma keeps_say v l m : keeps_course (say v l m).
Proof. unfold say. destruct (l <=? v)%Z; [apply keeps_print | apply keeps_ret]. Qed.

Lemma keeps_stat_loc l : keeps_course (stat_loc l).
Proof.
  intros st. unfold stat_loc. destruct l as [p|id].
  - destruct (Os.stat (Os.resolve p) (tree st)); apply same_course_refl.
  - destruct (temps st !! id) as [[d m]|]; apply same_course_refl.
Qed.

Lemma keeps_open_write dest data : keeps_course (open_write dest data).
Proof.
  intros st. unfold open_write. destruct dest; [apply keeps_os_do | now repeat split].
Qed.

Lemma keeps_touch dest : keeps_course (touch dest).
Proof.
  intros st. unfold touch. destruct dest; [apply keeps_os_do | now repeat split].
Qed.

Lemma keeps_utime dest m : keeps_course (utime dest m).
Proof.
  intros st. unfold utime. destruct dest as [p|id]; [apply keeps_os_do|].
  destruct (temps st !! id) as [[d m']|]; now repeat split.
Qed.

Lemma keeps_NamedTemporaryFile : keeps_course NamedTemporaryFile.
Proof. intros st. now repeat split. Qed.

Lemma keeps_remove_tmp id : keeps_course (remove_tmp id).
Proof. intros st. unfold remove_tmp. destruct (temps st !! id); now repeat split. Qed.

#[local] Hint Resolve keeps_ret keeps_raise keeps_gets keeps_print keeps_os_get
  keeps_os_do keeps_say keeps_stat_loc keeps_open_write keeps_touch keeps_utime
  keeps_NamedTemporaryFile keeps_remove_tmp : course.

Ltac keeps :=
  repeat first
    [ apply keeps_bind; [|intros ?]
    | match goal with
      | |- keeps_course (if ?b then _ else _) => destruct b
      | |- keeps_course (match ?x with _ => _ end) => destruct x
      end
    | solve [auto with course] ].

Lemma keeps_filecmp_cmp f1 f2 : keeps_course (filecmp_cmp f1 f2).
Proof. unfold filecmp_cmp. keeps. Qed.

Lemma keeps_copy2 src dst : keeps_course (copy2 src dst).
Proof. unfold copy2. keeps. Qed.

Lemma keeps_getfile_insensitive {L : Str.Lowering} path : keeps_course (getfile_insensitive path).
Proof. unfold getfile_insensitive. destruct (OsPath.split path). keeps. Qed.

Lemma keeps_isfile_insensitive {L : Str.Lowering} path : keeps_course (isfile_insensitive path).
Proof. unfold isfile_insensitive. apply keeps_bind; [apply keeps_getfile_insensitive|]. intros; keeps. Qed.

Lemma keeps_download session file dest : keeps_course (download session file dest).
Proof. unfold download. keeps. Qed.

#[local] Hint Resolve keeps_filecmp_cmp keeps_copy2 keeps_getfile_insensitive
  keeps_isfile_insensitive keeps_download : course.

(** ** The counters *)

Lemma try_cases (body : M unit) (rest : M bool) st :
  try_except_ConnectionError (body;; rest) on_error st
  = match body st with
    | Done _ st1 => try_except_ConnectionError rest on_error st1
    | Raised (ConnectionError text name) st1 => on_error text name st1
    | Raised e st1 => Raised e st1
    | OutOfFuel => OutOfFuel
    end.
Proof.
  unfold try_except_ConnectionError. mstep.
  destruct (body st) as [[] st1|e st1|]; try reflexivity. now destruct e.
Qed.

Ltac op lemma :=
  let T := type of lemma in
  lazymatch T with
  | keeps_course ?m =>
      lazymatch goal with
      | |- context [m ?st] =>
          let K := fresh "K" in
          pose proof (lemma st) as K; cbv beta in K;
          destruct (m st) as [? ?|? ?|]; [ | cbn; intros; discriminate.. ]
      end
  end.

Ltac op_say :=
  lazymatch goal with
  | |- context [say ?v ?l ?m ?st] => op (keeps_say v l m)
  end.

Ltac finish :=
  let H := fresh in
  intros H; injection H as <-;
  repeat match goal with H : same_course _ _ |- _ => destruct H as (? & ? & ?) end;
  unfold counters, collision_path, collision_name in *; simpl in *;
  repeat match goal with
         | H : (_, _, _, _) = (_, _, _, _) |- _ => injection H as ? ? ? ?
         end;
  split; [congruence|];
  first
    [ left; split; [first [left; congruence | right; congruence] | congruence]
    | right; left; split; [congruence | first [left; congruence | right; congruence]]
    | right; right; split; [congruence | split; [congruence | assumption]] ].

Lemma download_conn_inv session file dest st text name st' :
  download session file dest st = Raised (ConnectionError text name) st' ->
  url file <> ""%string.
Proof.
  intros H E. unfold download in H. rewrite E in H. discriminate.
Qed.

(** Whatever branch [_parse_file] takes, a call that returns has left
    [folder_dict] alone and has either counted the entry as skipped or
    updated and recorded its path, or counted it as downloaded and recorded
    its path or its renamed path, or counted it as an error, recorded
    nothing, and had a URL to fetch. *)
Lemma parse_file_cases {L : Str.Lowering} session verbosity fmt file st st' loc :
    folder_dict st !! folder_id file = Some loc ->
    _parse_file session verbosity fmt file st = Done tt st' ->
    folder_dict st' = folder_dict st
    /\ (((counters st' = ((skipped st + 1)%Z, updated st, downloaded st, errors st)
          \/ counters st' = (skipped st, (updated st + 1)%Z, downloaded st, errors st))
         /\ file_set st' = {[file_path_of loc file]} ∪ file_set st)
        \/ (counters st' = (skipped st, updated st, (downloaded st + 1)%Z, errors st)
            /\ (file_set st' = {[file_path_of loc file]} ∪ file_set st
                \/ file_set st' = {[collision_path fmt loc file]} ∪ file_set st))
        \/ (counters st' = (skipped st, updated st, downloaded st, (errors st + 1)%Z)
            /\ file_set st' = file_set st
            /\ url file <> ""%string)).
Proof.
  intros Hl. unfold _parse_file.
  mstep. unfold gets at 1. rewrite Hl.
  mstep. unfold mret at 1, M_ret at 1.
  fold (file_name_of file). fold (file_path_of loc file).
  mstep. unfold gets at 1.
  destruct (Os.isfile (file_path_of loc file) (tree st)) eqn:He.
  - mstep. unfold mret at 1, M_ret at 1.
    mstep. mstep. op (keeps_os_get (Os.getmtime (file_path_of loc file))).
    unfold mret at 1, M_ret at 1.
    destruct (a <? timestamp (modified_at file))%Z.
    + mstep. op keeps_NamedTemporaryFile.
      mstep. rewrite try_cases.
      pose proof (keeps_download session (set_time file (modified_at file)) (Tmp a0) st1) as Kd.
      destruct (download _ _ _ st1) as [[] st2|e st2|] eqn:Hd; [| |intros; discriminate].
      * change (try_except_ConnectionError (mret true) on_error st2) with (Done true st2).
        cbv iota beta.
        mstep. op (keeps_filecmp_cmp (Path (file_path_of loc file)) (Tmp a0)).
        mstep. destruct a1.
        -- unfold modify at 1. mstep. op (keeps_remove_tmp a0). unfold modify. finish.
        -- mstep. op (keeps_say verbosity 1 (Found_newer
                         (display_name (set_time file (modified_at file)))
                         (updated_at (set_time file (modified_at file))))).
           mstep. unfold modify at 1. mstep.
           op (keeps_os_do (Os.remove (file_path_of loc file))).
           op (keeps_copy2 a0 (file_path_of loc file)).
           mstep. op (keeps_remove_tmp a0). unfold modify. finish.
      * destruct e; try (intros; discriminate).
        apply download_conn_inv in Hd. unfold on_error, modify. cbn. finish.
    + cbn [negb andb]. mstep. op (keeps_say verbosity 2 (Skipped_latest (file_name_of file))).
      mstep. unfold modify. finish.
  - mstep. op (keeps_isfile_insensitive (file_path_of loc file)). destruct a.
    + mstep. op_say. mstep. rewrite try_cases.
      lazymatch goal with
      | |- context [download ?s ?f ?d ?st0] =>
          pose proof (keeps_download s f d st0) as Kd;
          destruct (download s f d st0) as [[] st2|e st2|] eqn:Hd; [| |intros; discriminate]
      end.
      * cbn. finish.
      * destruct e; try (intros; discriminate).
        apply download_conn_inv in Hd. cbn. finish.
    + mstep. unfold mret at 1, M_ret at 1.
      destruct (String.eqb (url file) ""); cbn [negb andb].
      * mstep. op_say. mstep. unfold modify. finish.
      * mstep. op_say. mstep. rewrite try_cases.
        lazymatch goal with
        | |- context [download ?s ?f ?d ?st0] =>
            pose proof (keeps_download s f d st0) as Kd;
            destruct (download s f d st0) as [[] st2|e st2|] eqn:Hd; [| |intros; discriminate]
        end.
        -- cbn. finish.
        -- destruct e; try (intros; discriminate).
        apply download_conn_inv in Hd. cbn. finish.
Qed.

Lemma parse_file_counts {L : Str.Lowering} session verbosity fmt file st st' :
    is_Some (folder_dict st !! folder_id file) ->
    _parse_file session verbosity fmt file st = Done tt st' ->
    one_more st st' /\ folder_dict st' = folder_dict st.
Proof.
  intros [loc Hl] Hrun.
  destruct (parse_file_cases _ _ _ _ _ _ _ Hl Hrun) as [Hfd Hc].
  split; [|exact Hfd]. unfold one_more.
  destruct Hc as [[[H|H] _]|[[H _]|[H _]]]; auto.
Qed.

Lemma one_more_total st st' : one_more st st' -> total st' = (total st + 1)%Z.
Proof.
  unfold one_more, counters, total.
  intros [H|[H|[H|H]]]; injection H as -> -> -> ->; lia.
Qed.


(** ** A failed download *)

Lemma isfile_insensitive_run {L : Str.Lowering} path st :
  Os.isdir (listed_dir path) (tree st) = true ->
  exists b, isfile_insensitive path st = Done b st.
Proof.
  intros Hd. unfold isfile_insensitive.
  rewrite (bind_Done _ _ _ _ _ (getfile_insensitive_run path st Hd)). eauto.
Qed.

Lemma out_said v l m st x : x ∈ out st -> x ∈ out (said v l m st).
Proof.
  unfold said. destruct (l <=? v)%Z; [|easy]. simpl. intros H.
  apply elem_of_app. now left.
Qed.

Section Failure.
Context {L : Str.Lowering}.
Variable session : string -> response.
Variable verbosity : Z.
Variable strftime_local : Z -> string.

(** C7. When the content of an entry is asked for and the answer is not a
    200, [_parse_file] returns: [errors] is one higher, the other counters,
    [file_set] and the tree are as before, what [ConnectionError] carries
    (the display name) is printed, and the loop goes on with the entries
    that follow. *)
Theorem failed_download_is_counted_and_skipped file st loc :
  folder_dict st !! folder_id file = Some loc ->
  network_url (url file) = true ->
  status_code (session (url file)) <> 200%Z ->
  wants_download loc file (tree st) ->
  exists st',
    _parse_file session verbosity strftime_local file st = Done tt st'
    /\ counters st' = (skipped st, updated st, downloaded st, (errors st + 1)%Z)
    /\ file_set st' = file_set st
    /\ tree st' = tree st
    /\ Err_args "Non-200 status code" (display_name file) ∈ out st'
    /\ forall rest,
        for_each (file :: rest) (_parse_file session verbosity strftime_local) st
        = for_each rest (_parse_file session verbosity strftime_local) st'.
Proof.
  intros Hl Hu Hs Hwant.
  assert (Hnonempty : url file <> ""%string).
  { intros E. rewrite E in Hu. discriminate. }
  assert (Hfail : forall dest st0,
             download session (timed file) dest st0
             = Raised (ConnectionError "Non-200 status code" (display_name file)) st0).
  { intros dest st0. exact (download_network_fail session (timed file) dest st0 Hu Hs). }
  assert (Hgoal : exists st',
             _parse_file session verbosity strftime_local file st = Done tt st'
             /\ counters st' = (skipped st, updated st, downloaded st, (errors st + 1)%Z)
             /\ file_set st' = file_set st
             /\ tree st' = tree st
             /\ Err_args "Non-200 status code" (display_name file) ∈ out st').
  { destruct Hwant as [(d & m & Hstat & Hlt)|[Hno Hdir]].
    - destruct (getmtime_stat _ _ _ _ Hstat) as [He Hm].
      rewrite (parse_file_stale session verbosity strftime_local file st loc m Hl He Hm Hlt).
      mstep. rewrite (try_conn _ _ _ _ _ _ (Hfail _ _)).
      eexists. split; [reflexivity|]. simpl.
      repeat split. apply elem_of_app. right. apply list_elem_of_here.
    - destruct (isfile_insensitive_run _ _ Hdir) as [b Hb]. destruct b.
      + rewrite (parse_file_collision session verbosity strftime_local file st loc Hl Hno Hb).
        mstep. rewrite (try_conn _ _ _ _ _ _ (Hfail _ _)).
        eexists. split; [reflexivity|]. simpl.
        unfold counters, said. destruct (1 <=? verbosity)%Z; simpl;
          (repeat split; apply elem_of_app; right; apply list_elem_of_here).
      + rewrite (parse_file_new session verbosity strftime_local file st loc Hl Hno Hb Hnonempty).
        mstep. rewrite (try_conn _ _ _ _ _ _ (Hfail _ _)).
        eexists. split; [reflexivity|]. simpl.
        unfold counters, said. destruct (1 <=? verbosity)%Z; simpl;
          (repeat split; apply elem_of_app; right; apply list_elem_of_here). }
  destruct Hgoal as (st' & Hrun & Hc & Hf & Ht & Ho).
  exists st'. repeat (split; [assumption|]).
  intros rest. simpl. now rewrite (bind_Done _ _ _ _ _ Hrun).
Qed.

End Failure.

(** ** An entry without a download URL *)

Lemma isfile_insensitive_false {L : Str.Lowering} path st :
  Os.isdir (listed_dir path) (tree st) = true ->
  (forall g, g ∈ fst <$> Os.children (Os.resolve (listed_dir path)) (tree st) ->
             Str.lower g <> Str.lower (OsPath.split path).2) ->
  isfile_insensitive path st = Done false st.
Proof.
  intros Hd Hnone. unfold isfile_insensitive.
  rewrite (bind_Done _ _ _ _ _ (getfile_insensitive_run path st Hd)).
  fold (listed_dir path). now rewrite (first_insensitive_none _ _ _ Hnone).
Qed.

Section C2OnAscii.
#[local] Existing Instance ascii_names.

(** C2, as stated, fails: an entry with an empty URL and nothing at its path
    is counted as skipped, not as an error, its path is recorded in
    [file_set], and no warning is printed. *)
Lemma unavailable_entry_counterexample :
  url unavailable_file = ""%string
  /\ exists st',
      _parse_file one_doc_session 1 plain_strftime unavailable_file course_state = Done tt st'
      /\ errors st' = errors course_state
      /\ skipped st' = (skipped course_state + 1)%Z
      /\ "course/a.txt"%string ∈ file_set st'
      /\ out st' = [].
Proof.
  split; [reflexivity|].
  rewrite (parse_file_unavailable one_doc_session 1 plain_strftime unavailable_file
             course_state "course");
    [|reflexivity|reflexivity| |reflexivity].
  - eexists. split; [reflexivity|]. simpl. repeat split.
  - apply isfile_insensitive_false; [reflexivity|].
    intros g Hg. vm_compute in Hg. inversion Hg.
Qed.
End C2OnAscii.

Section Unavailable.
Context {L : Str.Lowering}.
Variable session : string -> response.
Variable verbosity : Z.
Variable strftime_local : Z -> string.

(** C2, amended. For an entry whose URL is empty, a call that returns has
    not raised [errors] and has recorded a path for the entry in
    [file_set] (its path, or the renamed one of the collision branch); and
    when there is neither a local file nor a name that differs by case
    only, the call returns with the entry counted as skipped, the tree
    untouched and no warning printed. *)
Theorem unavailable_entry_is_skipped_and_recorded file st loc :
  url file = ""%string ->
  folder_dict st !! folder_id file = Some loc ->
  (forall st',
      _parse_file session verbosity strftime_local file st = Done tt st' ->
      errors st' = errors st
      /\ (file_path_of loc file ∈ file_set st'
          \/ collision_path strftime_local loc file ∈ file_set st'))
  /\ (Os.isfile (file_path_of loc file) (tree st) = false ->
      Os.isdir (listed_dir (file_path_of loc file)) (tree st) = true ->
      (forall g,
          g ∈ fst <$> Os.children (Os.resolve (listed_dir (file_path_of loc file))) (tree st) ->
          Str.lower g <> Str.lower (OsPath.split (file_path_of loc file)).2) ->
      exists st',
        _parse_file session verbosity strftime_local file st = Done tt st'
        /\ counters st' = ((skipped st + 1)%Z, updated st, downloaded st, errors st)
        /\ tree st' = tree st
        /\ file_path_of loc file ∈ file_set st'
        /\ (Warning_ignored (display_name file) ∈ out st' ->
            Warning_ignored (display_name file) ∈ out st)).
Proof.
  intros Hu Hl. split.
  - intros st' Hrun.
    destruct (parse_file_cases _ _ _ _ _ _ _ Hl Hrun) as [_ Hc].
    destruct Hc as [[Hc Hf]|[[Hc Hf]|[_ [_ Hne]]]].
    + split.
      * unfold counters in Hc. destruct Hc as [Hc|Hc]; injection Hc; auto.
      * left. rewrite Hf. apply elem_of_union_l, elem_of_singleton. reflexivity.
    + split.
      * unfold counters in Hc. injection Hc; auto.
      * destruct Hf as [Hf|Hf]; rewrite Hf; [left|right];
          apply elem_of_union_l, elem_of_singleton; reflexivity.
    + contradiction.
  - intros Hno Hdir Hnone.
    rewrite (parse_file_unavailable session verbosity strftime_local file st loc Hl Hno
               (isfile_insensitive_false _ _ Hdir Hnone) Hu).
    eexists. split; [reflexivity|]. simpl.
    unfold counters, said. destruct (2 <=? verbosity)%Z; simpl.
    + repeat split; [set_solver|]. intros Hin.
      apply elem_of_app in Hin as [Hin|Hin]; [exact Hin|].
      apply list_elem_of_singleton in Hin. discriminate.
    + repeat split; [set_solver|]. auto.
Qed.

End Unavailable.

(** ** A name that differs by case only *)

Lemma isfile_insensitive_true {L : Str.Lowering} path st name node :
  Os.isdir (listed_dir path) (tree st) = true ->
  (name, node) ∈ Os.children (Os.resolve (listed_dir path)) (tree st) ->
  Str.lower name = Str.lower (OsPath.split path).2 ->
  isfile_insensitive path st = Done true st.
Proof.
  intros Hd Hin Hlow. unfold isfile_insensitive.
  rewrite (bind_Done _ _ _ _ _ (getfile_insensitive_run path st Hd)).
  fold (listed_dir path).
  assert (Hname : name ∈ fst <$> Os.children (Os.resolve (listed_dir path)) (tree st)).
  { apply list_elem_of_fmap. exists (name, node). split; [reflexivity | exact Hin]. }
  destruct (first_insensitive_some (listed_dir path) _ _ name Hname Hlow) as [q Hq].
  now rewrite Hq.
Qed.

Lemma tree_said v l m st : tree (said v l m st) = tree st.
Proof. unfold said. now destruct (l <=? v)%Z. Qed.

Lemma counters_said v l m st : counters (said v l m st) = counters st.
Proof. unfold said. now destruct (l <=? v)%Z. Qed.

Lemma file_set_said v l m st : file_set (said v l m st) = file_set st.
Proof. unfold said. now destruct (l <=? v)%Z. Qed.

Section Collision.
Context {L : Str.Lowering}.
Variable session : string -> response.
Variable verbosity : Z.
Variable strftime_local : Z -> string.


End Collision.

(** ** Pagination *)

Lemma bind_ret_unit (m : M unit) st : (m ≫= fun _ => mret tt) st = m st.
Proof. unfold mbind, M_bind. now destruct (m st) as [[] st1|e st1|]. Qed.

Lemma bind_assoc {A B C} (m : M A) (k : A -> M B) (h : B -> M C) st :
  ((m ≫= k) ≫= h) st = (m ≫= fun a => k a ≫= h) st.
Proof. unfold mbind, M_bind. now destruct (m st). Qed.

Lemma do_all_pages_done {A} fuel (get : string -> page A) h st :
  do_all_pages fuel get "" h st = Done tt st.
Proof. now destruct fuel. Qed.

Lemma raise_for_status_ok status st :
  is_error_status status = false -> raise_for_status status st = Done tt st.
Proof. unfold raise_for_status, is_error_status. now intros ->. Qed.

Lemma raise_for_status_error status st :
  is_error_status status = true -> raise_for_status status st = Raised (HTTPError status) st.
Proof. unfold raise_for_status, is_error_status. now intros ->. Qed.

Lemma do_all_pages_step {A} fuel (get : string -> page A) url h st :
  url <> ""%string ->
  do_all_pages (S fuel) get url h st
  = (raise_for_status (page_status (get url));;
     for_each (page_items (get url)) h;;
     do_all_pages fuel get (next_url (get url)) h) st.
Proof.
  intros Hne. apply String.eqb_neq in Hne. simpl. now rewrite Hne.
Qed.

Lemma do_all_pages_chain {A} (get : string -> page A) h pages :
  forall url last fuel st,
    chain get url pages last ->
    do_all_pages (length pages + fuel) get url h st
    = (for_each (all_items pages) h;; do_all_pages fuel get last h) st.
Proof.
  induction pages as [|p pages IH]; intros url last fuel st Hc; simpl in Hc.
  - subst last. reflexivity.
  - destruct Hc as (Hne & Hget & Hok & Hrest).
    change (length (p :: pages) + fuel) with (S (length pages + fuel)).
    rewrite do_all_pages_step by exact Hne. rewrite Hget.
    mstep. rewrite (raise_for_status_ok _ _ Hok).
    unfold all_items. simpl. fold (all_items pages).
    mstep. symmetry. mstep. rewrite for_each_app. mstep.
    destruct (for_each (page_items p) h st) as [[] st1|e st1|]; try reflexivity.
    symmetry.
    apply IH. exact Hrest.
Qed.

Lemma handed_for_each {A} (h : A -> M unit) xs :
  forall st, handed h xs st (for_each xs h st).
Proof.
  induction xs as [|x xs IH]; intros st; simpl.
  - constructor.
  - unfold mbind, M_bind.
    destruct (h x st) as [[] st1|e st1|] eqn:Hx.
    + eapply handed_next; [exact Hx | apply IH].
    + now apply handed_raised.
    + now apply handed_out_of_fuel.
Qed.

Lemma handed_unique {A} (h : A -> M unit) xs st o o' :
  handed h xs st o -> handed h xs st o' -> o = o'.
Proof.
  intros H. revert o'.
  induction H as [st|x xs st st1 o Hx _ IH|x xs st e st1 Hx|x xs st Hx];
    intros o' H'; inversion H'; subst; try congruence.
  apply IH. congruence.
Qed.

(** C5. When the listing is followed from its first URL through any number
    of pages to a page without a next link, [do_all_pages] (given fuel for
    that many pages) calls the handler on the items of all the pages, each
    once, in the order of the arrays and of the pages, every call from the
    state the call before it left, and its outcome is that of the last call
    (or of the first call that does not return); a handler that records
    what it is given so records [all_items pages]. When a page answers with
    an error status, the handler gets the items of the pages before it, and
    the call then raises the HTTP error from the state they left: it does
    not return. *)
Theorem do_all_pages_delivers_every_item_in_order
  {A} (get : string -> page A) (h : A -> M unit) url pages fuel st :
  length pages <= fuel ->
  (chain get url pages "" ->
   handed h (all_items pages) st (do_all_pages fuel get url h st))
  /\ (forall bad,
         chain get url pages bad ->
         bad <> ""%string ->
         is_error_status (page_status (get bad)) = true ->
         length pages < fuel ->
         (exists o,
             handed h (all_items pages) st o
             /\ do_all_pages fuel get url h st
                = match o with
                  | Done _ st1 => Raised (HTTPError (page_status (get bad))) st1
                  | _ => o
                  end)
         /\ forall st', do_all_pages fuel get url h st <> Done tt st').
Proof.
  intros Hfuel. split.
  - intros Hc.
    replace fuel with (length pages + (fuel - length pages)) by lia.
    rewrite (do_all_pages_chain get h pages url "" _ st Hc).
    unfold mbind, M_bind.
    pose proof (handed_for_each h (all_items pages) st) as Hh.
    destruct (for_each (all_items pages) h st) as [[] st1|e st1|]; try exact Hh.
    now rewrite do_all_pages_done.
  - intros bad Hc Hbad Herr Hlt.
    assert (Heq : do_all_pages fuel get url h st
                  = (for_each (all_items pages) h;;
                     raise (HTTPError (page_status (get bad)))) st).
    { replace fuel with (length pages + S (fuel - length pages - 1)) by lia.
      rewrite (do_all_pages_chain get h pages url bad _ st Hc).
      mstep. symmetry. mstep. symmetry.
      destruct (for_each (all_items pages) h st) as [[] st1|e st1|]; try reflexivity.
      rewrite do_all_pages_step by exact Hbad.
      mstep. now rewrite (raise_for_status_error _ _ Herr). }
    split.
    + exists (for_each (all_items pages) h st). split; [apply handed_for_each|].
      rewrite Heq. unfold mbind, M_bind.
      now destruct (for_each (all_items pages) h st) as [[] st1|e st1|].
    + intros st'. rewrite Heq. unfold mbind, M_bind.
      now destruct (for_each (all_items pages) h st) as [[] st1|e st1|].
Qed.

(** ** What does not touch the files *)

Lemma same_files_refl st : same_files st st.
Proof. now split. Qed.

Lemma same_files_trans a b c : same_files a b -> same_files b c -> same_files a c.
Proof. intros [H1 H2] [K1 K2]. split; congruence. Qed.

Lemma files_bind {A B} (m : M A) (k : A -> M B) :
  keeps_files m -> (forall a, keeps_files (k a)) -> keeps_files (m ≫= k).
Proof.
  intros Hm Hk st. unfold mbind, M_bind. specialize (Hm st).
  destruct (m st) as [a st1|e st1|]; auto.
  specialize (Hk a st1). destruct (k a st1); eauto using same_files_trans.
Qed.

Lemma files_ret {A} (a : A) : keeps_files (mret a : M A).
Proof. intros st. apply same_files_refl. Qed.

Lemma files_raise {A} e : keeps_files (raise e : M A).
Proof. intros st. apply same_files_refl. Qed.

Lemma files_gets {A} (f : state -> A) : keeps_files (gets f).
Proof. intros st. apply same_files_refl. Qed.

Lemma files_print m : keeps_files (modify (print m)).
Proof. intros st. now split. Qed.

Lemma files_os_get {A} (f : Os.tree -> result A) : keeps_files (os_get f).
Proof. intros st. unfold os_get. destruct (f (tree st)); apply same_files_refl. Qed.

Lemma files_say v l m : keeps_files (say v l m).
Proof. unfold say. destruct (l <=? v)%Z; [apply files_print | apply files_ret]. Qed.

Lemma files_stat_loc l : keeps_files (stat_loc l).
Proof.
  intros st. unfold stat_loc. destruct l as [p|id].
  - destruct (Os.stat (Os.resolve p) (tree st)); apply same_files_refl.
  - destruct (temps st !! id) as [[d m]|]; apply same_files_refl.
Qed.

Create HintDb files discriminated.
#[local] Hint Resolve files_ret files_raise files_gets files_print files_os_get
  files_say files_stat_loc : files.

Ltac keeps_f :=
  repeat first
    [ apply files_bind; [|intros ?]
    | match goal with
      | |- keeps_files (if ?b then _ else _) => destruct b
      | |- keeps_files (match ?x with _ => _ end) => destruct x
      end
    | solve [auto with files] ].

Lemma files_filecmp_cmp f1 f2 : keeps_files (filecmp_cmp f1 f2).
Proof. unfold filecmp_cmp. keeps_f. Qed.

Lemma files_getfile_insensitive {L : Str.Lowering} path : keeps_files (getfile_insensitive path).
Proof. unfold getfile_insensitive. destruct (OsPath.split path). keeps_f. Qed.

Lemma files_isfile_insensitive {L : Str.Lowering} path : keeps_files (isfile_insensitive path).
Proof.
  unfold isfile_insensitive. apply files_bind; [apply files_getfile_insensitive|].
  intros; keeps_f.
Qed.

(** *** What [download] does to its destination *)

Lemma write_inv path data now t t' :
  Os.write path data now t = Ok t' ->
  t' = Os.put (Os.resolve path) (Os.File data now) t /\ Os.resolve path <> [].
Proof.
  unfold Os.write. intros H.
  destruct (Os.stat (Os.resolve path) t) as [[d m|]|] eqn:Hs;
    destruct (Os.stat (Os.parent (Os.resolve path)) t) as [[d' m'|]|];
    try discriminate; injection H as <-; split; try reflexivity;
    intros E; rewrite E in Hs; discriminate.
Qed.

Lemma download_path_inv session file q st st' t :
  network_url (url file) = true ->
  _time file = Some t ->
  download session file (Path q) st = Done tt st' ->
  tree st' = Os.put (Os.resolve q) (Os.File (content (session (url file))) (timestamp t))
               (tree st)
  /\ temps st' = temps st.
Proof.
  intros Hu Ht. unfold network_url in Hu.
  apply andb_prop in Hu as [Hu H3]. apply andb_prop in Hu as [H1 H2].
  apply negb_true_iff in H1, H2, H3.
  unfold download. rewrite H1, H2, H3, Ht.
  destruct (status_code (session (url file)) =? 200)%Z; [|discriminate].
  mstep. unfold open_write at 1, os_do at 1.
  destruct (Os.write q (content (session (url file))) (clock st) (tree st)) as [t1|e] eqn:Hw;
    [|discriminate].
  destruct (write_inv _ _ _ _ _ Hw) as [-> Hk].
  unfold utime, os_do, Os.utime. simpl.
  rewrite stat_put_eq by exact Hk. rewrite put_put.
  intros H. injection H as <-. now split.
Qed.

Lemma download_tmp_inv session file id st st' t :
  network_url (url file) = true ->
  _time file = Some t ->
  download session file (Tmp id) st = Done tt st' ->
  tree st' = tree st
  /\ temps st' !! id = Some (content (session (url file)), timestamp t).
Proof.
  intros Hu Ht. unfold network_url in Hu.
  apply andb_prop in Hu as [Hu H3]. apply andb_prop in Hu as [H1 H2].
  apply negb_true_iff in H1, H2, H3.
  unfold download. rewrite H1, H2, H3, Ht.
  destruct (status_code (session (url file)) =? 200)%Z; [|discriminate].
  mstep. unfold open_write at 1, utime. simpl. rewrite lookup_insert_eq.
  intros H. injection H as <-. simpl. split; [reflexivity|apply lookup_insert_eq].
Qed.

Lemma os_do_raised f st e st' :
  os_do f st = Raised e st' -> st' = st /\ f (tree st) = Raise e.
Proof.
  unfold os_do. destruct (f (tree st)) as [t|x]; [discriminate|].
  intros H. injection H as -> ->. now split.
Qed.

Lemma open_write_raised dest data st e st' :
  open_write dest data st = Raised e st' -> st' = st.
Proof.
  unfold open_write. destruct dest; [|discriminate].
  intros H. now apply os_do_raised in H.
Qed.

Lemma touch_raised dest st e st' : touch dest st = Raised e st' -> st' = st.
Proof.
  unfold touch. destruct dest; [|discriminate].
  intros H. now apply os_do_raised in H.
Qed.

Lemma utime_raised dest m st e st' :
  utime dest m st = Raised e st' -> e = FileNotFoundError.
Proof.
  unfold utime. destruct dest as [p|id].
  - intros H. apply os_do_raised in H as [_ H]. unfold Os.utime in H.
    destruct (Os.stat (Os.resolve p) (tree st)) as [[]|]; try discriminate.
    now injection H.
  - destruct (temps st !! id) as [[]|]; [discriminate|].
    intros H. now injection H.
Qed.

(** [download] raises [ConnectionError] before it has changed anything. *)
Lemma download_conn_state session file dest st text name st' :
  download session file dest st = Raised (ConnectionError text name) st' -> st' = st.
Proof.
  unfold download.
  destruct (String.eqb (url file) ""); [discriminate|].
  destruct (Str.startswith "URL:" (url file)); [apply open_write_raised|].
  destruct (Str.startswith "SubHeader:" (url file)); [apply touch_raised|].
  destruct (status_code (session (url file)) =? 200)%Z.
  - mstep.
    destruct (open_write dest (content (session (url file))) st) as [[] st1|x st1|] eqn:Hw.
    + destruct (_time file); [|discriminate].
      intros H. apply utime_raised in H. discriminate.
    + intros H. injection H as -> ->. now apply open_write_raised in Hw.
    + discriminate.
  - intros H. now injection H.
Qed.

(** ** Modification times *)

Ltac opf lemma :=
  let T := type of lemma in
  lazymatch T with
  | keeps_files ?m =>
      lazymatch goal with
      | |- context [m ?st] =>
          let K := fresh "F" in
          pose proof (lemma st) as K; cbv beta in K;
          destruct (m st) as [? ?|? ?|]; [ destruct K | cbn; intros; discriminate.. ]
      end
  end.

Ltac opf_say :=
  lazymatch goal with
  | |- context [say ?v ?l ?m ?st] => opf (files_say v l m)
  end.

Lemma remove_inv path t t' :
  Os.remove path t = Ok t' -> t' = Os.delete_key (Os.resolve path) t.
Proof.
  unfold Os.remove. destruct (Os.stat (Os.resolve path) t) as [[]|]; try discriminate.
  intros H. now injection H.
Qed.

Lemma remove_tmp_inv id st st' :
  remove_tmp id st = Done tt st' -> tree st' = tree st.
Proof.
  unfold remove_tmp. destruct (temps st !! id); [|discriminate].
  intros H. now injection H as <-.
Qed.

(** What a call of [_parse_file] that returns has done to the tree, for an
    entry whose content is fetched over the network: nothing, or the fetched
    bytes under the remote time at the entry's path, at its renamed path, or
    at its path in place of the file that was there. *)
Lemma parse_file_tree_effect {L : Str.Lowering} session verbosity fmt file st st' loc :
  network_url (url file) = true ->
  folder_dict st !! folder_id file = Some loc ->
  _parse_file session verbosity fmt file st = Done tt st' ->
  let c := content (session (url file)) in
  let ts := timestamp (modified_at file) in
  tree st' = tree st
  \/ tree st' = Os.put (Os.resolve (file_path_of loc file)) (Os.File c ts) (tree st)
  \/ tree st' = Os.put (Os.resolve (collision_path fmt loc file)) (Os.File c ts) (tree st)
  \/ tree st' = Os.put (Os.resolve (file_path_of loc file)) (Os.File c ts)
                  (Os.delete_key (Os.resolve (file_path_of loc file)) (tree st)).
Proof.
  intros Hu Hl Hrun0. cbv zeta. revert Hrun0. unfold _parse_file.
  mstep. unfold gets at 1. rewrite Hl.
  mstep. unfold mret at 1, M_ret at 1.
  fold (file_name_of file). fold (file_path_of loc file).
  mstep. unfold gets at 1.
  destruct (Os.isfile (file_path_of loc file) (tree st)) eqn:He.
  - mstep. unfold mret at 1, M_ret at 1.
    mstep. mstep. opf (files_os_get (Os.getmtime (file_path_of loc file))).
    unfold mret at 1, M_ret at 1.
    destruct (a <? timestamp (modified_at file))%Z.
    + mstep. unfold NamedTemporaryFile at 1.
      set (id := next_tmp st0).
      set (st1 := set_temps _ _ st0).
      mstep. rewrite try_cases.
      destruct (download session (set_time file (modified_at file)) (Tmp id) st1)
        as [[] st2|e st2|] eqn:Hd; [| |intros; discriminate].
      * destruct (download_tmp_inv session (set_time file (modified_at file)) id st1 st2
                    (modified_at file) Hu eq_refl Hd) as [Ht2 Hid].
        change (try_except_ConnectionError (mret true) on_error st2) with (Done true st2).
        cbv iota beta.
        mstep. opf (files_filecmp_cmp (Path (file_path_of loc file)) (Tmp id)).
        mstep. destruct a0.
        -- unfold modify at 1. mstep.
           destruct (remove_tmp id (incr_skipped st3)) as [[] st4|e st4|] eqn:Hr;
             try (intros; discriminate).
           apply remove_tmp_inv in Hr. unfold modify. intros Hrun. injection Hrun as <-.
           left. simpl in *. congruence.
        -- mstep. opf_say. mstep. unfold modify at 1. mstep.
           unfold os_do at 1.
           destruct (Os.remove (file_path_of loc file) (tree (incr_updated st4)))
             as [t5|e5] eqn:Hrm; [|intros; discriminate].
           apply remove_inv in Hrm. subst t5.
           unfold copy2. mstep. unfold stat_loc at 1.
           replace (temps (set_tree _ (incr_updated st4)) !! id)
             with (Some (content (session (url file)), timestamp (modified_at file))).
           2:{ simpl. symmetry. rewrite H4, H2. exact Hid. }
           unfold os_do at 1.
           destruct (Os.write (file_path_of loc file) _ _ _) as [t6|e6] eqn:Hw;
             [|intros; discriminate].
           apply write_inv in Hw as [-> _].
           mstep.
           destruct (remove_tmp id _) as [[] st7|e st7|] eqn:Hr;
             try (intros; discriminate).
           apply remove_tmp_inv in Hr. unfold modify. intros Hrun. injection Hrun as <-.
           right. right. right. simpl in *. rewrite Hr. congruence.
      * destruct e; try (intros; discriminate).
        apply download_conn_state in Hd. subst st2.
        cbn. intros Hrun. injection Hrun as <-. left. simpl. congruence.
    + cbn [negb andb]. mstep. opf_say. mstep. unfold modify.
      intros Hrun. injection Hrun as <-. left. simpl. congruence.
  - mstep. opf (files_isfile_insensitive (file_path_of loc file)). destruct a.
    + mstep. opf_say. mstep. rewrite try_cases.
      lazymatch goal with
      | |- context [download ?s ?f ?d ?st0] =>
          destruct (download s f d st0) as [[] st2|e st2|] eqn:Hd; [| |intros; discriminate]
      end.
      * apply (download_path_inv session (set_time file (modified_at file)) _ _ _
                 (modified_at file) Hu eq_refl) in Hd as [Hd _].
        cbn. intros Hrun. injection Hrun as <-. right. right. left. simpl.
        rewrite Hd. cbn [url set_time]. unfold collision_path, collision_name. congruence.
      * destruct e; try (intros; discriminate).
        apply download_conn_state in Hd. subst st2.
        cbn. intros Hrun. injection Hrun as <-. left. simpl. congruence.
    + mstep. unfold mret at 1, M_ret at 1.
      destruct (String.eqb (url file) ""); cbn [negb andb].
      * mstep. opf_say. mstep. unfold modify.
        intros Hrun. injection Hrun as <-. left. simpl. congruence.
      * mstep. opf_say. mstep. rewrite try_cases.
        lazymatch goal with
        | |- context [download ?s ?f ?d ?st0] =>
            destruct (download s f d st0) as [[] st2|e st2|] eqn:Hd; [| |intros; discriminate]
        end.
        -- apply (download_path_inv session (set_time file (modified_at file)) _ _ _
                 (modified_at file) Hu eq_refl) in Hd as [Hd _].
           cbn. intros Hrun. injection Hrun as <-. right. left. simpl.
           rewrite Hd. cbn [url set_time]. congruence.
        -- destruct e; try (intros; discriminate).
           apply download_conn_state in Hd. subst st2.
           cbn. intros Hrun. injection Hrun as <-. left. simpl. congruence.
Qed.

Lemma clock_said v l m st : clock (said v l m st) = clock st.
Proof. unfold said. now destruct (l <=? v)%Z. Qed.

Lemma stub_url_nonempty u : stub_url u = true -> String.eqb u "" = false.
Proof. now destruct u. Qed.

(** A stub is written at the time of the clock. *)
Lemma download_stub_path session file q st :
  stub_url (url file) = true ->
  writable q (tree st) ->
  Os.stat (Os.resolve q) (tree st) = None ->
  exists data,
    download session file (Path q) st
    = Done tt (set_tree (Os.put (Os.resolve q) (Os.File data (clock st)) (tree st)) st).
Proof.
  intros Hu Hw Hnone. unfold download.
  rewrite (stub_url_nonempty _ Hu).
  destruct (Str.startswith "URL:" (url file)) eqn:E1.
  - eexists. unfold open_write, os_do. now rewrite (write_ok _ _ _ _ Hw).
  - unfold stub_url in Hu. rewrite E1, orb_false_l in Hu. rewrite Hu.
    exists ""%string. unfold touch, os_do, Os.touch. rewrite Hnone.
    destruct Hw as [_ Hp]. now rewrite Hp.
Qed.

Section RemoteTime.
Context {L : Str.Lowering}.
Variable session : string -> response.
Variable verbosity : Z.
Variable strftime_local : Z -> string.

(** C8, amended. For an entry whose content is fetched over the network,
    every file that a returning call of [_parse_file] has created or
    changed holds the fetched bytes and has the remote [modified_at] as its
    modification time. A shortcut stub or a sub-header placeholder written
    where there was nothing carries the time of the write instead. *)
Theorem fetched_files_carry_remote_time file st loc :
  folder_dict st !! folder_id file = Some loc ->
  (network_url (url file) = true ->
   forall st',
     _parse_file session verbosity strftime_local file st = Done tt st' ->
     forall k d m,
       Os.stat k (tree st') = Some (Os.File d m) ->
       Os.stat k (tree st) <> Some (Os.File d m) ->
       m = timestamp (modified_at file) /\ d = content (session (url file)))
  /\ (stub_url (url file) = true ->
      Os.stat (Os.resolve (file_path_of loc file)) (tree st) = None ->
      writable (file_path_of loc file) (tree st) ->
      isfile_insensitive (file_path_of loc file) st = Done false st ->
      exists st' data,
        _parse_file session verbosity strftime_local file st = Done tt st'
        /\ Os.stat (Os.resolve (file_path_of loc file)) (tree st')
           = Some (Os.File data (clock st))).
Proof.
  intros Hl. split.
  - intros Hu st' Hrun k d m Hnew Hold.
    assert (Hput : forall q t,
               Os.stat k (Os.put q (Os.File (content (session (url file)))
                                      (timestamp (modified_at file))) t)
               = Some (Os.File d m) ->
               Os.stat k t <> Some (Os.File d m) ->
               m = timestamp (modified_at file) /\ d = content (session (url file))).
    { intros q t Hs Ht. destruct (decide (q = k)) as [->|Hne].
      - destruct k as [|x k]; [discriminate|].
        rewrite stat_put_eq in Hs by discriminate. injection Hs as <- <-. now split.
      - rewrite stat_put_ne in Hs by exact Hne. contradiction. }
    destruct (parse_file_tree_effect session verbosity strftime_local file st st' loc
                Hu Hl Hrun) as [E|[E|[E|E]]]; rewrite E in Hnew.
    + contradiction.
    + exact (Hput _ _ Hnew Hold).
    + exact (Hput _ _ Hnew Hold).
    + apply (Hput _ _ Hnew). intros Hs.
      destruct (decide (Os.resolve (file_path_of loc file) = k)) as [Ek|Hne].
      * subst k. destruct (Os.resolve (file_path_of loc file)); [discriminate|].
        simpl in Hs. rewrite lookup_delete_key_eq in Hs. discriminate.
      * rewrite stat_delete_key_ne in Hs by exact Hne. contradiction.
  - intros Hu Hnone Hw Hi.
    assert (He : Os.isfile (file_path_of loc file) (tree st) = false)
      by (unfold Os.isfile; now rewrite Hnone).
    assert (Hne : url file <> ""%string).
    { intros E. rewrite E in Hu. discriminate. }
    rewrite (parse_file_new session verbosity strftime_local file st loc Hl He Hi Hne).
    set (st1 := said _ _ _ st).
    destruct (download_stub_path session (timed file) (file_path_of loc file) st1)
      as [data Hd]; [exact Hu| subst st1; now rewrite tree_said..|].
    mstep. rewrite (try_done _ (modify incr_downloaded) _ _ _ Hd eq_refl).
    eexists _, data. split; [reflexivity|]. simpl.
    subst st1. rewrite clock_said. apply stat_put_eq. exact (writable_nonroot _ _ Hw).
Qed.

End RemoteTime.

Section C8OnAscii.
#[local] Existing Instance ascii_names.

(** C8, as stated, fails for the files that are not fetched: the placeholder
    of a sub-header is written by [touch] and keeps the time of the write,
    which is not the [modified_at] of the entry. *)
Lemma placeholder_time_counterexample :
  _parse_moduleitem one_doc_session 1 plain_strftime no_file_api plain_strftime 7
    subheader_item module_state
  = _parse_file one_doc_session 1 plain_strftime subheader_entry module_state
  /\ exists st',
      _parse_file one_doc_session 1 plain_strftime subheader_entry module_state = Done tt st'
      /\ Os.stat ["course"; "Week 1"; "2~ Intro"]%string (tree st')
         = Some (Os.File "" 1500000)
      /\ 1500000%Z <> timestamp (modified_at subheader_entry).
Proof.
  split; [reflexivity|].
  rewrite (parse_file_new one_doc_session 1 plain_strftime subheader_entry module_state
             "course/Week 1"); [|reflexivity|reflexivity| |discriminate].
  - eexists. split; [reflexivity|]. split; [reflexivity|]. discriminate.
  - apply isfile_insensitive_false; [reflexivity|].
    intros g Hg. vm_compute in Hg. inversion Hg.
Qed.
End C8OnAscii.

(** ** Paths made by [os.path.join] *)

Lemma app_nil (b : string) : "" +:+ b = b.
Proof. reflexivity. Qed.

Lemma app_cons x (a b : string) : String x a +:+ b = String x (a +:+ b).
Proof. reflexivity. Qed.

Lemma append_assoc (a b c : string) : (a +:+ b) +:+ c = a +:+ (b +:+ c).
Proof.
  induction a as [|x a IH]; [reflexivity|]. rewrite !app_cons. now f_equal.
Qed.

Lemma append_nil_r (a : string) : a +:+ "" = a.
Proof. induction a as [|x a IH]; [reflexivity|]. rewrite app_cons. now f_equal. Qed.

Lemma split_char_nonempty c s : Str.split_char c s <> [].
Proof.
  induction s as [|a s IH]; simpl; [easy|].
  destruct (Ascii.eqb a c); [easy|]. now destruct (Str.split_char c s).
Qed.

Lemma split_char_app_sep c a b :
  Str.split_char c (a +:+ String c b) = Str.split_char c a ++ Str.split_char c b.
Proof.
  induction a as [|x a IH]; [rewrite app_nil|rewrite app_cons]; simpl.
  - now rewrite Ascii.eqb_refl.
  - rewrite IH. destruct (Ascii.eqb x c); [reflexivity|].
    pose proof (split_char_nonempty c a) as Hne.
    destruct (Str.split_char c a) as [|f fs]; [contradiction|reflexivity].
Qed.

Lemma split_char_nosep c x :
  Str.contains_char c x = false -> Str.split_char c x = [x].
Proof.
  induction x as [|a x IH]; simpl; [reflexivity|].
  intros H. apply orb_false_iff in H as [Ha Hx]. rewrite Ha, (IH Hx). reflexivity.
Qed.

Lemma split_char_free c s f :
  f ∈ Str.split_char c s -> Str.contains_char c f = false.
Proof.
  revert f. induction s as [|a s IH]; simpl; intros f Hf.
  - apply list_elem_of_singleton in Hf. now subst f.
  - destruct (Ascii.eqb a c) eqn:E.
    + apply elem_of_cons in Hf as [->|Hf]; [reflexivity|auto].
    + pose proof (split_char_nonempty c s) as Hne.
      destruct (Str.split_char c s) as [|g gs]; [contradiction|].
      apply elem_of_cons in Hf as [->|Hf].
      * simpl. rewrite E. apply IH. apply list_elem_of_here.
      * apply IH. now apply list_elem_of_further.
Qed.

Lemma endswith_char_app c s :
  Str.endswith_char c s = true -> exists s', s = s' +:+ String c "".
Proof.
  induction s as [|a s IH]; simpl; [discriminate|].
  destruct s as [|b s].
  - intros H. apply Ascii.eqb_eq in H. subst a. now exists ""%string.
  - intros H. destruct (IH H) as [s' Hs']. exists (String a s'). rewrite app_cons. now rewrite <- Hs'.
Qed.

Lemma startswith_sep_app a b :
  a <> ""%string -> Str.startswith "/" (a +:+ b) = Str.startswith "/" a.
Proof. destruct a as [|x a]; [easy|]. intros _. reflexivity. Qed.

(** *** The loop of [normpath] over more components *)

Lemma norm_loop_app i cs :
  forall acc, exists acc',
    OsPath.norm_loop i cs acc = rev acc'
    /\ forall ds, OsPath.norm_loop i (cs ++ ds) acc = OsPath.norm_loop i ds acc'.
Proof.
  induction cs as [|c cs IH]; intros acc; simpl.
  - exists acc. split; reflexivity.
  - destruct (String.eqb c "" || String.eqb c "."); [apply IH|].
    destruct (negb (String.eqb c "..") || _ || _); apply IH.
Qed.

Lemma norm_loop_proper i x acc :
  proper_name x = true -> OsPath.norm_loop i [x] acc = rev acc ++ [x].
Proof.
  unfold proper_name. intros H.
  apply andb_prop in H as [H H4]. apply andb_prop in H as [H H3].
  apply andb_prop in H as [H1 H2]. apply negb_true_iff in H1, H3, H4.
  simpl. rewrite H1, H3, H4. reflexivity.
Qed.

Lemma norm_loop_empty i acc : OsPath.norm_loop i [""%string] acc = rev acc.
Proof. reflexivity. Qed.

Lemma proper_name_nosep x : proper_name x = true -> Str.contains_char OsPath.sep x = false.
Proof.
  unfold proper_name. intros H.
  apply andb_prop in H as [H _]. apply andb_prop in H as [H _].
  apply andb_prop in H as [_ H]. now apply negb_true_iff in H.
Qed.

Lemma proper_name_nostart x : proper_name x = true -> Str.startswith "/" x = false.
Proof.
  intros H. apply proper_name_nosep in H. destruct x as [|a x]; [reflexivity|].
  change (Str.contains_char OsPath.sep (String a x))
    with (Ascii.eqb a "/" || Str.contains_char "/" x) in H.
  apply orb_false_iff in H as [H _].
  change (Str.startswith "/" (String a x)) with (Ascii.eqb "/" a && true).
  now rewrite Ascii.eqb_sym, H.
Qed.

(** The entry that [os.path.join(s, x)] names lies in the directory that [s]
    names, under the name [x]. *)
Lemma resolve_join s x :
  proper_name x = true -> Os.resolve (OsPath.join s x) = Os.resolve s ++ [x].
Proof.
  intros Hx. unfold Os.resolve, OsPath.norm_comps, OsPath.join.
  rewrite (proper_name_nostart x Hx).
  pose proof (proper_name_nosep x Hx) as Hsep.
  destruct (String.eqb_spec s "") as [->|Hs]; simpl orb.
  - cbv iota. rewrite app_nil. rewrite (proper_name_nostart x Hx).
    rewrite (split_char_nosep _ _ Hsep). now rewrite norm_loop_proper.
  - destruct (Str.endswith_char OsPath.sep s) eqn:He.
    + cbv iota. rewrite startswith_sep_app by exact Hs.
      set (flag := Str.startswith "/" s).
      destruct (endswith_char_app _ _ He) as [s' ->].
      rewrite append_assoc, app_cons, app_nil.
      rewrite !split_char_app_sep. rewrite (split_char_nosep _ _ Hsep).
      change (Str.split_char OsPath.sep "") with [""%string].
      destruct (norm_loop_app flag (Str.split_char OsPath.sep s') [])
        as (acc' & Hacc & Happ).
      rewrite !Happ. rewrite norm_loop_empty. now rewrite norm_loop_proper.
    + cbv iota. rewrite startswith_sep_app by exact Hs.
      change (s +:+ "/" +:+ x) with (s +:+ String OsPath.sep x).
      rewrite split_char_app_sep, (split_char_nosep _ _ Hsep).
      destruct (norm_loop_app (Str.startswith "/" s) (Str.split_char OsPath.sep s) [])
        as (acc' & Hacc & Happ).
      rewrite Happ, norm_loop_proper by exact Hx. now rewrite Hacc.
Qed.

(** *** The reserved name on a path *)

Lemma norm_loop_elems i cs :
  forall acc x, x ∈ OsPath.norm_loop i cs acc -> x ∈ cs \/ x ∈ acc.
Proof.
  induction cs as [|c cs IH]; intros acc x Hx; simpl in Hx.
  - right. apply list_elem_of_In. apply in_rev. now apply list_elem_of_In.
  - destruct (String.eqb c "" || String.eqb c ".").
    + destruct (IH _ _ Hx) as [H|H]; [left; now right | now right].
    + destruct (negb (String.eqb c "..") || _ || _).
      * destruct (IH _ _ Hx) as [H|H]; [left; now right|].
        apply elem_of_cons in H as [->|H]; [left; now left | now right].
      * destruct (IH _ _ Hx) as [H|H]; [left; now right|].
        right. destruct acc; [inversion H | now right].
Qed.

Lemma norm_comps_free s x : x ∈ OsPath.norm_comps s -> Str.contains_char OsPath.sep x = false.
Proof.
  intros Hx. apply norm_loop_elems in Hx as [Hx|Hx]; [|inversion Hx].
  exact (split_char_free _ _ _ Hx).
Qed.

Lemma split_join_comps comps :
  (forall x, x ∈ comps -> Str.contains_char OsPath.sep x = false) ->
  comps <> [] ->
  Str.split_char OsPath.sep (OsPath.join_comps comps) = comps.
Proof.
  induction comps as [|c comps IH]; intros Hfree Hne; [contradiction|].
  destruct comps as [|c' rest].
  - simpl. apply split_char_nosep, Hfree. left.
  - change (OsPath.join_comps (c :: c' :: rest))
      with (c +:+ String OsPath.sep (OsPath.join_comps (c' :: rest))).
    rewrite split_char_app_sep, IH; [|intros x Hx; apply Hfree; now right|discriminate].
    rewrite split_char_nosep by (apply Hfree; left). reflexivity.
Qed.

Lemma join_comps_empty comps x :
  OsPath.join_comps comps = ""%string -> x ∈ comps -> x = ""%string.
Proof.
  destruct comps as [|c [|c' rest]]; intros H Hx.
  - inversion Hx.
  - simpl in H. subst c. now apply list_elem_of_singleton in Hx.
  - change (c +:+ String OsPath.sep (OsPath.join_comps (c' :: rest)) = ""%string) in H.
    destruct c; discriminate.
Qed.

Lemma in_old_comps s :
  in_old s = true <-> ".old"%string ∈ OsPath.norm_comps s.
Proof.
  unfold in_old. rewrite bool_decide_eq_true. unfold OsPath.normpath.
  set (comps := OsPath.norm_comps s).
  assert (Hfree : forall x, x ∈ comps -> Str.contains_char OsPath.sep x = false)
    by (intros x; apply norm_comps_free).
  assert (Hq : ".old"%string ∈ Str.split_char OsPath.sep (OsPath.join_comps comps)
               <-> ".old"%string ∈ comps).
  { destruct comps as [|c rest] eqn:E.
    - simpl. split; intros H; [|inversion H].
      apply list_elem_of_singleton in H. discriminate.
    - rewrite split_join_comps; [reflexivity|exact Hfree|discriminate]. }
  destruct (String.eqb_spec (OsPath.initial_slashes s +:+ OsPath.join_comps comps) "")
    as [Hempty|_].
  - split.
    + intros H. apply list_elem_of_singleton in H. discriminate.
    + intros H. assert (Hj : OsPath.join_comps comps = ""%string).
      { destruct (OsPath.initial_slashes s); [exact Hempty|discriminate]. }
      apply (join_comps_empty _ _ Hj) in H. discriminate.
  - rewrite <- Hq. unfold OsPath.initial_slashes.
    destruct (Str.startswith "/" s); [|now rewrite app_nil].
    destruct (Str.startswith "//" s && negb (Str.startswith "///" s)).
    + change ("//" +:+ OsPath.join_comps comps)
        with ("" +:+ String OsPath.sep ("" +:+ String OsPath.sep (OsPath.join_comps comps))).
      rewrite !split_char_app_sep. simpl app.
      rewrite !elem_of_cons. split; [intros [H|[H|H]]; try discriminate; exact H|auto].
    + change ("/" +:+ OsPath.join_comps comps)
        with ("" +:+ String OsPath.sep (OsPath.join_comps comps)).
      rewrite split_char_app_sep. simpl app.
      rewrite elem_of_cons. split; [intros [H|H]; try discriminate; exact H|auto].
Qed.

(** Below a directory whose path has the reserved name, and below the
    reserved name itself, every path has it. *)
Lemma in_old_join s x :
  proper_name x = true ->
  in_old (OsPath.join s x) = in_old s || String.eqb x ".old".
Proof.
  intros Hx. apply eq_true_iff_eq.
  rewrite orb_true_iff, !in_old_comps, String.eqb_eq.
  change (OsPath.norm_comps (OsPath.join s x)) with (Os.resolve (OsPath.join s x)).
  rewrite (resolve_join s x Hx), elem_of_app, list_elem_of_singleton.
  unfold Os.resolve. split; intros [H|H]; auto.
Qed.

(** ** Keys and subtrees *)

Lemma strip_prefix_Some d k r : Os.strip_prefix d k = Some r <-> k = d ++ r.
Proof.
  revert k. induction d as [|a d IH]; intros k; simpl.
  - split; [intros H; now injection H | intros ->; reflexivity].
  - destruct k as [|b k]; [split; discriminate|].
    destruct (String.eqb_spec a b) as [->|Hne].
    + rewrite IH. split; [intros ->; reflexivity | intros H; now injection H].
    + split; [discriminate | intros H; injection H as H _; congruence].
Qed.

Lemma strip_prefix_app d r : Os.strip_prefix d (d ++ r) = Some r.
Proof. now apply strip_prefix_Some. Qed.

Lemma strip_prefix_None d k : Os.strip_prefix d k = None <-> forall r, k <> d ++ r.
Proof.
  split.
  - intros H r E. apply strip_prefix_Some in E. congruence.
  - intros H. destruct (Os.strip_prefix d k) as [r|] eqn:E; [|reflexivity].
    apply strip_prefix_Some in E. now destruct (H r).
Qed.

Lemma under_iff d k : Os.under d k = true <-> exists r, k = d ++ r.
Proof.
  unfold Os.under. destruct (Os.strip_prefix d k) as [r|] eqn:E.
  - apply strip_prefix_Some in E. split; [eauto|reflexivity].
  - split; [discriminate|]. intros [r Hr]. apply strip_prefix_Some in Hr. congruence.
Qed.

Lemma child_name_Some d k x : Os.child_name d k = Some x <-> k = d ++ [x].
Proof.
  unfold Os.child_name. destruct (Os.strip_prefix d k) as [r|] eqn:E.
  - apply strip_prefix_Some in E. subst k.
    destruct r as [|y [|z r]]; split; try discriminate.
    + intros H. apply (f_equal length) in H. rewrite !length_app in H. simpl in H. lia.
    + intros H. now injection H as ->.
    + intros H. apply app_inv_head in H. now injection H as ->.
    + intros H. apply app_inv_head in H. discriminate.
  - split; [discriminate|]. intros H. apply strip_prefix_Some in H. congruence.
Qed.

Lemma elem_of_children d t x n :
  (x, n) ∈ Os.children d t <-> (d ++ [x], n) ∈ t.
Proof.
  unfold Os.children. rewrite list_elem_of_omap. split.
  - intros [[k n'] [Hin H]]. simpl in H.
    destruct (Os.child_name d k) as [y|] eqn:E; [|discriminate].
    injection H as -> ->. apply child_name_Some in E. now subst k.
  - intros Hin. exists (d ++ [x], n). split; [exact Hin|]. simpl.
    now rewrite (proj2 (child_name_Some d (d ++ [x]) x) eq_refl).
Qed.

Lemma lookup_key_elem k t n : Os.lookup_key k t = Some n -> (k, n) ∈ t.
Proof.
  induction t as [|[k' n'] t IH]; simpl; [discriminate|].
  destruct (Os.key_eqb k' k) eqn:E.
  - apply bool_decide_eq_true in E. subst k'. intros H. injection H as ->. left.
  - intros H. right. auto.
Qed.

Lemma elem_lookup_key k t n :
  NoDup (fst <$> t) -> (k, n) ∈ t -> Os.lookup_key k t = Some n.
Proof.
  induction t as [|[k' n'] t IH]; intros Hnd Hin; [inversion Hin|].
  simpl in *. apply NoDup_cons in Hnd as [Hnot Hnd].
  apply elem_of_cons in Hin as [Heq|Hin].
  - injection Heq as <- <-. now rewrite key_eqb_refl.
  - destruct (Os.key_eqb k' k) eqn:E.
    + apply bool_decide_eq_true in E. subst k'. exfalso. apply Hnot.
      apply list_elem_of_fmap. now exists (k, n).
    + auto.
Qed.

Lemma sane_stat t k n :
  sane t -> (k, n) ∈ t -> Os.stat k t = Some n.
Proof.
  intros (Hnd & _ & Hnames) Hin. destruct (Hnames _ _ Hin) as [Hk _].
  destruct k; [contradiction|]. now apply elem_lookup_key.
Qed.

Lemma stat_elem t k n : k <> [] -> Os.stat k t = Some n -> (k, n) ∈ t.
Proof. intros Hk H. destruct k; [contradiction|]. now apply lookup_key_elem. Qed.

(** *** Deleting is filtering *)

Lemma delete_key_filter k t :
  Os.delete_key k t = List.filter (fun e => negb (Os.key_eqb e.1 k)) t.
Proof.
  unfold Os.delete_key. induction t as [|[k' n'] t IH]; [reflexivity|].
  rewrite filter_cons. simpl. unfold Os.key_eqb at 1.
  destruct (decide (k' <> k)) as [Hne|Heq].
  - rewrite bool_decide_eq_false_2 by exact Hne. simpl. now rewrite IH.
  - apply dec_stable in Heq. subst k'. rewrite bool_decide_eq_true_2 by reflexivity.
    simpl. exact IH.
Qed.

Lemma delete_tree_filter d t :
  Os.delete_tree d t = List.filter (fun e => negb (Os.under d e.1)) t.
Proof.
  unfold Os.delete_tree. induction t as [|[k' n'] t IH]; [reflexivity|].
  rewrite filter_cons. simpl.
  destruct (decide (Os.under d k' = false)) as [Hf|Ht].
  - rewrite Hf. simpl. now rewrite IH.
  - apply not_false_is_true in Ht. rewrite Ht. simpl. exact IH.
Qed.

Lemma filter_andb {A} (f g : A -> bool) l :
  List.filter g (List.filter f l) = List.filter (fun x => f x && g x) l.
Proof.
  induction l as [|x l IH]; [reflexivity|]. simpl.
  destruct (f x); simpl; [|exact IH]. destruct (g x); now rewrite IH.
Qed.

Lemma filter_same {A} (f : A -> bool) l :
  (forall x, In x l -> f x = true) -> List.filter f l = l.
Proof.
  induction l as [|x l IH]; intros H; [reflexivity|]. simpl.
  rewrite (H x (or_introl eq_refl)). f_equal. apply IH. intros y Hy. apply H. now right.
Qed.

Lemma elem_of_filter_bool {A} (f : A -> bool) l x :
  x ∈ List.filter f l <-> x ∈ l /\ f x = true.
Proof. rewrite !list_elem_of_In. apply filter_In. Qed.

Lemma NoDup_filter_keys (f : Os.key * Os.node -> bool) t :
  NoDup (fst <$> t) -> NoDup (fst <$> List.filter f t).
Proof.
  induction t as [|e t IH]; intros Hnd; [exact Hnd|]. simpl in *.
  apply NoDup_cons in Hnd as [Hnot Hnd]. destruct (f e); [|auto].
  simpl. apply NoDup_cons. split; [|auto].
  intros Hin. apply Hnot. apply list_elem_of_fmap in Hin as (e' & He & Hin').
  apply list_elem_of_fmap. exists e'. split; [exact He|].
  now apply elem_of_filter_bool in Hin' as [Hin' _].
Qed.

(** A filter that keeps the directory of every entry it keeps leaves a sane
    tree sane. *)
Lemma sane_filter (f : Os.key * Os.node -> bool) t :
  sane t ->
  (forall k n, (k, n) ∈ t -> f (k, n) = true -> Os.parent k <> [] ->
               f (Os.parent k, Os.Dir) = true) ->
  sane (List.filter f t).
Proof.
  intros (Hnd & Hwf & Hnames) Hclosed. split; [|split].
  - now apply NoDup_filter_keys.
  - intros k n Hk. apply lookup_key_elem in Hk.
    apply elem_of_filter_bool in Hk as [Hin Hf].
    destruct (Hnames _ _ Hin) as [Hne _].
    assert (Hp : Os.stat (Os.parent k) t = Some Os.Dir).
    { apply (Hwf k n). exact (elem_lookup_key _ _ _ Hnd Hin). }
    destruct (Os.parent k) as [|a p] eqn:Ep; [reflexivity|].
    simpl. apply elem_lookup_key; [now apply NoDup_filter_keys|].
    apply elem_of_filter_bool. split.
    + apply lookup_key_elem. exact Hp.
    + rewrite <- Ep. apply (Hclosed k n Hin Hf). rewrite Ep. discriminate.
  - intros k n Hk. apply elem_of_filter_bool in Hk as [Hin _]. exact (Hnames _ _ Hin).
Qed.

Lemma scandir_dir s t :
  Os.stat (Os.resolve s) t = Some Os.Dir ->
  Os.scandir s t = Ok (Os.children (Os.resolve s) t).
Proof. unfold Os.scandir. now intros ->. Qed.

Lemma scandir_not_dir s t :
  Os.stat (Os.resolve s) t <> Some Os.Dir -> exists e, Os.scandir s t = Raise e.
Proof.
  unfold Os.scandir. destruct (Os.stat (Os.resolve s) t) as [[]|]; [eauto|easy|eauto].
Qed.

(** ** The pruning pass *)

Lemma lookup_filter_keep (f : Os.key * Os.node -> bool) k t :
  (forall n, f (k, n) = true) ->
  Os.lookup_key k (List.filter f t) = Os.lookup_key k t.
Proof.
  intros Hk. induction t as [|[k' n'] t IH]; [reflexivity|]. simpl.
  destruct (f (k', n')) eqn:Hf; simpl.
  - now rewrite IH.
  - destruct (Os.key_eqb k' k) eqn:E; [|exact IH].
    apply bool_decide_eq_true in E. subst k'. rewrite Hk in Hf. discriminate.
Qed.

Lemma stat_filter_keep (f : Os.key * Os.node -> bool) k t :
  (forall n, f (k, n) = true) -> Os.stat k (List.filter f t) = Os.stat k t.
Proof. intros Hk. destruct k; [reflexivity|]. now apply lookup_filter_keep. Qed.

Lemma app_singleton_inj {A} (d : list A) x y : d ++ [x] = d ++ [y] -> x = y.
Proof. intros H. apply app_inv_head in H. now injection H. Qed.

Lemma under_sibling d x y : x <> y -> Os.under (d ++ [x]) (d ++ [y]) = false.
Proof.
  intros Hne. apply not_true_is_false. intros H. apply under_iff in H as [r Hr].
  rewrite <- app_assoc in Hr. apply app_inv_head in Hr. simpl in Hr.
  injection Hr as Hr _. congruence.
Qed.

Section Prune.
Context {L : Str.Lowering}.
Variable verbosity : Z.

(** The loop over [filenames]: the files not in [file_set] are removed. *)
Lemma prune_files_run s names :
  forall st,
    NoDup names ->
    (forall x, x ∈ names ->
               proper_name x = true
               /\ exists d m, Os.stat (Os.resolve s ++ [x]) (tree st) = Some (Os.File d m)) ->
    exists st',
      for_each names (prune_file verbosity s) st = Done tt st'
      /\ same_course st st'
      /\ tree st'
         = List.filter
             (fun e => negb (existsb (fun x => Os.key_eqb e.1 (Os.resolve s ++ [x])
                                               && negb (file_stays (file_set st) s x))
                               names))
             (tree st).
Proof.
  induction names as [|x names IH]; intros st Hnd Hpre.
  - exists st. split; [reflexivity|]. split; [apply same_course_refl|].
    simpl. symmetry. now apply filter_same.
  - apply NoDup_cons in Hnd as [Hnot Hnd].
    destruct (Hpre x (list_elem_of_here _ _)) as (Hx & d & m & Hstat).
    simpl for_each. mstep. unfold prune_file at 1.
    mstep. unfold gets at 1.
    fold (file_stays (file_set st) s x).
    destruct (file_stays (file_set st) s x) eqn:Hstay.
    + destruct (IH st Hnd) as (st' & Hrun & Hsame & Htree).
      { intros y Hy. apply Hpre. now right. }
      exists st'. split; [exact Hrun|]. split; [exact Hsame|].
      rewrite Htree. apply filter_ext_in. intros e _. simpl. rewrite Hstay. simpl.
      now rewrite andb_false_r.
    + mstep. rewrite say_run. unfold os_do at 1, Os.remove.
      rewrite tree_said, (resolve_join s x Hx), Hstat.
      set (st1 := set_tree _ _).
      destruct (IH st1 Hnd) as (st' & Hrun & Hsame & Htree).
      { intros y Hy. destruct (Hpre y (list_elem_of_further _ _ _ Hy)) as (Hy' & Hs).
        split; [exact Hy'|]. subst st1. simpl.
        rewrite stat_delete_key_ne; [exact Hs|].
        intros E. apply app_singleton_inj in E. subst y. contradiction. }
      exists st'. split; [exact Hrun|]. split.
      * eapply same_course_trans; [|exact Hsame]. subst st1.
        repeat split; simpl; [apply counters_said | apply file_set_said | ].
        unfold said. now destruct (1 <=? verbosity)%Z.
      * rewrite Htree. subst st1. simpl tree. simpl file_set.
        rewrite file_set_said, delete_key_filter, filter_andb.
        apply filter_ext_in. intros e _. simpl. rewrite Hstay. simpl.
        rewrite andb_true_r. now rewrite negb_orb.
Qed.

(** The loop over [dirnames]: the directories that are neither reserved nor
    values of [folder_dict] are removed with all they hold. *)
Lemma prune_dirs_run s names :
  forall st,
    NoDup names ->
    (forall x, x ∈ names ->
               proper_name x = true
               /\ Os.stat (Os.resolve s ++ [x]) (tree st) = Some Os.Dir) ->
    exists st',
      for_each names (prune_dir verbosity s) st = Done tt st'
      /\ same_course st st'
      /\ tree st'
         = List.filter
             (fun e => negb (existsb (fun x => Os.under (Os.resolve s ++ [x]) e.1
                                               && negb (dir_stays (folder_dict st) s x))
                               names))
             (tree st).
Proof.
  induction names as [|x names IH]; intros st Hnd Hpre.
  - exists st. split; [reflexivity|]. split; [apply same_course_refl|].
    simpl. symmetry. now apply filter_same.
  - apply NoDup_cons in Hnd as [Hnot Hnd].
    destruct (Hpre x (list_elem_of_here _ _)) as (Hx & Hstat).
    simpl for_each. mstep. unfold prune_dir at 1.
    assert (Hskip : dir_stays (folder_dict st) s x = true ->
                    exists st',
                      for_each names (prune_dir verbosity s) st = Done tt st'
                      /\ same_course st st'
                      /\ tree st'
                         = List.filter
                             (fun e => negb (existsb
                                               (fun x0 => Os.under (Os.resolve s ++ [x0]) e.1
                                                          && negb (dir_stays (folder_dict st) s x0))
                                               (x :: names)))
                             (tree st)).
    { intros Hstay. destruct (IH st Hnd) as (st' & Hrun & Hsame & Htree).
      { intros y Hy. apply Hpre. now right. }
      exists st'. split; [exact Hrun|]. split; [exact Hsame|].
      rewrite Htree. apply filter_ext_in. intros e _. simpl. rewrite Hstay. simpl.
      now rewrite andb_false_r. }
    destruct (String.eqb x ".old") eqn:Hold.
    + apply Hskip. unfold dir_stays. now rewrite Hold.
    + mstep. unfold gets at 1.
      destruct (bool_decide (OsPath.join s x ∈ (map_img (folder_dict st) : gset string)))
        eqn:Himg.
      * apply Hskip. unfold dir_stays. rewrite Himg. apply orb_true_r.
      * assert (Hstay : dir_stays (folder_dict st) s x = false)
          by (unfold dir_stays; now rewrite Hold, Himg).
        mstep. rewrite say_run. unfold os_do at 1, Os.rmtree.
        rewrite tree_said, (resolve_join s x Hx), Hstat.
        set (st1 := set_tree _ _).
        destruct (IH st1 Hnd) as (st' & Hrun & Hsame & Htree).
        { intros y Hy. destruct (Hpre y (list_elem_of_further _ _ _ Hy)) as (Hy' & Hs).
          split; [exact Hy'|]. subst st1. simpl.
          rewrite delete_tree_filter, stat_filter_keep; [exact Hs|].
          intros n. simpl. rewrite under_sibling; [reflexivity|].
          intros ->. contradiction. }
        exists st'. split; [exact Hrun|]. split.
        -- eapply same_course_trans; [|exact Hsame]. subst st1.
           repeat split; simpl; [apply counters_said | apply file_set_said | ].
           unfold said. now destruct (1 <=? verbosity)%Z.
        -- rewrite Htree. subst st1. simpl tree. simpl folder_dict.
           replace (folder_dict (said verbosity 1 (Folder_deleting x) st))
             with (folder_dict st) by (unfold said; now destruct (1 <=? verbosity)%Z).
           rewrite delete_tree_filter, filter_andb.
           apply filter_ext_in. intros e _. simpl. rewrite Hstay. simpl.
           rewrite andb_true_r. now rewrite negb_orb.
Qed.

End Prune.

(** *** What a directory lists *)

Lemma NoDup_children_names d t :
  NoDup (fst <$> t) -> NoDup (fst <$> Os.children d t).
Proof.
  induction t as [|[k n] t IH]; intros Hnd; [constructor|].
  simpl in Hnd. apply NoDup_cons in Hnd as [Hnot Hnd].
  unfold Os.children. simpl.
  destruct (Os.child_name d k) as [x|] eqn:E; simpl; [|now apply IH].
  apply NoDup_cons. split; [|now apply IH].
  intros Hin. apply list_elem_of_fmap in Hin as ([y n'] & Hy & Hin). simpl in Hy. subst y.
  apply elem_of_children in Hin. apply child_name_Some in E. subst k.
  apply Hnot. apply list_elem_of_fmap. now exists (d ++ [x], n').
Qed.

Lemma NoDup_dirs_of s t : NoDup (fst <$> t) -> NoDup (dirs_of s t).
Proof.
  intros H. apply (sublist_NoDup _ (fst <$> Os.children (Os.resolve s) t)).
  - now apply NoDup_children_names.
  - apply fmap_sublist, sublist_filter.
Qed.

Lemma NoDup_nondirs_of s t : NoDup (fst <$> t) -> NoDup (nondirs_of s t).
Proof.
  intros H. apply (sublist_NoDup _ (fst <$> Os.children (Os.resolve s) t)).
  - now apply NoDup_children_names.
  - apply fmap_sublist, sublist_filter.
Qed.

Lemma elem_of_dirs_of s t x :
  x ∈ dirs_of s t <-> (Os.resolve s ++ [x], Os.Dir) ∈ t.
Proof.
  unfold dirs_of. rewrite list_elem_of_fmap. split.
  - intros ([y n] & -> & Hin). apply list_elem_of_filter in Hin as [Hd Hin].
    apply elem_of_children in Hin. unfold Os.is_dir_entry in Hd. simpl in *.
    now destruct n.
  - intros Hin. exists (x, Os.Dir). split; [reflexivity|].
    apply list_elem_of_filter. split; [reflexivity|]. now apply elem_of_children.
Qed.

Lemma elem_of_nondirs_of s t x :
  x ∈ nondirs_of s t <-> exists d m, (Os.resolve s ++ [x], Os.File d m) ∈ t.
Proof.
  unfold nondirs_of. rewrite list_elem_of_fmap. split.
  - intros ([y n] & -> & Hin). apply list_elem_of_filter in Hin as [Hd Hin].
    apply elem_of_children in Hin. unfold Os.is_dir_entry in Hd. simpl in *.
    destruct n as [d m|]; [eauto|discriminate].
  - intros (d & m & Hin). exists (x, Os.File d m). split; [reflexivity|].
    apply list_elem_of_filter. split; [reflexivity|]. now apply elem_of_children.
Qed.

Lemma sane_proper_child t d x n :
  sane t -> (d ++ [x], n) ∈ t -> proper_name x = true.
Proof.
  intros (_ & _ & Hnames) Hin. destruct (Hnames _ _ Hin) as [_ Hall].
  apply Forall_app in Hall as [_ Hx]. now inversion Hx.
Qed.

Lemma sane_unique t k n n' : sane t -> (k, n) ∈ t -> (k, n') ∈ t -> n = n'.
Proof.
  intros Hs H1 H2. pose proof (sane_stat _ _ _ Hs H1) as E1.
  pose proof (sane_stat _ _ _ Hs H2) as E2. congruence.
Qed.

(** Every directory on the way to an entry is an entry. *)
Lemma sane_ancestor t d x r n :
  sane t -> (d ++ x :: r, n) ∈ t -> r <> [] -> (d ++ [x], Os.Dir) ∈ t.
Proof.
  intros Hs. revert n. induction r as [|y r IH] using rev_ind; intros n Hin Hr;
    [contradiction|].
  destruct Hs as (Hnd & Hwf & Hnames).
  assert (Hp : Os.stat (Os.parent (d ++ x :: r ++ [y])) t = Some Os.Dir).
  { apply (Hwf _ n). now apply elem_lookup_key. }
  unfold Os.parent in Hp.
  replace (d ++ x :: r ++ [y]) with ((d ++ x :: r) ++ [y]) in Hp
    by (now rewrite <- app_assoc).
  rewrite removelast_last in Hp.
  apply stat_elem in Hp; [|now destruct d].
  destruct r as [|z r]; [exact Hp|].
  apply (IH Os.Dir Hp). discriminate.
Qed.

(** *** One run of the body *)

Lemma existsb_false {A} (g : A -> bool) l :
  (forall x, x ∈ l -> g x = false) -> existsb g l = false.
Proof.
  intros H. apply not_true_is_false. intros E.
  apply existsb_exists in E as (x & Hx & Hg). apply list_elem_of_In in Hx.
  rewrite (H x Hx) in Hg. discriminate.
Qed.

Lemma existsb_unique (g : string -> bool) l x :
  x ∈ l -> (forall y, y ∈ l -> y <> x -> g y = false) -> existsb g l = g x.
Proof.
  intros Hx Hothers. destruct (g x) eqn:Hg.
  - apply existsb_exists. exists x. split; [now apply list_elem_of_In|exact Hg].
  - apply existsb_false. intros y Hy.
    destruct (decide (y = x)) as [->|Hne]; [exact Hg|auto].
Qed.

Lemma under_child_iff d z x r : Os.under (d ++ [z]) (d ++ x :: r) = true <-> z = x.
Proof.
  rewrite under_iff. split.
  - intros [q Hq]. rewrite <- app_assoc in Hq. apply app_inv_head in Hq.
    simpl in Hq. now injection Hq.
  - intros ->. exists r. now rewrite <- app_assoc.
Qed.

Lemma key_eqb_child d x z r :
  Os.key_eqb (d ++ x :: r) (d ++ [z]) = true <-> (x = z /\ r = []).
Proof.
  unfold Os.key_eqb. rewrite bool_decide_eq_true. split.
  - intros H. apply app_inv_head in H. now injection H.
  - intros [-> ->]. reflexivity.
Qed.

Lemma level_keep_split fs fd s t e :
  sane t -> e ∈ t -> in_old s = false ->
  negb (existsb (fun x => Os.key_eqb e.1 (Os.resolve s ++ [x]) && negb (file_stays fs s x))
          (nondirs_of s t))
  && negb (existsb (fun x => Os.under (Os.resolve s ++ [x]) e.1 && negb (dir_stays fd s x))
             (dirs_of s t))
  = level_keep fs fd s e.
Proof.
  intros Hs He Hold. destruct e as [k n]. unfold level_keep. simpl. rewrite Hold. simpl.
  set (kd := Os.resolve s).
  destruct (Os.strip_prefix kd k) as [rest|] eqn:E.
  2:{ rewrite !existsb_false; [reflexivity| |].
      - intros x _. apply andb_false_intro1. apply not_true_is_false. intros H.
        apply under_iff in H as [r Hr]. rewrite <- app_assoc in Hr.
        apply strip_prefix_Some in Hr. fold kd in Hr. congruence.
      - intros x _. apply andb_false_intro1. apply not_true_is_false. intros H.
        apply bool_decide_eq_true in H. apply strip_prefix_Some in H. congruence. }
  apply strip_prefix_Some in E. subst k.
  destruct rest as [|x rest].
  - rewrite !existsb_false; [reflexivity| |].
    + intros z _. apply andb_false_intro1. apply not_true_is_false. intros H.
      apply under_iff in H as [r Hr]. apply (f_equal length) in Hr.
      rewrite !length_app in Hr. simpl in Hr. lia.
    + intros z _. apply andb_false_intro1. apply not_true_is_false. intros H.
      apply bool_decide_eq_true in H. apply (f_equal length) in H.
      rewrite !length_app in H. simpl in H. lia.
  - destruct rest as [|y r].
    + destruct n as [d m|]; simpl.
      * rewrite (existsb_unique _ _ x).
        2:{ apply elem_of_nondirs_of. eauto. }
        2:{ intros z _ Hz. apply andb_false_intro1. apply not_true_is_false.
            intros H. apply key_eqb_child in H as [H _]. congruence. }
        rewrite (proj2 (key_eqb_child kd x x []) (conj eq_refl eq_refl)). simpl.
        rewrite negb_involutive.
        rewrite existsb_false; [now rewrite andb_true_r|].
        intros z Hz. apply andb_false_intro1. apply not_true_is_false. intros H.
        apply under_child_iff in H. subst z. apply elem_of_dirs_of in Hz.
        pose proof (sane_unique _ _ _ _ Hs He Hz). discriminate.
      * rewrite (existsb_false _ (nondirs_of s t)).
        2:{ intros z Hz. apply andb_false_intro1. apply not_true_is_false. intros H.
            apply key_eqb_child in H as [H _]. subst z.
            apply elem_of_nondirs_of in Hz as (d & m & Hz).
            pose proof (sane_unique _ _ _ _ Hs He Hz). discriminate. }
        rewrite (existsb_unique _ _ x).
        2:{ now apply elem_of_dirs_of. }
        2:{ intros z _ Hz. apply andb_false_intro1. apply not_true_is_false.
            intros H. apply under_child_iff in H. congruence. }
        rewrite (proj2 (under_child_iff kd x x []) eq_refl). simpl.
        now rewrite negb_involutive.
    + rewrite (existsb_false _ (nondirs_of s t)).
      2:{ intros z _. apply andb_false_intro1. apply not_true_is_false. intros H.
          apply key_eqb_child in H as [_ H]. discriminate. }
      rewrite (existsb_unique _ _ x).
      2:{ apply elem_of_dirs_of. apply (sane_ancestor t kd x (y :: r) n Hs He). discriminate. }
      2:{ intros z _ Hz. apply andb_false_intro1. apply not_true_is_false.
          intros H. apply under_child_iff in H. congruence. }
      rewrite (proj2 (under_child_iff kd x x (y :: r)) eq_refl). simpl.
      now rewrite negb_involutive.
Qed.

Section Body.
Context {L : Str.Lowering}.
Variable verbosity : Z.

Lemma onto_local_body_skips s dirnames filenames st :
  in_old s = true \/ Os.exists_ s (tree st) = false ->
  onto_local_body verbosity s dirnames filenames st = Done tt st.
Proof.
  intros H. unfold onto_local_body. mstep. unfold gets at 1.
  destruct H as [H|H]; rewrite H; [reflexivity|]. now rewrite orb_true_r.
Qed.

Lemma onto_local_body_run s st :
  sane (tree st) ->
  Os.stat (Os.resolve s) (tree st) = Some Os.Dir ->
  exists st',
    onto_local_body verbosity s (dirs_of s (tree st)) (nondirs_of s (tree st)) st
    = Done tt st'
    /\ same_course st st'
    /\ tree st' = List.filter (level_keep (file_set st) (folder_dict st) s) (tree st).
Proof.
  intros Hs Hdir.
  destruct (in_old s) eqn:Hold.
  - exists st. split; [apply onto_local_body_skips; now left|].
    split; [apply same_course_refl|]. symmetry. apply filter_same.
    intros e _. unfold level_keep. rewrite Hold.
    now destruct (Os.strip_prefix (Os.resolve s) e.1) as [[|x r]|].
  - unfold onto_local_body. mstep. unfold gets at 1.
    unfold Os.exists_. rewrite Hdir, Hold. simpl.
    destruct (prune_files_run verbosity s (nondirs_of s (tree st)) st)
      as (st1 & Hrun1 & Hsame1 & Htree1).
    { apply NoDup_nondirs_of. apply Hs. }
    { intros x Hx. apply elem_of_nondirs_of in Hx as (d & m & Hx). split.
      - exact (sane_proper_child _ _ _ _ Hs Hx).
      - exists d, m. exact (sane_stat _ _ _ Hs Hx). }
    mstep. rewrite Hrun1.
    destruct (prune_dirs_run verbosity s (dirs_of s (tree st)) st1)
      as (st2 & Hrun2 & Hsame2 & Htree2).
    { apply NoDup_dirs_of. apply Hs. }
    { intros x Hx. pose proof Hx as Hx'. apply elem_of_dirs_of in Hx. split.
      - exact (sane_proper_child _ _ _ _ Hs Hx).
      - rewrite Htree1, stat_filter_keep; [exact (sane_stat _ _ _ Hs Hx)|].
        intros n. simpl. rewrite existsb_false; [reflexivity|].
        intros z Hz. apply andb_false_intro1. apply not_true_is_false. intros H.
        apply bool_decide_eq_true in H. apply app_singleton_inj in H. subst z.
        apply elem_of_nondirs_of in Hz as (d & m & Hz).
        pose proof (sane_unique _ _ _ _ Hs Hx Hz). discriminate. }
    exists st2. split; [exact Hrun2|]. split.
    + eapply same_course_trans; eassumption.
    + rewrite Htree2, Htree1, filter_andb.
      destruct Hsame1 as (_ & _ & Hfd). rewrite Hfd.
      apply filter_ext_in. intros e He. apply list_elem_of_In in He.
      now apply (level_keep_split _ _ s (tree st) e Hs He Hold).
Qed.

End Body.

(** *** The directories of what stays, stay *)

Lemma kept_parent fs fd r :
  forall s y b, kept fs fd s (r ++ [y]) b = true -> kept fs fd s r true = true.
Proof.
  induction r as [|x r IH]; intros s y b H; [reflexivity|].
  destruct r as [|x' r].
  - simpl in H. apply andb_prop in H as [H _]. exact H.
  - change (kept fs fd s (x :: x' :: r ++ [y]) b)
      with ((in_old s || dir_stays fd s x)
            && kept fs fd (OsPath.join s x) ((x' :: r) ++ [y]) b) in H.
    apply andb_prop in H as [H1 H2].
    change (kept fs fd s (x :: x' :: r) true)
      with ((in_old s || dir_stays fd s x) && kept fs fd (OsPath.join s x) (x' :: r) true).
    rewrite H1. simpl. exact (IH _ _ _ H2).
Qed.

Lemma parent_app d r y : Os.parent (d ++ r ++ [y]) = d ++ r.
Proof. unfold Os.parent. now rewrite app_assoc, removelast_last. Qed.

Lemma strip_prefix_parent_None d k :
  k <> [] -> Os.strip_prefix d k = None -> Os.strip_prefix d (Os.parent k) = None.
Proof.
  intros Hk H. apply strip_prefix_None. intros r E.
  rewrite (app_removelast_last ""%string Hk) in H. fold (Os.parent k) in H.
  rewrite E, <- app_assoc in H. rewrite strip_prefix_app in H. discriminate.
Qed.

Lemma keep_at_parent fs fd s k n :
  k <> [] -> keep_at fs fd s (k, n) = true -> keep_at fs fd s (Os.parent k, Os.Dir) = true.
Proof.
  intros Hk H. unfold keep_at in *. simpl in *.
  destruct (Os.strip_prefix (Os.resolve s) k) as [rest|] eqn:E.
  - apply strip_prefix_Some in E. subst k.
    destruct rest as [|y rest _] using rev_ind.
    + rewrite app_nil_r in *.
      destruct (Os.strip_prefix (Os.resolve s) (Os.parent (Os.resolve s))) as [r|] eqn:E';
        [|reflexivity].
      apply strip_prefix_Some in E'. apply (f_equal length) in E'.
      unfold Os.parent in E'. rewrite removelast_firstn_len, length_take, length_app in E'.
      destruct (Os.resolve s); [contradiction|]. simpl in E'. lia.
    + rewrite parent_app, strip_prefix_app. exact (kept_parent _ _ _ _ _ _ H).
  - now rewrite strip_prefix_parent_None.
Qed.

Lemma level_keep_parent fs fd s k n :
  k <> [] -> level_keep fs fd s (k, n) = true ->
  level_keep fs fd s (Os.parent k, Os.Dir) = true.
Proof.
  intros Hk H. unfold level_keep in *. simpl in *.
  destruct (Os.strip_prefix (Os.resolve s) k) as [rest|] eqn:E.
  - apply strip_prefix_Some in E. subst k.
    destruct rest as [|y rest _] using rev_ind.
    + rewrite app_nil_r in *.
      destruct (Os.strip_prefix (Os.resolve s) (Os.parent (Os.resolve s))) as [r|] eqn:E';
        [|reflexivity].
      apply strip_prefix_Some in E'. apply (f_equal length) in E'.
      unfold Os.parent in E'. rewrite removelast_firstn_len, length_take, length_app in E'.
      destruct (Os.resolve s); [contradiction|]. simpl in E'. lia.
    + rewrite parent_app, strip_prefix_app.
      destruct rest as [|x [|x' r]]; [reflexivity| |].
      * simpl in *. exact H.
      * simpl in *. destruct (r ++ [y]) eqn:Er; [now destruct r|]. exact H.
  - now rewrite strip_prefix_parent_None.
Qed.

Lemma sane_filter_keep_at fs fd s t : sane t -> sane (List.filter (keep_at fs fd s) t).
Proof.
  intros Hs. apply sane_filter; [exact Hs|].
  intros k n Hin H _. apply (keep_at_parent fs fd s k n); [|exact H].
  destruct Hs as (_ & _ & Hnames). now destruct (Hnames _ _ Hin).
Qed.

Lemma sane_filter_level_keep fs fd s t : sane t -> sane (List.filter (level_keep fs fd s) t).
Proof.
  intros Hs. apply sane_filter; [exact Hs|].
  intros k n Hin H _. apply (level_keep_parent fs fd s k n); [|exact H].
  destruct Hs as (_ & _ & Hnames). now destruct (Hnames _ _ Hin).
Qed.

(** Nothing lies below what is not a directory. *)
Lemma no_entries_below t d k n rest :
  sane t -> Os.stat d t <> Some Os.Dir -> (k, n) ∈ t ->
  Os.strip_prefix d k = Some rest -> rest = [].
Proof.
  intros Hs Hd Hin E. apply strip_prefix_Some in E. subst k.
  destruct rest as [|x r]; [reflexivity|]. exfalso. apply Hd.
  assert (Hchild : exists n', (d ++ [x], n') ∈ t).
  { destruct r as [|y r]; [eauto|]. exists Os.Dir.
    apply (sane_ancestor t d x (y :: r) n Hs Hin). discriminate. }
  destruct Hchild as [n' Hc]. destruct Hs as (Hnd & Hwf & _).
  pose proof (Hwf _ _ (elem_lookup_key _ _ _ Hnd Hc)) as Hp.
  unfold Os.parent in Hp. now rewrite removelast_last in Hp.
Qed.

(** *** The body and the walks below it, together *)

Lemma forallb_true {A} (g : A -> bool) l :
  (forall x, x ∈ l -> g x = true) -> forallb g l = true.
Proof.
  intros H. apply forallb_forall. intros x Hx. apply H. now apply list_elem_of_In.
Qed.

Lemma forallb_unique (g : string -> bool) l x :
  x ∈ l -> (forall y, y ∈ l -> y <> x -> g y = true) -> forallb g l = g x.
Proof.
  intros Hx Hothers. destruct (g x) eqn:Hg.
  - apply forallb_true. intros y Hy.
    destruct (decide (y = x)) as [->|Hne]; [exact Hg|auto].
  - apply not_true_is_false. intros E. rewrite forallb_forall in E.
    rewrite (E x) in Hg; [discriminate|]. now apply list_elem_of_In.
Qed.

Lemma strip_prefix_sibling d z x r :
  z <> x -> Os.strip_prefix (d ++ [z]) (d ++ x :: r) = None.
Proof.
  intros Hne. apply strip_prefix_None. intros q E.
  rewrite <- app_assoc in E. apply app_inv_head in E. simpl in E.
  injection E as E _. congruence.
Qed.

Lemma keep_at_split fs fd s t e :
  sane t -> e ∈ t ->
  level_keep fs fd s e
  && forallb (fun d => keep_at fs fd (OsPath.join s d) e) (dirs_of s t)
  = keep_at fs fd s e.
Proof.
  intros Hs He. destruct e as [k n].
  assert (Hres : forall d, d ∈ dirs_of s t ->
                           Os.resolve (OsPath.join s d) = Os.resolve s ++ [d]).
  { intros d Hd. apply resolve_join. apply elem_of_dirs_of in Hd.
    exact (sane_proper_child _ _ _ _ Hs Hd). }
  unfold level_keep, keep_at. simpl.
  set (kd := Os.resolve s) in *.
  destruct (Os.strip_prefix kd k) as [rest|] eqn:E.
  2:{ simpl. apply forallb_true. intros d Hd. rewrite (Hres d Hd).
      destruct (Os.strip_prefix (kd ++ [d]) k) as [r|] eqn:E'; [|reflexivity].
      apply strip_prefix_Some in E'. rewrite <- app_assoc in E'.
      apply strip_prefix_Some in E'. congruence. }
  apply strip_prefix_Some in E. subst k.
  destruct rest as [|x rest].
  - simpl. apply forallb_true. intros d Hd. rewrite (Hres d Hd).
    destruct (Os.strip_prefix (kd ++ [d]) (kd ++ [])) as [r|] eqn:E'; [|reflexivity].
    apply strip_prefix_Some in E'. apply (f_equal length) in E'.
    rewrite !length_app in E'. simpl in E'. lia.
  - destruct rest as [|y r].
    + rewrite forallb_true; [now rewrite andb_true_r|].
      intros d Hd. rewrite (Hres d Hd).
      destruct (decide (d = x)) as [->|Hne].
      * now rewrite (proj2 (strip_prefix_Some (kd ++ [x]) (kd ++ [x]) [])
                           (eq_sym (app_nil_r _))).
      * now rewrite strip_prefix_sibling.
    + assert (Hx : x ∈ dirs_of s t).
      { apply elem_of_dirs_of. apply (sane_ancestor t kd x (y :: r) n Hs He). discriminate. }
      rewrite (forallb_unique _ _ x Hx).
      * rewrite (Hres x Hx).
        replace (kd ++ x :: y :: r) with ((kd ++ [x]) ++ y :: r)
          by (now rewrite <- app_assoc).
        rewrite strip_prefix_app. reflexivity.
      * intros d Hd Hne. rewrite (Hres d Hd). now rewrite strip_prefix_sibling.
Qed.

Section Walk.
Context {L : Str.Lowering}.
Variable verbosity : Z.

Lemma walk_step fuel s st :
  walk (S fuel) s (onto_local_body verbosity) st
  = match Os.scandir s (tree st) with
    | Raise _ => Done tt st
    | Ok _ =>
        (onto_local_body verbosity s (dirs_of s (tree st)) (nondirs_of s (tree st));;
         for_each (dirs_of s (tree st))
           (fun dirname => walk fuel (OsPath.join s dirname) (onto_local_body verbosity))) st
    end.
Proof.
  simpl. unfold Os.scandir, dirs_of, nondirs_of.
  now destruct (Os.stat (Os.resolve s) (tree st)) as [[]|].
Qed.

(** The walk from a directory leaves below it exactly what [kept] says. *)
Lemma walk_run fs fd fuel :
  forall s st,
    sane (tree st) -> file_set st = fs -> folder_dict st = fd -> 0 < fuel ->
    (forall k n, (k, n) ∈ tree st -> length k < length (Os.resolve s) + fuel) ->
    exists st',
      walk fuel s (onto_local_body verbosity) st = Done tt st'
      /\ same_course st st'
      /\ tree st' = List.filter (keep_at fs fd s) (tree st).
Proof.
  induction fuel as [|f IH]; intros s st Hs Hfs Hfd Hpos Hheight; [lia|].
  rewrite walk_step.
  assert (Hcase : Os.stat (Os.resolve s) (tree st) = Some Os.Dir
                  \/ Os.stat (Os.resolve s) (tree st) <> Some Os.Dir).
  { destruct (Os.stat (Os.resolve s) (tree st)) as [[d m|]|]; auto; right; discriminate. }
  destruct Hcase as [Hdir|Hnodir].
  2:{ destruct (scandir_not_dir _ _ Hnodir) as [e ->].
      exists st. split; [reflexivity|]. split; [apply same_course_refl|].
      symmetry. apply filter_same. intros [k n] Hin. apply list_elem_of_In in Hin.
      unfold keep_at. simpl.
      destruct (Os.strip_prefix (Os.resolve s) k) as [rest|] eqn:E; [|reflexivity].
      now rewrite (no_entries_below _ _ _ _ _ Hs Hnodir Hin E). }
  rewrite (scandir_dir _ _ Hdir).
  destruct (onto_local_body_run verbosity s st Hs Hdir) as (st1 & Hbody & Hsame1 & Htree1).
  mstep. rewrite Hbody.
  assert (Hloop : forall ds st1,
             sane (tree st1) -> file_set st1 = fs -> folder_dict st1 = fd ->
             (forall k n, (k, n) ∈ tree st1 -> length k < length (Os.resolve s) + S f) ->
             (forall d, d ∈ ds -> proper_name d = true /\ 0 < f) ->
             exists st2,
               for_each ds (fun dirname =>
                              walk f (OsPath.join s dirname) (onto_local_body verbosity)) st1
               = Done tt st2
               /\ same_course st1 st2
               /\ tree st2
                  = List.filter
                      (fun e => forallb (fun d => keep_at fs fd (OsPath.join s d) e) ds)
                      (tree st1)).
  { clear st Hs Hfs Hfd Hheight Hdir st1 Hbody Hsame1 Htree1.
    induction ds as [|d ds IHds]; intros st1 Hs1 Hfs1 Hfd1 Hh1 Hds.
    - exists st1. split; [reflexivity|]. split; [apply same_course_refl|].
      symmetry. now apply filter_same.
    - destruct (Hds d (list_elem_of_here _ _)) as [Hd Hf].
      destruct (IH (OsPath.join s d) st1 Hs1 Hfs1 Hfd1 Hf) as (st' & Hrun & Hsame & Htree).
      { intros k n Hin. specialize (Hh1 k n Hin).
        rewrite (resolve_join s d Hd), length_app. simpl. lia. }
      destruct (IHds st') as (st2 & Hrun2 & Hsame2 & Htree2).
      + rewrite Htree. now apply sane_filter_keep_at.
      + destruct Hsame as (_ & H & _). congruence.
      + destruct Hsame as (_ & _ & H). congruence.
      + intros k n Hin. rewrite Htree in Hin.
        apply elem_of_filter_bool in Hin as [Hin _]. exact (Hh1 k n Hin).
      + intros d' Hd'. apply Hds. now right.
      + exists st2. split; [|split].
        * simpl. mstep. now rewrite Hrun.
        * eapply same_course_trans; eassumption.
        * rewrite Htree2, Htree, filter_andb. reflexivity. }
  destruct (Hloop (dirs_of s (tree st)) st1) as (st2 & Hrun2 & Hsame2 & Htree2).
  - rewrite Htree1. now apply sane_filter_level_keep.
  - destruct Hsame1 as (_ & H & _). congruence.
  - destruct Hsame1 as (_ & _ & H). congruence.
  - intros k n Hin. rewrite Htree1 in Hin.
    apply elem_of_filter_bool in Hin as [Hin _]. exact (Hheight k n Hin).
  - intros d Hd. apply elem_of_dirs_of in Hd. split.
    + exact (sane_proper_child _ _ _ _ Hs Hd).
    + specialize (Hheight _ _ Hd). rewrite length_app in Hheight. simpl in Hheight. lia.
  - exists st2. split; [exact Hrun2|]. split.
    + eapply same_course_trans; eassumption.
    + rewrite Htree2, Htree1, filter_andb, Hfs, Hfd.
      apply filter_ext_in. intros e He. apply list_elem_of_In in He.
      exact (keep_at_split fs fd s (tree st) e Hs He).
Qed.

End Walk.

(** *** Reading [kept] *)

Lemma kept_cons fs fd s x y r b :
  kept fs fd s (x :: y :: r) b
  = (in_old s || dir_stays fd s x) && kept fs fd (OsPath.join s x) (y :: r) b.
Proof. reflexivity. Qed.

Lemma kept_cons_ne fs fd s x q b :
  q <> [] ->
  kept fs fd s (x :: q) b
  = (in_old s || dir_stays fd s x) && kept fs fd (OsPath.join s x) q b.
Proof. destruct q; [contradiction|reflexivity]. Qed.

Lemma kept_in_old fs fd rest :
  forall s b,
    Forall (fun x => proper_name x = true) rest ->
    in_old s = true -> kept fs fd s rest b = true.
Proof.
  induction rest as [|x rest IH]; intros s b Hall Hold; [reflexivity|].
  destruct rest as [|y r].
  - simpl. now rewrite Hold.
  - rewrite kept_cons, Hold. simpl. inversion Hall as [|? ? Hx Hrest]; subst.
    apply IH; [exact Hrest|]. rewrite (in_old_join s x Hx), Hold. reflexivity.
Qed.

Lemma kept_last fs fd ds :
  forall s x b,
    kept fs fd s (ds ++ [x]) b = true ->
    in_old (path_of s ds)
    || (if b then dir_stays fd (path_of s ds) x else file_stays fs (path_of s ds) x)
    = true.
Proof.
  induction ds as [|d ds IH]; intros s x b H.
  - exact H.
  - simpl path_of. apply IH.
    change ((d :: ds) ++ [x]) with (d :: (ds ++ [x])) in H.
    rewrite kept_cons_ne in H by (destruct ds; discriminate).
    now apply andb_prop in H as [_ H].
Qed.

Lemma kept_zone fs fd ds :
  forall s rest b,
    Forall (fun x => proper_name x = true) (ds ++ ".old"%string :: rest) ->
    kept fs fd s (ds ++ [".old"%string]) true = true ->
    (rest = [] -> b = true) ->
    kept fs fd s (ds ++ ".old"%string :: rest) b = true.
Proof.
  induction ds as [|d ds IH]; intros s rest b Hall Hdir Hb.
  - simpl app in *. destruct rest as [|y r].
    + now rewrite (Hb eq_refl).
    + rewrite kept_cons.
      replace (dir_stays fd s ".old") with true by reflexivity.
      rewrite orb_true_r, andb_true_l.
      inversion Hall as [|? ? Hx Hrest]; subst.
      apply kept_in_old; [exact Hrest|].
      rewrite (in_old_join s ".old" Hx). apply orb_true_r.
  - change ((d :: ds) ++ ".old"%string :: rest) with (d :: (ds ++ ".old"%string :: rest))
      in *.
    change ((d :: ds) ++ [".old"%string]) with (d :: (ds ++ [".old"%string])) in Hdir.
    rewrite kept_cons_ne in Hdir by (destruct ds; discriminate).
    apply andb_prop in Hdir as [H1 H2].
    rewrite kept_cons_ne by (destruct ds; discriminate).
    rewrite H1, andb_true_l.
    apply IH; [|exact H2|exact Hb]. now inversion Hall.
Qed.

Lemma resolve_path_of s ds :
  Forall (fun x => proper_name x = true) ds ->
  Os.resolve (path_of s ds) = Os.resolve s ++ ds.
Proof.
  revert s. induction ds as [|d ds IH]; intros s Hall; simpl.
  - now rewrite app_nil_r.
  - inversion Hall as [|? ? Hd Hrest]; subst.
    rewrite (IH _ Hrest), (resolve_join s d Hd). now rewrite <- app_assoc.
Qed.

Section Pruner.
Context {L : Str.Lowering}.
Variable verbosity : Z.

(** C3. Given fuel for the depth of the tree, [onto_local] returns, and the
    tree it leaves is the old one without what [kept] rejects. So: every
    file left in a walked directory whose path does not have the reserved
    name has its path in [file_set], and every directory left there is the
    reserved [".old"] or has its path among the values of [folder_dict];
    what lies in a reserved directory that is left is left as well, and
    nothing at all is deleted when the course directory itself is inside
    one; and the body of the loop does nothing, and raises nothing, for a
    [root] that is no longer there. *)
Theorem onto_local_prunes course_dir fuel st :
  sane (tree st) ->
  0 < fuel ->
  (forall k n, (k, n) ∈ tree st -> length k < length (Os.resolve course_dir) + fuel) ->
  exists st',
    onto_local verbosity course_dir fuel st = Done tt st'
    /\ same_course st st'
    /\ tree st' = List.filter (keep_at (file_set st) (folder_dict st) course_dir) (tree st)
    /\ (forall ds x n,
           (Os.resolve course_dir ++ ds ++ [x], n) ∈ tree st' ->
           in_old (path_of course_dir ds) = false ->
           match n with
           | Os.File _ _ => OsPath.join (path_of course_dir ds) x ∈ file_set st
           | Os.Dir =>
               x = ".old"%string
               \/ OsPath.join (path_of course_dir ds) x
                  ∈ (map_img (folder_dict st) : gset string)
           end)
    /\ (forall ds rest n,
           (Os.resolve course_dir ++ ds ++ [".old"%string], Os.Dir) ∈ tree st' ->
           (Os.resolve course_dir ++ ds ++ ".old"%string :: rest, n) ∈ tree st ->
           (Os.resolve course_dir ++ ds ++ ".old"%string :: rest, n) ∈ tree st')
    /\ (in_old course_dir = true -> tree st' = tree st)
    /\ (forall root dirnames filenames st0,
           Os.exists_ root (tree st0) = false ->
           onto_local_body verbosity root dirnames filenames st0 = Done tt st0).
Proof.
  intros Hs Hpos Hheight.
  destruct (walk_run verbosity (file_set st) (folder_dict st) fuel course_dir st
              Hs eq_refl eq_refl Hpos Hheight) as (st' & Hrun & Hsame & Htree).
  assert (Hproper : forall k n rest,
             (k, n) ∈ tree st -> k = Os.resolve course_dir ++ rest ->
             Forall (fun x => proper_name x = true) rest).
  { intros k n rest Hin ->. destruct Hs as (_ & _ & Hnames).
    destruct (Hnames _ _ Hin) as [_ Hall]. now apply Forall_app in Hall as [_ Hall]. }
  exists st'. split; [exact Hrun|]. split; [exact Hsame|]. split; [exact Htree|].
  split; [|split; [|split]].
  - intros ds x n Hin Hold. rewrite Htree in Hin.
    apply elem_of_filter_bool in Hin as [Hin Hkeep].
    unfold keep_at in Hkeep. simpl in Hkeep. rewrite strip_prefix_app in Hkeep.
    apply kept_last in Hkeep. rewrite Hold in Hkeep. simpl in Hkeep.
    destruct n as [d m|]; simpl in Hkeep.
    + now apply bool_decide_eq_true in Hkeep.
    + unfold dir_stays in Hkeep. apply orb_prop in Hkeep as [H|H].
      * left. now apply String.eqb_eq.
      * right. now apply bool_decide_eq_true in H.
  - intros ds rest n Hold Hin. rewrite Htree in *.
    apply elem_of_filter_bool in Hold as [Hold Hkeep].
    apply elem_of_filter_bool. split; [exact Hin|].
    unfold keep_at in *. simpl in *. rewrite strip_prefix_app in *.
    apply kept_zone; [exact (Hproper _ _ _ Hin eq_refl)|exact Hkeep|].
    intros ->. now rewrite (sane_unique _ _ _ _ Hs Hin Hold).
  - intros Hold. rewrite Htree. apply filter_same. intros [k n] Hin.
    apply list_elem_of_In in Hin. unfold keep_at. simpl.
    destruct (Os.strip_prefix (Os.resolve course_dir) k) as [rest|] eqn:E; [|reflexivity].
    apply strip_prefix_Some in E.
    apply kept_in_old; [exact (Hproper _ _ _ Hin E)|exact Hold].
  - intros root dirnames filenames st0 Hgone.
    apply onto_local_body_skips. now right.
Qed.

End Pruner.

(** ** Entries that are fetched *)

Lemma isfile_insensitive_state {L : Str.Lowering} path st b st' :
  isfile_insensitive path st = Done b st' -> st' = st.
Proof.
  unfold isfile_insensitive, getfile_insensitive.
  destruct (OsPath.split path) as [directory filename].
  unfold mbind, M_bind, os_get.
  destruct (Os.listdir _ (tree st)); [|discriminate].
  intros H. now injection H.
Qed.

Lemma download_200_not_conn session file dest st text name st' :
  network_url (url file) = true ->
  status_code (session (url file)) = 200%Z ->
  download session file dest st <> Raised (ConnectionError text name) st'.
Proof.
  intros Hu Hs H. pose proof (download_conn_state _ _ _ _ _ _ _ H) as ->.
  revert H. unfold network_url in Hu.
  apply andb_prop in Hu as [Hu H3]. apply andb_prop in Hu as [H1 H2].
  apply negb_true_iff in H1, H2, H3.
  unfold download. rewrite H1, H2, H3, Hs. simpl.
  mstep.
  destruct (open_write dest (content (session (url file))) st) as [[] st1|x st1|] eqn:Hw.
  - destruct (_time file); [|discriminate].
    intros H. apply utime_raised in H. discriminate.
  - intros H. injection H as -> _. unfold open_write in Hw.
    destruct dest; [|discriminate]. apply os_do_raised in Hw as [_ Hw].
    unfold Os.write in Hw.
    destruct (Os.stat (Os.resolve p) (tree st)) as [[]|];
      destruct (Os.stat (Os.parent (Os.resolve p)) (tree st)) as [[]|]; discriminate.
  - discriminate.
Qed.

Section Fetched.
Context {L : Str.Lowering}.
Variable session : string -> response.
Variable verbosity : Z.
Variable strftime_local : Z -> string.

(** A new file or a renamed one: the download to a path, when the call
    returns. *)
Lemma fetch_to_path_inv file q (st0 st' : state) :
  network_url (url file) = true ->
  status_code (session (url file)) = 200%Z ->
  (ok ← try_except_ConnectionError
          (download session (timed file) (Path q);; modify incr_downloaded;; mret true)
          on_error;
   if ok : bool then modify (file_set_add q) else mret tt) st0 = Done tt st' ->
  tree st' = Os.put (Os.resolve q)
               (Os.File (content (session (url file))) (timestamp (modified_at file)))
               (tree st0)
  /\ Os.resolve q <> []
  /\ counters st' = (skipped st0, updated st0, (downloaded st0 + 1)%Z, errors st0)
  /\ folder_dict st' = folder_dict st0.
Proof.
  intros Hu Hs. mstep. rewrite try_cases.
  destruct (download session (timed file) (Path q) st0) as [[] st2|e st2|] eqn:Hd;
    [| |discriminate].
  - pose proof (keeps_download session (timed file) (Path q) st0) as K. rewrite Hd in K.
    destruct K as (Kc & _ & Kfd).
    assert (Hne : Os.resolve q <> []).
    { intros E. revert Hd. unfold network_url in Hu.
      apply andb_prop in Hu as [Hu H3]. apply andb_prop in Hu as [H1 H2].
      apply negb_true_iff in H1, H2, H3.
      unfold download. unfold timed. cbn [url set_time]. rewrite H1, H2, H3, Hs.
      cbn [Z.eqb Pos.eqb]. mstep.
      unfold open_write, os_do, Os.write. rewrite E. discriminate. }
    apply (download_path_inv session (timed file) q st0 st2 (modified_at file) Hu eq_refl)
      in Hd as [Hd _].
    cbn. intros H. injection H as <-.
    unfold counters in *. simpl. injection Kc as -> -> -> ->. now rewrite Hd, Kfd.
  - destruct e; try discriminate.
    now destruct (download_200_not_conn session (timed file) (Path q) st0 msg0 name st2 Hu Hs).
Qed.

(** The update branch, when the call returns. *)
Lemma stale_fetch_inv file st st' loc d m :
  folder_dict st !! folder_id file = Some loc ->
  Os.stat (Os.resolve (file_path_of loc file)) (tree st) = Some (Os.File d m) ->
  (m < timestamp (modified_at file))%Z ->
  network_url (url file) = true ->
  status_code (session (url file)) = 200%Z ->
  _parse_file session verbosity strftime_local file st = Done tt st' ->
  folder_dict st' = folder_dict st
  /\ ((d = content (session (url file))
       /\ tree st' = tree st
       /\ counters st' = ((skipped st + 1)%Z, updated st, downloaded st, errors st))
      \/ (d <> content (session (url file))
          /\ tree st'
             = Os.put (Os.resolve (file_path_of loc file))
                 (Os.File (content (session (url file))) (timestamp (modified_at file)))
                 (Os.delete_key (Os.resolve (file_path_of loc file)) (tree st))
          /\ counters st' = (skipped st, (updated st + 1)%Z, downloaded st, errors st))).
Proof.
  intros Hl Hstat Hlt Hu Hs.
  destruct (getmtime_stat _ _ _ _ Hstat) as [He Hm].
  rewrite (parse_file_stale session verbosity strftime_local file st loc m Hl He Hm Hlt).
  set (p := file_path_of loc file) in *.
  set (c := content (session (url file))).
  set (ts := timestamp (modified_at file)) in *.
  set (id := next_tmp st).
  mstep.
  rewrite (try_done0 _ _ _ (download_network_tmp session (timed file) id
                              (with_scratch st) (modified_at file) Hu Hs eq_refl)).
  fold c ts.
  set (st2 := set_temps _ _ _).
  assert (Ht2 : temps st2 !! id = Some (c, ts)) by (subst st2; simpl; apply lookup_insert_eq).
  assert (Htree2 : tree st2 = tree st) by reflexivity.
  mstep.
  rewrite (filecmp_cmp_bytes p id st2 d m c ts) by (rewrite ?Htree2; auto; lia).
  destruct (String.eqb_spec d c) as [Heq|Hne].
  - mstep. unfold modify at 1. mstep. unfold remove_tmp at 1.
    replace (temps (incr_skipped st2) !! id) with (Some (c, ts)) by (symmetry; exact Ht2).
    unfold modify. intros H. injection H as <-. simpl. split; [reflexivity|].
    left. now repeat split.
  - mstep. mstep. rewrite say_run. mstep. unfold modify at 1.
    mstep. unfold os_do at 1, Os.remove.
    set (st3 := incr_updated _).
    assert (Htree3 : tree st3 = tree st).
    { subst st3. unfold said. now destruct (1 <=? verbosity)%Z. }
    assert (Ht3 : temps st3 !! id = Some (c, ts)).
    { subst st3. unfold said. now destruct (1 <=? verbosity)%Z. }
    rewrite Htree3, Hstat.
    unfold copy2. mstep. unfold stat_loc at 1.
    replace (temps (set_tree (Os.delete_key (Os.resolve p) (tree st)) st3) !! id)
      with (Some (c, ts)) by (symmetry; exact Ht3).
    unfold os_do at 1.
    destruct (Os.write p c ts (tree (set_tree (Os.delete_key (Os.resolve p) (tree st)) st3)))
      as [t'|e] eqn:Hw; [|discriminate].
    apply write_inv in Hw as [-> _].
    mstep. unfold remove_tmp at 1.
    replace (temps (set_tree _ (set_tree _ st3)) !! id) with (Some (c, ts))
      by (symmetry; exact Ht3).
    unfold modify. intros H. injection H as <-. simpl.
    split; [subst st3; unfold said; now destruct (1 <=? verbosity)%Z|].
    right. split; [exact Hne|]. split; [reflexivity|].
    subst st3. unfold counters, said. now destruct (1 <=? verbosity)%Z.
Qed.

(** What a call that returns has done, for an entry whose content is served
    with status 200: nothing when the local file is at least as new or holds
    the same bytes; the fetched bytes in place of an older file with other
    bytes; the fetched bytes at the renamed path when the name collides; the
    fetched bytes at the path when there is nothing there. *)
Lemma parse_file_fetched_cases file st st' loc :
  folder_dict st !! folder_id file = Some loc ->
  network_url (url file) = true ->
  status_code (session (url file)) = 200%Z ->
  _parse_file session verbosity strftime_local file st = Done tt st' ->
  let p := file_path_of loc file in
  let c := content (session (url file)) in
  let ts := timestamp (modified_at file) in
  folder_dict st' = folder_dict st
  /\ ((exists d m,
          Os.stat (Os.resolve p) (tree st) = Some (Os.File d m)
          /\ ((((ts <= m)%Z \/ d = c)
               /\ tree st' = tree st
               /\ counters st' = ((skipped st + 1)%Z, updated st, downloaded st, errors st))
              \/ ((m < ts)%Z /\ d <> c
                  /\ tree st' = Os.put (Os.resolve p) (Os.File c ts)
                                  (Os.delete_key (Os.resolve p) (tree st))
                  /\ counters st'
                     = (skipped st, (updated st + 1)%Z, downloaded st, errors st))))
      \/ (Os.isfile p (tree st) = false
          /\ isfile_insensitive p st = Done true st
          /\ tree st' = Os.put (Os.resolve (collision_path strftime_local loc file))
                          (Os.File c ts) (tree st)
          /\ counters st' = (skipped st, updated st, (downloaded st + 1)%Z, errors st))
      \/ (Os.isfile p (tree st) = false
          /\ isfile_insensitive p st = Done false st
          /\ tree st' = Os.put (Os.resolve p) (Os.File c ts) (tree st)
          /\ Os.resolve p <> []
          /\ counters st' = (skipped st, updated st, (downloaded st + 1)%Z, errors st))).
Proof.
  intros Hl Hu Hs Hrun p c ts.
  assert (Hnonempty : url file <> ""%string).
  { intros E. rewrite E in Hu. discriminate. }
  destruct (Os.isfile p (tree st)) eqn:He.
  - destruct (isfile_stat _ _ He) as (d & m & Hstat).
    destruct (getmtime_stat _ _ _ _ Hstat) as [_ Hm].
    destruct (Z.lt_ge_cases m ts) as [Hlt|Hge].
    + destruct (stale_fetch_inv file st st' loc d m Hl Hstat Hlt Hu Hs Hrun)
        as [Hfd [(Hd & Ht & Hc)|(Hd & Ht & Hc)]].
      * split; [exact Hfd|]. left. exists d, m. split; [exact Hstat|]. left. auto.
      * split; [exact Hfd|]. left. exists d, m. split; [exact Hstat|]. right. auto.
    + rewrite (parse_file_fresh session verbosity strftime_local file st loc m Hl He Hm Hge)
        in Hrun.
      injection Hrun as <-. simpl. split.
      * unfold said. now destruct (2 <=? verbosity)%Z.
      * left. exists d, m. split; [exact Hstat|]. left. split; [now left|].
        split; [apply tree_said|].
        pose proof (counters_said verbosity 2 (Skipped_latest (file_name_of file)) st) as Hc.
        unfold counters in *. simpl. now injection Hc as -> -> -> ->.
  - destruct (isfile_insensitive p st) as [b st0|e st0|] eqn:Hi.
    + pose proof (isfile_insensitive_state _ _ _ _ Hi) as ->. destruct b.
      * rewrite (parse_file_collision session verbosity strftime_local file st loc Hl He Hi)
          in Hrun.
        apply (fetch_to_path_inv file _ _ _ Hu Hs) in Hrun as (Ht & _ & Hc & Hfd).
        rewrite tree_said in Ht.
        split; [rewrite Hfd; unfold said; now destruct (1 <=? verbosity)%Z|].
        right. left. repeat split; try assumption.
        rewrite Hc.
        pose proof (counters_said verbosity 1
                      (Downloading_new_case (collision_name strftime_local file)) st) as Hcs.
        unfold counters in Hcs. now injection Hcs as -> -> -> ->.
      * rewrite (parse_file_new session verbosity strftime_local file st loc Hl He Hi
                   Hnonempty) in Hrun.
        apply (fetch_to_path_inv file _ _ _ Hu Hs) in Hrun as (Ht & Hk & Hc & Hfd).
        rewrite tree_said in Ht.
        split; [rewrite Hfd; unfold said; now destruct (1 <=? verbosity)%Z|].
        right. right. repeat split; try assumption.
        rewrite Hc.
        pose proof (counters_said verbosity 1 (Downloading_new (file_name_of file)) st)
          as Hcs.
        unfold counters in Hcs. now injection Hcs as -> -> -> ->.
    + exfalso. revert Hrun. unfold _parse_file.
      mstep. unfold gets at 1. rewrite Hl.
      mstep. unfold mret at 1, M_ret at 1.
      fold (file_name_of file). fold (file_path_of loc file). fold p.
      mstep. unfold gets at 1. rewrite He.
      mstep. now rewrite Hi.
    + exfalso. revert Hrun. unfold _parse_file.
      mstep. unfold gets at 1. rewrite Hl.
      mstep. unfold mret at 1, M_ret at 1.
      fold (file_name_of file). fold (file_path_of loc file). fold p.
      mstep. unfold gets at 1. rewrite He.
      mstep. now rewrite Hi.
Qed.

End Fetched.

(** ** A second run *)

Section Again.
Context {L : Str.Lowering}.
Variable session : string -> response.
Variable verbosity : Z.
Variable strftime_local : Z -> string.

Abbreviation parse := (_parse_file session verbosity strftime_local).

(** An older local file with the remote bytes: fetched, compared, left. *)
Lemma stale_identical_run file st loc m :
  folder_dict st !! folder_id file = Some loc ->
  Os.stat (Os.resolve (file_path_of loc file)) (tree st)
  = Some (Os.File (content (session (url file))) m) ->
  (m < timestamp (modified_at file))%Z ->
  network_url (url file) = true ->
  status_code (session (url file)) = 200%Z ->
  exists st',
    parse file st = Done tt st'
    /\ tree st' = tree st
    /\ folder_dict st' = folder_dict st
    /\ counters st' = ((skipped st + 1)%Z, updated st, downloaded st, errors st).
Proof.
  intros Hl Hstat Hlt Hu Hs.
  destruct (getmtime_stat _ _ _ _ Hstat) as [He Hm].
  rewrite (parse_file_stale session verbosity strftime_local file st loc m Hl He Hm Hlt).
  set (p := file_path_of loc file) in *.
  set (c := content (session (url file))) in *.
  set (ts := timestamp (modified_at file)) in *.
  set (id := next_tmp st).
  mstep.
  rewrite (try_done0 _ _ _ (download_network_tmp session (timed file) id
                              (with_scratch st) (modified_at file) Hu Hs eq_refl)).
  fold c ts.
  set (st2 := set_temps _ _ _).
  assert (Ht2 : temps st2 !! id = Some (c, ts)) by (subst st2; simpl; apply lookup_insert_eq).
  mstep.
  rewrite (filecmp_cmp_bytes p id st2 c m c ts) by (auto; lia).
  rewrite String.eqb_refl.
  mstep. unfold modify at 1. mstep. unfold remove_tmp at 1.
  replace (temps (incr_skipped st2) !! id) with (Some (c, ts)) by (symmetry; exact Ht2).
  unfold modify. eexists. split; [reflexivity|]. now repeat split.
Qed.

(** A settled entry is skipped, and the tree is left as it is. *)
Lemma settled_skip file st loc :
  folder_dict st !! folder_id file = Some loc ->
  network_url (url file) = true ->
  status_code (session (url file)) = 200%Z ->
  settled session loc file (tree st) ->
  exists st',
    parse file st = Done tt st'
    /\ tree st' = tree st
    /\ folder_dict st' = folder_dict st
    /\ counters st' = ((skipped st + 1)%Z, updated st, downloaded st, errors st).
Proof.
  intros Hl Hu Hs (d & m & Hstat & Hor).
  destruct (Z.lt_ge_cases m (timestamp (modified_at file))) as [Hlt|Hge].
  - destruct Hor as [Hle| ->]; [lia|].
    exact (stale_identical_run file st loc m Hl Hstat Hlt Hu Hs).
  - destruct (getmtime_stat _ _ _ _ Hstat) as [He Hm].
    rewrite (parse_file_fresh session verbosity strftime_local file st loc m Hl He Hm Hge).
    eexists. split; [reflexivity|]. simpl.
    split; [apply tree_said|]. split; [unfold said; now destruct (2 <=? verbosity)%Z|].
    pose proof (counters_said verbosity 2 (Skipped_latest (file_name_of file)) st) as Hc.
    unfold counters in *. simpl. now injection Hc as -> -> -> ->.
Qed.

(** A run over settled entries skips them all. *)
Lemma settled_run files :
  forall st,
    (forall f, f ∈ files ->
               network_url (url f) = true
               /\ status_code (session (url f)) = 200%Z
               /\ exists loc, folder_dict st !! folder_id f = Some loc
                              /\ settled session loc f (tree st)) ->
    exists st',
      for_each files parse st = Done tt st'
      /\ tree st' = tree st
      /\ counters st'
         = ((skipped st + Z.of_nat (length files))%Z, updated st, downloaded st, errors st).
Proof.
  induction files as [|f files IH]; intros st Hall.
  - exists st. split; [reflexivity|]. split; [reflexivity|].
    unfold counters. simpl. now rewrite Z.add_0_r.
  - destruct (Hall f (list_elem_of_here _ _)) as (Hu & Hs & loc & Hl & Hset).
    destruct (settled_skip f st loc Hl Hu Hs Hset) as (st1 & Hrun & Ht & Hfd & Hc).
    destruct (IH st1) as (st' & Hrun' & Ht' & Hc').
    { intros g Hg. destruct (Hall g (list_elem_of_further _ _ _ Hg))
        as (Hgu & Hgs & gl & Hgl & Hgset).
      split; [exact Hgu|]. split; [exact Hgs|]. exists gl. now rewrite Hfd, Ht. }
    exists st'. split; [|split].
    + simpl. mstep. now rewrite Hrun.
    + congruence.
    + rewrite Hc'. unfold counters in Hc. injection Hc as -> -> -> ->.
      f_equal. f_equal. f_equal. simpl length. lia.
Qed.

(** A call without a collision settles its entry and touches no other key. *)
Lemma parse_file_settles file st st' loc :
  folder_dict st !! folder_id file = Some loc ->
  network_url (url file) = true ->
  status_code (session (url file)) = 200%Z ->
  no_collision loc file st ->
  parse file st = Done tt st' ->
  folder_dict st' = folder_dict st
  /\ settled session loc file (tree st')
  /\ forall k, k <> Os.resolve (file_path_of loc file) ->
               Os.stat k (tree st') = Os.stat k (tree st).
Proof.
  intros Hl Hu Hs Hnc Hrun.
  destruct (parse_file_fetched_cases session verbosity strftime_local file st st' loc
              Hl Hu Hs Hrun) as [Hfd Hcases].
  split; [exact Hfd|].
  destruct Hcases as [(d & m & Hstat & [(Hor & Ht & _)|(_ & _ & Ht & _)])
                     |[(He & Hi & _)|(_ & _ & Ht & Hk & _)]].
  - rewrite Ht. split; [now exists d, m|reflexivity].
  - rewrite Ht. split.
    + eexists _, _. split; [|now right].
      apply stat_put_eq. exact (stat_file_nonroot _ _ _ _ Hstat).
    + intros k Hk. rewrite stat_put_ne by congruence.
      apply stat_delete_key_ne. congruence.
  - destruct Hnc as [Hnc|Hnc]; congruence.
  - rewrite Ht. split.
    + eexists _, _. split; [|now right]. now apply stat_put_eq.
    + intros k Hk'. apply stat_put_ne. congruence.
Qed.

(** A first run without collisions settles every entry. *)
Lemma first_run_settles files :
  forall st st1,
    (forall f, f ∈ files ->
               is_Some (folder_dict st !! folder_id f)
               /\ network_url (url f) = true
               /\ status_code (session (url f)) = 200%Z) ->
    NoDup (local_key (folder_dict st) <$> files) ->
    clean_run session verbosity strftime_local files st ->
    for_each files parse st = Done tt st1 ->
    folder_dict st1 = folder_dict st
    /\ (forall f loc, f ∈ files -> folder_dict st !! folder_id f = Some loc ->
                      settled session loc f (tree st1))
    /\ (forall k, k ∉ local_key (folder_dict st) <$> files ->
                  Os.stat k (tree st1) = Os.stat k (tree st)).
Proof.
  induction files as [|f files IH]; intros st st1 Hall Hnd Hclean Hrun.
  - injection Hrun as <-. split; [reflexivity|]. split; [|reflexivity].
    intros f loc Hf. inversion Hf.
  - simpl in Hrun. revert Hrun. mstep.
    destruct (parse f st) as [[] st'|e st'|] eqn:Hf; try discriminate. intros Hrest.
    destruct (Hall f (list_elem_of_here _ _)) as ([loc Hl] & Hu & Hs).
    destruct Hclean as [Hnc Hclean].
    destruct (parse_file_settles f st st' loc Hl Hu Hs (Hnc loc Hl) Hf)
      as (Hfd & Hset & Hframe).
    simpl in Hnd. apply NoDup_cons in Hnd as [Hnotin Hnd].
    destruct (IH st' st1) as (Hfd1 & Hset1 & Hframe1).
    { intros g Hg. rewrite Hfd. apply Hall. now right. }
    { now rewrite Hfd. }
    { now apply Hclean. }
    { exact Hrest. }
    rewrite Hfd in *.
    assert (Hkey : local_key (folder_dict st) f = Os.resolve (file_path_of loc f))
      by (unfold local_key; now rewrite Hl).
    split; [exact Hfd1|]. split.
    + intros g gl Hg Hgl. apply elem_of_cons in Hg as [->|Hg]; [|now apply Hset1].
      assert (gl = loc) by congruence. subst gl.
      destruct Hset as (d & m & Hstat & Hor). exists d, m. split; [|exact Hor].
      rewrite <- Hkey in *. now rewrite Hframe1.
    + intros k Hk. rewrite fmap_cons in Hk. apply not_elem_of_cons in Hk as [Hk1 Hk2].
      rewrite (Hframe1 k Hk2). apply Hframe. congruence.
Qed.


End Again.

(** ** The statements on concrete inputs *)

Lemma wf_check_sound t : wf_check t = true -> Os.wf t.
Proof.
  intros H k n Hk. unfold wf_check in H. rewrite forallb_forall in H.
  assert (Hin : exists n', In (k, n') t).
  { clear H. induction t as [|[k' n'] t IH]; simpl in Hk; [discriminate|].
    destruct (Os.key_eqb k' k) eqn:E.
    - apply bool_decide_eq_true in E. subst k'. exists n'. now left.
    - destruct (IH Hk) as [n0 H0]. exists n0. now right. }
  destruct Hin as [n' Hin]. specialize (H _ Hin). simpl in H.
  destruct (Os.stat (Os.parent k) t) as [[]|]; easy.
Qed.

Section WitnessOnAscii.
#[local] Existing Instance ascii_names.


Lemma unavailable_entry_is_skipped_and_recorded_witness :
  exists st',
    _parse_file one_doc_session 1 plain_strftime unavailable_file course_state = Done tt st'
    /\ counters st' = (1, 0, 0, 0)%Z.
Proof.
  destruct (unavailable_entry_is_skipped_and_recorded one_doc_session 1 plain_strftime
              unavailable_file course_state "course" eq_refl eq_refl) as [_ Hskip].
  destruct Hskip as (st' & Hrun & Hc & _); [reflexivity|reflexivity| |].
  - intros g Hg. vm_compute in Hg. inversion Hg.
  - exists st'. split; [exact Hrun|exact Hc].
Defined.
End WitnessOnAscii.

Lemma do_all_pages_delivers_every_item_in_order_witness :
  exists st',
    do_all_pages 2 two_pages "p1" note course_state = Done tt st'
    /\ out st' = [Creating "a"; Creating "b"; Creating "c"]
    /\ handed note ["a"; "b"; "c"]%string course_state (Done tt st').
Proof.
  eexists. split; [vm_compute; reflexivity|]. split; [reflexivity|].
  change (Done tt _) with (do_all_pages 2 two_pages "p1" note course_state).
  apply (do_all_pages_delivers_every_item_in_order two_pages note "p1"
           [two_pages "p1"; two_pages "p2"] 2 course_state); [simpl; lia|].
  simpl. repeat split; discriminate.
Defined.

Section WitnessOnAscii2.
#[local] Existing Instance ascii_names.


Lemma failed_download_is_counted_and_skipped_witness :
  exists st',
    _parse_file one_doc_session 1 plain_strftime missing_file course_state = Done tt st'
    /\ counters st' = (0, 0, 0, 1)%Z
    /\ file_set st' = ∅
    /\ Err_args "Non-200 status code" "b.txt" ∈ out st'.
Proof.
  destruct (failed_download_is_counted_and_skipped one_doc_session 1 plain_strftime
              missing_file course_state "course")
    as (st' & Hrun & Hc & Hf & _ & Ho & _);
    [reflexivity|reflexivity|vm_compute; discriminate| |].
  - right. split; reflexivity.
  - exists st'. repeat split; assumption.
Defined.

Lemma doc_result_run :
  _parse_file one_doc_session 1 plain_strftime doc_file course_state = Done tt doc_result.
Proof. vm_compute. reflexivity. Qed.
End WitnessOnAscii2.

Lemma fetched_files_carry_remote_time_witness :
  10000000%Z = timestamp (modified_at doc_file)
  /\ "new bytes"%string = content (one_doc_session (url doc_file)).
Proof.
  apply (proj1 (fetched_files_carry_remote_time one_doc_session 1 plain_strftime
                  doc_file course_state "course" eq_refl)
           eq_refl doc_result doc_result_run
           ["course"; "a.txt"]%string "new bytes"%string 10000000%Z).
  - vm_compute. reflexivity.
  - vm_compute. discriminate.
Defined.

Lemma sane_check_sound t : sane_check t = true -> sane t.
Proof.
  unfold sane_check. intros H.
  apply andb_prop in H as [H Hnames]. apply andb_prop in H as [Hnd Hwf].
  split; [now apply bool_decide_eq_true in Hnd|].
  split; [now apply wf_check_sound|].
  intros k n Hin. rewrite forallb_forall in Hnames.
  apply list_elem_of_In in Hin. specialize (Hnames _ Hin). simpl in Hnames.
  apply andb_prop in Hnames as [Hne Hall]. split.
  - intros ->. discriminate.
  - apply Forall_forall. intros x Hx. rewrite forallb_forall in Hall.
    apply Hall. now apply list_elem_of_In.
Qed.

Lemma onto_local_prunes_witness :
  exists st',
    onto_local 1 "course" 3 prune_state = Done tt st'
    /\ tree st' = [(["course"], Os.Dir);
                   (["course"; "keep.txt"], Os.File "k" 5);
                   (["course"; "Sub"], Os.Dir);
                   (["course"; ".old"], Os.Dir);
                   (["course"; ".old"; "z.txt"], Os.File "z" 5)]%string.
Proof.
  destruct (onto_local_prunes 1 "course" 3 prune_state) as (st' & Hrun & _ & Htree & _).
  - apply sane_check_sound. vm_compute. reflexivity.
  - lia.
  - intros k n Hin.
    assert (Hall : Forall (fun e : Os.key * Os.node => length e.1 < 1 + 3) (tree prune_state)).
    { simpl. repeat constructor; simpl; lia. }
    rewrite Forall_forall in Hall. exact (Hall _ Hin).
  - exists st'. split; [exact Hrun|]. rewrite Htree. vm_compute. reflexivity.
Defined.


(** ** The directory and the name of a joined path *)

Lemma length_app_string (a b : string) :
  String.length (a +:+ b) = String.length a + String.length b.
Proof. induction a as [|x a IH]; [reflexivity|]. rewrite app_cons. simpl. now rewrite IH. Qed.

Lemma rfind_nosep c x : Str.contains_char c x = false -> Str.rfind c x = (-1)%Z.
Proof. intros H. unfold Str.rfind. now rewrite (proj1 (rfind_nat_none c x) H). Qed.

Lemma rfind_last c a b :
  Str.contains_char c b = false ->
  Str.rfind c (a +:+ String c b) = Z.of_nat (String.length a).
Proof. intros H. unfold Str.rfind. now rewrite (rfind_nat_last c a b H). Qed.

Lemma split_at_last_sep a x :
  Str.contains_char OsPath.sep x = false ->
  let p := a +:+ String OsPath.sep x in
  Str.slice_to (Str.rfind OsPath.sep p + 1) p = a +:+ "/"
  /\ Str.slice_from (Str.rfind OsPath.sep p + 1) p = x.
Proof.
  intros Hx p. subst p. rewrite (rfind_last _ a x Hx).
  unfold Str.slice_to, Str.slice_from.
  replace (Z.to_nat (Z.of_nat (String.length a) + 1)) with (String.length (a +:+ "/"))
    by (rewrite length_app_string; simpl; lia).
  replace (a +:+ String OsPath.sep x) with ((a +:+ "/") +:+ x)
    by (now rewrite append_assoc).
  now rewrite take_app_length, drop_app_length.
Qed.

Lemma all_sep_app a b : OsPath.all_sep (a +:+ b) = OsPath.all_sep a && OsPath.all_sep b.
Proof.
  induction a as [|c a IH]; [reflexivity|]. rewrite app_cons. simpl.
  rewrite IH. now rewrite andb_assoc.
Qed.

Lemma rstrip_app_sep s :
  s <> ""%string -> Str.endswith_char OsPath.sep s = false ->
  Str.rstrip_char OsPath.sep (s +:+ "/") = s /\ OsPath.all_sep s = false.
Proof.
  induction s as [|c s IH]; [contradiction|]. intros _ He.
  destruct s as [|c' s].
  - simpl in He. rewrite app_cons, app_nil. simpl. rewrite He. now split.
  - assert (He' : Str.endswith_char OsPath.sep (String c' s) = false) by exact He.
    destruct (IH ltac:(discriminate) He') as [IH1 IH2].
    rewrite app_cons.
    change (Str.rstrip_char OsPath.sep (String c (String c' s +:+ "/")))
      with (match Str.rstrip_char OsPath.sep (String c' s +:+ "/") with
            | EmptyString =>
                if Ascii.eqb c OsPath.sep then EmptyString else String c EmptyString
            | r' => String c r'
            end).
    rewrite IH1. split; [reflexivity|].
    change (OsPath.all_sep (String c (String c' s)))
      with (Ascii.eqb c OsPath.sep && OsPath.all_sep (String c' s)).
    rewrite IH2. apply andb_false_r.
Qed.

(** [rstrip] takes separators off the end, and only those. *)
Lemma rstrip_decompose s :
  exists k, s = Str.rstrip_char OsPath.sep s +:+ Str.repeat_char OsPath.sep k.
Proof.
  induction s as [|c s [k IH]].
  - now exists 0.
  - simpl. destruct (Str.rstrip_char OsPath.sep s) as [|c' r] eqn:E.
    + destruct (Ascii.eqb_spec c OsPath.sep) as [->|Hne].
      * exists (S k). rewrite app_nil in *. simpl. now f_equal.
      * exists k. rewrite app_cons, app_nil. rewrite app_nil in IH. now f_equal.
    + exists k. rewrite app_cons. now f_equal.
Qed.

Lemma rstrip_empty_all_sep s :
  Str.rstrip_char OsPath.sep s = ""%string -> OsPath.all_sep s = true.
Proof.
  induction s as [|c s IH]; [reflexivity|]. simpl.
  destruct (Str.rstrip_char OsPath.sep s) as [|c' r]; [|discriminate].
  destruct (Ascii.eqb c OsPath.sep); [|discriminate]. intros _. now apply IH.
Qed.

Lemma split_char_repeat_sep k :
  forall r, Str.split_char OsPath.sep (r +:+ Str.repeat_char OsPath.sep k)
            = Str.split_char OsPath.sep r ++ repeat ""%string k.
Proof.
  induction k as [|k IH]; intros r.
  - simpl. now rewrite append_nil_r, app_nil_r.
  - change (Str.repeat_char OsPath.sep (S k))
      with (String OsPath.sep (Str.repeat_char OsPath.sep k)).
    rewrite split_char_app_sep.
    specialize (IH ""%string). rewrite app_nil in IH. rewrite IH.
    reflexivity.
Qed.

Lemma norm_loop_repeat_empty i k acc :
  OsPath.norm_loop i (repeat ""%string k) acc = rev acc.
Proof. induction k as [|k IH]; [reflexivity|exact IH]. Qed.

Lemma resolve_rstrip s :
  OsPath.all_sep s = false ->
  Os.resolve (Str.rstrip_char OsPath.sep s) = Os.resolve s.
Proof.
  intros Hs. destruct (rstrip_decompose s) as [k Hk].
  set (r := Str.rstrip_char OsPath.sep s) in *.
  assert (Hr : r <> ""%string).
  { intros E. subst r. apply rstrip_empty_all_sep in E. congruence. }
  clearbody r. subst s.
  unfold Os.resolve, OsPath.norm_comps.
  rewrite startswith_sep_app by exact Hr. rewrite split_char_repeat_sep.
  destruct (norm_loop_app (Str.startswith "/" r) (Str.split_char OsPath.sep r) [])
    as (acc' & Hacc & Happ).
  now rewrite Happ, norm_loop_repeat_empty.
Qed.

Lemma split_head_tail a x :
  Str.contains_char OsPath.sep x = false ->
  OsPath.split (a +:+ String OsPath.sep x)
  = (if negb (String.eqb (a +:+ "/") "") && negb (OsPath.all_sep (a +:+ "/"))
     then Str.rstrip_char OsPath.sep (a +:+ "/") else a +:+ "/", x).
Proof.
  intros Hx. unfold OsPath.split.
  destruct (split_at_last_sep a x Hx) as [H1 H2]. cbv zeta in H1, H2.
  now rewrite H1, H2.
Qed.

(** [getfile_insensitive] lists the directory the file was joined to, and
    looks there for the name it was joined with. *)
Lemma split_join loc x :
  proper_name x = true ->
  (OsPath.split (OsPath.join loc x)).2 = x
  /\ Os.resolve (listed_dir (OsPath.join loc x)) = Os.resolve loc.
Proof.
  intros Hx. pose proof (proper_name_nosep x Hx) as Hsep.
  unfold listed_dir, OsPath.join. rewrite (proper_name_nostart x Hx).
  destruct (String.eqb_spec loc "") as [->|Hloc]; simpl orb; cbv iota.
  - rewrite app_nil. unfold OsPath.split. rewrite (rfind_nosep _ _ Hsep).
    change (Str.slice_to (-1 + 1) x) with ""%string.
    change (Str.slice_from (-1 + 1) x) with x.
    split; reflexivity.
  - destruct (Str.endswith_char OsPath.sep loc) eqn:He.
    + destruct (endswith_char_app _ _ He) as [s' Hs'].
      change (String OsPath.sep "") with "/"%string in Hs'.
      replace (loc +:+ x) with (s' +:+ String OsPath.sep x)
        by (rewrite Hs', append_assoc; reflexivity).
      rewrite (split_head_tail s' x Hsep). rewrite <- Hs'.
      rewrite (proj2 (String.eqb_neq loc "") Hloc). simpl negb. simpl andb at 1.
      split; [now destruct (negb (OsPath.all_sep loc))|].
      destruct (OsPath.all_sep loc) eqn:Hall; simpl.
      * now rewrite (proj2 (String.eqb_neq loc "") Hloc).
      * destruct (String.eqb_spec (Str.rstrip_char OsPath.sep loc) "") as [E|_].
        -- apply rstrip_empty_all_sep in E. congruence.
        -- now apply resolve_rstrip.
    + destruct (rstrip_app_sep loc Hloc He) as [Hr Hall].
      change (loc +:+ "/" +:+ x) with (loc +:+ String OsPath.sep x).
      rewrite (split_head_tail loc x Hsep).
      rewrite all_sep_app, Hall, Hr. simpl andb.
      assert (Hne : String.eqb (loc +:+ "/") "" = false) by (now destruct loc).
      rewrite Hne. simpl.
      now rewrite (proj2 (String.eqb_neq loc "") Hloc).
Qed.

(** ** A call returns *)

Section Returns.
Context {L : Str.Lowering}.
Variable session : string -> response.
Variable verbosity : Z.
Variable strftime_local : Z -> string.

(** [download] to the scratch file returns, or raises [ConnectionError]. *)
Lemma download_tmp_cases file id st t :
  _time file = Some t ->
  is_Some (temps st !! id) ->
  (exists st', download session file (Tmp id) st = Done tt st'
               /\ tree st' = tree st
               /\ is_Some (temps st' !! id))
  \/ (exists text name,
         download session file (Tmp id) st = Raised (ConnectionError text name) st).
Proof.
  intros Ht Hid. unfold download.
  destruct (String.eqb (url file) "").
  { left. eexists. split; [reflexivity|]. split; [reflexivity|exact Hid]. }
  destruct (Str.startswith "URL:" (url file)).
  { left. eexists. split; [reflexivity|]. split; [reflexivity|].
    simpl. rewrite lookup_insert_eq. eauto. }
  destruct (Str.startswith "SubHeader:" (url file)).
  { left. eexists. split; [reflexivity|]. split; [reflexivity|].
    simpl. rewrite lookup_insert_eq. eauto. }
  destruct (status_code (session (url file)) =? 200)%Z; [|right; eauto].
  left. rewrite Ht. mstep. unfold open_write, utime. simpl. rewrite lookup_insert_eq.
  eexists. split; [reflexivity|]. split; [reflexivity|].
  simpl. rewrite lookup_insert_eq. eauto.
Qed.

(** [download] to a path that can be written returns, or raises
    [ConnectionError]. *)
Lemma download_path_cases file q st t :
  _time file = Some t ->
  writable q (tree st) ->
  (exists st', download session file (Path q) st = Done tt st')
  \/ (exists text name,
         download session file (Path q) st = Raised (ConnectionError text name) st).
Proof.
  intros Ht Hw. unfold download.
  destruct (String.eqb (url file) ""); [left; eauto|].
  destruct (Str.startswith "URL:" (url file)).
  { left. unfold open_write, os_do. rewrite (write_ok _ _ _ _ Hw). eauto. }
  destruct (Str.startswith "SubHeader:" (url file)).
  { left. unfold touch, os_do, Os.touch. destruct Hw as [Hnd Hp]. rewrite Hp.
    destruct (Os.stat (Os.resolve q) (tree st)) as [[d m|]|]; eauto. }
  destruct (status_code (session (url file)) =? 200)%Z; [|right; eauto].
  left. rewrite Ht. mstep. unfold open_write, os_do. rewrite (write_ok _ _ _ _ Hw).
  unfold utime, os_do, Os.utime. simpl.
  rewrite stat_put_eq by exact (writable_nonroot _ _ Hw). eauto.
Qed.

Lemma fetch_to_path_returns file q st :
  writable q (tree st) ->
  exists st',
    (ok ← try_except_ConnectionError
            (download session (timed file) (Path q);; modify incr_downloaded;; mret true)
            on_error;
     if ok : bool then modify (file_set_add q) else mret tt) st = Done tt st'.
Proof.
  intros Hw. mstep.
  destruct (download_path_cases (timed file) q st (modified_at file) eq_refl Hw)
    as [[st' Hd]|(text & name & Hd)].
  - rewrite (try_done _ (modify incr_downloaded) _ _ _ Hd eq_refl). eauto.
  - rewrite (try_conn _ _ _ _ _ _ Hd). eauto.
Qed.

Lemma filecmp_cmp_returns p id st d m c ts :
  Os.stat (Os.resolve p) (tree st) = Some (Os.File d m) ->
  temps st !! id = Some (c, ts) ->
  exists b, filecmp_cmp (Path p) (Tmp id) st = Done b st.
Proof.
  intros Hp Ht. unfold filecmp_cmp.
  mstep. unfold stat_loc at 1. rewrite Hp.
  mstep. unfold stat_loc at 1. rewrite Ht.
  destruct ((String.length d =? String.length c)%nat && (m =? ts)%Z); [eauto|].
  destruct (negb (String.length d =? String.length c)%nat); eauto.
Qed.

Lemma parent_child (d : Os.key) x : Os.parent (d ++ [x]) = d.
Proof. unfold Os.parent. apply removelast_last. Qed.

Lemma isdir_stat s t : Os.isdir s t = true -> Os.stat (Os.resolve s) t = Some Os.Dir.
Proof. unfold Os.isdir. now destruct (Os.stat (Os.resolve s) t) as [[]|]. Qed.

(** A path joined to a directory that is there can be written, unless it is
    a directory itself. *)
Lemma writable_join loc x t :
  Os.isdir loc t = true ->
  proper_name x = true ->
  Os.stat (Os.resolve (OsPath.join loc x)) t <> Some Os.Dir ->
  writable (OsPath.join loc x) t.
Proof.
  intros Hd Hx Hnd. split; [exact Hnd|].
  rewrite (resolve_join loc x Hx), parent_child. now apply isdir_stat.
Qed.

(** With the directory of the folder in place and names that a directory
    can hold, a call of [_parse_file] returns: no branch raises past it. *)
Lemma parse_file_returns file st loc :
  folder_dict st !! folder_id file = Some loc ->
  Os.isdir loc (tree st) = true ->
  proper_name (file_name_of file) = true ->
  proper_name (collision_name strftime_local file) = true ->
  Os.isdir (collision_path strftime_local loc file) (tree st) = false ->
  exists st', _parse_file session verbosity strftime_local file st = Done tt st'.
Proof.
  intros Hl Hdir Hname Hcname Hcdir.
  set (p := file_path_of loc file).
  assert (Hkey : Os.resolve p = Os.resolve loc ++ [file_name_of file])
    by (apply resolve_join; exact Hname).
  assert (Hparent : Os.stat (Os.parent (Os.resolve p)) (tree st) = Some Os.Dir)
    by (rewrite Hkey, parent_child; now apply isdir_stat).
  destruct (split_join loc (file_name_of file) Hname) as [Htail Hlisted].
  fold (file_path_of loc file) in Htail, Hlisted. fold p in Htail, Hlisted.
  assert (Hldir : Os.isdir (listed_dir p) (tree st) = true).
  { unfold Os.isdir. rewrite Hlisted. now rewrite (isdir_stat _ _ Hdir). }
  destruct (Os.stat (Os.resolve p) (tree st)) as [[d m|]|] eqn:Hstat.
  - (* a local file *)
    destruct (getmtime_stat _ _ _ _ Hstat) as [He Hm].
    destruct (Z.lt_ge_cases m (timestamp (modified_at file))) as [Hlt|Hge].
    2:{ rewrite (parse_file_fresh session verbosity strftime_local file st loc m
                   Hl He Hm Hge). eauto. }
    rewrite (parse_file_stale session verbosity strftime_local file st loc m Hl He Hm Hlt).
    fold p. set (id := next_tmp st).
    destruct (download_tmp_cases (timed file) id (with_scratch st) (modified_at file)
                eq_refl) as [(st2 & Hd & Ht2 & [[c ts] Hid])|(text & name & Hd)].
    { unfold with_scratch. simpl. fold id. rewrite lookup_insert_eq. eauto. }
    2:{ mstep. rewrite (try_conn _ _ _ _ _ _ Hd). eauto. }
    mstep. rewrite (try_done0 _ _ _ Hd).
    destruct (filecmp_cmp_returns p id st2 d m c ts) as [b Hb];
      [rewrite Ht2; exact Hstat|exact Hid|].
    mstep. rewrite Hb. destruct b.
    + mstep. unfold modify at 1. mstep. unfold remove_tmp at 1.
      replace (temps (incr_skipped st2) !! id) with (Some (c, ts)) by (symmetry; exact Hid).
      unfold modify. eauto.
    + mstep. mstep. rewrite say_run. mstep. unfold modify at 1.
      mstep. unfold os_do at 1, Os.remove.
      set (st3 := incr_updated _).
      assert (Htree3 : tree st3 = tree st).
      { subst st3. simpl. now rewrite tree_said, Ht2. }
      assert (Ht3 : temps st3 !! id = Some (c, ts)).
      { subst st3. unfold said. now destruct (1 <=? verbosity)%Z. }
      rewrite Htree3, Hstat.
      unfold copy2. mstep. unfold stat_loc at 1.
      replace (temps (set_tree (Os.delete_key (Os.resolve p) (tree st)) st3) !! id)
        with (Some (c, ts)) by (symmetry; exact Ht3).
      unfold os_do at 1.
      assert (Hk : Os.resolve p <> []) by exact (stat_file_nonroot _ _ _ _ Hstat).
      rewrite write_ok.
      2:{ split; simpl.
          - destruct (Os.resolve p) eqn:E; [easy|]. simpl.
            now rewrite lookup_delete_key_eq.
          - rewrite stat_delete_key_ne by (apply not_eq_sym, parent_neq; exact Hk).
            exact Hparent. }
      mstep. unfold remove_tmp at 1.
      replace (temps (set_tree _ (set_tree _ st3)) !! id) with (Some (c, ts))
        by (symmetry; exact Ht3).
      unfold modify. eauto.
  - (* a directory with the name of the entry: it collides with itself *)
    assert (He : Os.isfile p (tree st) = false) by (unfold Os.isfile; now rewrite Hstat).
    assert (Hi : isfile_insensitive p st = Done true st).
    { apply (isfile_insensitive_true p st (file_name_of file) Os.Dir Hldir).
      - rewrite Hlisted. apply elem_of_children. rewrite <- Hkey.
        apply stat_elem; [|exact Hstat]. rewrite Hkey. now destruct (Os.resolve loc).
      - now rewrite Htail. }
    rewrite (parse_file_collision session verbosity strftime_local file st loc Hl He Hi).
    apply fetch_to_path_returns. rewrite tree_said.
    apply writable_join; [exact Hdir|exact Hcname|].
    intros E. unfold Os.isdir in Hcdir. unfold collision_path in Hcdir.
    now rewrite E in Hcdir.
  - (* nothing at the path *)
    assert (He : Os.isfile p (tree st) = false) by (unfold Os.isfile; now rewrite Hstat).
    destruct (isfile_insensitive_run p st Hldir) as [b Hi]. destruct b.
    + rewrite (parse_file_collision session verbosity strftime_local file st loc Hl He Hi).
      apply fetch_to_path_returns. rewrite tree_said.
      apply writable_join; [exact Hdir|exact Hcname|].
      intros E. unfold Os.isdir in Hcdir. unfold collision_path in Hcdir.
      now rewrite E in Hcdir.
    + destruct (String.eqb_spec (url file) "") as [Hu|Hu].
      * rewrite (parse_file_unavailable session verbosity strftime_local file st loc
                   Hl He Hi Hu). eauto.
      * rewrite (parse_file_new session verbosity strftime_local file st loc Hl He Hi Hu).
        apply fetch_to_path_returns. rewrite tree_said.
        apply writable_join; [exact Hdir|exact Hname|].
        fold (file_path_of loc file). fold p. now rewrite Hstat.
Qed.

End Returns.

(** ** One counter for each entry *)

(** C9. A call of [_parse_file] on an entry whose [folder_id] is a key of
    [folder_dict] raises exactly one of [skipped], [updated], [downloaded]
    and [errors], by one, and leaves the other three as they were: the call
    returns when the directory of the folder is there and the names are ones
    a directory can hold, and whenever it returns one counter has gone up;
    so a loop over [n] such entries that runs to its end raises the sum of
    the four counters by [n]. *)
Theorem parse_file_bumps_one_counter {L : Str.Lowering} session verbosity fmt :
  (forall file st loc,
      folder_dict st !! folder_id file = Some loc ->
      Os.isdir loc (tree st) = true ->
      proper_name (file_name_of file) = true ->
      proper_name (collision_name fmt file) = true ->
      Os.isdir (collision_path fmt loc file) (tree st) = false ->
      exists st',
        _parse_file session verbosity fmt file st = Done tt st' /\ one_more st st')
  /\ (forall file st st',
         is_Some (folder_dict st !! folder_id file) ->
         _parse_file session verbosity fmt file st = Done tt st' ->
         one_more st st')
  /\ (forall files st st',
         (forall f, f ∈ files -> is_Some (folder_dict st !! folder_id f)) ->
         for_each files (_parse_file session verbosity fmt) st = Done tt st' ->
         total st' = (total st + Z.of_nat (length files))%Z).
Proof.
  split; [|split].
  - intros file st loc Hl Hdir Hname Hcname Hcdir.
    destruct (parse_file_returns session verbosity fmt file st loc
                Hl Hdir Hname Hcname Hcdir) as [st' Hrun].
    exists st'. split; [exact Hrun|].
    exact (proj1 (parse_file_counts _ _ _ _ _ _ (ex_intro _ loc Hl) Hrun)).
  - intros file st st' Hin Hrun.
    exact (proj1 (parse_file_counts _ _ _ _ _ _ Hin Hrun)).
  - induction files as [|f files IH]; intros st st' Hin Hrun.
    + injection Hrun as <-. simpl. lia.
    + simpl in Hrun. revert Hrun. mstep.
      destruct (_parse_file session verbosity fmt f st) as [[] st1|e st1|] eqn:Hf;
        try discriminate.
      intros Hrest.
      destruct (parse_file_counts _ _ _ _ _ _ (Hin f (list_elem_of_here _ _)) Hf)
        as [Hone Hfd].
      rewrite (IH st1 st'); [|intros g Hg; rewrite Hfd; apply Hin; now right|exact Hrest].
      rewrite (one_more_total _ _ Hone). simpl length. lia.
Qed.

Section C9OnAscii.
#[local] Existing Instance ascii_names.

Lemma parse_file_bumps_one_counter_witness :
  exists st',
    _parse_file one_doc_session 1 plain_strftime doc_file course_state = Done tt st'
    /\ one_more course_state st'.
Proof.
  apply (proj1 (parse_file_bumps_one_counter one_doc_session 1 plain_strftime)
           doc_file course_state "course"); reflexivity.
Defined.
End C9OnAscii.

(** ** More on the listings *)

Lemma chain_app {A} (get : string -> page A) ps :
  forall url qs mid last,
    chain get url ps mid -> chain get mid qs last -> chain get url (ps ++ qs) last.
Proof.
  induction ps as [|p ps IH]; intros url qs mid last H1 H2; simpl in *.
  - now subst mid.
  - destruct H1 as (Hne & Hget & Hok & Hrest).
    repeat split; try assumption. exact (IH _ _ _ _ Hrest H2).
Qed.

(** A listing that runs to its end is the loop over all its items. *)
Lemma do_all_pages_all {A} (get : string -> page A) h url pages fuel st :
  length pages <= fuel ->
  chain get url pages "" ->
  do_all_pages fuel get url h st = for_each (all_items pages) h st.
Proof.
  intros Hfuel Hc.
  replace fuel with (length pages + (fuel - length pages)) by lia.
  rewrite (do_all_pages_chain get h pages url "" _ st Hc).
  unfold mbind, M_bind.
  destruct (for_each (all_items pages) h st) as [[] st1|e st1|]; try reflexivity.
  apply do_all_pages_done.
Qed.

(** X1. [do_all_pages] has no guard against a listing whose next links lead
    back to a page already seen: from a URL on such a cycle the loop never
    comes to its end, whatever the number of pages it is allowed to
    follow. *)
Theorem do_all_pages_cycle_never_returns
  {A} (get : string -> page A) (h : A -> M unit) fuel :
  forall url pages st st',
    pages <> [] ->
    chain get url pages url ->
    do_all_pages fuel get url h st <> Done tt st'.
Proof.
  induction fuel as [|fuel IH]; intros url pages st st' Hne Hc;
    destruct pages as [|p rest]; try contradiction;
    simpl in Hc; destruct Hc as (Hurl & Hget & Hok & Hrest).
  - simpl. apply String.eqb_neq in Hurl. now rewrite Hurl.
  - rewrite do_all_pages_step by exact Hurl. rewrite Hget.
    mstep. rewrite (raise_for_status_ok _ _ Hok).
    mstep. destruct (for_each (page_items p) h st) as [[] st1|e st1|]; try discriminate.
    apply (IH (next_url p) (rest ++ [p])).
    + now destruct rest.
    + apply (chain_app get rest _ [p] url); [exact Hrest|].
      simpl. repeat split; assumption.
Qed.

Lemma do_all_pages_cycle_never_returns_witness :
  do_all_pages 7 self_loop "p1" note course_state <> Done tt course_state.
Proof.
  apply (do_all_pages_cycle_never_returns self_loop note 7 "p1" [self_loop "p1"]).
  - discriminate.
  - simpl. repeat split; discriminate.
Defined.

(** X2. An exception that the handler raises at an item ends the listing
    there: [do_all_pages] raises it with the state the handler left, the
    items after it are not handed over, and the pages after the one at hand
    are not asked for, whatever they hold. *)
Theorem handler_exception_ends_the_listing
  {A} (get : string -> page A) (h : A -> M unit) url pages last fuel
  pre x post st st0 e st1 :
  chain get url pages last ->
  length pages <= fuel ->
  all_items pages = pre ++ x :: post ->
  for_each pre h st = Done tt st0 ->
  h x st0 = Raised e st1 ->
  do_all_pages fuel get url h st = Raised e st1.
Proof.
  intros Hc Hfuel Hitems Hpre Hx.
  replace fuel with (length pages + (fuel - length pages)) by lia.
  rewrite (do_all_pages_chain get h pages url last _ st Hc).
  apply bind_Raised. rewrite Hitems, for_each_app.
  rewrite (bind_Done _ _ _ _ _ Hpre). simpl.
  now apply bind_Raised.
Qed.

Lemma handler_exception_ends_the_listing_witness :
  do_all_pages 1 two_pages "p1" picky_note course_state
  = Raised KeyError (print (Creating "a") course_state).
Proof.
  apply (handler_exception_ends_the_listing two_pages picky_note "p1"
           [two_pages "p1"] "p2" 1 ["a"%string] "b"%string [] course_state
           (print (Creating "a") course_state)).
  - simpl. repeat split; discriminate.
  - simpl. lia.
  - reflexivity.
  - reflexivity.
  - reflexivity.
Defined.

(** ** [sync_local] as nested loops *)

Lemma for_each_ext {A} (xs : list A) (f g : A -> M unit) :
  (forall x st, x ∈ xs -> f x st = g x st) ->
  forall st, for_each xs f st = for_each xs g st.
Proof.
  induction xs as [|x xs IH]; intros Hfg st; simpl; [reflexivity|].
  unfold mbind, M_bind. rewrite (Hfg x st) by left.
  destruct (g x st) as [[] st1|e st1|]; try reflexivity.
  apply IH. intros y st2 Hy. apply Hfg. now right.
Qed.

Section SyncLocal.
Context {L : Str.Lowering}.
Variable session : string -> response.
Variable verbosity : Z.
Variable strftime_local : Z -> string.
Variable course_dir base_url course_id : string.
Variable get_folders : string -> page folder.
Variable get_files : string -> page file.
Variable get_modules : string -> page module.
Variable get_items : string -> page moduleitem.
Variable get_file : string -> Z * file.
Variable strftime_utc : Z -> string.

Lemma sync_local_files_run fuel fpages pages st :
  chain get_folders (folders_url base_url course_id) fpages "" ->
  chain get_files (files_url base_url course_id) pages "" ->
  length fpages <= fuel ->
  length pages <= fuel ->
  sync_local session verbosity strftime_local course_dir base_url course_id
    get_folders get_files get_modules get_items get_file strftime_utc FILES fuel st
  = (say verbosity 1 Syncing;;
     for_each (all_items fpages) (_parse_folder verbosity course_dir);;
     for_each (all_items pages) (_parse_file session verbosity strftime_local)) st.
Proof.
  intros Hf Hp Hlf Hlp. unfold sync_local, folders_url, files_url in *.
  unfold mbind, M_bind.
  destruct (say verbosity 1 Syncing st) as [[] st1|e st1|]; try reflexivity.
  rewrite (do_all_pages_all get_folders _ _ fpages fuel st1 Hlf Hf).
  destruct (for_each (all_items fpages) _ st1) as [[] st2|e st2|]; try reflexivity.
  exact (do_all_pages_all get_files _ _ pages fuel st2 Hlp Hp).
Qed.

(** X3. For a course of the files kind whose two listings run to their
    ends, [sync_local] is the announcement, then [_parse_folder] over every
    folder of the folder listing, then [_parse_file] over every file of the
    file listing: no file is looked at before the last folder is
    recorded. *)
Theorem sync_local_files_is_folders_then_files fuel fpages pages st :
  chain get_folders (folders_url base_url course_id) fpages "" ->
  chain get_files (files_url base_url course_id) pages "" ->
  length fpages <= fuel ->
  length pages <= fuel ->
  sync_local session verbosity strftime_local course_dir base_url course_id
    get_folders get_files get_modules get_items get_file strftime_utc FILES fuel st
  = (say verbosity 1 Syncing;;
     for_each (all_items fpages) (_parse_folder verbosity course_dir);;
     for_each (all_items pages) (_parse_file session verbosity strftime_local)) st.
Proof. apply sync_local_files_run. Qed.

(** X4. For a course of the modules kind, [sync_local] goes through the
    modules in the order of their listing and, for each, records and makes
    its directory and then hands its items, in the order of the module's
    own listing, to [_parse_moduleitem]: all the items of a module are
    handled before the next module is begun. *)
Theorem sync_local_modules_is_nested_loops fuel mpages
  (items_of : module -> list moduleitem) st :
  chain get_modules (modules_url base_url course_id) mpages "" ->
  length mpages <= fuel ->
  (forall m, m ∈ all_items mpages ->
             exists ipages,
               chain get_items (items_url base_url course_id m) ipages ""
               /\ length ipages <= fuel
               /\ all_items ipages = items_of m) ->
  sync_local session verbosity strftime_local course_dir base_url course_id
    get_folders get_files get_modules get_items get_file strftime_utc MODULES fuel st
  = (say verbosity 1 Syncing;;
     for_each (all_items mpages)
       (fun m => module_pass verbosity course_dir
                   (_parse_moduleitem session verbosity strftime_local get_file
                      strftime_utc) m (items_of m))) st.
Proof.
  intros Hm Hlm Hitems. unfold sync_local, modules_url in *.
  mstep. symmetry. mstep. symmetry.
  destruct (say verbosity 1 Syncing st) as [[] st1|e st1|]; try reflexivity.
  rewrite (do_all_pages_all get_modules _ _ mpages fuel st1 Hlm Hm).
  apply for_each_ext. intros m st2 Hin.
  destruct (Hitems m Hin) as (ipages & Hc & Hl & Heq).
  unfold _parse_module, module_pass, items_url in *.
  unfold mbind, M_bind.
  destruct (modify _ st2) as [[] st3|e st3|]; try reflexivity.
  destruct (gets _ st3) as [b st4|e st4|]; try reflexivity.
  match goal with
  | |- match ?m with _ => _ end = _ => destruct m as [[] st5|e st5|]; try reflexivity
  end.
  rewrite <- Heq. exact (do_all_pages_all get_items _ _ ipages fuel st5 Hl Hc).
Qed.

End SyncLocal.

Section SyncOnAscii.
#[local] Existing Instance ascii_names.

Lemma sync_local_files_is_folders_then_files_witness :
  sync_local one_doc_session 1 plain_strftime "course" "https://canvas/api/" "42"
    folder_listing file_listing module_listing item_listing no_file_api plain_strftime
    FILES 1 course_state
  = (say 1 1 Syncing;;
     for_each [root_folder] (_parse_folder 1 "course");;
     for_each [doc_file] (_parse_file one_doc_session 1 plain_strftime)) course_state.
Proof.
  apply (sync_local_files_is_folders_then_files one_doc_session 1 plain_strftime
           "course" "https://canvas/api/" "42" folder_listing file_listing
           module_listing item_listing no_file_api plain_strftime 1
           [folder_listing "https://canvas/api/courses/42/folders?per_page=999999"]
           [file_listing "https://canvas/api/courses/42/files?per_page=999999"]).
  - vm_compute. repeat split; discriminate.
  - vm_compute. repeat split; discriminate.
  - simpl. lia.
  - simpl. lia.
Defined.

Lemma sync_local_modules_is_nested_loops_witness :
  sync_local one_doc_session 1 plain_strftime "course" "https://canvas/api/" "42"
    folder_listing file_listing module_listing item_listing no_file_api plain_strftime
    MODULES 1 course_state
  = (say 1 1 Syncing;;
     for_each [week1]
       (fun m => module_pass 1 "course"
                   (_parse_moduleitem one_doc_session 1 plain_strftime no_file_api
                      plain_strftime) m [subheader_item])) course_state.
Proof.
  apply (sync_local_modules_is_nested_loops one_doc_session 1 plain_strftime
           "course" "https://canvas/api/" "42" folder_listing file_listing
           module_listing item_listing no_file_api plain_strftime 1
           [module_listing "https://canvas/api/courses/42/modules"]
           (fun _ => [subheader_item])).
  - vm_compute. repeat split; discriminate.
  - simpl. lia.
  - intros m Hm. apply list_elem_of_singleton in Hm. subst m.
    exists [item_listing "https://canvas/api/courses/42/modules/7/items"].
    split; [vm_compute; repeat split; discriminate|]. split; [simpl; lia|reflexivity].
Defined.
End SyncOnAscii.

(** ** The update branch, whatever the download gives *)

Section Update.
Context {L : Str.Lowering}.
Variable session : string -> response.
Variable verbosity : Z.
Variable strftime_local : Z -> string.

Lemma filecmp_cmp_run p id st d m c ts :
  Os.stat (Os.resolve p) (tree st) = Some (Os.File d m) ->
  temps st !! id = Some (c, ts) ->
  filecmp_cmp (Path p) (Tmp id) st
  = Done ((String.length d =? String.length c)%nat && (m =? ts)%Z || String.eqb d c) st.
Proof.
  intros Hp Ht. unfold filecmp_cmp.
  mstep. unfold stat_loc at 1. rewrite Hp.
  mstep. unfold stat_loc at 1. rewrite Ht.
  destruct (Nat.eqb_spec (String.length d) (String.length c)) as [E|E]; simpl.
  - now destruct (m =? ts)%Z.
  - now rewrite string_eqb_length.
Qed.

(** The replacement of the local file by the scratch copy. *)
Lemma replace_run msg p id st2 d m c ts :
  Os.wf (tree st2) ->
  Os.stat (Os.resolve p) (tree st2) = Some (Os.File d m) ->
  temps st2 !! id = Some (c, ts) ->
  (say verbosity 1 msg;; modify incr_updated;; os_do (Os.remove p);; copy2 id p) st2
  = Done tt (set_tree (Os.put (Os.resolve p) (Os.File c ts)
                         (Os.delete_key (Os.resolve p) (tree st2)))
               (incr_updated (said verbosity 1 msg st2))).
Proof.
  intros Hwf Hstat Ht.
  mstep. rewrite say_run. mstep. unfold modify at 1.
  mstep. unfold os_do at 1, Os.remove.
  set (st3 := incr_updated _).
  assert (Htree3 : tree st3 = tree st2).
  { subst st3. unfold said. now destruct (1 <=? verbosity)%Z. }
  assert (Ht3 : temps st3 !! id = Some (c, ts)).
  { subst st3. unfold said. now destruct (1 <=? verbosity)%Z. }
  rewrite Htree3, Hstat.
  unfold copy2. mstep. unfold stat_loc at 1.
  replace (temps (set_tree (Os.delete_key (Os.resolve p) (tree st2)) st3) !! id)
    with (Some (c, ts)) by (symmetry; exact Ht3).
  unfold os_do at 1.
  assert (Hk : Os.resolve p <> []) by exact (stat_file_nonroot _ _ _ _ Hstat).
  rewrite write_ok; [reflexivity|].
  split; simpl.
  - destruct (Os.resolve p) eqn:E; [easy|]. simpl.
    now rewrite lookup_delete_key_eq.
  - rewrite stat_delete_key_ne by (apply not_eq_sym, parent_neq; exact Hk).
    exact (wf_parent _ _ _ Hwf Hstat Hk).
Qed.

(** The update branch from the comparison on. *)
Lemma stale_tail_run file p id st2 d m c ts :
  Os.wf (tree st2) ->
  Os.stat (Os.resolve p) (tree st2) = Some (Os.File d m) ->
  temps st2 !! id = Some (c, ts) ->
  (same ← filecmp_cmp (Path p) (Tmp id);
   (if same : bool then modify incr_skipped
    else
      say verbosity 1 (Found_newer (display_name file) (updated_at file));;
      modify incr_updated;;
      os_do (Os.remove p);;
      copy2 id p);;
   remove_tmp id;;
   modify (file_set_add p)) st2
  = Done tt
      (file_set_add p
         (set_temps (delete id (temps st2)) (next_tmp st2)
            (if (String.length d =? String.length c)%nat && (m =? ts)%Z || String.eqb d c
             then incr_skipped st2
             else set_tree (Os.put (Os.resolve p) (Os.File c ts)
                              (Os.delete_key (Os.resolve p) (tree st2)))
                    (incr_updated
                       (said verbosity 1
                          (Found_newer (display_name file) (updated_at file)) st2))))).
Proof.
  intros Hwf Hstat Ht.
  mstep. rewrite (filecmp_cmp_run p id st2 d m c ts Hstat Ht).
  destruct ((String.length d =? String.length c)%nat && (m =? ts)%Z || String.eqb d c).
  - mstep. unfold modify at 1. mstep. unfold remove_tmp at 1.
    replace (temps (incr_skipped st2) !! id) with (Some (c, ts)) by (symmetry; exact Ht).
    reflexivity.
  - mstep. rewrite (replace_run _ p id st2 d m c ts Hwf Hstat Ht).
    mstep. unfold remove_tmp at 1.
    set (st3 := set_tree _ _).
    assert (Ht3 : temps st3 !! id = Some (c, ts)).
    { subst st3. unfold said. now destruct (1 <=? verbosity)%Z. }
    rewrite Ht3. unfold modify. f_equal. f_equal.
    subst st3. unfold said. now destruct (1 <=? verbosity)%Z.
Qed.

(** What [download] leaves in the scratch file. *)
Lemma download_tmp_shape file id st t d0 m0 :
  _time file = Some t ->
  temps st !! id = Some (d0, m0) ->
  (exists st2 c ts,
      download session file (Tmp id) st = Done tt st2
      /\ tree st2 = tree st
      /\ temps st2 = <[id := (c, ts)]> (temps st)
      /\ next_tmp st2 = next_tmp st
      /\ counters st2 = counters st
      /\ file_set st2 = file_set st
      /\ (url file = ""%string -> c = d0 /\ ts = m0
                                  /\ Warning_ignored (display_name file) ∈ out st2))
  \/ (network_url (url file) = true
      /\ status_code (session (url file)) <> 200%Z
      /\ download session file (Tmp id) st
         = Raised (ConnectionError "Non-200 status code" (display_name file)) st).
Proof.
  intros Ht Hid. unfold download.
  destruct (String.eqb_spec (url file) "") as [Hu|Hu].
  { left. exists (print (Warning_ignored (display_name file)) st), d0, m0.
    split; [reflexivity|]. split; [reflexivity|].
    split; [simpl; now rewrite insert_id|]. repeat split.
    simpl. apply elem_of_app. right. apply list_elem_of_singleton. reflexivity. }
  destruct (Str.startswith "URL:" (url file)) eqn:H2.
  { left. unfold open_write. eexists _, _, _. split; [reflexivity|]. simpl.
    split; [reflexivity|]. split; [reflexivity|]. split; [reflexivity|].
    split; [reflexivity|]. split; [reflexivity|]. intros E. contradiction. }
  destruct (Str.startswith "SubHeader:" (url file)) eqn:H3.
  { left. unfold touch. eexists _, _, _. split; [reflexivity|]. simpl.
    split; [reflexivity|]. split; [reflexivity|]. split; [reflexivity|].
    split; [reflexivity|]. split; [reflexivity|]. intros E. contradiction. }
  destruct (Z.eqb_spec (status_code (session (url file))) 200) as [Hs|Hs].
  - left. rewrite Ht. mstep. unfold open_write, utime. simpl. rewrite lookup_insert_eq.
    eexists _, _, _. split; [reflexivity|]. simpl.
    split; [reflexivity|]. split; [now rewrite insert_insert_eq|].
    split; [reflexivity|]. split; [reflexivity|]. split; [reflexivity|].
    intros E. contradiction.
  - right. split; [|split; [exact Hs|reflexivity]].
    unfold network_url. rewrite H2, H3.
    now destruct (String.eqb_spec (url file) "").
Qed.

(** X5. An entry without a download URL whose local file is older than the
    remote [modified_at] and not empty goes through the update branch:
    [download] prints its warning and writes nothing, the empty scratch file
    differs from the local one in size, and the local file is replaced by
    it. The entry counts as updated, and the local file is left empty, with
    the time at which the scratch file was made. *)
Theorem unavailable_entry_empties_an_older_copy file st loc d m :
  url file = ""%string ->
  folder_dict st !! folder_id file = Some loc ->
  Os.wf (tree st) ->
  Os.stat (Os.resolve (file_path_of loc file)) (tree st) = Some (Os.File d m) ->
  (m < timestamp (modified_at file))%Z ->
  d <> ""%string ->
  exists st',
    _parse_file session verbosity strftime_local file st = Done tt st'
    /\ counters st' = (skipped st, (updated st + 1)%Z, downloaded st, errors st)
    /\ Os.stat (Os.resolve (file_path_of loc file)) (tree st')
       = Some (Os.File "" (clock st))
    /\ Warning_ignored (display_name file) ∈ out st'
    /\ file_path_of loc file ∈ file_set st'.
Proof.
  intros Hu Hl Hwf Hstat Hlt Hd.
  destruct (getmtime_stat _ _ _ _ Hstat) as [He Hm].
  rewrite (parse_file_stale session verbosity strftime_local file st loc m Hl He Hm Hlt).
  set (p := file_path_of loc file) in *. set (id := next_tmp st).
  mstep.
  rewrite (try_done0 _ _ _ (download_empty session (timed file) (Tmp id)
                              (with_scratch st) Hu)).
  set (st2 := print _ _).
  rewrite (stale_tail_run file p id st2 d m "" (clock st) Hwf Hstat)
    by (subst st2; simpl; apply lookup_insert_eq).
  eexists. split; [reflexivity|].
  assert (Hcmp : (String.length d =? String.length "")%nat && (m =? clock st)%Z
                 || String.eqb d "" = false).
  { destruct d; [contradiction|]. reflexivity. }
  rewrite Hcmp. simpl. split; [|split; [|split]].
  - unfold counters, said. now destruct (1 <=? verbosity)%Z.
  - apply stat_put_eq. exact (stat_file_nonroot _ _ _ _ Hstat).
  - unfold said. destruct (1 <=? verbosity)%Z; simpl.
    + apply elem_of_app. left. apply elem_of_app. right.
      apply list_elem_of_singleton. reflexivity.
    + apply elem_of_app. right. apply list_elem_of_singleton. reflexivity.
  - set_solver.
Qed.

(** X6. The scratch file of the update branch is removed when the branch
    runs to its end, whatever was fetched; when the download fails with a
    status other than 200 the call returns from the [except] clause before
    [os.remove], and the empty scratch file made for it is left behind. *)
Theorem scratch_file_outlives_a_failed_download file st loc d m :
  folder_dict st !! folder_id file = Some loc ->
  Os.wf (tree st) ->
  Os.stat (Os.resolve (file_path_of loc file)) (tree st) = Some (Os.File d m) ->
  (m < timestamp (modified_at file))%Z ->
  temps st !! next_tmp st = None ->
  exists st',
    _parse_file session verbosity strftime_local file st = Done tt st'
    /\ if network_url (url file) && negb (status_code (session (url file)) =? 200)%Z
       then temps st' = <[next_tmp st := (""%string, clock st)]> (temps st)
            /\ errors st' = (errors st + 1)%Z
            /\ tree st' = tree st
       else temps st' = temps st /\ errors st' = errors st.
Proof.
  intros Hl Hwf Hstat Hlt Hfresh.
  destruct (getmtime_stat _ _ _ _ Hstat) as [He Hm].
  rewrite (parse_file_stale session verbosity strftime_local file st loc m Hl He Hm Hlt).
  set (p := file_path_of loc file) in *. set (id := next_tmp st) in *.
  destruct (download_tmp_shape (timed file) id (with_scratch st) (modified_at file)
              "" (clock st) eq_refl)
    as [(st2 & c & ts & Hd & Htree & Htemps & Hnext & Hc & _)|(Hu & Hs & Hd)].
  { unfold with_scratch. simpl. apply lookup_insert_eq. }
  - mstep. rewrite (try_done0 _ _ _ Hd).
    rewrite (stale_tail_run file p id st2 d m c ts);
      [|now rewrite Htree|now rewrite Htree|rewrite Htemps; apply lookup_insert_eq].
    eexists. split; [reflexivity|].
    assert (Hno : network_url (url file)
                  && negb (status_code (session (url file)) =? 200)%Z = false).
    { destruct (network_url (url file)) eqn:Hu; [|reflexivity].
      destruct (Z.eqb_spec (status_code (session (url file))) 200) as [E|E];
        [reflexivity|].
      exfalso. revert Hd. change (url file) with (url (timed file)) in Hu, E.
      rewrite (download_network_fail session (timed file) (Tmp id) _ Hu E).
      discriminate. }
    rewrite Hno. split.
    + simpl. rewrite Htemps. unfold with_scratch. simpl. fold id.
      rewrite insert_insert_eq. now apply delete_insert_id.
    + assert (He2 : errors st2 = errors st).
      { unfold counters in Hc. now injection Hc. }
      destruct (_ || _); simpl; [exact He2|].
      unfold said. now destruct (1 <=? verbosity)%Z.
  - mstep. rewrite (try_conn _ _ _ _ _ _ Hd).
    eexists. split; [reflexivity|].
    change (url (timed file)) with (url file) in Hu, Hs. rewrite Hu.
    destruct (Z.eqb_spec (status_code (session (url file))) 200) as [E|_];
      [contradiction|].
    simpl. repeat split.
Qed.

End Update.

Section UpdateOnAscii.
#[local] Existing Instance ascii_names.

Lemma unavailable_entry_empties_an_older_copy_witness :
  exists st',
    _parse_file one_doc_session 1 plain_strftime unavailable_file stale_state = Done tt st'
    /\ Os.stat ["course"; "a.txt"]%string (tree st') = Some (Os.File "" 1500000).
Proof.
  destruct (unavailable_entry_empties_an_older_copy one_doc_session 1 plain_strftime
              unavailable_file stale_state "course" "old bytes" 5
              eq_refl eq_refl (wf_check_sound (tree stale_state) eq_refl) eq_refl)
    as (st' & Hrun & _ & Hstat & _).
  - reflexivity.
  - discriminate.
  - exists st'. split; [exact Hrun|exact Hstat].
Defined.

Lemma scratch_file_outlives_a_failed_download_witness :
  exists st',
    _parse_file one_doc_session 1 plain_strftime gone_doc stale_state = Done tt st'
    /\ temps st' = <[0 := (""%string, 1500000%Z)]> ∅
    /\ errors st' = 1%Z
    /\ tree st' = tree stale_state.
Proof.
  destruct (scratch_file_outlives_a_failed_download one_doc_session 1 plain_strftime
              gone_doc stale_state "course" "old bytes" 5
              eq_refl (wf_check_sound (tree stale_state) eq_refl) eq_refl)
    as (st' & Hrun & Hleft).
  - reflexivity.
  - reflexivity.
  - exists st'. split; [exact Hrun|exact Hleft].
Defined.
End UpdateOnAscii.

(** ** Exceptions that [_parse_file] does not catch *)

Section Uncaught.
Context {L : Str.Lowering}.
Variable session : string -> response.
Variable verbosity : Z.
Variable strftime_local : Z -> string.

Lemma parse_file_no_folder file st :
  folder_dict st !! folder_id file = None ->
  _parse_file session verbosity strftime_local file st = Raised KeyError st.
Proof.
  intros Hl. unfold _parse_file. mstep. unfold gets at 1. now rewrite Hl.
Qed.

Lemma parse_file_folder_dict file st st' :
  _parse_file session verbosity strftime_local file st = Done tt st' ->
  folder_dict st' = folder_dict st.
Proof.
  intros Hrun. destruct (folder_dict st !! folder_id file) as [loc|] eqn:Hl.
  - now destruct (parse_file_cases _ _ _ _ _ _ _ Hl Hrun).
  - rewrite (parse_file_no_folder _ _ Hl) in Hrun. discriminate.
Qed.

Lemma for_each_parse_folder_dict files :
  forall st st',
    for_each files (_parse_file session verbosity strftime_local) st = Done tt st' ->
    folder_dict st' = folder_dict st.
Proof.
  induction files as [|f files IH]; intros st st' Hrun; simpl in Hrun.
  - now injection Hrun as <-.
  - unfold mbind, M_bind in Hrun.
    destruct (_parse_file session verbosity strftime_local f st) as [[] st1|e st1|] eqn:Hf;
      try discriminate.
    rewrite (IH _ _ Hrun). exact (parse_file_folder_dict _ _ _ Hf).
Qed.

(** X7. [_parse_file] reads the place of an entry with
    [self.folder_dict[file['folder_id']]] and catches [ConnectionError]
    only. An entry whose folder is not a key of [folder_dict] therefore
    ends the loop over the files with [KeyError]: the entries before it
    have been handled, the entry itself leaves no trace, and the entries
    after it are not looked at. *)
Theorem unlisted_folder_ends_the_run pre file rest st st1 :
  folder_dict st !! folder_id file = None ->
  for_each pre (_parse_file session verbosity strftime_local) st = Done tt st1 ->
  for_each (pre ++ file :: rest) (_parse_file session verbosity strftime_local) st
  = Raised KeyError st1.
Proof.
  intros Hl Hpre. rewrite for_each_app, (bind_Done _ _ _ _ _ Hpre). simpl.
  apply bind_Raised, parse_file_no_folder.
  now rewrite (for_each_parse_folder_dict _ _ _ Hpre).
Qed.


End Uncaught.

Section ErrorsOnAscii.
#[local] Existing Instance ascii_names.

Lemma unlisted_folder_ends_the_run_witness :
  for_each ([doc_file] ++ orphan_file :: [missing_file])
    (_parse_file one_doc_session 1 plain_strftime) course_state
  = Raised KeyError doc_result.
Proof.
  apply (unlisted_folder_ends_the_run one_doc_session 1 plain_strftime
           [doc_file] orphan_file [missing_file] course_state doc_result).
  - reflexivity.
  - vm_compute. reflexivity.
Defined.

End ErrorsOnAscii.

(** ** [os.makedirs] and [_parse_folder] *)

Lemma prefixes_self (k : Os.key) : k <> [] -> k ∈ Os.prefixes k.
Proof.
  induction k as [|a k IH]; intros Hne; [contradiction|]. simpl.
  destruct k as [|b k]; [left|]. right.
  apply list_elem_of_In, in_map, list_elem_of_In, IH. discriminate.
Qed.

Lemma prefixes_nonroot (k k0 : Os.key) : k ∈ Os.prefixes k0 -> k <> [].
Proof.
  destruct k0 as [|a k0]; simpl; intros Hin; [inversion Hin|].
  apply elem_of_cons in Hin as [->|Hin]; [discriminate|].
  apply list_elem_of_In, in_map_iff in Hin as (k1 & <- & _). discriminate.
Qed.

Lemma mkdirs_inv ks :
  forall t t',
    Os.mkdirs ks t = Ok t' ->
    (forall k n, Os.stat k t = Some n -> Os.stat k t' = Some n)
    /\ (forall k, k ∈ ks -> Os.stat k t' = Some Os.Dir)
    /\ (forall k n, Os.stat k t' = Some n ->
                    Os.stat k t = Some n \/ (n = Os.Dir /\ k ∈ ks)).
Proof.
  induction ks as [|k0 ks IH]; intros t t' Hrun; simpl in Hrun.
  - injection Hrun as <-. split; [auto|]. split; [|auto].
    intros k Hk. inversion Hk.
  - destruct (Os.stat k0 t) as [[d m|]|] eqn:H0; try discriminate.
    + destruct (IH _ _ Hrun) as (Hkeep & Hmade & Honly).
      split; [exact Hkeep|]. split.
      * intros k Hk. apply elem_of_cons in Hk as [->|Hk]; [now apply Hkeep|now apply Hmade].
      * intros k n Hk. destruct (Honly k n Hk) as [H|[Hn Hin]]; [now left|].
        right. split; [exact Hn|now right].
    + destruct (IH _ _ Hrun) as (Hkeep & Hmade & Honly).
      assert (Hne : k0 <> []) by (intros ->; discriminate).
      split; [|split].
      * intros k n Hk. apply Hkeep. rewrite stat_put_ne; [exact Hk|].
        intros ->. rewrite H0 in Hk. discriminate.
      * intros k Hk. apply elem_of_cons in Hk as [->|Hk]; [|now apply Hmade].
        apply Hkeep. now apply stat_put_eq.
      * intros k n Hk. destruct (Honly k n Hk) as [H|[Hn Hin]].
        -- destruct (decide (k0 = k)) as [<-|Hd].
           ++ rewrite stat_put_eq in H by exact Hne. injection H as <-.
              right. split; [reflexivity|left].
           ++ left. now rewrite stat_put_ne in H.
        -- right. split; [exact Hn|now right].
Qed.

Lemma mkdirs_ok ks :
  forall t,
    (forall k, k ∈ ks -> forall d m, Os.stat k t <> Some (Os.File d m)) ->
    exists t', Os.mkdirs ks t = Ok t'.
Proof.
  induction ks as [|k0 ks IH]; intros t Hfree; simpl; [eauto|].
  destruct (Os.stat k0 t) as [[d m|]|] eqn:H0.
  - exfalso. exact (Hfree k0 ltac:(left) d m H0).
  - apply IH. intros k Hk. apply Hfree. now right.
  - apply IH. intros k Hk d m Hs.
    destruct (decide (k0 = k)) as [<-|Hd].
    + rewrite stat_put_eq in Hs by (intros ->; discriminate). discriminate.
    + rewrite stat_put_ne in Hs by exact Hd. exact (Hfree k ltac:(now right) d m Hs).
Qed.

Section Folders.
Context {L : Str.Lowering}.
Variable verbosity : Z.
Variable course_dir : string.


Lemma parse_folder_inv folder st st' :
  let dir := OsPath.join course_dir (Str.slice_from 13 (full_name folder)) in
  _parse_folder verbosity course_dir folder st = Done tt st' ->
  folder_dict st' = <[folder_ident folder := dir]> (folder_dict st)
  /\ Os.isdir dir (tree st') = true
  /\ (forall k n, Os.stat k (tree st) = Some n -> Os.stat k (tree st') = Some n).
Proof.
  intros dir. unfold _parse_folder. fold dir.
  mstep. unfold modify at 1. mstep. unfold gets at 1.
  change (tree (set_folder (folder_ident folder) dir st)) with (tree st).
  destruct (Os.isdir dir (tree st)) eqn:Hd.
  - intros H. injection H as <-. simpl. repeat split; auto.
  - mstep. rewrite say_run. unfold os_do, Os.makedirs. rewrite tree_said.
    change (tree (set_folder (folder_ident folder) dir st)) with (tree st).
    destruct (Os.stat (Os.resolve dir) (tree st)) as [n|] eqn:Hs; [discriminate|].
    destruct (Os.mkdirs (Os.prefixes (Os.resolve dir)) (tree st)) as [t'|e] eqn:Hrun;
      [|discriminate].
    intros H. injection H as <-.
    destruct (mkdirs_inv _ _ _ Hrun) as (Hkeep & Hmade & _).
    assert (Hne : Os.resolve dir <> []) by (intros E; now rewrite E in Hs).
    simpl. split; [unfold said; now destruct (1 <=? verbosity)%Z|].
    split; [|exact Hkeep].
    unfold Os.isdir. now rewrite (Hmade _ (prefixes_self _ Hne)).
Qed.

(** X21. When the loop over the folders has run to its end, every folder of
    the listing has a record in [folder_dict] and the directory of that
    record is there, so that no file of a listed folder meets a missing key
    or a missing directory; the record is that of the last folder of the
    listing with the same id (no folder after it carries the id). Nothing
    that was in the tree before the loop has been removed or changed, and
    the records of other ids are as they were. *)
Theorem folder_pass_records_every_folder folders :
  forall st st1,
    for_each folders (_parse_folder verbosity course_dir) st = Done tt st1 ->
    (forall fo, fo ∈ folders ->
                exists pre fo' post,
                  folders = pre ++ fo' :: post
                  /\ folder_ident fo' = folder_ident fo
                  /\ (forall g, g ∈ post -> folder_ident g <> folder_ident fo)
                  /\ folder_dict st1 !! folder_ident fo
                     = Some (OsPath.join course_dir (Str.slice_from 13 (full_name fo')))
                  /\ Os.isdir (OsPath.join course_dir (Str.slice_from 13 (full_name fo')))
                       (tree st1) = true)
    /\ (forall k n, Os.stat k (tree st) = Some n -> Os.stat k (tree st1) = Some n)
    /\ (forall id, id ∉ (folder_ident <$> folders) ->
                   folder_dict st1 !! id = folder_dict st !! id).
Proof.
  induction folders as [|fo0 rest IH]; intros st st1 Hrun; simpl in Hrun.
  - injection Hrun as <-. split; [|split; auto].
    intros fo Hfo. inversion Hfo.
  - unfold mbind, M_bind in Hrun.
    destruct (_parse_folder verbosity course_dir fo0 st) as [[] st0|e st0|] eqn:H0;
      try discriminate.
    destruct (parse_folder_inv fo0 st st0 H0) as (Hfd0 & Hdir0 & Hkeep0).
    destruct (IH st0 st1 Hrun) as (Hrest & Hkeep & Hother).
    split; [|split].
    + assert (Hin_rest : forall fo, fo ∈ rest ->
                 exists pre fo' post,
                   fo0 :: rest = pre ++ fo' :: post
                   /\ folder_ident fo' = folder_ident fo
                   /\ (forall g, g ∈ post -> folder_ident g <> folder_ident fo)
                   /\ folder_dict st1 !! folder_ident fo
                      = Some (OsPath.join course_dir (Str.slice_from 13 (full_name fo')))
                   /\ Os.isdir (OsPath.join course_dir
                                  (Str.slice_from 13 (full_name fo'))) (tree st1) = true).
      { intros fo Hfo.
        destruct (Hrest fo Hfo) as (pre & fo' & post & Heq & Hid & Hlast & Hl & Hd).
        exists (fo0 :: pre), fo', post. split; [now rewrite Heq|]. now repeat split. }
      intros fo Hfo. apply elem_of_cons in Hfo as [-> | Hfo]; [|now apply Hin_rest].
      destruct (decide (folder_ident fo0 ∈ (folder_ident <$> rest))) as [Hin|Hnotin].
      * apply list_elem_of_fmap in Hin as (fo & Hid & Hfo).
        rewrite Hid. now apply Hin_rest.
      * exists [], fo0, rest. split; [reflexivity|]. split; [reflexivity|]. split.
        -- intros g Hg Hid. apply Hnotin. apply list_elem_of_fmap.
           exists g. now split.
        -- split.
           ++ rewrite (Hother _ Hnotin), Hfd0. apply lookup_insert_eq.
           ++ apply isdir_stat in Hdir0. unfold Os.isdir. now rewrite (Hkeep _ _ Hdir0).
    + intros k n Hk. apply Hkeep, Hkeep0, Hk.
    + intros id Hid. rewrite fmap_cons in Hid. apply not_elem_of_cons in Hid as [Hne Hid].
      rewrite (Hother _ Hid), Hfd0. apply lookup_insert_ne. now apply not_eq_sym.
Qed.

End Folders.


Lemma folder_pass_records_every_folder_witness :
  exists st1,
    for_each [root_folder; deep_folder; moved_folder] (_parse_folder 1 "course")
      course_state = Done tt st1
    /\ folder_dict st1 !! 2%Z = Some "course/Moved"%string
    /\ Os.isdir "course/Moved" (tree st1) = true
    /\ Os.stat ["course"]%string (tree st1) = Some Os.Dir.
Proof.
  assert (Hrun : exists st1,
             for_each [root_folder; deep_folder; moved_folder] (_parse_folder 1 "course")
               course_state = Done tt st1).
  { vm_compute. eexists. reflexivity. }
  destruct Hrun as [st1 Hrun]. exists st1. split; [exact Hrun|].
  destruct (folder_pass_records_every_folder 1 "course"
              [root_folder; deep_folder; moved_folder] course_state st1 Hrun)
    as (Hall & Hkeep & _).
  assert (Hlast : folder_dict st1 !! 2%Z = Some "course/Moved"%string
                  /\ Os.isdir "course/Moved" (tree st1) = true).
  { destruct (Hall deep_folder ltac:(right; left))
      as (pre & fo' & post & Heq & Hid & Hpost & Hl & Hdir).
    destruct pre as [|p0 [|p1 [|p2 pre]]]; simplify_eq/=;
      try (split; assumption); try (destruct pre; discriminate).
    exfalso. apply (Hpost moved_folder); [apply list_elem_of_here | reflexivity]. }
  destruct Hlast as [Hl Hd]. split; [exact Hl|]. split; [exact Hd|]. now apply Hkeep.
Defined.

(** ** Module items that are not files *)

Section Items.
Context {L : Str.Lowering}.
Variable session : string -> response.
Variable verbosity : Z.
Variable strftime_local : Z -> string.
Variable get_file : string -> Z * file.
Variable strftime_utc : Z -> string.

Lemma parse_moduleitem_stub moduleid item st :
  String.eqb (item_type item) "File" = false ->
  _parse_moduleitem session verbosity strftime_local get_file strftime_utc moduleid item st
  = _parse_file session verbosity strftime_local
      (stub_entry strftime_utc moduleid item (clock st / 1000000)) st.
Proof.
  intros Hty. unfold _parse_moduleitem, stub_entry. rewrite Hty.
  destruct (String.eqb (item_type item) "SubHeader"); reflexivity.
Qed.

Lemma stub_entry_url moduleid item now :
  String.eqb (url (stub_entry strftime_utc moduleid item now)) "" = false
  /\ stub_url (url (stub_entry strftime_utc moduleid item now)) = true.
Proof.
  unfold stub_entry, stub_url. cbn [url].
  destruct (String.eqb (item_type item) "SubHeader"); split; reflexivity.
Qed.

(** What [download] does for such a record, at a path and at the scratch
    file. *)
Lemma download_stub_entry_path moduleid item now q st t :
  writable q (tree st) ->
  Os.stat (Os.resolve q) (tree st) = None ->
  download session (set_time (stub_entry strftime_utc moduleid item now) t) (Path q) st
  = Done tt (set_tree (Os.put (Os.resolve q) (Os.File (stub_content item) (clock st))
                         (tree st)) st).
Proof.
  intros Hw Hnone. unfold download, stub_entry, stub_content. cbn [url set_time].
  destruct (String.eqb (item_type item) "SubHeader").
  - change (touch (Path q) st
            = Done tt (set_tree (Os.put (Os.resolve q) (Os.File "" (clock st)) (tree st)) st)).
    unfold touch, os_do, Os.touch. rewrite Hnone. destruct Hw as [_ Hp]. now rewrite Hp.
  - change (open_write (Path q)
              ("[InternetShortcut]" +:+ newline +:+ "URL=" +:+ item_html_url item
               +:+ newline) st
            = Done tt (set_tree (Os.put (Os.resolve q)
                                   (Os.File ("[InternetShortcut]" +:+ newline +:+ "URL="
                                             +:+ item_html_url item +:+ newline)
                                      (clock st)) (tree st)) st)).
    unfold open_write, os_do. now rewrite (write_ok _ _ _ _ Hw).
Qed.

Lemma download_stub_entry_tmp moduleid item now id st t m0 :
  temps st !! id = Some (""%string, m0) ->
  download session (set_time (stub_entry strftime_utc moduleid item now) t) (Tmp id) st
  = Done tt (set_temps (<[id := (stub_content item, clock st)]> (temps st)) (next_tmp st) st).
Proof.
  intros Hid. unfold download, stub_entry, stub_content. cbn [url set_time].
  destruct (String.eqb (item_type item) "SubHeader").
  - change (touch (Tmp id) st
            = Done tt (set_temps (<[id := (""%string, clock st)]> (temps st))
                         (next_tmp st) st)).
    unfold touch. now rewrite Hid.
  - reflexivity.
Qed.

(** X10. A module item that is not of type ['File'] is made without the
    network: when nothing is at its path (and no name there differs from
    its name by case only), [_parse_moduleitem] writes an empty file for a
    sub-header and an internet shortcut to the item's [html_url] for any
    other type, under the name made of the item's position, one ['~'] for
    each level of indent, a space and the title (with [.url] for a link).
    The item counts as downloaded and its path is recorded, whatever the
    session and the file API answer. *)
Theorem stub_item_is_made_locally moduleid item st loc :
  String.eqb (item_type item) "File" = false ->
  folder_dict st !! moduleid = Some loc ->
  let entry := stub_entry strftime_utc moduleid item (clock st / 1000000) in
  let p := file_path_of loc entry in
  Os.stat (Os.resolve p) (tree st) = None ->
  writable p (tree st) ->
  isfile_insensitive p st = Done false st ->
  exists st',
    _parse_moduleitem session verbosity strftime_local get_file strftime_utc
      moduleid item st = Done tt st'
    /\ tree st' = Os.put (Os.resolve p) (Os.File (stub_content item) (clock st)) (tree st)
    /\ counters st' = (skipped st, updated st, (downloaded st + 1)%Z, errors st)
    /\ p ∈ file_set st'.
Proof.
  intros Hty Hl entry p Hnone Hw Hi.
  rewrite (parse_moduleitem_stub moduleid item st Hty). fold entry.
  assert (He : Os.isfile p (tree st) = false) by (unfold Os.isfile; now rewrite Hnone).
  assert (Hu : url entry <> ""%string).
  { apply String.eqb_neq. apply stub_entry_url. }
  rewrite (parse_file_new session verbosity strftime_local entry st loc Hl He Hi Hu).
  fold p. set (st1 := said _ _ _ _).
  assert (Hd : download session (timed entry) (Path p) st1
               = Done tt (set_tree (Os.put (Os.resolve p)
                                      (Os.File (stub_content item) (clock st1))
                                      (tree st1)) st1)).
  { apply download_stub_entry_path; subst st1; rewrite tree_said; assumption. }
  mstep. rewrite (try_done _ (modify incr_downloaded) _ _ _ Hd eq_refl).
  eexists. split; [reflexivity|]. subst st1. simpl.
  rewrite tree_said, clock_said. split; [reflexivity|]. split; [|set_solver].
  unfold counters, said. now destruct (1 <=? verbosity)%Z.
Qed.

(** X11. Once the placeholder of a sub-header or the shortcut of a link is
    in place with the content that [download] gives it, the item is skipped
    in every later run, whatever the clock and the time of the file: either
    the file is not older than the second at which the item is looked at,
    or a scratch copy is made and found to hold the same bytes. The tree is
    left as it was. *)
Theorem stub_item_in_place_is_skipped moduleid item st loc m :
  String.eqb (item_type item) "File" = false ->
  folder_dict st !! moduleid = Some loc ->
  Os.wf (tree st) ->
  let entry := stub_entry strftime_utc moduleid item (clock st / 1000000) in
  let p := file_path_of loc entry in
  Os.stat (Os.resolve p) (tree st) = Some (Os.File (stub_content item) m) ->
  exists st',
    _parse_moduleitem session verbosity strftime_local get_file strftime_utc
      moduleid item st = Done tt st'
    /\ tree st' = tree st
    /\ counters st' = ((skipped st + 1)%Z, updated st, downloaded st, errors st)
    /\ p ∈ file_set st'.
Proof.
  intros Hty Hl Hwf entry p Hstat.
  rewrite (parse_moduleitem_stub moduleid item st Hty). fold entry.
  destruct (getmtime_stat _ _ _ _ Hstat) as [He Hm].
  destruct (Z.lt_ge_cases m (timestamp (modified_at entry))) as [Hlt|Hge].
  - rewrite (parse_file_stale session verbosity strftime_local entry st loc m Hl He Hm Hlt).
    fold p. set (id := next_tmp st).
    assert (Hd : download session (timed entry) (Tmp id) (with_scratch st)
                 = Done tt (set_temps (<[id := (stub_content item, clock (with_scratch st))]>
                                         (temps (with_scratch st)))
                              (next_tmp (with_scratch st)) (with_scratch st))).
    { apply (download_stub_entry_tmp moduleid item _ id (with_scratch st) _ (clock st)).
      unfold with_scratch. simpl. apply lookup_insert_eq. }
    mstep. rewrite (try_done0 _ _ _ Hd).
    set (st2 := set_temps _ _ _).
    rewrite (stale_tail_run verbosity entry p id st2 (stub_content item) m
               (stub_content item) (clock (with_scratch st)) Hwf Hstat)
      by (simpl; apply lookup_insert_eq).
    rewrite String.eqb_refl, orb_true_r.
    eexists. split; [reflexivity|]. simpl. repeat split. set_solver.
  - rewrite (parse_file_fresh session verbosity strftime_local entry st loc m Hl He Hm Hge).
    eexists. split; [reflexivity|]. simpl. rewrite tree_said.
    split; [reflexivity|]. split; [|set_solver].
    unfold counters, said. now destruct (2 <=? verbosity)%Z.
Qed.

(** X23. A module item of type ['File'] is asked for first: an error status
    of that request raises [HTTPError] out of [_parse_moduleitem] before
    anything is counted, printed or written. Otherwise the record that came
    back is handled by [_parse_file] as an entry of the module, under the
    name made of the item's position, one ['~'] for each level of indent, a
    space and the record's display name: the only path that can be recorded
    for it lies in the directory of the module, whatever folder the record
    names. *)
Theorem file_item_goes_to_the_module_directory moduleid item st loc :
  String.eqb (item_type item) "File" = true ->
  folder_dict st !! moduleid = Some loc ->
  let r := get_file (item_url item) in
  let entry := item_entry moduleid item r.2 in
  let run := _parse_moduleitem session verbosity strftime_local get_file strftime_utc
               moduleid item st in
  (is_error_status r.1 = true -> run = Raised (HTTPError r.1) st)
  /\ (is_error_status r.1 = false ->
      run = _parse_file session verbosity strftime_local entry st
      /\ forall st',
          run = Done tt st' ->
          file_set st' = file_set st
          \/ file_set st' = {[file_path_of loc entry]} ∪ file_set st
          \/ file_set st' = {[collision_path strftime_local loc entry]} ∪ file_set st).
Proof.
  intros Hty Hl r entry run.
  assert (Hrun : run = (raise_for_status r.1;;
                        _parse_file session verbosity strftime_local entry) st).
  { subst run. unfold _parse_moduleitem. rewrite Hty. fold r.
    mstep. symmetry. mstep. symmetry. mstep.
    destruct (raise_for_status r.1 st) as [[] st1|e st1|]; reflexivity. }
  split.
  - intros Herr. rewrite Hrun. mstep. now rewrite (raise_for_status_error _ _ Herr).
  - intros Hok.
    assert (Heq : run = _parse_file session verbosity strftime_local entry st).
    { rewrite Hrun. mstep. now rewrite (raise_for_status_ok _ _ Hok). }
    split; [exact Heq|]. intros st' Hdone. rewrite Heq in Hdone.
    destruct (parse_file_cases session verbosity strftime_local entry st st' loc Hl Hdone)
      as [_ [[_ Hf]|[[_ Hf]|[_ [Hf _]]]]].
    + right. left. exact Hf.
    + right. exact Hf.
    + left. exact Hf.
Qed.

End Items.

Section ItemsOnAscii.
#[local] Existing Instance ascii_names.

Lemma file_item_goes_to_the_module_directory_witness :
  _parse_moduleitem one_doc_session 1 plain_strftime doc_api plain_strftime
    7 file_item module_state
  = _parse_file one_doc_session 1 plain_strftime (item_entry 7 file_item doc_file)
      module_state
  /\ file_path_of "course/Week 1" (item_entry 7 file_item doc_file)
     = "course/Week 1/1 a.txt"%string.
Proof.
  split; [|reflexivity].
  apply (proj2 (file_item_goes_to_the_module_directory one_doc_session 1 plain_strftime
                  doc_api plain_strftime 7 file_item module_state "course/Week 1"
                  eq_refl eq_refl)).
  reflexivity.
Defined.

Lemma stub_item_is_made_locally_witness :
  exists st',
    _parse_moduleitem one_doc_session 1 plain_strftime no_file_api plain_strftime
      7 link_item module_state = Done tt st'
    /\ Os.stat ["course"; "Week 1"; "3 Slides.url"]%string (tree st')
       = Some (Os.File (stub_content link_item) 1500000)
    /\ downloaded st' = 1%Z.
Proof.
  destruct (stub_item_is_made_locally one_doc_session 1 plain_strftime no_file_api
              plain_strftime 7 link_item module_state "course/Week 1" eq_refl eq_refl)
    as (st' & Hrun & Htree & Hc & _).
  - reflexivity.
  - split; [vm_compute; discriminate|reflexivity].
  - vm_compute. reflexivity.
  - exists st'. split; [exact Hrun|]. rewrite Htree. split; [reflexivity|].
    unfold counters in Hc. now injection Hc.
Defined.

Lemma stub_item_in_place_is_skipped_witness :
  exists st',
    _parse_moduleitem one_doc_session 1 plain_strftime no_file_api plain_strftime
      7 subheader_item placeholder_state = Done tt st'
    /\ tree st' = tree placeholder_state
    /\ skipped st' = 1%Z.
Proof.
  destruct (stub_item_in_place_is_skipped one_doc_session 1 plain_strftime no_file_api
              plain_strftime 7 subheader_item placeholder_state "course/Week 1" 1500000
              eq_refl eq_refl (wf_check_sound (tree placeholder_state) eq_refl))
    as (st' & Hrun & Htree & Hc & _).
  - reflexivity.
  - exists st'. split; [exact Hrun|]. split; [exact Htree|].
    unfold counters in Hc. now injection Hc.
Defined.
End ItemsOnAscii.

(** ** More on the pruning pass *)

(** *** The paths [_parse_folder] records and the paths [os.walk] builds *)

Lemma endswith_char_app_r c a b :
  b <> ""%string -> Str.endswith_char c (a +:+ b) = Str.endswith_char c b.
Proof.
  intros Hb. induction a as [|x a IH]; [now rewrite app_nil|].
  rewrite app_cons. simpl. destruct (a +:+ b) eqn:E; [|exact IH].
  destruct a; [rewrite app_nil in E; contradiction|rewrite app_cons in E; discriminate].
Qed.

Lemma endswith_char_contains c s :
  Str.contains_char c s = false -> Str.endswith_char c s = false.
Proof.
  induction s as [|a s IH]; [reflexivity|]. simpl. intros H.
  apply orb_false_elim in H as [Ha Hs]. destruct s; [exact Ha|now apply IH].
Qed.

Lemma proper_name_nonempty x : proper_name x = true -> x <> ""%string.
Proof. intros H ->. discriminate. Qed.

Lemma join_proper a x :
  proper_name x = true ->
  OsPath.join a x
  = if String.eqb a "" || Str.endswith_char OsPath.sep a then a +:+ x else a +:+ "/" +:+ x.
Proof. intros Hx. unfold OsPath.join. now rewrite (proper_name_nostart x Hx). Qed.

Lemma join_proper_shape a x :
  proper_name x = true ->
  OsPath.join a x <> ""%string /\ Str.endswith_char OsPath.sep (OsPath.join a x) = false.
Proof.
  intros Hx. pose proof (proper_name_nonempty x Hx) as Hne.
  pose proof (endswith_char_contains _ _ (proper_name_nosep x Hx)) as He.
  rewrite (join_proper a x Hx).
  destruct (String.eqb a "" || Str.endswith_char OsPath.sep a).
  - split; [|now rewrite endswith_char_app_r].
    destruct a; [now rewrite app_nil|rewrite app_cons; discriminate].
  - split.
    + destruct a; [rewrite app_nil; discriminate|rewrite app_cons; discriminate].
    + rewrite <- append_assoc. now rewrite endswith_char_app_r.
Qed.

Lemma join_join c d u :
  proper_name d = true ->
  u <> ""%string ->
  Str.startswith "/" u = false ->
  OsPath.join (OsPath.join c d) u = OsPath.join c (d +:+ "/" +:+ u).
Proof.
  intros Hd Hu Hs. destruct (join_proper_shape c d Hd) as [Hne He].
  unfold OsPath.join at 1. rewrite Hs, He.
  apply String.eqb_neq in Hne. rewrite Hne. cbn [orb].
  rewrite (join_proper c d Hd). unfold OsPath.join.
  rewrite startswith_sep_app by (now apply proper_name_nonempty).
  rewrite (proper_name_nostart d Hd).
  destruct (String.eqb c "" || Str.endswith_char OsPath.sep c);
    now rewrite ?append_assoc.
Qed.

Lemma join_comps_shape ds :
  Forall (fun x => proper_name x = true) ds -> ds <> [] ->
  OsPath.join_comps ds <> ""%string /\ Str.startswith "/" (OsPath.join_comps ds) = false.
Proof.
  intros Hall Hne. destruct ds as [|d ds]; [contradiction|].
  inversion Hall as [|? ? Hd Hrest]; subst.
  destruct ds as [|d' ds].
  - split; [now apply proper_name_nonempty|now apply proper_name_nostart].
  - change (OsPath.join_comps (d :: d' :: ds))
      with (d +:+ "/" +:+ OsPath.join_comps (d' :: ds)).
    split.
    + pose proof (proper_name_nonempty d Hd). destruct d; [contradiction|].
      rewrite app_cons. discriminate.
    + rewrite startswith_sep_app by (now apply proper_name_nonempty).
      now apply proper_name_nostart.
Qed.

(** The path [os.walk] builds for a directory is the one [_parse_folder]
    records for the folder of that relative name. *)
Lemma path_of_join_comps ds :
  forall c,
    Forall (fun x => proper_name x = true) ds -> ds <> [] ->
    path_of c ds = OsPath.join c (OsPath.join_comps ds).
Proof.
  induction ds as [|d ds IH]; intros c Hall Hne; [contradiction|].
  inversion Hall as [|? ? Hd Hrest]; subst.
  destruct ds as [|d' ds]; [reflexivity|].
  change (path_of c (d :: d' :: ds)) with (path_of (OsPath.join c d) (d' :: ds)).
  rewrite IH by (assumption || discriminate).
  change (OsPath.join_comps (d :: d' :: ds))
    with (d +:+ "/" +:+ OsPath.join_comps (d' :: ds)).
  destruct (join_comps_shape (d' :: ds) Hrest) as [Hu Hs]; [discriminate|].
  now apply join_join.
Qed.

(** A file of the root folder: [_parse_folder] records the course directory
    with a separator at its end, and the joined paths agree. *)
Lemma join_empty c x :
  proper_name x = true -> OsPath.join (OsPath.join c "") x = OsPath.join c x.
Proof.
  intros Hx. rewrite !(join_proper _ x Hx). unfold OsPath.join.
  change (Str.startswith "/" "") with false. cbv iota.
  destruct (String.eqb c "" || Str.endswith_char OsPath.sep c) eqn:E.
  - rewrite append_nil_r. now rewrite E.
  - rewrite append_nil_r.
    replace (String.eqb (c +:+ "/") "" || Str.endswith_char OsPath.sep (c +:+ "/"))
      with true.
    + now rewrite append_assoc.
    + symmetry. apply orb_true_iff. right.
      now rewrite endswith_char_app_r.
Qed.

Lemma path_of_app c ds y : path_of c (ds ++ [y]) = OsPath.join (path_of c ds) y.
Proof. unfold path_of. now rewrite fold_left_app. Qed.

(** *** Reading [kept] both ways *)

Lemma kept_on_way fs fd ds :
  forall s x rest b,
    kept fs fd s (ds ++ x :: rest) b = true ->
    rest <> [] \/ b = true ->
    in_old (path_of s ds) || dir_stays fd (path_of s ds) x = true.
Proof.
  induction ds as [|d ds IH]; intros s x rest b H Hb.
  - simpl app in H. simpl path_of. destruct rest as [|y r].
    + destruct Hb as [Hb | ->]; [contradiction|exact H].
    + rewrite kept_cons in H. now apply andb_prop in H as [H _].
  - change ((d :: ds) ++ x :: rest) with (d :: (ds ++ x :: rest)) in H.
    rewrite kept_cons_ne in H by (destruct ds; discriminate).
    apply andb_prop in H as [_ H]. simpl path_of. exact (IH _ _ _ _ H Hb).
Qed.

Lemma kept_intro fs fd ds :
  forall s x b,
    (forall ds1 y ds2, ds = ds1 ++ y :: ds2 -> dir_stays fd (path_of s ds1) y = true) ->
    (if b : bool then dir_stays fd (path_of s ds) x else file_stays fs (path_of s ds) x)
    = true ->
    kept fs fd s (ds ++ [x]) b = true.
Proof.
  induction ds as [|d ds IH]; intros s x b Hway Hlast.
  - simpl. simpl path_of in Hlast. rewrite Hlast. apply orb_true_r.
  - change ((d :: ds) ++ [x]) with (d :: (ds ++ [x])).
    rewrite kept_cons_ne by (destruct ds; discriminate).
    apply andb_true_intro. split.
    + pose proof (Hway [] d ds eq_refl) as H0. simpl path_of in H0.
      rewrite H0. apply orb_true_r.
    + apply IH; [|exact Hlast].
      intros ds1 y ds2 ->. exact (Hway (d :: ds1) y ds2 eq_refl).
Qed.

Section PruneMore.
Context {L : Str.Lowering}.
Variable verbosity : Z.

(** X12. A directory met outside a reserved directory that is neither
    [".old"] nor a value of [folder_dict] is removed with everything below
    it, whatever [file_set] holds: a file whose path was recorded in the
    run is deleted all the same when a directory on the way to it was
    not. *)
Theorem unrecorded_directory_is_removed_whole course_dir fuel st ds x :
  sane (tree st) ->
  0 < fuel ->
  (forall k n, (k, n) ∈ tree st -> length k < length (Os.resolve course_dir) + fuel) ->
  in_old (path_of course_dir ds) = false ->
  x <> ".old"%string ->
  OsPath.join (path_of course_dir ds) x ∉ (map_img (folder_dict st) : gset string) ->
  exists st',
    onto_local verbosity course_dir fuel st = Done tt st'
    /\ ((Os.resolve course_dir ++ ds ++ [x], Os.Dir) ∉ tree st')
    /\ (forall rest n,
           rest <> [] -> (Os.resolve course_dir ++ ds ++ x :: rest, n) ∉ tree st').
Proof.
  intros Hs Hpos Hheight Hold Hx Hnot.
  destruct (walk_run verbosity (file_set st) (folder_dict st) fuel course_dir st
              Hs eq_refl eq_refl Hpos Hheight) as (st' & Hrun & _ & Htree).
  exists st'. split; [exact Hrun|].
  assert (Hgone : forall rest n,
             rest <> [] \/ node_is_dir n = true ->
             (Os.resolve course_dir ++ ds ++ x :: rest, n) ∉ tree st').
  { intros rest n Hb Hin. rewrite Htree in Hin.
    apply elem_of_filter_bool in Hin as [_ Hkeep].
    unfold keep_at in Hkeep. simpl in Hkeep. rewrite strip_prefix_app in Hkeep.
    pose proof (kept_on_way _ _ _ _ _ _ _ Hkeep Hb) as Hway.
    rewrite Hold in Hway. simpl in Hway. unfold dir_stays in Hway.
    apply orb_prop in Hway as [H|H].
    - apply String.eqb_eq in H. contradiction.
    - apply bool_decide_eq_true in H. contradiction. }
  split.
  - apply (Hgone [] Os.Dir). now right.
  - intros rest n Hne. apply Hgone. now left.
Qed.

(** X13. The pass agrees with the run before it on how paths are written:
    a file whose path [_parse_file] recorded as the directory of its folder
    joined with its name is left in place, provided every directory on the
    way from the course directory is recorded in [folder_dict] the way
    [_parse_folder] records it (the course directory joined with the
    relative name of the folder, which is empty for the root folder). *)
Theorem recorded_file_survives_pruning course_dir fuel st ds x d m :
  sane (tree st) ->
  0 < fuel ->
  (forall k n, (k, n) ∈ tree st -> length k < length (Os.resolve course_dir) + fuel) ->
  (forall ds1 y ds2,
      ds = ds1 ++ y :: ds2 ->
      exists id, folder_dict st !! id
                 = Some (OsPath.join course_dir (OsPath.join_comps (ds1 ++ [y])))) ->
  OsPath.join (OsPath.join course_dir (OsPath.join_comps ds)) x ∈ file_set st ->
  (Os.resolve course_dir ++ ds ++ [x], Os.File d m) ∈ tree st ->
  exists st',
    onto_local verbosity course_dir fuel st = Done tt st'
    /\ (Os.resolve course_dir ++ ds ++ [x], Os.File d m) ∈ tree st'.
Proof.
  intros Hs Hpos Hheight Hdirs Hfile Hin.
  destruct (walk_run verbosity (file_set st) (folder_dict st) fuel course_dir st
              Hs eq_refl eq_refl Hpos Hheight) as (st' & Hrun & _ & Htree).
  exists st'. split; [exact Hrun|].
  assert (Hproper : Forall (fun x => proper_name x = true) (ds ++ [x])).
  { destruct Hs as (_ & _ & Hnames). destruct (Hnames _ _ Hin) as [_ Hall].
    now apply Forall_app in Hall as [_ Hall]. }
  apply Forall_app in Hproper as [Hds Hx]. inversion Hx as [|? ? Hx' _]; subst.
  rewrite Htree. apply elem_of_filter_bool. split; [exact Hin|].
  unfold keep_at. simpl. rewrite strip_prefix_app.
  apply kept_intro.
  - intros ds1 y ds2 ->. unfold dir_stays. apply orb_true_iff. right.
    apply bool_decide_eq_true. destruct (Hdirs ds1 y ds2 eq_refl) as [id Hid].
    apply elem_of_map_img. exists id. rewrite Hid. f_equal.
    rewrite <- path_of_app. symmetry. apply path_of_join_comps.
    + apply Forall_app in Hds as [H1 H2]. inversion H2; subst.
      apply Forall_app. split; [exact H1|]. now constructor.
    + now destruct ds1.
  - unfold file_stays. apply bool_decide_eq_true.
    destruct ds as [|d0 ds0].
    + simpl path_of. simpl OsPath.join_comps in Hfile.
      now rewrite (join_empty course_dir x Hx') in Hfile.
    + now rewrite (path_of_join_comps (d0 :: ds0) course_dir Hds) by discriminate.
Qed.

(** X14. A second pass right after the first deletes nothing more: what the
    first pass left is what the tests accept, and they accept it again. *)
Theorem pruning_twice_changes_nothing_more course_dir fuel st :
  sane (tree st) ->
  0 < fuel ->
  (forall k n, (k, n) ∈ tree st -> length k < length (Os.resolve course_dir) + fuel) ->
  exists st1 st2,
    onto_local verbosity course_dir fuel st = Done tt st1
    /\ onto_local verbosity course_dir fuel st1 = Done tt st2
    /\ tree st2 = tree st1
    /\ same_course st1 st2.
Proof.
  intros Hs Hpos Hheight.
  destruct (walk_run verbosity (file_set st) (folder_dict st) fuel course_dir st
              Hs eq_refl eq_refl Hpos Hheight) as (st1 & Hrun1 & Hsame1 & Htree1).
  destruct Hsame1 as (_ & Hfs & Hfd).
  assert (Hs1 : sane (tree st1)) by (rewrite Htree1; now apply sane_filter_keep_at).
  assert (Hheight1 : forall k n, (k, n) ∈ tree st1 ->
                                 length k < length (Os.resolve course_dir) + fuel).
  { intros k n Hin. rewrite Htree1 in Hin. apply elem_of_filter_bool in Hin as [Hin _].
    exact (Hheight k n Hin). }
  destruct (walk_run verbosity (file_set st) (folder_dict st) fuel course_dir st1
              Hs1 Hfs Hfd Hpos Hheight1) as (st2 & Hrun2 & Hsame2 & Htree2).
  exists st1, st2. split; [exact Hrun1|]. split; [exact Hrun2|].
  split; [|exact Hsame2].
  rewrite Htree2, Htree1. apply filter_same.
  intros e He. now apply filter_In in He as [_ He].
Qed.

End PruneMore.

Lemma unrecorded_directory_is_removed_whole_witness :
  exists st',
    onto_local 1 "course" 4 slash_module_state = Done tt st'
    /\ (["course"; "Unit 1"; "Week 2"; "1 a.txt"]%string, Os.File "a" 5) ∉ tree st'.
Proof.
  destruct (unrecorded_directory_is_removed_whole 1 "course" 4 slash_module_state
              [] "Unit 1") as (st' & Hrun & _ & Hgone).
  - apply sane_check_sound. vm_compute. reflexivity.
  - lia.
  - intros k n Hin.
    assert (Hall : Forall (fun e : Os.key * Os.node => length e.1 < 1 + 4)
                     (tree slash_module_state)).
    { simpl. repeat constructor; simpl; lia. }
    rewrite Forall_forall in Hall. exact (Hall _ Hin).
  - vm_compute. reflexivity.
  - discriminate.
  - intros Hin. apply elem_of_map_img in Hin as [id Hid].
    change (folder_dict slash_module_state)
      with ({[ 7%Z := "course/Unit 1/Week 2"%string ]} : gmap Z string) in Hid.
    apply lookup_singleton_Some in Hid as [_ Hid]. vm_compute in Hid. discriminate.
  - exists st'. split; [exact Hrun|].
    exact (Hgone ["Week 2"; "1 a.txt"]%string (Os.File "a" 5) ltac:(discriminate)).
Defined.

Lemma recorded_file_survives_pruning_witness :
  exists st',
    onto_local 1 "course" 4 synced_state = Done tt st'
    /\ (["course"; "Sub"; "Deep"; "b.txt"]%string, Os.File "b" 5) ∈ tree st'.
Proof.
  destruct (recorded_file_survives_pruning 1 "course" 4 synced_state
              ["Sub"; "Deep"]%string "b.txt" "b" 5) as (st' & Hrun & Hin).
  - apply sane_check_sound. vm_compute. reflexivity.
  - lia.
  - intros k n Hin.
    assert (Hall : Forall (fun e : Os.key * Os.node => length e.1 < 1 + 4)
                     (tree synced_state)).
    { simpl. repeat constructor; simpl; lia. }
    rewrite Forall_forall in Hall. exact (Hall _ Hin).
  - intros ds1 y ds2 E. destruct ds1 as [|a [|b [|c ds1]]]; simpl in E.
    + injection E as <- <-. exists 2%Z. reflexivity.
    + injection E as <- <- <-. exists 3%Z. reflexivity.
    + injection E as _ _ E. discriminate.
    + injection E as _ _ E. discriminate.
  - vm_compute. set_solver.
  - vm_compute. set_solver.
  - exists st'. split; [exact Hrun|exact Hin].
Defined.

Lemma pruning_twice_changes_nothing_more_witness :
  exists st1 st2,
    onto_local 1 "course" 3 prune_state = Done tt st1
    /\ onto_local 1 "course" 3 st1 = Done tt st2
    /\ tree st2 = tree st1.
Proof.
  destruct (pruning_twice_changes_nothing_more 1 "course" 3 prune_state)
    as (st1 & st2 & H1 & H2 & Ht & _).
  - apply sane_check_sound. vm_compute. reflexivity.
  - lia.
  - intros k n Hin.
    assert (Hall : Forall (fun e : Os.key * Os.node => length e.1 < 1 + 3)
                     (tree prune_state)).
    { simpl. repeat constructor; simpl; lia. }
    rewrite Forall_forall in Hall. exact (Hall _ Hin).
  - exists st1, st2. split; [exact H1|]. split; [exact H2|exact Ht].
Defined.

(** ** What the loop over the files may change in the tree *)

Lemma apart_refl ks st : apart ks st st.
Proof. now intros k _. Qed.

Lemma apart_trans ks a b c : apart ks a b -> apart ks b c -> apart ks a c.
Proof. intros H1 H2 k Hk. now rewrite (H2 k Hk), (H1 k Hk). Qed.

Lemma apart_tree ks st st' : tree st' = tree st -> apart ks st st'.
Proof. intros E k _. now rewrite E. Qed.

Lemma apart_mono ks ks' st st' :
  (forall k, k ∈ ks -> k ∈ ks') -> apart ks st st' -> apart ks' st st'.
Proof. intros Hsub H k Hk. apply H. intros Hin. apply Hk, Hsub, Hin. Qed.

Lemma touches_bind {A B} ks (m : M A) (k : A -> M B) :
  touches ks m -> (forall a, touches ks (k a)) -> touches ks (m ≫= k).
Proof.
  intros Hm Hk st. unfold mbind, M_bind. specialize (Hm st).
  destruct (m st) as [a st1|e st1|]; [|exact Hm|exact I].
  specialize (Hk a st1). destruct (k a st1) as [b st2|e st2|]; [| |exact I];
    exact (apart_trans _ _ _ _ Hm Hk).
Qed.

Lemma touches_ret {A} ks (a : A) : touches ks (mret a : M A).
Proof. intros st. apply apart_refl. Qed.

Lemma touches_raise {A} ks e : touches ks (raise e : M A).
Proof. intros st. apply apart_refl. Qed.

Lemma touches_files {A} ks (m : M A) : keeps_files m -> touches ks m.
Proof.
  intros Hm st. specialize (Hm st).
  destruct (m st) as [a st1|e st1|]; [| |exact I]; apply apart_tree; apply Hm.
Qed.

Lemma touches_modify ks f : (forall st, tree (f st) = tree st) -> touches ks (modify f).
Proof. intros Hf st. apply apart_tree, Hf. Qed.

Lemma touches_os_do ks f k :
  k ∈ ks ->
  (forall t t' k', f t = Ok t' -> k' <> k -> Os.stat k' t' = Os.stat k' t) ->
  touches ks (os_do f).
Proof.
  intros Hk Hf st. unfold os_do. destruct (f (tree st)) as [t'|e] eqn:E.
  - intros k' Hk'. simpl. apply (Hf _ _ _ E). intros ->. contradiction.
  - apply apart_refl.
Qed.

Lemma write_apart p data now t t' k' :
  Os.write p data now t = Ok t' -> k' <> Os.resolve p -> Os.stat k' t' = Os.stat k' t.
Proof.
  intros H Hne. apply write_inv in H as [-> _]. apply stat_put_ne. now apply not_eq_sym.
Qed.

Lemma remove_apart p t t' k' :
  Os.remove p t = Ok t' -> k' <> Os.resolve p -> Os.stat k' t' = Os.stat k' t.
Proof.
  intros H Hne. apply remove_inv in H as ->. apply stat_delete_key_ne. now apply not_eq_sym.
Qed.

Lemma touch_apart p now t t' k' :
  Os.touch p now t = Ok t' -> k' <> Os.resolve p -> Os.stat k' t' = Os.stat k' t.
Proof.
  unfold Os.touch. intros H Hne. apply not_eq_sym in Hne.
  destruct (Os.stat (Os.resolve p) t) as [[d m|]|].
  - injection H as <-. now apply stat_put_ne.
  - now injection H as <-.
  - destruct (Os.stat (Os.parent (Os.resolve p)) t) as [[d m|]|]; try discriminate.
    injection H as <-. now apply stat_put_ne.
Qed.

Lemma utime_apart p m t t' k' :
  Os.utime p m t = Ok t' -> k' <> Os.resolve p -> Os.stat k' t' = Os.stat k' t.
Proof.
  unfold Os.utime. intros H Hne. apply not_eq_sym in Hne.
  destruct (Os.stat (Os.resolve p) t) as [[d m0|]|]; try discriminate.
  - injection H as <-. now apply stat_put_ne.
  - now injection H as <-.
Qed.

Lemma touches_open_write ks dest data : loc_in ks dest -> touches ks (open_write dest data).
Proof.
  intros Hin st. destruct dest as [p|id]; [|now apply apart_tree].
  exact (touches_os_do ks _ _ Hin (fun t t' k' => write_apart p data (clock st) t t' k') st).
Qed.

Lemma touches_touch ks dest : loc_in ks dest -> touches ks (touch dest).
Proof.
  intros Hin st. destruct dest as [p|id]; [|now apply apart_tree].
  exact (touches_os_do ks _ _ Hin (fun t t' k' => touch_apart p (clock st) t t' k') st).
Qed.

Lemma touches_utime ks dest m : loc_in ks dest -> touches ks (utime dest m).
Proof.
  intros Hin st. destruct dest as [p|id].
  - exact (touches_os_do ks _ _ Hin (fun t t' k' => utime_apart p m t t' k') st).
  - unfold utime. destruct (temps st !! id) as [[d m0]|]; now apply apart_tree.
Qed.

Lemma touches_download ks session file dest :
  loc_in ks dest -> touches ks (download session file dest).
Proof.
  intros Hin. unfold download.
  destruct (String.eqb (url file) ""); [now apply touches_modify|].
  destruct (Str.startswith "URL:" (url file)); [now apply touches_open_write|].
  destruct (Str.startswith "SubHeader:" (url file)); [now apply touches_touch|].
  destruct (status_code (session (url file)) =? 200)%Z; [|apply touches_raise].
  apply touches_bind; [now apply touches_open_write|intros _].
  destruct (_time file); [now apply touches_utime|apply touches_raise].
Qed.

Lemma touches_try {A} ks (body : M A) (handler : string -> string -> M A) :
  touches ks body -> (forall text name, touches ks (handler text name)) ->
  touches ks (try_except_ConnectionError body handler).
Proof.
  intros Hb Hh st. unfold try_except_ConnectionError. specialize (Hb st).
  destruct (body st) as [a st1|e st1|]; [exact Hb| |exact I].
  destruct e as [| | | | | |text name]; try exact Hb.
  specialize (Hh text name st1).
  destruct (handler text name st1) as [b st2|e st2|]; [| |exact I];
    exact (apart_trans _ _ _ _ Hb Hh).
Qed.

Lemma touches_remove_tmp ks id : touches ks (remove_tmp id).
Proof.
  intros st. unfold remove_tmp. destruct (temps st !! id); now apply apart_tree.
Qed.

Lemma touches_copy2 ks src dst : Os.resolve dst ∈ ks -> touches ks (copy2 src dst).
Proof.
  intros Hin. unfold copy2.
  apply touches_bind; [apply touches_files, files_stat_loc|intros [d m|]].
  - intros st.
    exact (touches_os_do ks _ _ Hin (fun t t' k' => write_apart dst d m t t' k') st).
  - apply touches_raise.
Qed.

Ltac touch_step :=
  first
    [ apply touches_ret
    | apply touches_raise
    | apply touches_modify; reflexivity
    | apply touches_files, files_gets
    | apply touches_files, files_say
    | apply touches_files, files_os_get
    | apply touches_files, files_isfile_insensitive
    | apply touches_files, files_filecmp_cmp
    | apply touches_remove_tmp
    | apply touches_download; simpl; solve [trivial | left | right; left]
    | apply touches_copy2; solve [left | right; left]
    | apply touches_bind; [|intros ?] ].

Section Footprint.
Context {L : Str.Lowering}.
Variable session : string -> response.
Variable verbosity : Z.
Variable strftime_local : Z -> string.

Lemma touches_on_error ks text name : touches ks (on_error text name).
Proof. unfold on_error. repeat touch_step. Qed.

Lemma parse_file_touches file st loc :
  folder_dict st !! folder_id file = Some loc ->
  match _parse_file session verbosity strftime_local file st with
  | Done _ st' | Raised _ st' =>
      apart [Os.resolve (file_path_of loc file);
             Os.resolve (collision_path strftime_local loc file)] st st'
  | OutOfFuel => True
  end.
Proof.
  intros Hl. unfold _parse_file.
  mstep. unfold gets at 1. rewrite Hl.
  mstep. unfold mret at 1, M_ret at 1.
  fold (file_name_of file). fold (file_path_of loc file).
  fold (collision_name strftime_local file).
  fold (collision_path strftime_local loc file).
  set (ks := [Os.resolve (file_path_of loc file);
              Os.resolve (collision_path strftime_local loc file)]).
  lazymatch goal with
  | |- match ?m st with _ => _ end => cut (touches ks m); [intros T; exact (T st)|]
  end.
  clear Hl st.
  apply touches_bind; [touch_step|intros exact].
  apply touches_bind; [destruct exact; touch_step|intros collides].
  destruct collides.
  { apply touches_bind; [touch_step|intros _].
    apply touches_bind; [|intros [|]; touch_step].
    apply touches_try; [|intros; apply touches_on_error].
    repeat touch_step. }
  apply touches_bind; [destruct exact; repeat touch_step|intros stale].
  destruct stale.
  { apply touches_bind; [intros st; now apply apart_tree|intros tf].
    apply touches_bind; [|intros [|]; [|touch_step]].
    - apply touches_try; [|intros; apply touches_on_error]. repeat touch_step.
    - apply touches_bind; [touch_step|intros same].
      apply touches_bind; [|intros _; repeat touch_step].
      destruct same; [touch_step|].
      apply touches_bind; [touch_step|intros _].
      apply touches_bind; [touch_step|intros _].
      apply touches_bind; [|intros _; touch_step].
      intros st.
      exact (touches_os_do ks _ (Os.resolve (file_path_of loc file)) ltac:(left)
               (fun t t' k' => remove_apart (file_path_of loc file) t t' k') st). }
  destruct (negb exact && negb (String.eqb (url file) "")).
  - apply touches_bind; [touch_step|intros _].
    apply touches_bind; [|intros [|]; touch_step].
    apply touches_try; [|intros; apply touches_on_error].
    repeat touch_step.
  - repeat touch_step.
Qed.

(** X15. The loop over the files changes the tree only at the paths of the
    entries it is given: whatever lies at a key that is neither the path nor
    the renamed path of an entry of the list (taken in the directory that
    [folder_dict] gives for its folder) is after the loop what it was
    before, whether the loop runs to its end or is ended by an
    exception. *)
Theorem files_loop_leaves_other_paths_alone files :
  forall st k o,
    (forall f, f ∈ files -> k ∉ own_keys strftime_local (folder_dict st) f) ->
    for_each files (_parse_file session verbosity strftime_local) st = o ->
    match o with
    | Done _ st' | Raised _ st' => Os.stat k (tree st') = Os.stat k (tree st)
    | OutOfFuel => True
    end.
Proof.
  induction files as [|f files IH]; intros st k o Hk <-; simpl; [reflexivity|].
  unfold mbind, M_bind.
  assert (Hf : match _parse_file session verbosity strftime_local f st with
               | Done _ st1 | Raised _ st1 => Os.stat k (tree st1) = Os.stat k (tree st)
               | OutOfFuel => True
               end).
  { pose proof (Hk f ltac:(left)) as Hkf. unfold own_keys in Hkf.
    destruct (folder_dict st !! folder_id f) as [loc|] eqn:Hl.
    - pose proof (parse_file_touches f st loc Hl) as Ht.
      destruct (_parse_file session verbosity strftime_local f st) as [[] st1|e st1|];
        [| |exact I]; exact (Ht k Hkf).
    - now rewrite (parse_file_no_folder session verbosity strftime_local f st Hl). }
  destruct (_parse_file session verbosity strftime_local f st) as [[] st1|e st1|] eqn:Hrun;
    [|exact Hf|exact I].
  pose proof (parse_file_folder_dict _ _ _ _ _ _ Hrun) as Hfd.
  specialize (IH st1 k _ ltac:(intros g Hg; rewrite Hfd; apply Hk; now right) eq_refl).
  destruct (for_each files _ st1) as [[] st2|e st2|]; [| |exact I]; now rewrite IH.
Qed.

End Footprint.

Section FootprintOnAscii.
#[local] Existing Instance ascii_names.

Lemma files_loop_leaves_other_paths_alone_witness :
  exists st',
    for_each [doc_file; missing_file] (_parse_file one_doc_session 1 plain_strftime)
      prune_state = Done tt st'
    /\ Os.stat ["course"; "stale.txt"]%string (tree st') = Some (Os.File "s" 5).
Proof.
  assert (Hrun : exists st',
             for_each [doc_file; missing_file]
               (_parse_file one_doc_session 1 plain_strftime) prune_state = Done tt st').
  { vm_compute. eexists. reflexivity. }
  destruct Hrun as [st' Hrun]. exists st'. split; [exact Hrun|].
  refine (files_loop_leaves_other_paths_alone one_doc_session 1 plain_strftime
            [doc_file; missing_file] prune_state ["course"; "stale.txt"]%string
            (Done tt st') _ Hrun).
  intros f Hf.
  repeat (apply elem_of_cons in Hf as [->|Hf]);
    [vm_compute; intros Hin;
     repeat (apply elem_of_cons in Hin as [E|Hin]; [discriminate|]); inversion Hin..|].
  inversion Hf.
Defined.
End FootprintOnAscii.

(** ** The loop over the files and the directories *)

Lemma same_dirs_refl st : same_dirs st st.
Proof. now intros k. Qed.

Lemma same_dirs_trans a b c : same_dirs a b -> same_dirs b c -> same_dirs a c.
Proof. intros H1 H2 k. now rewrite (H2 k), (H1 k). Qed.

Lemma same_dirs_tree st st' : tree st' = tree st -> same_dirs st st'.
Proof. intros E k. now rewrite E. Qed.

Lemma put_file_dirs k d m t k' :
  Os.stat k t <> Some Os.Dir ->
  Os.stat k' (Os.put k (Os.File d m) t) = Some Os.Dir <-> Os.stat k' t = Some Os.Dir.
Proof.
  intros Hnd. destruct (decide (k = k')) as [<-|Hne].
  - assert (Hk : k <> []) by (intros ->; now apply Hnd).
    rewrite stat_put_eq by exact Hk. split; [discriminate|contradiction].
  - now rewrite stat_put_ne.
Qed.

Lemma delete_key_dirs k t k' :
  Os.stat k t <> Some Os.Dir ->
  Os.stat k' (Os.delete_key k t) = Some Os.Dir <-> Os.stat k' t = Some Os.Dir.
Proof.
  intros Hnd. destruct (decide (k = k')) as [<-|Hne].
  - assert (Hk : k <> []) by (intros ->; now apply Hnd).
    split; [|contradiction]. destruct k; [contradiction|]. simpl.
    now rewrite lookup_delete_key_eq.
  - now rewrite stat_delete_key_ne.
Qed.

Lemma write_dirs p data now t t' k' :
  Os.write p data now t = Ok t' ->
  Os.stat k' t' = Some Os.Dir <-> Os.stat k' t = Some Os.Dir.
Proof.
  unfold Os.write. intros H.
  destruct (Os.stat (Os.resolve p) t) as [[d m|]|] eqn:Hs; try discriminate;
    destruct (Os.stat (Os.parent (Os.resolve p)) t) as [[d' m'|]|]; try discriminate;
    injection H as <-; apply put_file_dirs; rewrite Hs; discriminate.
Qed.

Lemma touch_dirs p now t t' k' :
  Os.touch p now t = Ok t' ->
  Os.stat k' t' = Some Os.Dir <-> Os.stat k' t = Some Os.Dir.
Proof.
  unfold Os.touch. intros H.
  destruct (Os.stat (Os.resolve p) t) as [[d m|]|] eqn:Hs.
  - injection H as <-. apply put_file_dirs. rewrite Hs. discriminate.
  - now injection H as <-.
  - destruct (Os.stat (Os.parent (Os.resolve p)) t) as [[d' m'|]|]; try discriminate.
    injection H as <-. apply put_file_dirs. rewrite Hs. discriminate.
Qed.

Lemma utime_dirs p m t t' k' :
  Os.utime p m t = Ok t' ->
  Os.stat k' t' = Some Os.Dir <-> Os.stat k' t = Some Os.Dir.
Proof.
  unfold Os.utime. intros H.
  destruct (Os.stat (Os.resolve p) t) as [[d m0|]|] eqn:Hs; try discriminate.
  - injection H as <-. apply put_file_dirs. rewrite Hs. discriminate.
  - now injection H as <-.
Qed.

Lemma remove_dirs p t t' k' :
  Os.remove p t = Ok t' ->
  Os.stat k' t' = Some Os.Dir <-> Os.stat k' t = Some Os.Dir.
Proof.
  unfold Os.remove. intros H.
  destruct (Os.stat (Os.resolve p) t) as [[d m|]|] eqn:Hs; try discriminate.
  injection H as <-. apply delete_key_dirs. rewrite Hs. discriminate.
Qed.

Lemma dirs_bind {A B} (m : M A) (k : A -> M B) :
  keeps_dirs m -> (forall a, keeps_dirs (k a)) -> keeps_dirs (m ≫= k).
Proof.
  intros Hm Hk st. unfold mbind, M_bind. specialize (Hm st).
  destruct (m st) as [a st1|e st1|]; [|exact Hm|exact I].
  specialize (Hk a st1). destruct (k a st1) as [b st2|e st2|]; [| |exact I];
    exact (same_dirs_trans _ _ _ Hm Hk).
Qed.

Lemma dirs_ret {A} (a : A) : keeps_dirs (mret a : M A).
Proof. intros st. apply same_dirs_refl. Qed.

Lemma dirs_raise {A} e : keeps_dirs (raise e : M A).
Proof. intros st. apply same_dirs_refl. Qed.

Lemma dirs_files {A} (m : M A) : keeps_files m -> keeps_dirs m.
Proof.
  intros Hm st. specialize (Hm st).
  destruct (m st) as [a st1|e st1|]; [| |exact I]; apply same_dirs_tree; apply Hm.
Qed.

Lemma dirs_modify f : (forall st, tree (f st) = tree st) -> keeps_dirs (modify f).
Proof. intros Hf st. apply same_dirs_tree, Hf. Qed.

Lemma dirs_os_do f :
  (forall t t' k', f t = Ok t' ->
                   Os.stat k' t' = Some Os.Dir <-> Os.stat k' t = Some Os.Dir) ->
  keeps_dirs (os_do f).
Proof.
  intros Hf st. unfold os_do. destruct (f (tree st)) as [t'|e] eqn:E.
  - intros k'. simpl. exact (Hf _ _ k' E).
  - apply same_dirs_refl.
Qed.

Lemma dirs_open_write dest data : keeps_dirs (open_write dest data).
Proof.
  intros st. destruct dest as [p|id]; [|now apply same_dirs_tree].
  exact (dirs_os_do _ (fun t t' k' => write_dirs p data (clock st) t t' k') st).
Qed.

Lemma dirs_touch dest : keeps_dirs (touch dest).
Proof.
  intros st. destruct dest as [p|id]; [|now apply same_dirs_tree].
  exact (dirs_os_do _ (fun t t' k' => touch_dirs p (clock st) t t' k') st).
Qed.

Lemma dirs_utime dest m : keeps_dirs (utime dest m).
Proof.
  intros st. destruct dest as [p|id].
  - exact (dirs_os_do _ (fun t t' k' => utime_dirs p m t t' k') st).
  - unfold utime. destruct (temps st !! id) as [[d m0]|]; now apply same_dirs_tree.
Qed.

Lemma dirs_download session file dest : keeps_dirs (download session file dest).
Proof.
  unfold download.
  destruct (String.eqb (url file) ""); [now apply dirs_modify|].
  destruct (Str.startswith "URL:" (url file)); [apply dirs_open_write|].
  destruct (Str.startswith "SubHeader:" (url file)); [apply dirs_touch|].
  destruct (status_code (session (url file)) =? 200)%Z; [|apply dirs_raise].
  apply dirs_bind; [apply dirs_open_write|intros _].
  destruct (_time file); [apply dirs_utime|apply dirs_raise].
Qed.

Lemma dirs_try {A} (body : M A) (handler : string -> string -> M A) :
  keeps_dirs body -> (forall text name, keeps_dirs (handler text name)) ->
  keeps_dirs (try_except_ConnectionError body handler).
Proof.
  intros Hb Hh st. unfold try_except_ConnectionError. specialize (Hb st).
  destruct (body st) as [a st1|e st1|]; [exact Hb| |exact I].
  destruct e as [| | | | | |text name]; try exact Hb.
  specialize (Hh text name st1).
  destruct (handler text name st1) as [b st2|e st2|]; [| |exact I];
    exact (same_dirs_trans _ _ _ Hb Hh).
Qed.

Lemma dirs_remove_tmp id : keeps_dirs (remove_tmp id).
Proof.
  intros st. unfold remove_tmp. destruct (temps st !! id); now apply same_dirs_tree.
Qed.

Lemma dirs_copy2 src dst : keeps_dirs (copy2 src dst).
Proof.
  unfold copy2. apply dirs_bind; [apply dirs_files, files_stat_loc|intros [d m|]].
  - exact (dirs_os_do _ (fun t t' k' => write_dirs dst d m t t' k')).
  - apply dirs_raise.
Qed.

Ltac dirs_step :=
  first
    [ apply dirs_ret
    | apply dirs_raise
    | apply dirs_modify; reflexivity
    | apply dirs_files, files_gets
    | apply dirs_files, files_say
    | apply dirs_files, files_os_get
    | apply dirs_files, files_isfile_insensitive
    | apply dirs_files, files_filecmp_cmp
    | apply dirs_remove_tmp
    | apply dirs_download
    | apply dirs_copy2
    | apply dirs_bind; [|intros ?] ].

Section Dirs.
Context {L : Str.Lowering}.
Variable session : string -> response.
Variable verbosity : Z.
Variable strftime_local : Z -> string.

Lemma dirs_on_error text name : keeps_dirs (on_error text name).
Proof. unfold on_error. repeat dirs_step. Qed.

(** [_parse_file] neither makes nor removes a directory. *)
Lemma parse_file_keeps_dirs file :
  keeps_dirs (_parse_file session verbosity strftime_local file).
Proof.
  unfold _parse_file.
  apply dirs_bind; [dirs_step|intros fd].
  apply dirs_bind; [destruct (fd !! folder_id file); dirs_step|intros loc].
  apply dirs_bind; [dirs_step|intros exact].
  apply dirs_bind; [destruct exact; dirs_step|intros collides].
  destruct collides.
  { apply dirs_bind; [dirs_step|intros _].
    apply dirs_bind; [|intros [|]; dirs_step].
    apply dirs_try; [|intros; apply dirs_on_error].
    repeat dirs_step. }
  apply dirs_bind; [destruct exact; repeat dirs_step|intros stale].
  destruct stale.
  { apply dirs_bind; [intros st; now apply same_dirs_tree|intros tf].
    apply dirs_bind; [|intros [|]; [|dirs_step]].
    - apply dirs_try; [|intros; apply dirs_on_error]. repeat dirs_step.
    - apply dirs_bind; [dirs_step|intros same].
      apply dirs_bind; [|intros _; repeat dirs_step].
      destruct same; [dirs_step|].
      apply dirs_bind; [dirs_step|intros _].
      apply dirs_bind; [dirs_step|intros _].
      apply dirs_bind; [|intros _; dirs_step].
      exact (dirs_os_do _ (fun t t' k' => remove_dirs _ t t' k')). }
  destruct (negb exact && negb (String.eqb (url file) "")).
  - apply dirs_bind; [dirs_step|intros _].
    apply dirs_bind; [|intros [|]; dirs_step].
    apply dirs_try; [|intros; apply dirs_on_error].
    repeat dirs_step.
  - repeat dirs_step.
Qed.

Lemma isdir_iff p t : Os.isdir p t = true <-> Os.stat (Os.resolve p) t = Some Os.Dir.
Proof.
  unfold Os.isdir. destruct (Os.stat (Os.resolve p) t) as [[d m|]|]; split; easy.
Qed.

Lemma ready_same_dirs st st' f :
  same_dirs st st' -> folder_dict st' = folder_dict st ->
  ready strftime_local st f -> ready strftime_local st' f.
Proof.
  intros Hd Hfd (loc & Hl & Hdir & Hn & Hcn & Hcd).
  exists loc. rewrite Hfd. split; [exact Hl|]. split; [|split; [exact Hn|split; [exact Hcn|]]].
  - apply isdir_iff, Hd, isdir_iff, Hdir.
  - destruct (Os.isdir (collision_path strftime_local loc f) (tree st')) eqn:E;
      [|reflexivity].
    apply isdir_iff, Hd, isdir_iff in E. now rewrite E in Hcd.
Qed.

Lemma files_loop_returns files :
  forall st,
    (forall f, f ∈ files -> ready strftime_local st f) ->
    exists st',
      for_each files (_parse_file session verbosity strftime_local) st = Done tt st'
      /\ total st' = (total st + Z.of_nat (length files))%Z
      /\ same_dirs st st'
      /\ folder_dict st' = folder_dict st.
Proof.
  induction files as [|f files IH]; intros st Hready.
  - exists st. split; [reflexivity|]. split; [simpl; lia|].
    split; [apply same_dirs_refl|reflexivity].
  - destruct (Hready f ltac:(left)) as (loc & Hl & Hdir & Hn & Hcn & Hcd).
    destruct (parse_file_returns session verbosity strftime_local f st loc
                Hl Hdir Hn Hcn Hcd) as [st1 Hrun].
    destruct (parse_file_counts session verbosity strftime_local f st st1
                ltac:(eauto) Hrun) as [Hone Hfd].
    pose proof (parse_file_keeps_dirs f st) as Hd. rewrite Hrun in Hd.
    destruct (IH st1) as (st' & Hrest & Htotal & Hd' & Hfd').
    { intros g Hg. apply (ready_same_dirs st st1 g Hd Hfd). apply Hready. now right. }
    exists st'. split; [|split; [|split]].
    + simpl. now rewrite (bind_Done _ _ _ _ _ Hrun).
    + rewrite Htotal, (one_more_total _ _ Hone).
      change (length (f :: files)) with (S (length files)). lia.
    + exact (same_dirs_trans _ _ _ Hd Hd').
    + now rewrite Hfd'.
Qed.

(** X16. The loop over the files runs to its end, with every entry counted
    once, when every entry is ready at the start: its folder is recorded
    with a directory that is there, its name and its renamed name are names
    a directory can hold, and its renamed path is not a directory. What an
    entry needs is not undone by the entries before it, because
    [_parse_file] neither makes nor removes a directory and leaves
    [folder_dict] alone. *)
Theorem files_loop_runs_to_its_end files st :
  (forall f, f ∈ files -> ready strftime_local st f) ->
  exists st',
    for_each files (_parse_file session verbosity strftime_local) st = Done tt st'
    /\ total st' = (total st + Z.of_nat (length files))%Z
    /\ same_dirs st st'
    /\ folder_dict st' = folder_dict st.
Proof. apply files_loop_returns. Qed.

End Dirs.

Section DirsOnAscii.
#[local] Existing Instance ascii_names.

Lemma files_loop_runs_to_its_end_witness :
  exists st',
    for_each [doc_file; missing_file; unavailable_file]
      (_parse_file one_doc_session 1 plain_strftime) course_state = Done tt st'
    /\ total st' = 3%Z.
Proof.
  destruct (files_loop_runs_to_its_end one_doc_session 1 plain_strftime
              [doc_file; missing_file; unavailable_file] course_state)
    as (st' & Hrun & Htotal & _).
  - intros f Hf. exists "course"%string.
    repeat (apply elem_of_cons in Hf as [->|Hf]);
      [repeat split; vm_compute; reflexivity..|].
    inversion Hf.
  - exists st'. split; [exact Hrun|exact Htotal].
Defined.
End DirsOnAscii.

(** ** Names *)

Lemma contains_char_app c a b :
  Str.contains_char c (a +:+ b) = Str.contains_char c a || Str.contains_char c b.
Proof.
  induction a as [|x a IH]; [now rewrite app_nil|].
  rewrite app_cons. simpl. now rewrite IH, orb_assoc.
Qed.

Lemma last_occurrence c s :
  Str.contains_char c s = true ->
  exists a b, s = a +:+ String c b /\ Str.contains_char c b = false.
Proof.
  induction s as [|x s IH]; [discriminate|]. simpl. intros H.
  destruct (Str.contains_char c s) eqn:Hs.
  - destruct (IH eq_refl) as (a & b & -> & Hb).
    exists (String x a), b. split; [now rewrite app_cons|exact Hb].
  - rewrite orb_false_r in H. apply Ascii.eqb_eq in H. subst x.
    exists ""%string, s. split; [now rewrite app_nil|exact Hs].
Qed.

Lemma add_before_ext_cut name end_ :
  exists a b,
    name = a +:+ b
    /\ add_before_ext name end_ = a +:+ end_ +:+ b
    /\ (if Str.contains_char "." name
        then exists b', b = String "." b' /\ Str.contains_char "." b' = false
        else b = ""%string).
Proof.
  destruct (Str.contains_char "." name) eqn:Hdot.
  - destruct (last_occurrence _ _ Hdot) as (a & b' & -> & Hb').
    exists a, (String "." b'). split; [reflexivity|].
    rewrite (add_before_ext_dot a b' end_ Hb'). split; [reflexivity|eauto].
  - exists name, ""%string. rewrite (add_before_ext_nodot name end_ Hdot).
    split; [now rewrite append_nil_r|]. split; [now rewrite append_nil_r|reflexivity].
Qed.

(** X17. [add_before_ext] puts [end] into the name and changes nothing
    else: the result is the name cut in two with [end] in between, where
    the second part is empty when the name has no ['.'], and otherwise goes
    from the last ['.'] of the name to its end. The result is as long as
    the name and [end] together. *)
Theorem add_before_ext_only_inserts name end_ :
  exists a b,
    name = a +:+ b
    /\ add_before_ext name end_ = a +:+ end_ +:+ b
    /\ (if Str.contains_char "." name
        then exists b', b = String "." b' /\ Str.contains_char "." b' = false
        else b = ""%string)
    /\ String.length (add_before_ext name end_)
       = String.length name + String.length end_.
Proof.
  destruct (add_before_ext_cut name end_) as (a & b & Hab & Hres & Hb).
  exists a, b. split; [exact Hab|]. split; [exact Hres|]. split; [exact Hb|].
  rewrite Hres, Hab, !length_app_string. lia.
Qed.

Lemma replace_char_free a b s :
  a <> b -> Str.contains_char a (Str.replace_char a b s) = false.
Proof.
  intros Hab. induction s as [|x s IH]; [reflexivity|]. simpl. rewrite IH, orb_false_r.
  destruct (Ascii.eqb_spec x a) as [->|Hx].
  - apply Ascii.eqb_neq. now apply not_eq_sym.
  - now apply Ascii.eqb_neq.
Qed.

Lemma replace_char_length a b s :
  String.length (Str.replace_char a b s) = String.length s.
Proof. induction s as [|x s IH]; [reflexivity|]. simpl. now rewrite IH. Qed.

Lemma replace_char_dots s :
  Str.replace_char "/" "-" s = "."%string \/ Str.replace_char "/" "-" s = ".."%string ->
  Str.replace_char "/" "-" s = s.
Proof.
  intros [H|H].
  - destruct s as [|x [|y s]]; try discriminate. simpl in *.
    destruct (Ascii.eqb_spec x "/"); [discriminate|reflexivity].
  - destruct s as [|x [|y [|z s]]]; try discriminate. simpl in *.
    destruct (Ascii.eqb_spec x "/"); [discriminate|].
    destruct (Ascii.eqb_spec y "/"); [discriminate|reflexivity].
Qed.

Lemma proper_name_intro x :
  x <> ""%string -> Str.contains_char OsPath.sep x = false ->
  x <> "."%string -> x <> ".."%string -> proper_name x = true.
Proof.
  intros H1 H2 H3 H4. unfold proper_name. rewrite H2.
  apply String.eqb_neq in H1, H3, H4. now rewrite H1, H3, H4.
Qed.

Section Names.
Context {L : Str.Lowering}.
Variable strftime_local : Z -> string.

(** X18. The name of an entry is made safe before it is joined to the
    directory of its folder: every ['/'] of [display_name] becomes ['-'],
    so the path of the entry names a direct child of that directory,
    whatever the display name holds (other than nothing, ['.'] or
    ['..']). The renamed path of the collision branch is a direct child of
    it too, provided the rendering of the time holds no separator. *)
Theorem entry_paths_stay_in_the_folder file loc :
  display_name file <> ""%string ->
  display_name file <> "."%string ->
  display_name file <> ".."%string ->
  Str.contains_char OsPath.sep (file_name_of file) = false
  /\ proper_name (file_name_of file) = true
  /\ Os.resolve (file_path_of loc file) = Os.resolve loc ++ [file_name_of file]
  /\ (Str.contains_char OsPath.sep (strftime_local (modified_at file)) = false ->
      proper_name (collision_name strftime_local file) = true
      /\ Os.resolve (collision_path strftime_local loc file)
         = Os.resolve loc ++ [collision_name strftime_local file]).
Proof.
  intros H1 H2 H3.
  assert (Hfree : Str.contains_char OsPath.sep (file_name_of file) = false)
    by (apply replace_char_free; discriminate).
  assert (Hname : proper_name (file_name_of file) = true).
  { apply proper_name_intro; [|exact Hfree| |].
    - intros E. apply H1. unfold file_name_of in E.
      destruct (display_name file); [reflexivity|discriminate].
    - intros E. apply H2. unfold file_name_of in E.
      now rewrite <- (replace_char_dots _ (or_introl E)).
    - intros E. apply H3. unfold file_name_of in E.
      now rewrite <- (replace_char_dots _ (or_intror E)). }
  split; [exact Hfree|]. split; [exact Hname|].
  split; [now apply resolve_join|].
  intros Htime.
  assert (Hc : proper_name (collision_name strftime_local file) = true).
  { unfold collision_name.
    destruct (add_before_ext_cut (file_name_of file)
                (" c" +:+ strftime_local (modified_at file))) as (a & b & Hab & Hres & _).
    rewrite Hres.
    assert (Hsp : Str.contains_char " "
                    (a +:+ (" c" +:+ strftime_local (modified_at file)) +:+ b) = true).
    { rewrite !contains_char_app. change (Str.contains_char " " " c") with true.
      cbn [orb]. apply orb_true_r. }
    rewrite Hab, contains_char_app in Hfree. apply orb_false_elim in Hfree as [Ha Hb].
    apply proper_name_intro.
    - intros E. rewrite E in Hsp. discriminate.
    - rewrite !contains_char_app, Ha, Hb, Htime. reflexivity.
    - intros E. rewrite E in Hsp. discriminate.
    - intros E. rewrite E in Hsp. discriminate. }
  split; [exact Hc|]. now apply resolve_join.
Qed.

End Names.

Lemma entry_paths_stay_in_the_folder_witness :
  Os.resolve (file_path_of "course" climbing_file) = ["course"; "..-up-a.txt"]%string
  /\ proper_name (file_name_of climbing_file) = true.
Proof.
  destruct (entry_paths_stay_in_the_folder plain_strftime climbing_file "course")
    as (_ & Hname & Hkey & _); [discriminate..|].
  split; [|exact Hname]. rewrite Hkey. reflexivity.
Defined.

(** ** An entry without a URL whose name is taken up to case *)

Section Twin.
Context {L : Str.Lowering}.
Variable session : string -> response.
Variable verbosity : Z.
Variable strftime_local : Z -> string.

(** X19. The collision branch does not look at the URL. An entry without a
    download URL, with no file at its path but a name in its directory
    that equals its name up to letter case, is sent to [download], which
    prints its warning and writes nothing; the entry is counted as
    downloaded all the same, and the renamed path, at which there is no
    new file, is recorded in [file_set]. *)
Theorem unavailable_entry_with_a_case_twin_counts_as_downloaded
  file st loc name node :
  url file = ""%string ->
  folder_dict st !! folder_id file = Some loc ->
  Os.isfile (file_path_of loc file) (tree st) = false ->
  Os.isdir (listed_dir (file_path_of loc file)) (tree st) = true ->
  (name, node) ∈ Os.children (Os.resolve (listed_dir (file_path_of loc file))) (tree st) ->
  Str.lower name = Str.lower (OsPath.split (file_path_of loc file)).2 ->
  exists st',
    _parse_file session verbosity strftime_local file st = Done tt st'
    /\ tree st' = tree st
    /\ counters st' = (skipped st, updated st, (downloaded st + 1)%Z, errors st)
    /\ file_set st' = {[collision_path strftime_local loc file]} ∪ file_set st
    /\ Warning_ignored (display_name file) ∈ out st'.
Proof.
  intros Hu Hl Hno Hdir Hin Hlow.
  rewrite (parse_file_collision session verbosity strftime_local file st loc Hl Hno
             (isfile_insensitive_true _ _ _ _ Hdir Hin Hlow)).
  set (st1 := said _ _ _ st).
  mstep.
  rewrite (try_done _ (modify incr_downloaded) _ _ _
             (download_empty session (timed file) _ st1 Hu) eq_refl).
  eexists. split; [reflexivity|]. simpl. subst st1.
  rewrite tree_said. split; [reflexivity|]. split; [|split; [now rewrite file_set_said|]].
  - unfold counters, said. now destruct (1 <=? verbosity)%Z.
  - apply elem_of_app. right. apply list_elem_of_singleton. reflexivity.
Qed.

End Twin.

Section NamesOnAscii.
#[local] Existing Instance ascii_names.

Lemma unavailable_entry_with_a_case_twin_counts_as_downloaded_witness :
  exists st',
    _parse_file one_doc_session 1 plain_strftime unavailable_file collision_state
    = Done tt st'
    /\ tree st' = tree collision_state
    /\ downloaded st' = 1%Z
    /\ "course/a c10.txt"%string ∈ file_set st'.
Proof.
  destruct (unavailable_entry_with_a_case_twin_counts_as_downloaded one_doc_session 1
              plain_strftime unavailable_file collision_state "course" "A.TXT"
              (Os.File "other" 5))
    as (st' & Hrun & Htree & Hc & Hfs & _);
    [reflexivity|reflexivity|reflexivity|reflexivity| |reflexivity|].
  - vm_compute. apply list_elem_of_here.
  - exists st'. split; [exact Hrun|]. split; [exact Htree|]. split.
    + unfold counters in Hc. now injection Hc.
    + rewrite Hfs. apply elem_of_union_l, elem_of_singleton. reflexivity.
Defined.
End NamesOnAscii.

(** ** The tree stays a tree *)

Lemma elem_of_put k n t e : e ∈ Os.put k n t -> e ∈ t \/ e = (k, n).
Proof.
  induction t as [|[k' n'] t IH]; simpl.
  - intros H. apply list_elem_of_singleton in H. now right.
  - destruct (Os.key_eqb k' k).
    + intros H. apply elem_of_cons in H as [->|H]; [now right|]. left. now right.
    + intros H. apply elem_of_cons in H as [->|H]; [left; left|].
      destruct (IH H) as [H'|H']; [left; now right|now right].
Qed.

Lemma NoDup_put k n t : NoDup (fst <$> t) -> NoDup (fst <$> Os.put k n t).
Proof.
  induction t as [|[k' n'] t IH]; simpl; intros Hnd.
  - apply NoDup_singleton.
  - apply NoDup_cons in Hnd as [Hnotin Hnd].
    destruct (Os.key_eqb k' k) eqn:E.
    + apply bool_decide_eq_true in E. subst k'. simpl. now apply NoDup_cons.
    + simpl. apply NoDup_cons. split; [|now apply IH].
      intros Hin. apply list_elem_of_fmap in Hin as ([k2 n2] & Hk2 & Hin). simpl in Hk2.
      subst k2. apply elem_of_put in Hin as [Hin|Hin].
      * apply Hnotin. apply list_elem_of_fmap. now exists (k', n2).
      * injection Hin as -> _. unfold Os.key_eqb in E.
        apply bool_decide_eq_false in E. now apply E.
Qed.

Lemma lookup_key_stat k t n : Os.lookup_key k t = Some n -> k <> [] -> Os.stat k t = Some n.
Proof. intros H Hk. destruct k; [contradiction|exact H]. Qed.

Lemma sane_nonroot t k n : sane t -> Os.lookup_key k t = Some n -> k <> [].
Proof.
  intros (_ & _ & Hnames) H. apply lookup_key_elem in H. now destruct (Hnames _ _ H).
Qed.

Lemma sane_put_file t k d m :
  sane t ->
  k <> [] ->
  Forall (fun x => proper_name x = true) k ->
  Os.stat k t <> Some Os.Dir ->
  (Os.stat (Os.parent k) t = Some Os.Dir
   \/ exists d0 m0, Os.stat k t = Some (Os.File d0 m0)) ->
  sane (Os.put k (Os.File d m) t).
Proof.
  intros Hs Hk Hproper Hnd Hparent.
  assert (Hp : Os.stat (Os.parent k) t = Some Os.Dir).
  { destruct Hparent as [H|(d0 & m0 & H)]; [exact H|].
    destruct Hs as (_ & Hwf & _). exact (wf_parent _ _ _ Hwf H Hk). }
  pose proof Hs as (Hnodup & Hwf & Hnames).
  split; [now apply NoDup_put|]. split.
  - intros k' n' Hk'.
    destruct (decide (k = k')) as [<-|Hne].
    + rewrite stat_put_ne by (apply not_eq_sym, parent_neq; exact Hk). exact Hp.
    + rewrite lookup_put_ne in Hk' by exact Hne.
      pose proof (Hwf _ _ Hk') as Hp'.
      rewrite stat_put_ne; [exact Hp'|].
      intros E. rewrite <- E in Hp'. contradiction.
  - intros k' n' Hin. apply elem_of_put in Hin as [Hin|Hin].
    + exact (Hnames _ _ Hin).
    + injection Hin as -> ->. now split.
Qed.

Lemma sane_delete_file t k d m :
  sane t -> Os.stat k t = Some (Os.File d m) -> sane (Os.delete_key k t).
Proof.
  intros Hs Hfile. rewrite delete_key_filter. apply sane_filter; [exact Hs|].
  intros k' n' Hin _ _. simpl.
  destruct (Os.key_eqb (Os.parent k') k) eqn:E; [|reflexivity].
  apply bool_decide_eq_true in E. exfalso.
  pose proof Hs as (_ & Hwf & Hnames).
  destruct (Hnames _ _ Hin) as [Hne _].
  pose proof (wf_parent _ _ _ Hwf (sane_stat _ _ _ Hs Hin) Hne) as Hp.
  rewrite E, Hfile in Hp. discriminate.
Qed.

Lemma steps_trans ks a b c : steps ks a b -> steps ks b c -> steps ks a c.
Proof.
  intros H1 H2. revert H1.
  induction H2 as [|t t' k d m _ IH Hk Hnd Hp|t t' k d m _ IH Hk Hf]; intros H1.
  - exact H1.
  - exact (steps_put ks a t' k d m (IH H1) Hk Hnd Hp).
  - exact (steps_del ks a t' k d m (IH H1) Hk Hf).
Qed.

Lemma steps_mono ks ks' t t' :
  (forall k, k ∈ ks -> k ∈ ks') -> steps ks t t' -> steps ks' t t'.
Proof.
  intros Hsub H. induction H as [|t t' k d m _ IH Hk Hnd Hp|t t' k d m _ IH Hk Hf].
  - apply steps_refl.
  - exact (steps_put ks' t t' k d m IH (Hsub _ Hk) Hnd Hp).
  - exact (steps_del ks' t t' k d m IH (Hsub _ Hk) Hf).
Qed.

Lemma sane_steps ks t t' :
  (forall k, k ∈ ks -> k <> [] /\ Forall (fun x => proper_name x = true) k) ->
  steps ks t t' -> sane t -> sane t'.
Proof.
  intros Hks H.
  induction H as [|t t' k d m _ IH Hk Hnd Hp|t t' k d m _ IH Hk Hf]; intros Hs.
  - exact Hs.
  - destruct (Hks _ Hk) as [Hne Hproper].
    exact (sane_put_file t' k d m (IH Hs) Hne Hproper Hnd Hp).
  - exact (sane_delete_file _ _ _ _ (IH Hs) Hf).
Qed.

Lemma height_steps ks t t' H :
  (forall k, k ∈ ks -> length k < H) ->
  steps ks t t' ->
  (forall k n, (k, n) ∈ t -> length k < H) ->
  forall k n, (k, n) ∈ t' -> length k < H.
Proof.
  intros Hks Hst.
  induction Hst as [|t t' k d m _ IH Hk Hnd Hp|t t' k d m _ IH Hk Hf];
    intros Ht k0 n0 Hin.
  - exact (Ht _ _ Hin).
  - apply elem_of_put in Hin as [Hin|Hin]; [exact (IH Ht _ _ Hin)|].
    injection Hin as -> _. exact (Hks _ Hk).
  - rewrite delete_key_filter in Hin. apply elem_of_filter_bool in Hin as [Hin _].
    exact (IH Ht _ _ Hin).
Qed.

Lemma steps_tree ks st st' : tree st' = tree st -> steps ks (tree st) (tree st').
Proof. intros ->. apply steps_refl. Qed.

Lemma write_steps ks p data now t t' :
  Os.resolve p ∈ ks -> Os.write p data now t = Ok t' -> steps ks t t'.
Proof.
  unfold Os.write. intros Hin H.
  destruct (Os.stat (Os.resolve p) t) as [[d m|]|] eqn:Hs; try discriminate;
    destruct (Os.stat (Os.parent (Os.resolve p)) t) as [[d' m'|]|] eqn:Hp;
    try discriminate; injection H as <-;
    (apply steps_put; [apply steps_refl|exact Hin|rewrite Hs; discriminate|now left]).
Qed.

Lemma touch_steps ks p now t t' :
  Os.resolve p ∈ ks -> Os.touch p now t = Ok t' -> steps ks t t'.
Proof.
  unfold Os.touch. intros Hin H.
  destruct (Os.stat (Os.resolve p) t) as [[d m|]|] eqn:Hs.
  - injection H as <-.
    apply steps_put; [apply steps_refl|exact Hin|rewrite Hs; discriminate|right; eauto].
  - injection H as <-. apply steps_refl.
  - destruct (Os.stat (Os.parent (Os.resolve p)) t) as [[d' m'|]|] eqn:Hp;
      try discriminate.
    injection H as <-.
    apply steps_put; [apply steps_refl|exact Hin|rewrite Hs; discriminate|now left].
Qed.

Lemma utime_steps ks p m t t' :
  Os.resolve p ∈ ks -> Os.utime p m t = Ok t' -> steps ks t t'.
Proof.
  unfold Os.utime. intros Hin H.
  destruct (Os.stat (Os.resolve p) t) as [[d m0|]|] eqn:Hs; try discriminate.
  - injection H as <-.
    apply steps_put; [apply steps_refl|exact Hin|rewrite Hs; discriminate|right; eauto].
  - injection H as <-. apply steps_refl.
Qed.

Lemma remove_steps ks p t t' :
  Os.resolve p ∈ ks -> Os.remove p t = Ok t' -> steps ks t t'.
Proof.
  unfold Os.remove. intros Hin H.
  destruct (Os.stat (Os.resolve p) t) as [[d m|]|] eqn:Hs; try discriminate.
  injection H as <-. exact (steps_del ks t t _ d m (steps_refl ks t) Hin Hs).
Qed.

Lemma walks_bind {A B} ks (m : M A) (k : A -> M B) :
  walks ks m -> (forall a, walks ks (k a)) -> walks ks (m ≫= k).
Proof.
  intros Hm Hk st. unfold mbind, M_bind. specialize (Hm st).
  destruct (m st) as [a st1|e st1|]; [|exact Hm|exact I].
  specialize (Hk a st1). destruct (k a st1) as [b st2|e st2|]; [| |exact I];
    exact (steps_trans _ _ _ _ Hm Hk).
Qed.

Lemma walks_ret {A} ks (a : A) : walks ks (mret a : M A).
Proof. intros st. apply steps_refl. Qed.

Lemma walks_raise {A} ks e : walks ks (raise e : M A).
Proof. intros st. apply steps_refl. Qed.

Lemma walks_files {A} ks (m : M A) : keeps_files m -> walks ks m.
Proof.
  intros Hm st. specialize (Hm st).
  destruct (m st) as [a st1|e st1|]; [| |exact I]; apply steps_tree; apply Hm.
Qed.

Lemma walks_modify ks f : (forall st, tree (f st) = tree st) -> walks ks (modify f).
Proof. intros Hf st. apply steps_tree, Hf. Qed.

Lemma walks_os_do ks f :
  (forall t t', f t = Ok t' -> steps ks t t') -> walks ks (os_do f).
Proof.
  intros Hf st. unfold os_do. destruct (f (tree st)) as [t'|e] eqn:E.
  - exact (Hf _ _ E).
  - apply steps_refl.
Qed.

Lemma walks_open_write ks dest data : loc_in ks dest -> walks ks (open_write dest data).
Proof.
  intros Hin st. destruct dest as [p|id]; [|now apply steps_tree].
  exact (walks_os_do ks _ (fun t t' => write_steps ks p data (clock st) t t' Hin) st).
Qed.

Lemma walks_touch ks dest : loc_in ks dest -> walks ks (touch dest).
Proof.
  intros Hin st. destruct dest as [p|id]; [|now apply steps_tree].
  exact (walks_os_do ks _ (fun t t' => touch_steps ks p (clock st) t t' Hin) st).
Qed.

Lemma walks_utime ks dest m : loc_in ks dest -> walks ks (utime dest m).
Proof.
  intros Hin st. destruct dest as [p|id].
  - exact (walks_os_do ks _ (fun t t' => utime_steps ks p m t t' Hin) st).
  - unfold utime. destruct (temps st !! id) as [[d m0]|]; now apply steps_tree.
Qed.

Lemma walks_download ks session file dest :
  loc_in ks dest -> walks ks (download session file dest).
Proof.
  intros Hin. unfold download.
  destruct (String.eqb (url file) ""); [now apply walks_modify|].
  destruct (Str.startswith "URL:" (url file)); [now apply walks_open_write|].
  destruct (Str.startswith "SubHeader:" (url file)); [now apply walks_touch|].
  destruct (status_code (session (url file)) =? 200)%Z; [|apply walks_raise].
  apply walks_bind; [now apply walks_open_write|intros _].
  destruct (_time file); [now apply walks_utime|apply walks_raise].
Qed.

Lemma walks_try {A} ks (body : M A) (handler : string -> string -> M A) :
  walks ks body -> (forall text name, walks ks (handler text name)) ->
  walks ks (try_except_ConnectionError body handler).
Proof.
  intros Hb Hh st. unfold try_except_ConnectionError. specialize (Hb st).
  destruct (body st) as [a st1|e st1|]; [exact Hb| |exact I].
  destruct e as [| | | | | |text name]; try exact Hb.
  specialize (Hh text name st1).
  destruct (handler text name st1) as [b st2|e st2|]; [| |exact I];
    exact (steps_trans _ _ _ _ Hb Hh).
Qed.

Lemma walks_remove_tmp ks id : walks ks (remove_tmp id).
Proof.
  intros st. unfold remove_tmp. destruct (temps st !! id); now apply steps_tree.
Qed.

Lemma walks_copy2 ks src dst : Os.resolve dst ∈ ks -> walks ks (copy2 src dst).
Proof.
  intros Hin. unfold copy2.
  apply walks_bind; [apply walks_files, files_stat_loc|intros [d m|]].
  - exact (walks_os_do ks _ (fun t t' => write_steps ks dst d m t t' Hin)).
  - apply walks_raise.
Qed.

Ltac walk_step :=
  first
    [ apply walks_ret
    | apply walks_raise
    | apply walks_modify; reflexivity
    | apply walks_files, files_gets
    | apply walks_files, files_say
    | apply walks_files, files_os_get
    | apply walks_files, files_isfile_insensitive
    | apply walks_files, files_filecmp_cmp
    | apply walks_remove_tmp
    | apply walks_download; simpl; solve [trivial | left | right; left]
    | apply walks_copy2; solve [left | right; left]
    | apply walks_bind; [|intros ?] ].

Section Steps.
Context {L : Str.Lowering}.
Variable session : string -> response.
Variable verbosity : Z.
Variable strftime_local : Z -> string.

Lemma walks_on_error ks text name : walks ks (on_error text name).
Proof. unfold on_error. repeat walk_step. Qed.

Lemma parse_file_walks file st loc :
  folder_dict st !! folder_id file = Some loc ->
  match _parse_file session verbosity strftime_local file st with
  | Done _ st' | Raised _ st' =>
      steps [Os.resolve (file_path_of loc file);
             Os.resolve (collision_path strftime_local loc file)] (tree st) (tree st')
  | OutOfFuel => True
  end.
Proof.
  intros Hl. unfold _parse_file.
  mstep. unfold gets at 1. rewrite Hl.
  mstep. unfold mret at 1, M_ret at 1.
  fold (file_name_of file). fold (file_path_of loc file).
  fold (collision_name strftime_local file).
  fold (collision_path strftime_local loc file).
  set (ks := [Os.resolve (file_path_of loc file);
              Os.resolve (collision_path strftime_local loc file)]).
  lazymatch goal with
  | |- match ?m st with _ => _ end => cut (walks ks m); [intros T; exact (T st)|]
  end.
  clear Hl st.
  apply walks_bind; [walk_step|intros exact].
  apply walks_bind; [destruct exact; walk_step|intros collides].
  destruct collides.
  { apply walks_bind; [walk_step|intros _].
    apply walks_bind; [|intros [|]; walk_step].
    apply walks_try; [|intros; apply walks_on_error].
    repeat walk_step. }
  apply walks_bind; [destruct exact; repeat walk_step|intros stale].
  destruct stale.
  { apply walks_bind; [intros st; now apply steps_tree|intros tf].
    apply walks_bind; [|intros [|]; [|walk_step]].
    - apply walks_try; [|intros; apply walks_on_error]. repeat walk_step.
    - apply walks_bind; [walk_step|intros same].
      apply walks_bind; [|intros _; repeat walk_step].
      destruct same; [walk_step|].
      apply walks_bind; [walk_step|intros _].
      apply walks_bind; [walk_step|intros _].
      apply walks_bind; [|intros _; walk_step].
      exact (walks_os_do ks _ (fun t t' => remove_steps ks (file_path_of loc file) t t'
                                   ltac:(left))). }
  destruct (negb exact && negb (String.eqb (url file) "")).
  - apply walks_bind; [walk_step|intros _].
    apply walks_bind; [|intros [|]; walk_step].
    apply walks_try; [|intros; apply walks_on_error].
    repeat walk_step.
  - repeat walk_step.
Qed.

Lemma own_keys_all f files fd k :
  f ∈ files -> k ∈ own_keys strftime_local fd f ->
  k ∈ all_own_keys strftime_local fd files.
Proof.
  intros Hf Hk. unfold all_own_keys. apply list_elem_of_In, in_concat.
  exists (own_keys strftime_local fd f). split; [|now apply list_elem_of_In].
  apply in_map, list_elem_of_In, Hf.
Qed.

Lemma files_loop_walks files :
  forall st,
    match for_each files (_parse_file session verbosity strftime_local) st with
    | Done _ st' | Raised _ st' =>
        steps (all_own_keys strftime_local (folder_dict st) files) (tree st) (tree st')
    | OutOfFuel => True
    end.
Proof.
  induction files as [|f files IH]; intros st; simpl; [apply steps_refl|].
  unfold mbind, M_bind.
  assert (Hf : match _parse_file session verbosity strftime_local f st with
               | Done _ st1 | Raised _ st1 =>
                   steps (all_own_keys strftime_local (folder_dict st) (f :: files))
                     (tree st) (tree st1)
               | OutOfFuel => True
               end).
  { destruct (folder_dict st !! folder_id f) as [loc|] eqn:Hl.
    - pose proof (parse_file_walks f st loc Hl) as Hw.
      destruct (_parse_file session verbosity strftime_local f st) as [[] st1|e st1|];
        [| |exact I];
        (eapply steps_mono; [|exact Hw]; intros k Hk;
         apply (own_keys_all f); [left|unfold own_keys; now rewrite Hl]).
    - rewrite (parse_file_no_folder session verbosity strftime_local f st Hl).
      apply steps_refl. }
  destruct (_parse_file session verbosity strftime_local f st) as [[] st1|e st1|] eqn:Hrun;
    [|exact Hf|exact I].
  pose proof (parse_file_folder_dict _ _ _ _ _ _ Hrun) as Hfd.
  specialize (IH st1). rewrite Hfd in IH.
  assert (Hsub : forall k, k ∈ all_own_keys strftime_local (folder_dict st) files ->
                           k ∈ all_own_keys strftime_local (folder_dict st) (f :: files)).
  { intros k Hk. unfold all_own_keys in *. simpl. apply elem_of_app. now right. }
  destruct (for_each files _ st1) as [[] st2|e st2|]; [| |exact I];
    exact (steps_trans _ _ _ _ Hf (steps_mono _ _ _ _ Hsub IH)).
Qed.

(** The keys of an entry that is ready are new names in a directory of the
    tree. *)
Lemma ready_own_keys st f k :
  sane (tree st) ->
  ready strftime_local st f ->
  k ∈ own_keys strftime_local (folder_dict st) f ->
  exists d x,
    k = d ++ [x] /\ proper_name x = true /\ Os.stat d (tree st) = Some Os.Dir
    /\ Forall (fun y => proper_name y = true) d
    /\ (d = [] \/ (d, Os.Dir) ∈ tree st).
Proof.
  intros Hs (loc & Hl & Hdir & Hn & Hcn & _) Hk. unfold own_keys in Hk. rewrite Hl in Hk.
  apply isdir_stat in Hdir.
  assert (Hd : Forall (fun y => proper_name y = true) (Os.resolve loc)
               /\ (Os.resolve loc = [] \/ (Os.resolve loc, Os.Dir) ∈ tree st)).
  { destruct (Os.resolve loc) as [|a r] eqn:E; [split; [constructor|now left]|].
    rewrite <- E in *.
    assert (Hin : (Os.resolve loc, Os.Dir) ∈ tree st)
      by (apply stat_elem; [rewrite E; discriminate|exact Hdir]).
    split; [|now right]. destruct Hs as (_ & _ & Hnames). now destruct (Hnames _ _ Hin). }
  destruct Hd as [Hproper Hin].
  apply elem_of_cons in Hk as [->|Hk]; [|apply list_elem_of_singleton in Hk as ->].
  - exists (Os.resolve loc), (file_name_of f).
    split; [now apply resolve_join|]. repeat split; assumption.
  - exists (Os.resolve loc), (collision_name strftime_local f).
    split; [now apply resolve_join|]. repeat split; assumption.
Qed.

(** X20. The loop over the files and the pruning pass compose: from a tree
    as a file system holds it, with every entry ready and fuel for one level
    more than the tree has, the loop runs to its end and leaves such a tree
    again, so that [onto_local] returns after it, leaving what its tests
    accept with the records the loop has made. *)
Theorem files_loop_then_pruning_returns course_dir fuel files st :
  sane (tree st) ->
  (forall f, f ∈ files -> ready strftime_local st f) ->
  1 < fuel ->
  (forall k n, (k, n) ∈ tree st -> length k + 1 < fuel) ->
  exists st1 st2,
    for_each files (_parse_file session verbosity strftime_local) st = Done tt st1
    /\ sane (tree st1)
    /\ onto_local verbosity course_dir fuel st1 = Done tt st2
    /\ same_course st1 st2
    /\ tree st2
       = List.filter (keep_at (file_set st1) (folder_dict st1) course_dir) (tree st1).
Proof.
  intros Hs Hready Hfuel Hheight.
  destruct (files_loop_returns session verbosity strftime_local files st Hready)
    as (st1 & Hrun & _ & _ & Hfd).
  pose proof (files_loop_walks files st) as Hw. rewrite Hrun in Hw.
  assert (Hkeys : forall k,
             k ∈ all_own_keys strftime_local (folder_dict st) files ->
             (k <> [] /\ Forall (fun x => proper_name x = true) k) /\ length k < fuel).
  { intros k Hk. unfold all_own_keys in Hk.
    apply list_elem_of_In, in_concat in Hk as (ks & Hks & Hk).
    apply in_map_iff in Hks as (f & <- & Hf). apply list_elem_of_In in Hf, Hk.
    destruct (ready_own_keys st f k Hs (Hready f Hf) Hk)
      as (d & x & -> & Hx & _ & Hd & Hin).
    split; [split|].
    - now destruct d.
    - apply Forall_app. split; [exact Hd|now constructor].
    - rewrite length_app. simpl. destruct Hin as [->|Hin]; [simpl; lia|].
      exact (Hheight _ _ Hin). }
  assert (Hs1 : sane (tree st1)).
  { apply (sane_steps _ _ _ (fun k Hk => proj1 (Hkeys k Hk)) Hw Hs). }
  assert (Hh1 : forall k n, (k, n) ∈ tree st1 ->
                            length k < length (Os.resolve course_dir) + fuel).
  { intros k n Hin.
    pose proof (height_steps _ _ _ fuel (fun k Hk => proj2 (Hkeys k Hk)) Hw
                  (fun k n Hin => ltac:(specialize (Hheight k n Hin); lia)) k n Hin).
    lia. }
  destruct (walk_run verbosity (file_set st1) (folder_dict st1) fuel course_dir st1
              Hs1 eq_refl eq_refl ltac:(lia) Hh1) as (st2 & Hrun2 & Hsame & Htree).
  exists st1, st2. split; [exact Hrun|]. split; [exact Hs1|].
  split; [exact Hrun2|]. split; [exact Hsame|exact Htree].
Qed.

End Steps.

Section StepsOnAscii.
#[local] Existing Instance ascii_names.

Lemma files_loop_then_pruning_returns_witness :
  exists st1 st2,
    for_each [doc_file; missing_file; unavailable_file]
      (_parse_file one_doc_session 1 plain_strftime) course_state = Done tt st1
    /\ onto_local 1 "course" 4 st1 = Done tt st2
    /\ sane (tree st1).
Proof.
  destruct (files_loop_then_pruning_returns one_doc_session 1 plain_strftime "course" 4
              [doc_file; missing_file; unavailable_file] course_state)
    as (st1 & st2 & Hrun & Hs & Hprune & _).
  - apply sane_check_sound. vm_compute. reflexivity.
  - intros f Hf. exists "course"%string.
    repeat (apply elem_of_cons in Hf as [->|Hf]);
      [repeat split; vm_compute; reflexivity..|].
    inversion Hf.
  - lia.
  - intros k n Hin. apply list_elem_of_singleton in Hin. injection Hin as -> _.
    simpl. lia.
  - exists st1, st2. split; [exact Hrun|]. split; [exact Hprune|exact Hs].
Defined.
End StepsOnAscii.

(** ** A new file, from the catalogue to the end of the run *)

Lemma resolve_join_empty c : Os.resolve (OsPath.join c "") = Os.resolve c.
Proof.
  unfold OsPath.join. change (Str.startswith "/" "") with false. cbv iota.
  destruct (String.eqb c "" || Str.endswith_char OsPath.sep c) eqn:E.
  - now rewrite append_nil_r.
  - rewrite append_nil_r. apply orb_false_elim in E as [Hc _].
    apply String.eqb_neq in Hc.
    unfold Os.resolve, OsPath.norm_comps.
    rewrite startswith_sep_app by exact Hc.
    change (c +:+ "/") with (c +:+ String OsPath.sep "").
    rewrite split_char_app_sep.
    destruct (norm_loop_app (Str.startswith "/" c) (Str.split_char OsPath.sep c) [])
      as (acc' & Hacc & Happ).
    rewrite Happ, Hacc. reflexivity.
Qed.

(** The directory [_parse_folder] records for the folder of relative name
    [ds] is the one the names [ds] lead to from the course directory. *)
Lemma resolve_recorded c ds :
  Forall (fun x => proper_name x = true) ds ->
  Os.resolve (OsPath.join c (OsPath.join_comps ds)) = Os.resolve c ++ ds.
Proof.
  intros Hds. destruct ds as [|d ds].
  - simpl OsPath.join_comps. rewrite resolve_join_empty. now rewrite app_nil_r.
  - rewrite <- (path_of_join_comps (d :: ds) c Hds) by discriminate.
    now apply resolve_path_of.
Qed.

Section EndToEnd.
Context {L : Str.Lowering}.
Variable session : string -> response.
Variable verbosity : Z.
Variable strftime_local : Z -> string.

(** X22. A file that is new is fetched and then left alone by the pruning
    pass: for an entry of the folder of relative name [ds], recorded as
    [_parse_folder] records it together with the folders above it, with no
    file at its path, no name there equal to its name up to case and its
    content served with status 200, [_parse_file] followed by [onto_local]
    returns, and the file is in the tree at the end with the fetched bytes
    and the remote modification time. *)
Theorem new_file_is_fetched_and_survives_pruning course_dir fuel file st ds :
  let loc := OsPath.join course_dir (OsPath.join_comps ds) in
  sane (tree st) ->
  Forall (fun x => proper_name x = true) ds ->
  folder_dict st !! folder_id file = Some loc ->
  (forall ds1 y ds2,
      ds = ds1 ++ y :: ds2 ->
      exists id, folder_dict st !! id
                 = Some (OsPath.join course_dir (OsPath.join_comps (ds1 ++ [y])))) ->
  Os.stat (Os.resolve course_dir ++ ds) (tree st) = Some Os.Dir ->
  proper_name (file_name_of file) = true ->
  Os.stat (Os.resolve course_dir ++ ds ++ [file_name_of file]) (tree st) = None ->
  isfile_insensitive (file_path_of loc file) st = Done false st ->
  network_url (url file) = true ->
  status_code (session (url file)) = 200%Z ->
  1 < fuel ->
  (forall k n, (k, n) ∈ tree st -> length k + 1 < fuel) ->
  exists st1 st2,
    _parse_file session verbosity strftime_local file st = Done tt st1
    /\ onto_local verbosity course_dir fuel st1 = Done tt st2
    /\ (Os.resolve course_dir ++ ds ++ [file_name_of file],
        Os.File (content (session (url file))) (timestamp (modified_at file)))
       ∈ tree st2
    /\ counters st2 = (skipped st, updated st, (downloaded st + 1)%Z, errors st).
Proof.
  intros loc Hs Hds Hl Hdirs Hdir Hname Hnone Hi Hu Hstatus Hfuel Hheight.
  set (p := file_path_of loc file).
  set (x := file_name_of file) in *.
  set (k := Os.resolve course_dir ++ ds ++ [x]) in *.
  assert (Hloc : Os.resolve loc = Os.resolve course_dir ++ ds)
    by (apply resolve_recorded; exact Hds).
  assert (Hkey : Os.resolve p = k).
  { unfold p, file_path_of. fold x. rewrite (resolve_join loc x Hname), Hloc.
    unfold k. now rewrite app_assoc. }
  assert (Hk : k <> []) by (unfold k; destruct (Os.resolve course_dir), ds; discriminate).
  assert (Hparent : Os.parent k = Os.resolve course_dir ++ ds)
    by (unfold k; apply parent_app).
  assert (He : Os.isfile p (tree st) = false)
    by (unfold Os.isfile; now rewrite Hkey, Hnone).
  assert (Hne : url file <> ""%string).
  { intros E. rewrite E in Hu. discriminate. }
  rewrite (parse_file_new session verbosity strftime_local file st loc Hl He Hi Hne).
  fold p. fold x. set (st0 := said _ _ _ st).
  assert (Hw : writable p (tree st0)).
  { subst st0. rewrite tree_said. split; rewrite Hkey.
    - rewrite Hnone. discriminate.
    - now rewrite Hparent. }
  pose proof (download_network_path session (timed file) p st0 (modified_at file)
                Hu Hstatus eq_refl Hw) as Hd.
  mstep. rewrite (try_done _ (modify incr_downloaded) _ _ _ Hd eq_refl).
  set (c := content (session (url (timed file)))).
  set (ts := timestamp (modified_at file)).
  set (st1 := file_set_add p
                (incr_downloaded
                   (set_tree (Os.put (Os.resolve p) (Os.File c ts) (tree st0)) st0))).
  assert (Htree1 : tree st1 = Os.put k (Os.File c ts) (tree st)).
  { subst st1 st0. simpl. now rewrite tree_said, Hkey. }
  assert (Hfs1 : p ∈ file_set st1) by (subst st1; simpl; set_solver).
  assert (Hfd1 : folder_dict st1 = folder_dict st).
  { subst st1 st0. simpl. unfold said. now destruct (1 <=? verbosity)%Z. }
  assert (Hc1 : counters st1 = (skipped st, updated st, (downloaded st + 1)%Z, errors st)).
  { subst st1 st0. unfold counters, said. now destruct (1 <=? verbosity)%Z. }
  assert (Hproper : Forall (fun y => proper_name y = true) k).
  { unfold k. rewrite app_assoc. apply Forall_app. split; [|now constructor].
    destruct (Os.resolve course_dir ++ ds) as [|a r] eqn:E; [constructor|].
    rewrite <- E in *.
    assert (Hin : (Os.resolve course_dir ++ ds, Os.Dir) ∈ tree st)
      by (apply stat_elem; [rewrite E; discriminate|exact Hdir]).
    destruct Hs as (_ & _ & Hnames). now destruct (Hnames _ _ Hin). }
  assert (Hlen : length k < fuel).
  { unfold k. rewrite app_assoc, length_app. simpl.
    destruct (Os.resolve course_dir ++ ds) as [|a r] eqn:E; [simpl; lia|].
    rewrite <- E in *.
    assert (Hin : (Os.resolve course_dir ++ ds, Os.Dir) ∈ tree st)
      by (apply stat_elem; [rewrite E; discriminate|exact Hdir]).
    exact (Hheight _ _ Hin). }
  assert (Hs1 : sane (tree st1)).
  { rewrite Htree1. apply sane_put_file; try assumption.
    - rewrite Hnone. discriminate.
    - left. now rewrite Hparent. }
  assert (Hh1 : forall k' n, (k', n) ∈ tree st1 ->
                             length k' < length (Os.resolve course_dir) + fuel).
  { intros k' n Hin. rewrite Htree1 in Hin. apply elem_of_put in Hin as [Hin|Hin].
    - specialize (Hheight _ _ Hin). lia.
    - injection Hin as -> _. lia. }
  assert (Hend : exists st2,
             onto_local verbosity course_dir fuel st1 = Done tt st2
             /\ (k, Os.File c ts) ∈ tree st2
             /\ counters st2
                = (skipped st, updated st, (downloaded st + 1)%Z, errors st));
    [|destruct Hend as (st2 & H2 & H3 & H4); exists st1, st2;
      split; [reflexivity|]; split; [exact H2|]; split; [exact H3|exact H4]].
  clearbody st1. clear Hd Hw. clearbody st0.
  destruct (walk_run verbosity (file_set st1) (folder_dict st1) fuel course_dir st1
              Hs1 eq_refl eq_refl ltac:(lia) Hh1) as (st2 & Hrun2 & Hsame & Htree2).
  exists st2. split; [exact Hrun2|]. split.
  - rewrite Htree2. apply elem_of_filter_bool. split.
    + rewrite Htree1. apply stat_elem; [exact Hk|]. now apply stat_put_eq.
    + unfold keep_at. simpl. unfold k. rewrite strip_prefix_app.
      apply kept_intro.
      * intros ds1 y ds2 ->. unfold dir_stays. apply orb_true_iff. right.
        apply bool_decide_eq_true. rewrite Hfd1.
        destruct (Hdirs ds1 y ds2 eq_refl) as [id Hid].
        apply elem_of_map_img. exists id. rewrite Hid. f_equal.
        rewrite <- path_of_app. symmetry. apply path_of_join_comps.
        -- apply Forall_app in Hds as [H1 H2]. inversion H2; subst.
           apply Forall_app. split; [exact H1|]. now constructor.
        -- now destruct ds1.
      * unfold file_stays. apply bool_decide_eq_true.
        replace (OsPath.join (path_of course_dir ds) x) with p; [exact Hfs1|].
        unfold p, file_path_of, loc. fold x. destruct ds as [|d0 ds0].
        -- simpl path_of. simpl OsPath.join_comps. now apply join_empty.
        -- now rewrite (path_of_join_comps (d0 :: ds0) course_dir Hds) by discriminate.
  - destruct Hsame as (Hc & _). now rewrite Hc, Hc1.
Qed.

End EndToEnd.

Section EndOnAscii.
#[local] Existing Instance ascii_names.

Lemma new_file_is_fetched_and_survives_pruning_witness :
  exists st1 st2,
    _parse_file one_doc_session 1 plain_strftime doc_file prune_state = Done tt st1
    /\ onto_local 1 "course" 5 st1 = Done tt st2
    /\ (["course"; "a.txt"]%string, Os.File "new bytes" 10000000) ∈ tree st2.
Proof.
  destruct (new_file_is_fetched_and_survives_pruning one_doc_session 1 plain_strftime
              "course" 5 doc_file prune_state [])
    as (st1 & st2 & Hrun & Hprune & Hin & _).
  - apply sane_check_sound. vm_compute. reflexivity.
  - constructor.
  - reflexivity.
  - intros ds1 y ds2 E. now destruct ds1.
  - reflexivity.
  - reflexivity.
  - reflexivity.
  - vm_compute. reflexivity.
  - reflexivity.
  - reflexivity.
  - lia.
  - intros k n Hin.
    assert (Hall : Forall (fun e : Os.key * Os.node => length e.1 + 1 < 5)
                     (tree prune_state)).
    { simpl. repeat constructor; simpl; lia. }
    rewrite Forall_forall in Hall. exact (Hall _ Hin).
  - exists st1, st2. split; [exact Hrun|]. split; [exact Hprune|exact Hin].
Defined.
End EndOnAscii.

(** ** Verbosity *)

Lemma alike_refl st : alike st st.
Proof. unfold alike. repeat split. Qed.

Ltac alike_solve :=
  unfold alike in *; simpl in *;
  repeat match goal with H : _ /\ _ |- _ => destruct H end;
  repeat split; congruence.

Lemma sim_bind {A B} (m m' : M A) (k k' : A -> M B) :
  sim m m' -> (forall a, sim (k a) (k' a)) -> sim (m ≫= k) (m' ≫= k').
Proof.
  intros Hm Hk st st' Hst. unfold mbind, M_bind. specialize (Hm st st' Hst).
  destruct (m st) as [a s1|e s1|], (m' st') as [a' s1'|e' s1'|]; simpl in Hm;
    try contradiction; try exact Hm.
  destruct Hm as [<- Hs1]. exact (Hk a s1 s1' Hs1).
Qed.

Lemma sim_ret {A} (a : A) : sim (mret a : M A) (mret a).
Proof. intros st st' Hst. now split. Qed.

Lemma sim_raise {A} e : sim (raise e : M A) (raise e).
Proof. intros st st' Hst. now split. Qed.

Lemma sim_gets {A} (f : state -> A) :
  (forall st st', alike st st' -> f st = f st') -> sim (gets f) (gets f).
Proof. intros Hf st st' Hst. split; [now apply Hf|exact Hst]. Qed.

Lemma sim_modify f :
  (forall st st', alike st st' -> alike (f st) (f st')) -> sim (modify f) (modify f).
Proof. intros Hf st st' Hst. split; [reflexivity|now apply Hf]. Qed.

Lemma sim_print m : sim (modify (print m)) (modify (print m)).
Proof. apply sim_modify. intros st st' H. alike_solve. Qed.

Lemma sim_say v v' l m : sim (say v l m) (say v' l m).
Proof.
  intros st st' Hst. unfold say.
  destruct (l <=? v)%Z, (l <=? v')%Z; (split; [reflexivity|alike_solve]).
Qed.

Lemma sim_os_get {A} (f : Os.tree -> result A) : sim (os_get f) (os_get f).
Proof.
  intros st st' Hst. unfold os_get.
  replace (tree st') with (tree st) by apply Hst.
  destruct (f (tree st)); now split.
Qed.

Lemma sim_os_do f : sim (os_do f) (os_do f).
Proof.
  intros st st' Hst. unfold os_do.
  replace (tree st') with (tree st) by apply Hst.
  destruct (f (tree st)); (split; [reflexivity|alike_solve]).
Qed.

Lemma sim_stat_loc l : sim (stat_loc l) (stat_loc l).
Proof.
  intros st st' Hst. unfold stat_loc. destruct l as [p|id].
  - replace (tree st') with (tree st) by apply Hst.
    destruct (Os.stat (Os.resolve p) (tree st)); now split.
  - replace (temps st') with (temps st) by apply Hst.
    destruct (temps st !! id) as [[d m]|]; now split.
Qed.

Lemma sim_open_write dest data : sim (open_write dest data) (open_write dest data).
Proof.
  intros st st' Hst. unfold open_write. destruct dest as [p|id].
  - replace (clock st') with (clock st) by apply Hst. now apply sim_os_do.
  - split; [reflexivity|alike_solve].
Qed.

Lemma sim_touch dest : sim (touch dest) (touch dest).
Proof.
  intros st st' Hst. unfold touch. destruct dest as [p|id].
  - replace (clock st') with (clock st) by apply Hst. now apply sim_os_do.
  - replace (temps st') with (temps st) by apply Hst.
    split; [reflexivity|alike_solve].
Qed.

Lemma sim_utime dest m : sim (utime dest m) (utime dest m).
Proof.
  intros st st' Hst. unfold utime. destruct dest as [p|id].
  - now apply sim_os_do.
  - replace (temps st') with (temps st) by apply Hst.
    destruct (temps st !! id) as [[d m0]|]; (split; [reflexivity|alike_solve]).
Qed.

Lemma sim_NamedTemporaryFile : sim NamedTemporaryFile NamedTemporaryFile.
Proof.
  intros st st' Hst. unfold NamedTemporaryFile. split; [apply Hst|alike_solve].
Qed.

Lemma sim_remove_tmp id : sim (remove_tmp id) (remove_tmp id).
Proof.
  intros st st' Hst. unfold remove_tmp.
  replace (temps st') with (temps st) by apply Hst.
  destruct (temps st !! id); (split; [reflexivity|alike_solve]).
Qed.

Lemma sim_filecmp_cmp f1 f2 : sim (filecmp_cmp f1 f2) (filecmp_cmp f1 f2).
Proof.
  unfold filecmp_cmp.
  apply sim_bind; [apply sim_stat_loc|intros n1].
  apply sim_bind; [apply sim_stat_loc|intros n2].
  destruct n1 as [d1 m1|], n2 as [d2 m2|]; try apply sim_ret.
  destruct ((String.length d1 =? String.length d2)%nat && (m1 =? m2)%Z); [apply sim_ret|].
  destruct (negb (String.length d1 =? String.length d2)%nat); apply sim_ret.
Qed.

Lemma sim_copy2 src dst : sim (copy2 src dst) (copy2 src dst).
Proof.
  unfold copy2. apply sim_bind; [apply sim_stat_loc|intros [d m|]].
  - apply sim_os_do.
  - apply sim_raise.
Qed.

Lemma sim_getfile_insensitive {L : Str.Lowering} path :
  sim (getfile_insensitive path) (getfile_insensitive path).
Proof.
  unfold getfile_insensitive. destruct (OsPath.split path) as [directory filename].
  apply sim_bind; [apply sim_os_get|intros names; apply sim_ret].
Qed.

Lemma sim_isfile_insensitive {L : Str.Lowering} path :
  sim (isfile_insensitive path) (isfile_insensitive path).
Proof.
  unfold isfile_insensitive.
  apply sim_bind; [apply sim_getfile_insensitive|intros r; apply sim_ret].
Qed.

Lemma sim_download session file dest :
  sim (download session file dest) (download session file dest).
Proof.
  unfold download.
  destruct (String.eqb (url file) ""); [apply sim_print|].
  destruct (Str.startswith "URL:" (url file)); [apply sim_open_write|].
  destruct (Str.startswith "SubHeader:" (url file)); [apply sim_touch|].
  destruct (status_code (session (url file)) =? 200)%Z; [|apply sim_raise].
  apply sim_bind; [apply sim_open_write|intros _].
  destruct (_time file); [apply sim_utime|apply sim_raise].
Qed.

Lemma sim_try {A} (body body' : M A) (handler handler' : string -> string -> M A) :
  sim body body' -> (forall text name, sim (handler text name) (handler' text name)) ->
  sim (try_except_ConnectionError body handler)
      (try_except_ConnectionError body' handler').
Proof.
  intros Hb Hh st st' Hst. unfold try_except_ConnectionError. specialize (Hb st st' Hst).
  destruct (body st) as [a s1|e s1|], (body' st') as [a' s1'|e' s1'|]; simpl in Hb;
    try contradiction; try exact Hb.
  destruct Hb as [<- Hs1].
  destruct e as [| | | | | |text name]; try (now split).
  exact (Hh text name s1 s1' Hs1).
Qed.

Lemma sim_for_each {A} (xs : list A) (body body' : A -> M unit) :
  (forall x, sim (body x) (body' x)) -> sim (for_each xs body) (for_each xs body').
Proof.
  intros Hb. induction xs as [|x xs IH]; simpl; [apply sim_ret|].
  apply sim_bind; [apply Hb|intros _; exact IH].
Qed.

Lemma sim_incr f :
  (f = incr_skipped \/ f = incr_updated \/ f = incr_downloaded \/ f = incr_errors) ->
  sim (modify f) (modify f).
Proof.
  intros Hf. apply sim_modify. intros st st' H.
  destruct Hf as [-> | [-> | [-> | ->]]]; alike_solve.
Qed.

Lemma sim_file_set_add p : sim (modify (file_set_add p)) (modify (file_set_add p)).
Proof. apply sim_modify. intros st st' H. alike_solve. Qed.

Lemma sim_on_error text name : sim (on_error text name) (on_error text name).
Proof.
  unfold on_error.
  apply sim_bind; [apply sim_print|intros _].
  apply sim_bind; [apply sim_incr; auto|intros _; apply sim_ret].
Qed.

Ltac sim_step :=
  first
    [ apply sim_ret
    | apply sim_raise
    | apply sim_print
    | apply sim_say
    | apply sim_file_set_add
    | solve [apply sim_incr; auto]
    | apply sim_os_get
    | apply sim_os_do
    | apply sim_isfile_insensitive
    | apply sim_filecmp_cmp
    | apply sim_NamedTemporaryFile
    | apply sim_remove_tmp
    | apply sim_download
    | apply sim_copy2
    | apply sim_try; [|intros; apply sim_on_error]
    | apply sim_gets; intros ? ? ?; alike_solve
    | apply sim_bind; [|intros ?] ].

Section Quiet.
Context {L : Str.Lowering}.
Variable session : string -> response.
Variable strftime_local : Z -> string.
Variable course_dir : string.
Variables v v' : Z.

Lemma sim_parse_file file :
  sim (_parse_file session v strftime_local file)
      (_parse_file session v' strftime_local file).
Proof.
  unfold _parse_file.
  apply sim_bind; [sim_step|intros fd].
  apply sim_bind; [destruct (fd !! folder_id file); sim_step|intros loc].
  apply sim_bind; [sim_step|intros exact].
  apply sim_bind; [destruct exact; sim_step|intros collides].
  destruct collides.
  { apply sim_bind; [sim_step|intros _].
    apply sim_bind; [|intros [|]; sim_step].
    repeat sim_step. }
  apply sim_bind; [destruct exact; repeat sim_step|intros stale].
  destruct stale.
  { apply sim_bind; [sim_step|intros tf].
    apply sim_bind; [repeat sim_step|intros [|]; [|sim_step]].
    apply sim_bind; [sim_step|intros same].
    apply sim_bind; [destruct same; repeat sim_step|intros _; repeat sim_step]. }
  destruct (negb exact && negb (String.eqb (url file) "")).
  - apply sim_bind; [sim_step|intros _].
    apply sim_bind; [|intros [|]; sim_step].
    repeat sim_step.
  - repeat sim_step.
Qed.

Lemma sim_parse_folder folder :
  sim (_parse_folder v course_dir folder) (_parse_folder v' course_dir folder).
Proof.
  unfold _parse_folder.
  apply sim_bind; [apply sim_modify; intros st st' H; alike_solve|intros _].
  apply sim_bind; [sim_step|intros [|]]; repeat sim_step.
Qed.

Lemma sim_prune_file root filename :
  sim (prune_file v root filename) (prune_file v' root filename).
Proof.
  unfold prune_file. apply sim_bind; [sim_step|intros fs].
  destruct (bool_decide (OsPath.join root filename ∈ fs)); repeat sim_step.
Qed.

Lemma sim_prune_dir root dirname :
  sim (prune_dir v root dirname) (prune_dir v' root dirname).
Proof.
  unfold prune_dir. destruct (String.eqb dirname ".old"); [sim_step|].
  apply sim_bind; [sim_step|intros fd].
  destruct (bool_decide (OsPath.join root dirname ∈ (map_img fd : gset string)));
    repeat sim_step.
Qed.

Lemma sim_onto_local_body root dirnames filenames :
  sim (onto_local_body v root dirnames filenames)
      (onto_local_body v' root dirnames filenames).
Proof.
  unfold onto_local_body. apply sim_bind; [sim_step|intros there].
  destruct (in_old root || negb there); [sim_step|].
  apply sim_bind; [apply sim_for_each, sim_prune_file|intros _].
  apply sim_for_each, sim_prune_dir.
Qed.

Lemma sim_walk fuel :
  forall top, sim (walk fuel top (onto_local_body v)) (walk fuel top (onto_local_body v')).
Proof.
  induction fuel as [|fuel IH]; intros top st st' Hst; simpl; [exact I|].
  replace (tree st') with (tree st) by apply Hst.
  destruct (Os.scandir top (tree st)) as [entries|e]; [|now split].
  revert st st' Hst. apply sim_bind; [apply sim_onto_local_body|intros _].
  apply sim_for_each. intros dirname. apply IH.
Qed.

(** X24. The verbosity decides what is printed and nothing else: run at
    two levels of verbosity from states that agree on everything but the
    output, the loop over the folders, the loop over the files and the
    pruning pass end in the same way (they return, or raise the same
    exception) in states that agree again on the tree, the scratch files,
    the records and the counters. *)
Theorem verbosity_changes_only_what_is_printed st st' :
  alike st st' ->
  (forall folders,
      alike_outcome (for_each folders (_parse_folder v course_dir) st)
                    (for_each folders (_parse_folder v' course_dir) st'))
  /\ (forall files,
         alike_outcome (for_each files (_parse_file session v strftime_local) st)
                       (for_each files (_parse_file session v' strftime_local) st'))
  /\ (forall fuel,
         alike_outcome (onto_local v course_dir fuel st)
                       (onto_local v' course_dir fuel st')).
Proof.
  intros Hst. split; [|split].
  - intros folders. exact (sim_for_each folders _ _ sim_parse_folder st st' Hst).
  - intros files. exact (sim_for_each files _ _ sim_parse_file st st' Hst).
  - intros fuel. exact (sim_walk fuel course_dir st st' Hst).
Qed.

End Quiet.

Section QuietOnAscii.
#[local] Existing Instance ascii_names.

Lemma verbosity_changes_only_what_is_printed_witness :
  alike_outcome
    (for_each [doc_file; missing_file] (_parse_file one_doc_session 0 plain_strftime)
       stale_state)
    (for_each [doc_file; missing_file] (_parse_file one_doc_session 2 plain_strftime)
       stale_state).
Proof.
  apply (proj1 (proj2 (verbosity_changes_only_what_is_printed one_doc_session
                         plain_strftime "course" 0 2 stale_state stale_state
                         (alike_refl stale_state)))).
Defined.
End QuietOnAscii.

(** ** Entries that are not fetched *)

Section RefutedOnAscii.
#[local] Existing Instance ascii_names.



End RefutedOnAscii.

(** ** Directories made by [os.makedirs] *)

Lemma sane_put_dir t k :
  sane t ->
  k <> [] ->
  Forall (fun x => proper_name x = true) k ->
  Os.stat k t = None ->
  Os.stat (Os.parent k) t = Some Os.Dir ->
  sane (Os.put k Os.Dir t).
Proof.
  intros Hs Hk Hproper Hnone Hp.
  pose proof Hs as (Hnodup & Hwf & Hnames).
  split; [now apply NoDup_put|]. split.
  - intros k' n' Hk'.
    destruct (decide (k = k')) as [<-|Hne].
    + rewrite stat_put_ne by (apply not_eq_sym, parent_neq; exact Hk). exact Hp.
    + rewrite lookup_put_ne in Hk' by exact Hne.
      pose proof (Hwf _ _ Hk') as Hp'.
      rewrite stat_put_ne; [exact Hp'|].
      intros E. rewrite <- E in Hp'. rewrite Hnone in Hp'. discriminate.
  - intros k' n' Hin. apply elem_of_put in Hin as [Hin|Hin].
    + exact (Hnames _ _ Hin).
    + injection Hin as -> ->. now split.
Qed.

Lemma parent_snoc (p : Os.key) a : Os.parent (p ++ [a]) = p.
Proof. unfold Os.parent. apply removelast_last. Qed.

Lemma prefixes_app p k :
  map (app p) (Os.prefixes k)
  = match k with
    | [] => []
    | a :: k' => (p ++ [a]) :: map (app (p ++ [a])) (Os.prefixes k')
    end.
Proof.
  destruct k as [|a k']; [reflexivity|]. simpl. f_equal.
  rewrite map_map. apply map_ext. intros x. now rewrite <- app_assoc.
Qed.

(** The directories [os.makedirs] makes below a directory that is there
    leave a tree as a file system holds it, and lie no deeper than the path
    that was asked for. *)
Lemma mkdirs_sane k :
  forall p t t',
    sane t ->
    Forall (fun x => proper_name x = true) (p ++ k) ->
    Os.stat p t = Some Os.Dir ->
    Os.mkdirs (map (app p) (Os.prefixes k)) t = Ok t' ->
    sane t'
    /\ forall k' n, (k', n) ∈ t' -> (k', n) ∈ t \/ length k' <= length (p ++ k).
Proof.
  induction k as [|a k IH]; intros p t t' Hs Hproper Hp Hrun.
  - simpl in Hrun. injection Hrun as <-. split; [exact Hs|]. intros k' n Hin. now left.
  - rewrite prefixes_app in Hrun. simpl in Hrun.
    assert (Hproper' : Forall (fun x => proper_name x = true) ((p ++ [a]) ++ k)).
    { now rewrite <- app_assoc. }
    assert (Hlen : length ((p ++ [a]) ++ k) = length (p ++ a :: k)).
    { now rewrite <- app_assoc. }
    assert (Hne : p ++ [a] <> []) by (now destruct p).
    destruct (Os.stat (p ++ [a]) t) as [[d m|]|] eqn:H0; try discriminate.
    + destruct (IH (p ++ [a]) t t' Hs Hproper' H0 Hrun) as [Hs' Hin].
      split; [exact Hs'|]. intros k' n Hk'. rewrite <- Hlen. now apply Hin.
    + assert (Hs1 : sane (Os.put (p ++ [a]) Os.Dir t)).
      { apply sane_put_dir; try assumption.
        - apply Forall_app in Hproper' as [H _]. exact H.
        - now rewrite parent_snoc. }
      destruct (IH (p ++ [a]) _ t' Hs1 Hproper' (stat_put_eq _ _ _ Hne) Hrun) as [Hs' Hin].
      split; [exact Hs'|]. intros k' n Hk'.
      destruct (Hin k' n Hk') as [H|H]; [|right; now rewrite <- Hlen].
      apply elem_of_put in H as [H|H]; [now left|].
      injection H as -> ->. right. rewrite !length_app. simpl. lia.
Qed.

Lemma makedirs_sane path t t' :
  sane t ->
  Forall (fun x => proper_name x = true) (Os.resolve path) ->
  Os.makedirs path t = Ok t' ->
  sane t'
  /\ (forall k n, (k, n) ∈ t' -> (k, n) ∈ t \/ length k <= length (Os.resolve path))
  /\ (forall k n, Os.stat k t = Some n -> Os.stat k t' = Some n)
  /\ Os.isdir path t' = true.
Proof.
  intros Hs Hproper. unfold Os.makedirs.
  destruct (Os.stat (Os.resolve path) t) as [n|] eqn:Hn; [discriminate|].
  intros Hrun.
  assert (Hne : Os.resolve path <> []) by (intros E; now rewrite E in Hn).
  destruct (mkdirs_inv _ _ _ Hrun) as (Hkeep & Hmade & _).
  assert (Hrun' : Os.mkdirs (map (app []) (Os.prefixes (Os.resolve path))) t = Ok t').
  { rewrite (map_ext _ (fun x => x)) by reflexivity. now rewrite map_id. }
  destruct (mkdirs_sane _ [] t t' Hs Hproper eq_refl Hrun') as [Hs' Hin].
  split; [exact Hs'|]. split; [exact Hin|]. split; [exact Hkeep|].
  unfold Os.isdir. now rewrite (Hmade _ (prefixes_self _ Hne)).
Qed.

Lemma prefixes_elem (K k : Os.key) :
  k ∈ Os.prefixes K -> k <> [] /\ exists r, K = k ++ r.
Proof.
  revert k. induction K as [|a K IH]; intros k Hk; simpl in Hk; [inversion Hk|].
  apply elem_of_cons in Hk as [-> | Hk].
  - split; [discriminate|]. now exists K.
  - apply list_elem_of_In, in_map_iff in Hk as (k' & <- & Hk').
    apply list_elem_of_In in Hk'.
    destruct (IH _ Hk') as [_ [r ->]]. split; [discriminate|]. now exists r.
Qed.

(** No regular file lies on the way to a directory. *)
Lemma no_file_on_way t K k d m :
  sane t -> Os.stat K t = Some Os.Dir -> k ∈ Os.prefixes K ->
  Os.stat k t <> Some (Os.File d m).
Proof.
  intros Hs HK Hk Hf. destruct (prefixes_elem _ _ Hk) as [Hne [r ->]].
  destruct r as [|x r].
  - rewrite app_nil_r in HK. congruence.
  - destruct (exists_last Hne) as (d0 & y & ->).
    assert (Hin : (d0 ++ [y], Os.Dir) ∈ t).
    { apply (sane_ancestor t d0 y (x :: r) Os.Dir Hs); [|discriminate].
      rewrite <- app_assoc in HK. simpl in HK.
      apply stat_elem; [now destruct d0|exact HK]. }
    pose proof (sane_stat _ _ _ Hs Hin). congruence.
Qed.

Lemma recorded_from_elem course_dir folders :
  forall fd id loc,
    recorded_from course_dir fd folders !! id = Some loc ->
    fd !! id = Some loc \/ exists fo, fo ∈ folders /\ loc = folder_dir course_dir fo.
Proof.
  induction folders as [|fo folders IH]; intros fd id loc H; [now left|].
  change (recorded_from course_dir
            (<[folder_ident fo := folder_dir course_dir fo]> fd) folders !! id = Some loc)
    in H.
  destruct (IH _ _ _ H) as [H1|(fo' & Hfo' & ->)].
  - destruct (decide (folder_ident fo = id)) as [<-|Hne].
    + rewrite lookup_insert_eq in H1. injection H1 as <-.
      right. exists fo. split; [left|reflexivity].
    + rewrite lookup_insert_ne in H1 by exact Hne. now left.
  - right. exists fo'. split; [now right|reflexivity].
Qed.

(** The tests of the pruning pass accept a file whose path is recorded and
    whose directories are recorded all the way. *)
Lemma recorded_way_kept course_dir fs fd loc ds x d m :
  on_recorded_way course_dir fd loc ds ->
  proper_name x = true ->
  OsPath.join loc x ∈ fs ->
  keep_at fs fd course_dir (Os.resolve course_dir ++ ds ++ [x], Os.File d m) = true.
Proof.
  intros (Hds & -> & Hway) Hx Hfile.
  unfold keep_at. simpl. rewrite strip_prefix_app.
  apply kept_intro.
  - intros ds1 y ds2 ->. unfold dir_stays. apply orb_true_iff. right.
    apply bool_decide_eq_true.
    rewrite <- path_of_app.
    rewrite (path_of_join_comps (ds1 ++ [y]) course_dir).
    + exact (Hway ds1 y ds2 eq_refl).
    + apply Forall_app in Hds as [H1 H2]. inversion H2; subst.
      apply Forall_app. split; [exact H1|]. now constructor.
    + now destruct ds1.
  - unfold file_stays. apply bool_decide_eq_true.
    destruct ds as [|d0 ds0].
    + simpl path_of. simpl OsPath.join_comps in Hfile.
      now rewrite (join_empty course_dir x Hx) in Hfile.
    + now rewrite (path_of_join_comps (d0 :: ds0) course_dir Hds) by discriminate.
Qed.

(** *** Names that no directory lists *)

(** [os.path.join(s, x)] for a name without a separator: the loop of
    [normpath] meets [x] after the components of [s]. *)
Lemma resolve_join_loop s x :
  Str.contains_char OsPath.sep x = false ->
  exists i acc,
    Os.resolve s = rev acc
    /\ Os.resolve (OsPath.join s x) = OsPath.norm_loop i [x] acc.
Proof.
  intros Hsep.
  assert (Hstart : Str.startswith "/" x = false).
  { destruct x as [|a x]; [reflexivity|].
    change (Str.contains_char OsPath.sep (String a x))
      with (Ascii.eqb a "/" || Str.contains_char "/" x) in Hsep.
    apply orb_false_iff in Hsep as [H _].
    change (Str.startswith "/" (String a x)) with (Ascii.eqb "/" a && true).
    now rewrite Ascii.eqb_sym, H. }
  unfold Os.resolve, OsPath.norm_comps, OsPath.join. rewrite Hstart.
  destruct (String.eqb_spec s "") as [->|Hs]; simpl orb.
  - cbv iota. rewrite app_nil, Hstart. rewrite (split_char_nosep _ _ Hsep).
    exists false, []. split; reflexivity.
  - destruct (Str.endswith_char OsPath.sep s) eqn:He.
    + cbv iota. rewrite startswith_sep_app by exact Hs.
      set (flag := Str.startswith "/" s).
      destruct (endswith_char_app _ _ He) as [s' ->].
      rewrite append_assoc, app_cons, app_nil.
      rewrite !split_char_app_sep. rewrite (split_char_nosep _ _ Hsep).
      change (Str.split_char OsPath.sep "") with [""%string].
      destruct (norm_loop_app flag (Str.split_char OsPath.sep s') [])
        as (acc' & Hacc & Happ).
      rewrite !Happ. rewrite norm_loop_empty. exists flag, acc'. split; reflexivity.
    + cbv iota. rewrite startswith_sep_app by exact Hs.
      change (s +:+ "/" +:+ x) with (s +:+ String OsPath.sep x).
      rewrite split_char_app_sep, (split_char_nosep _ _ Hsep).
      destruct (norm_loop_app (Str.startswith "/" s) (Str.split_char OsPath.sep s) [])
        as (acc' & Hacc & Happ).
      rewrite Happ. exists (Str.startswith "/" s), acc'. split; [exact Hacc|reflexivity].
Qed.

(** A name without a separator that no directory lists (the empty name,
    ['.'] or ['..']) joined to a path names the directory of the path or
    the directory above it. *)
Lemma resolve_join_improper s x :
  Str.contains_char OsPath.sep x = false ->
  proper_name x = false ->
  Forall (fun y => proper_name y = true) (Os.resolve s) ->
  Os.resolve s <> [] ->
  Os.resolve (OsPath.join s x) = Os.resolve s
  \/ Os.resolve (OsPath.join s x) = Os.parent (Os.resolve s).
Proof.
  intros Hsep Hx Hproper Hne.
  destruct (resolve_join_loop s x Hsep) as (i & acc & Hacc & ->).
  rewrite Hacc in *.
  unfold proper_name in Hx. rewrite Hsep in Hx. simpl in Hx.
  destruct (String.eqb_spec x "") as [->|H1]; [now left|].
  destruct (String.eqb_spec x ".") as [->|H2]; [now left|].
  destruct (String.eqb_spec x "..") as [->|H3]; [|discriminate].
  right. simpl.
  destruct acc as [|a acc]; [contradiction|].
  assert (Ha : proper_name a = true).
  { rewrite Forall_forall in Hproper. apply Hproper. simpl.
    apply elem_of_app. right. apply list_elem_of_singleton. reflexivity. }
  assert (Hdots : String.eqb a ".." = false).
  { destruct (String.eqb_spec a "..") as [->|]; [discriminate|reflexivity]. }
  rewrite Hdots. rewrite andb_false_r. simpl.
  unfold Os.parent. now rewrite removelast_last.
Qed.

Lemma improper_name_is_dir t s x :
  sane t ->
  Forall (fun y => proper_name y = true) (Os.resolve s) ->
  Os.resolve s <> [] ->
  Os.stat (Os.resolve s) t = Some Os.Dir ->
  Str.contains_char OsPath.sep x = false ->
  proper_name x = false ->
  Os.stat (Os.resolve (OsPath.join s x)) t = Some Os.Dir.
Proof.
  intros Hs Hproper Hne Hdir Hsep Hx.
  destruct (resolve_join_improper s x Hsep Hx Hproper Hne) as [-> | ->]; [exact Hdir|].
  destruct Hs as (_ & Hwf & _).
  destruct (Os.resolve s) as [|a k] eqn:E; [contradiction|].
  apply (Hwf (a :: k) Os.Dir). exact Hdir.
Qed.

(** ** The stages of a run of one course *)

Lemma bind_Done_inv {A B} (m : M A) (k : A -> M B) st b st' :
  (m ≫= k) st = Done b st' -> exists a st1, m st = Done a st1 /\ k a st1 = Done b st'.
Proof.
  unfold mbind, M_bind. destruct (m st) as [a st1|e st1|]; try discriminate.
  intros H. now exists a, st1.
Qed.

Section Stages.
Context {L : Str.Lowering}.
Variable session : string -> response.
Variable verbosity : Z.
Variable strftime_local : Z -> string.
Variable course_dir : string.

Abbreviation proper := (Forall (fun x => proper_name x = true)).

(** The directory is made when it is not there: the common end of
    [Course.__init__] and [_parse_folder]. *)
Lemma ensure_dir_inv m dir st st' :
  (isdir ← gets (fun st => Os.isdir dir (tree st));
   if isdir : bool then mret tt
   else say verbosity 1 m;; os_do (Os.makedirs dir)) st = Done tt st' ->
  counters st' = counters st
  /\ file_set st' = file_set st
  /\ folder_dict st' = folder_dict st
  /\ Os.isdir dir (tree st') = true
  /\ (forall k n, Os.stat k (tree st) = Some n -> Os.stat k (tree st') = Some n)
  /\ (Os.isdir dir (tree st) = true -> tree st' = tree st)
  /\ (sane (tree st) -> proper (Os.resolve dir) ->
      sane (tree st')
      /\ forall k n, (k, n) ∈ tree st' ->
                     (k, n) ∈ tree st \/ length k <= length (Os.resolve dir)).
Proof.
  mstep. unfold gets at 1.
  destruct (Os.isdir dir (tree st)) eqn:Hd.
  - intros H. injection H as <-.
    do 6 (split; [auto|]). intros Hs Hp. split; [exact Hs|]. intros k n Hk. now left.
  - mstep. rewrite say_run. unfold os_do. rewrite tree_said.
    destruct (Os.makedirs dir (tree st)) as [t'|e] eqn:Hrun; [|discriminate].
    intros H. injection H as <-. simpl.
    pose proof (counters_said verbosity 1 m st) as Hc.
    split; [exact Hc|].
    split; [apply file_set_said|].
    split; [unfold said; now destruct (1 <=? verbosity)%Z|].
    assert (Hinv : Os.isdir dir t' = true
                   /\ forall k n, Os.stat k (tree st) = Some n -> Os.stat k t' = Some n).
    { revert Hrun. unfold Os.makedirs.
      destruct (Os.stat (Os.resolve dir) (tree st)) as [n|] eqn:Hn; [discriminate|].
      intros Hrun.
      assert (Hne : Os.resolve dir <> []) by (intros E; now rewrite E in Hn).
      destruct (mkdirs_inv _ _ _ Hrun) as (Hkeep & Hmade & _).
      split; [|exact Hkeep].
      unfold Os.isdir. now rewrite (Hmade _ (prefixes_self _ Hne)). }
    destruct Hinv as [Hdir Hkeep].
    split; [exact Hdir|]. split; [exact Hkeep|]. split; [discriminate|].
    intros Hs Hp.
    destruct (makedirs_sane dir (tree st) t' Hs Hp Hrun) as (Hs' & Hin & _).
    now split.
Qed.

Lemma init_inv course_status course_name st st' :
  __init__ verbosity course_dir course_status course_name st = Done tt st' ->
  is_error_status course_status = false
  /\ counters st' = (0, 0, 0, 0)%Z
  /\ file_set st' = ∅
  /\ folder_dict st' = ∅
  /\ Os.isdir course_dir (tree st') = true
  /\ (forall k n, Os.stat k (tree st) = Some n -> Os.stat k (tree st') = Some n)
  /\ (Os.isdir course_dir (tree st) = true -> tree st' = tree st)
  /\ (sane (tree st) -> proper (Os.resolve course_dir) ->
      sane (tree st')
      /\ forall k n, (k, n) ∈ tree st' ->
                     (k, n) ∈ tree st \/ length k <= length (Os.resolve course_dir)).
Proof.
  unfold __init__. intros H.
  apply bind_Done_inv in H as ([] & s1 & H1 & H).
  apply bind_Done_inv in H as ([] & s2 & H2 & H).
  apply bind_Done_inv in H as ([] & s3 & H3 & H).
  assert (Herr : is_error_status course_status = false /\ s1 = st).
  { revert H1. unfold raise_for_status, is_error_status.
    destruct ((400 <=? course_status)%Z && (course_status <? 600)%Z); [discriminate|].
    intros E. now injection E as <-. }
  destruct Herr as [Herr ->].
  injection H2 as <-.
  rewrite say_run in H3. injection H3 as <-.
  apply ensure_dir_inv in H as (Hc & Hfs & Hfd & Hdir & Hkeep & Hsame & Hsane).
  rewrite tree_said in Hkeep, Hsame, Hsane. simpl in Hkeep, Hsame, Hsane.
  split; [exact Herr|].
  split; [rewrite Hc, counters_said; reflexivity|].
  split; [rewrite Hfs, file_set_said; reflexivity|].
  split; [rewrite Hfd; unfold said; now destruct (1 <=? verbosity)%Z|].
  do 3 (split; [assumption|]). exact Hsane.
Qed.

(** [Course.__init__] for a course whose directory is there. *)
Lemma init_again course_status course_name st :
  is_error_status course_status = false ->
  Os.isdir course_dir (tree st) = true ->
  exists st',
    __init__ verbosity course_dir course_status course_name st = Done tt st'
    /\ tree st' = tree st
    /\ counters st' = (0, 0, 0, 0)%Z
    /\ file_set st' = ∅
    /\ folder_dict st' = ∅.
Proof.
  intros Herr Hdir. unfold __init__.
  mstep. rewrite (raise_for_status_ok _ _ Herr).
  mstep. unfold modify at 1. mstep. rewrite say_run.
  mstep. unfold gets at 1. rewrite tree_said.
  change (tree (new_course st)) with (tree st). rewrite Hdir.
  eexists. split; [reflexivity|].
  split; [rewrite tree_said; reflexivity|].
  split; [rewrite counters_said; reflexivity|].
  split; [rewrite file_set_said; reflexivity|].
  unfold said; now destruct (1 <=? verbosity)%Z.
Qed.

Lemma parse_folder_stage fo st st' :
  _parse_folder verbosity course_dir fo st = Done tt st' ->
  counters st' = counters st
  /\ file_set st' = file_set st
  /\ folder_dict st' = <[folder_ident fo := folder_dir course_dir fo]> (folder_dict st)
  /\ Os.isdir (folder_dir course_dir fo) (tree st') = true
  /\ (forall k n, Os.stat k (tree st) = Some n -> Os.stat k (tree st') = Some n)
  /\ (Os.isdir (folder_dir course_dir fo) (tree st) = true -> tree st' = tree st)
  /\ (sane (tree st) -> proper (Os.resolve (folder_dir course_dir fo)) ->
      sane (tree st')
      /\ forall k n, (k, n) ∈ tree st' ->
                     (k, n) ∈ tree st
                     \/ length k <= length (Os.resolve (folder_dir course_dir fo))).
Proof.
  unfold _parse_folder. fold (folder_dir course_dir fo). intros H.
  apply bind_Done_inv in H as ([] & s1 & H1 & H).
  injection H1 as <-.
  apply ensure_dir_inv in H as (Hc & Hfs & Hfd & Hdir & Hkeep & Hsame & Hsane).
  do 6 (split; [assumption|]). exact Hsane.
Qed.

(** The loop over the folders. *)
Lemma folder_pass_stage folders :
  forall st st',
    for_each folders (_parse_folder verbosity course_dir) st = Done tt st' ->
    counters st' = counters st
    /\ file_set st' = file_set st
    /\ folder_dict st' = recorded_from course_dir (folder_dict st) folders
    /\ (forall k n, Os.stat k (tree st) = Some n -> Os.stat k (tree st') = Some n)
    /\ (forall fo, fo ∈ folders -> Os.isdir (folder_dir course_dir fo) (tree st') = true)
    /\ ((forall fo, fo ∈ folders ->
                    Os.isdir (folder_dir course_dir fo) (tree st) = true) ->
        tree st' = tree st)
    /\ (sane (tree st) ->
        forall H,
          (forall fo, fo ∈ folders ->
                      proper (Os.resolve (folder_dir course_dir fo))
                      /\ length (Os.resolve (folder_dir course_dir fo)) < H) ->
          (forall k n, (k, n) ∈ tree st -> length k < H) ->
          sane (tree st') /\ forall k n, (k, n) ∈ tree st' -> length k < H).
Proof.
  induction folders as [|fo folders IH]; intros st st' Hrun; simpl in Hrun.
  - injection Hrun as <-. do 4 (split; [auto|]).
    split; [intros fo Hfo; inversion Hfo|]. split; [auto|]. intros Hs H _ Hh. now split.
  - apply bind_Done_inv in Hrun as ([] & s1 & H1 & Hrun).
    apply parse_folder_stage in H1 as (Hc1 & Hfs1 & Hfd1 & Hdir1 & Hkeep1 & Hsame1 & Hsane1).
    destruct (IH _ _ Hrun) as (Hc & Hfs & Hfd & Hkeep & Hdirs & Hsame & Hsane).
    split; [congruence|]. split; [congruence|].
    split; [rewrite Hfd, Hfd1; reflexivity|].
    split; [intros k n Hk; now apply Hkeep, Hkeep1|].
    split.
    { intros fo' Hfo'. apply elem_of_cons in Hfo' as [-> | Hfo']; [|now apply Hdirs].
      apply isdir_iff. apply Hkeep. now apply isdir_iff. }
    split.
    + intros Hall.
      assert (E1 : tree s1 = tree st) by (apply Hsame1, Hall; left).
      rewrite <- E1. apply Hsame. intros fo' Hfo'. rewrite E1. apply Hall. now right.
    + intros Hs H Hfolders Hheight.
      destruct (Hfolders fo ltac:(left)) as [Hp Hl].
      destruct (Hsane1 Hs Hp) as [Hs1 Hin1].
      apply (Hsane Hs1 H).
      * intros fo' Hfo'. apply Hfolders. now right.
      * intros k n Hk. destruct (Hin1 k n Hk) as [Hk'|Hk']; [now apply (Hheight k n)|lia].
Qed.

Abbreviation parse := (_parse_file session verbosity strftime_local).

Lemma write_side path data now t t' :
  Os.write path data now t = Ok t' ->
  Os.stat (Os.resolve path) t <> Some Os.Dir
  /\ Os.stat (Os.parent (Os.resolve path)) t = Some Os.Dir.
Proof.
  unfold Os.write. intros H.
  destruct (Os.stat (Os.resolve path) t) as [[d m|]|] eqn:Hs;
    destruct (Os.stat (Os.parent (Os.resolve path)) t) as [[d' m'|]|];
    try discriminate; now split.
Qed.

(** The download of a new file: where it is written, and what is recorded. *)
Lemma fetch_to_path_written file q (st0 st' : state) :
  network_url (url file) = true ->
  status_code (session (url file)) = 200%Z ->
  (ok ← try_except_ConnectionError
          (download session (timed file) (Path q);; modify incr_downloaded;; mret true)
          on_error;
   if ok : bool then modify (file_set_add q) else mret tt) st0 = Done tt st' ->
  file_set st' = {[q]} ∪ file_set st0
  /\ Os.stat (Os.resolve q) (tree st0) <> Some Os.Dir
  /\ Os.stat (Os.parent (Os.resolve q)) (tree st0) = Some Os.Dir.
Proof.
  intros Hu Hs. mstep. rewrite try_cases.
  destruct (download session (timed file) (Path q) st0) as [[] st2|e st2|] eqn:Hd;
    [| |discriminate].
  - pose proof (keeps_download session (timed file) (Path q) st0) as K. rewrite Hd in K.
    destruct K as (_ & Kfs & _).
    assert (Hside : Os.stat (Os.resolve q) (tree st0) <> Some Os.Dir
                    /\ Os.stat (Os.parent (Os.resolve q)) (tree st0) = Some Os.Dir).
    { revert Hd. unfold network_url in Hu.
      apply andb_prop in Hu as [Hu H3]. apply andb_prop in Hu as [H1 H2].
      apply negb_true_iff in H1, H2, H3.
      unfold download. unfold timed. cbn [url set_time]. rewrite H1, H2, H3, Hs.
      cbn [Z.eqb Pos.eqb]. mstep.
      unfold open_write at 1, os_do at 1.
      destruct (Os.write q (content (session (url file))) (clock st0) (tree st0))
        as [t1|e] eqn:Hw; [|discriminate].
      intros _. exact (write_side _ _ _ _ _ Hw). }
    cbn. intros H. injection H as <-. simpl. rewrite Kfs. now split.
  - destruct e as [| | | | | |text name]; try discriminate.
    now destruct (download_200_not_conn session (timed file) (Path q) st0 text name st2 Hu Hs).
Qed.

Lemma elem_of_delete_key k t e : e ∈ Os.delete_key k t -> e ∈ t.
Proof. unfold Os.delete_key. intros H. now apply list_elem_of_filter in H as [_ H]. Qed.

(** An entry that is fetched and meets no case collision: its path is
    recorded, and the tree stays one that a file system holds, with no new
    entry but the file of the entry. *)
Lemma parse_file_clean_stage file st st' loc :
  folder_dict st !! folder_id file = Some loc ->
  network_url (url file) = true ->
  status_code (session (url file)) = 200%Z ->
  no_collision loc file st ->
  parse file st = Done tt st' ->
  file_set st' = {[file_path_of loc file]} ∪ file_set st
  /\ Os.stat (Os.resolve (file_path_of loc file)) (tree st) <> Some Os.Dir
  /\ (sane (tree st) -> proper (Os.resolve (file_path_of loc file)) ->
      sane (tree st')
      /\ forall k n, (k, n) ∈ tree st' ->
                     (k, n) ∈ tree st \/ k = Os.resolve (file_path_of loc file)).
Proof.
  intros Hl Hu Hs Hnc Hrun.
  assert (Hnonempty : url file <> ""%string).
  { intros E. rewrite E in Hu. discriminate. }
  set (p := file_path_of loc file) in *.
  destruct (parse_file_cases session verbosity strftime_local file st st' loc Hl Hrun)
    as [_ Hsets].
  destruct (parse_file_fetched_cases session verbosity strftime_local file st st' loc
              Hl Hu Hs Hrun) as [_ Hcases]. fold p in Hcases, Hsets.
  destruct Hcases as [(d & m & Hstat & Hcase)|[(He & Hi & _)|(He & Hi & Ht & Hk & Hc)]].
  - assert (Hfs : file_set st' = {[p]} ∪ file_set st).
    { destruct Hsets as [[_ H]|[[Hc' _]|(Hc' & _)]]; [exact H| |];
        exfalso; destruct Hcase as [(_ & _ & Hc)|(_ & _ & _ & Hc)];
        rewrite Hc in Hc'; injection Hc'; lia. }
    split; [exact Hfs|]. split; [congruence|]. intros Hsane Hp.
    destruct Hcase as [(_ & Ht & _)|(_ & _ & Ht & _)]; rewrite Ht.
    + split; [exact Hsane|]. intros k n Hk. now left.
    + assert (Hne : Os.resolve p <> []) by exact (stat_file_nonroot _ _ _ _ Hstat).
      split.
      * apply sane_put_file; try assumption.
        -- exact (sane_delete_file _ _ _ _ Hsane Hstat).
        -- destruct (Os.resolve p) eqn:E; [easy|]. simpl.
           now rewrite lookup_delete_key_eq.
        -- left. rewrite stat_delete_key_ne by (apply not_eq_sym, parent_neq; exact Hne).
           destruct Hsane as (_ & Hwf & _). exact (wf_parent _ _ _ Hwf Hstat Hne).
      * intros k n Hk. apply elem_of_put in Hk as [Hk|Hk].
        -- left. exact (elem_of_delete_key _ _ _ Hk).
        -- right. now injection Hk.
  - exfalso. destruct Hnc as [Hnc|Hnc]; [fold p in Hnc; congruence|].
    fold p in Hnc. rewrite Hi in Hnc. discriminate.
  - rewrite (parse_file_new session verbosity strftime_local file st loc Hl He Hi Hnonempty)
      in Hrun.
    apply (fetch_to_path_written file _ _ _ Hu Hs) in Hrun as (Hfs & Hnd & Hpar).
    rewrite tree_said in Hnd, Hpar. rewrite file_set_said in Hfs.
    split; [exact Hfs|]. split; [exact Hnd|]. intros Hsane Hp. rewrite Ht. split.
    + apply sane_put_file; try assumption. now left.
    + intros k n Hin. apply elem_of_put in Hin as [Hin|Hin]; [now left|].
      right. now injection Hin.
Qed.

(** The loop over the files does not start on an entry whose folder has no
    record without raising. *)
Lemma files_loop_lookup files :
  forall st st',
    for_each files parse st = Done tt st' ->
    forall f, f ∈ files -> is_Some (folder_dict st !! folder_id f).
Proof.
  induction files as [|f0 files IH]; intros st st' Hrun f Hf; [inversion Hf|].
  simpl in Hrun. apply bind_Done_inv in Hrun as ([] & s1 & H1 & Hrun).
  apply elem_of_cons in Hf as [-> | Hf].
  - destruct (folder_dict st !! folder_id f0) eqn:E; [now eexists|].
    rewrite (parse_file_no_folder session verbosity strftime_local f0 st E) in H1.
    discriminate.
  - rewrite <- (parse_file_folder_dict session verbosity strftime_local f0 st s1 H1).
    exact (IH _ _ Hrun f Hf).
Qed.

(** The loop over the files, for entries that are fetched and meet no case
    collision: every path is recorded, every name is one a directory can
    list (the download into a directory would have raised), and the tree
    stays one that a file system holds. *)
Lemma files_pass_stage H files :
  forall st st',
    (forall f, f ∈ files ->
               network_url (url f) = true
               /\ status_code (session (url f)) = 200%Z
               /\ forall loc, folder_dict st !! folder_id f = Some loc ->
                              proper (Os.resolve loc)
                              /\ Os.resolve loc <> []
                              /\ length (Os.resolve loc) + 1 < H
                              /\ Os.isdir loc (tree st) = true) ->
    clean_run session verbosity strftime_local files st ->
    sane (tree st) ->
    (forall k n, (k, n) ∈ tree st -> length k < H) ->
    for_each files parse st = Done tt st' ->
    (forall f loc, f ∈ files -> folder_dict st !! folder_id f = Some loc ->
                   file_path_of loc f ∈ file_set st'
                   /\ proper_name (file_name_of f) = true)
    /\ (forall p, p ∈ file_set st -> p ∈ file_set st')
    /\ sane (tree st')
    /\ (forall k n, (k, n) ∈ tree st' -> length k < H).
Proof.
  induction files as [|f0 files IH]; intros st st' Hall Hclean Hs Hh Hrun.
  - simpl in Hrun. injection Hrun as <-. split; [|auto].
    intros f loc Hf. inversion Hf.
  - simpl in Hrun. apply bind_Done_inv in Hrun as ([] & s1 & H1 & Hrun).
    destruct Hclean as [Hnc Hclean].
    pose proof (parse_file_folder_dict session verbosity strftime_local f0 st s1 H1) as Hfd1.
    pose proof (parse_file_keeps_dirs session verbosity strftime_local f0 st) as Hdirs1.
    rewrite H1 in Hdirs1.
    destruct (Hall f0 ltac:(left)) as (Hu0 & Hs0 & Hloc0).
    assert (Hl0 : is_Some (folder_dict st !! folder_id f0)).
    { destruct (folder_dict st !! folder_id f0) eqn:E; [now eexists|].
      rewrite (parse_file_no_folder session verbosity strftime_local f0 st E) in H1.
      discriminate. }
    destruct Hl0 as [loc0 Hl0].
    destruct (Hloc0 _ Hl0) as (Hp0 & Hne0 & Hlen0 & Hdir0).
    destruct (parse_file_clean_stage f0 st s1 loc0 Hl0 Hu0 Hs0 (Hnc _ Hl0) H1)
      as (Hfs1 & Hnd1 & Hsane1).
    assert (Hname0 : proper_name (file_name_of f0) = true).
    { destruct (proper_name (file_name_of f0)) eqn:E; [reflexivity|exfalso].
      apply Hnd1. unfold file_path_of.
      apply improper_name_is_dir; try assumption.
      - now apply isdir_iff.
      - unfold file_name_of. apply replace_char_free. discriminate. }
    assert (Hk0 : Os.resolve (file_path_of loc0 f0) = Os.resolve loc0 ++ [file_name_of f0]).
    { unfold file_path_of. now apply resolve_join. }
    destruct (Hsane1 Hs) as [Hs1 Hin1].
    { rewrite Hk0. apply Forall_app. split; [exact Hp0|]. now constructor. }
    assert (Hh1 : forall k n, (k, n) ∈ tree s1 -> length k < H).
    { intros k n Hk. destruct (Hin1 k n Hk) as [Hk' | ->]; [now apply (Hh k n)|].
      rewrite Hk0, length_app. simpl. lia. }
    destruct (IH s1 st') as (Hpaths & Hmono & Hs' & Hh'); try assumption.
    { intros f Hf. destruct (Hall f ltac:(now right)) as (Hu & Hst & Hloc).
      split; [exact Hu|]. split; [exact Hst|].
      intros loc Hl. rewrite Hfd1 in Hl. destruct (Hloc _ Hl) as (Hp & Hne & Hlen & Hdir).
      do 3 (split; [assumption|]). apply isdir_iff, Hdirs1. now apply isdir_iff. }
    { exact (Hclean _ H1). }
    split; [|split; [|split; assumption]].
    + intros f loc Hf Hl. apply elem_of_cons in Hf as [-> | Hf].
      * rewrite Hl0 in Hl. injection Hl as <-. split; [|exact Hname0].
        apply Hmono. rewrite Hfs1. apply elem_of_union_l, elem_of_singleton. reflexivity.
      * apply Hpaths; [exact Hf|]. now rewrite Hfd1.
    + intros p Hp. apply Hmono. rewrite Hfs1. now apply elem_of_union_r.
Qed.

Lemma ensure_dir_only_dirs m dir st st' :
  (isdir ← gets (fun st => Os.isdir dir (tree st));
   if isdir : bool then mret tt
   else say verbosity 1 m;; os_do (Os.makedirs dir)) st = Done tt st' ->
  forall k n, Os.stat k (tree st') = Some n -> Os.stat k (tree st) = Some n \/ n = Os.Dir.
Proof.
  mstep. unfold gets at 1.
  destruct (Os.isdir dir (tree st)) eqn:Hd.
  - intros H. injection H as <-. intros k n Hk. now left.
  - mstep. rewrite say_run. unfold os_do. rewrite tree_said.
    unfold Os.makedirs.
    destruct (Os.stat (Os.resolve dir) (tree st)) as [n0|] eqn:Hn; [discriminate|].
    destruct (Os.mkdirs (Os.prefixes (Os.resolve dir)) (tree st)) as [t'|e] eqn:Hrun;
      [|discriminate].
    intros H. injection H as <-. simpl. intros k n Hk.
    destruct (mkdirs_inv _ _ _ Hrun) as (_ & _ & Honly).
    destruct (Honly k n Hk) as [H|[H _]]; [now left|now right].
Qed.

Lemma ensure_dir_returns m dir st :
  (forall k, k ∈ Os.prefixes (Os.resolve dir) ->
             forall d m, Os.stat k (tree st) <> Some (Os.File d m)) ->
  exists st',
    (isdir ← gets (fun st => Os.isdir dir (tree st));
     if isdir : bool then mret tt
     else say verbosity 1 m;; os_do (Os.makedirs dir)) st = Done tt st'.
Proof.
  intros Hfree. mstep. unfold gets at 1.
  destruct (Os.isdir dir (tree st)) eqn:Hd; [now eexists|].
  mstep. rewrite say_run. unfold os_do. rewrite tree_said.
  unfold Os.makedirs.
  destruct (Os.stat (Os.resolve dir) (tree st)) as [[d0 m0|]|] eqn:Hn.
  - exfalso. apply (Hfree (Os.resolve dir)) with d0 m0; [|exact Hn].
    apply prefixes_self. intros E. rewrite E in Hn. discriminate.
  - unfold Os.isdir in Hd. now rewrite Hn in Hd.
  - destruct (mkdirs_ok _ (tree st) Hfree) as [t' Hrun]. rewrite Hrun. now eexists.
Qed.

(** The loop over the folders returns when no regular file lies where a
    directory has to be. *)
Lemma folder_pass_returns folders :
  forall st,
    (forall fo, fo ∈ folders ->
                forall k, k ∈ Os.prefixes (Os.resolve (folder_dir course_dir fo)) ->
                          forall d m, Os.stat k (tree st) <> Some (Os.File d m)) ->
    exists st', for_each folders (_parse_folder verbosity course_dir) st = Done tt st'.
Proof.
  induction folders as [|fo folders IH]; intros st Hfree; [now eexists|].
  assert (H1 : exists s1, _parse_folder verbosity course_dir fo st = Done tt s1
                          /\ forall k n, Os.stat k (tree s1) = Some n ->
                                         Os.stat k (tree st) = Some n \/ n = Os.Dir).
  { unfold _parse_folder. fold (folder_dir course_dir fo).
    mstep. unfold modify at 1.
    destruct (ensure_dir_returns (Creating (folder_dir course_dir fo))
                (folder_dir course_dir fo)
                (set_folder (folder_ident fo) (folder_dir course_dir fo) st))
      as [s1 Hs1]; [exact (Hfree fo ltac:(left))|].
    exists s1. split; [exact Hs1|].
    exact (ensure_dir_only_dirs _ _ _ _ Hs1). }
  destruct H1 as (s1 & Hrun1 & Honly).
  destruct (IH s1) as [st' Hrest].
  { intros fo' Hfo' k Hk d m Hstat.
    destruct (Honly _ _ Hstat) as [H|H]; [|discriminate].
    exact (Hfree fo' ltac:(now right) k Hk d m H). }
  exists st'. simpl. now rewrite (bind_Done _ _ _ _ _ Hrun1).
Qed.

Lemma files_loop_keeps_dirs files :
  forall st st', for_each files parse st = Done tt st' -> same_dirs st st'.
Proof.
  induction files as [|f files IH]; intros st st' Hrun; simpl in Hrun.
  - injection Hrun as <-. apply same_dirs_refl.
  - apply bind_Done_inv in Hrun as ([] & s1 & H1 & Hrun).
    pose proof (parse_file_keeps_dirs session verbosity strftime_local f st) as Hd.
    rewrite H1 in Hd. exact (same_dirs_trans _ _ _ Hd (IH _ _ Hrun)).
Qed.

End Stages.

(** ** A second run of the whole course *)

Section Whole.
Context {L : Str.Lowering}.
Variable session : string -> response.
Variable verbosity : Z.
Variable strftime_local : Z -> string.
Variable course_dir base_url course_id : string.
Variable get_folders : string -> page folder.
Variable get_files : string -> page file.
Variable get_modules : string -> page module.
Variable get_items : string -> page moduleitem.
Variable get_file : string -> Z * file.
Variable strftime_utc : Z -> string.
Variable course_status : Z.
Variable course_name : string.

Abbreviation run_course :=
  (main_course session verbosity strftime_local course_dir base_url course_id
     get_folders get_files get_modules get_items get_file strftime_utc FILES
     course_status course_name).

Lemma folder_dict_said v l m st : folder_dict (said v l m st) = folder_dict st.
Proof. unfold said. now destruct (l <=? v)%Z. Qed.


End Whole.

(** ** Courses run twice *)

Section TwiceOnAscii.
#[local] Existing Instance ascii_names.



End TwiceOnAscii.
